(* ===== verification/_CoqProject ===== *)
-Q . S2P
Prelude.v
Text.v
Net.v
Config.v
RateTracker.v
ScoreTracker.v
IpBlocks.v
Checks.v
Robots.v
Sites.v
EventLogs.v
Csv.v
RequestLog.v
Interleave.v
Session.v
Bits.v
Codec.v
Totp.v
Passwords.v
Users.v
Tokens.v
BlacklistOps.v
Cbor.v
Json.v
Webauthn.v
UrlFetch.v
ConfigStore.v
Files.v
Numeric.v
JsonView.v
AdminBase.v
AdminAuth.v
AdminLogin.v
AdminConfig.v
Admin.v
AdminSteps.v
AdminEvidence.v
AdminDemo.v
AdminSafety.v
AdminAccess.v
AdminFactors.v
AdminValid.v
Timestamps.v
Yaml.v
YamlLookup.v
YamlConfig.v
YamlRound.v
YamlUsers.v
TlsSites.v
Upstream.v
Concurrent.v
Globe.v
GeoIp.v
Privacy.v
System.v
Program.v
SystemDemo.v
SystemLog.v
SystemSafety.v
SystemBans.v
SystemAccess.v
SystemRaces.v
SystemComponents.v
TestsPipeline.v
TestsState.v
