(* ===== verification/Prelude.v ===== *)
(** * atomwall: a verification development

    atomwall is a filtering reverse proxy: it accepts client connections,
    applies a configurable pipeline of checks to every HTTP request and either
    answers itself (block page, ban page, robots.txt) or forwards the request
    to the origin of the site it is for. An admin server, with accounts,
    two-factor authentication and passkeys, edits the configuration while the
    proxy runs. This library models the program's own logic, definition by
    definition, from [src/source/src/], and proves what makes it correct.

    ** How the program is put together, and where each part is modelled

    A connection handler ([run_http_session], [listener/http_session.hpp])
    takes a request through fixed gates: emergency-off, the site's switch, the
    temporary bans, the request rate, the method allowlist, the header-phase
    checks, robots.txt, the body-phase checks; what passes is forwarded. A
    block can add points to the client's score and a crossed threshold installs
    a ban, which the gate of the next request sees. Every answer is
    recorded in bounded histories that the admin UI reads. The
    configuration is one immutable snapshot, replaced as a whole by [update].

    - [Prelude]: the result of fallible code ([outcome], with the program's
      exceptions as [exn]), the state-and-exception monad [M], fixed-width
      arithmetic ([wrap8] ... [swrap64], saturating additions), character
      lists ([str]) and the generic lemmas the components share.
    - [Text], [Net]: [pipeline/net_utils]: case-insensitive text, CIDR ranges,
      client addresses. Boost.Asio's address parser, printer and predicates are
      the interface [AsioIp], its documented laws [AsioIpLaws].
    - [Config]: the structs of [config/runtime_config.hpp].
    - [RateTracker], [ScoreTracker], [IpBlocks]: the three shared trackers of
      [history/], each refined against a specification that never forgets
      (the list of all calls, the sum of points, the set of all blocks).
    - [Checks]: [pipeline/checks], each check and the two ordered stages.
    - [Robots]: [pipeline/robots_txt.cpp], the generated robots.txt.
    - [Sites]: routing by Host, and the admin operations on sites and pages
      ([config/site_lookup], [site_ops], [status_page_ops]).
    - [BlacklistOps]: [config/blacklist_ops], all edits of all lists.
    - [EventLogs]: the three ring buffers of [history/] as one component, and
      the cursor of the event stream ([history/sse_stream.hpp]); [Csv]: the
      text of the CSV file; [RequestLog]: its batching and writer thread.
    - [Session]: [listener/http_session.hpp] with the request part of
      [upstream/upstream.cpp]: the handler over the state [AppState], which is
      made of the components above.
    - [Bits], [Codec], [Totp], [Passwords]: [auth/base64url], [auth/totp],
      [auth/password_hash], [auth/backup_codes].
    - [Users]: [auth/user_store], every operation with the file it writes.
    - [Tokens]: the session, pending-login, pending-TOTP and WebAuthn challenge
      stores of [auth/], one Module each.
    - [Cbor], [Json], [Webauthn]: [auth/webauthn/]: the bounded CBOR reader, COSE
      keys and both ceremonies.
    - [ConfigStore]: [config/config_store.cpp]: updates, the background writer
      and the poll for external edits as interleaved steps.
    - [UrlFetch]: [admin/url_fetch.cpp] and its filter against internal
      addresses; [Files]: [util/atomic_file.cpp], [admin/static_files.cpp] and
      the query parser of [admin/http_util.cpp].
    - [Numeric]: [util/numeric.hpp]; [JsonView]: [admin/json_view.cpp], every
      view as the JSON value it builds.
    - [AdminBase], [AdminAuth], [AdminConfig], [Admin]: [admin/admin_server.cpp]: the
      helpers and the state the handlers share, the authentication handlers, the
      configuration handlers, and the session gate, the routes and the request
      loop. [AdminLogin] has the lemmas about single handlers, [AdminSafety],
      [AdminAccess], [AdminFactors] and [AdminValid] the theorems about whole
      requests and histories of requests, and [AdminDemo] the small server their
      witnesses run. [AdminSteps] has the authentication handlers again, call by
      call, as programs of [Interleave], with the proof that each of them, run
      alone, is the handler of [AdminAuth]; [AdminEvidence] what a session
      must have behind it in the states those calls go through.
    - [Timestamps], [Yaml], [YamlLookup], [YamlConfig], [YamlRound]:
      [config/yaml_codec.cpp]: the text of times; yaml-cpp as the interface
      [Yaml] with its laws [YamlLaws]; the ways members are read; both
      directions of the configuration file, with [load_or_create] of
      [config/config_store.cpp]; the theorems about them. [YamlUsers]: the file
      of accounts ([load] and [save_locked] of [auth/user_store.cpp]).
    - [TlsSites]: [listener/tls_site_contexts.cpp] with [tls_context.hpp] and the
      server-name callback of [tls_listener.cpp]: handshakes on many threads
      that share one cache of certificates. OpenSSL and the file times are the
      interface [TlsFiles].
    - [Upstream]: [upstream/upstream.cpp], the exchange with the origin over the
      interface [OriginNetwork]; [GeoIp]: [geoip/], both databases over the
      interface [MaxMindDb], and what a connection looks up.
    - [Interleave]: programs of atomic actions and pools of threads, with the
      rules for invariants, for what a thread may conclude from the states it has
      seen, for what each thread adds to a log and for how many steps it takes; [Concurrent]: the request handler as such a program.
    - [Globe]: [globe/globe_server.cpp], the public listener; [accept_next] and
      [client_address_of] of the listeners; the position of the server
      ([main.cpp]). [Privacy]: what the listener can tell about visitors.
    - [System]: the whole of [app_state.hpp] and every thread over it;
      [Program]: the start-up of [main.cpp] and of the four servers.
      [SystemLog], [SystemSafety], [SystemBans], [SystemAccess], [SystemRaces] and
      [SystemComponents] have the theorems about all runs of the system, [SystemDemo] the small system
      their witnesses run.
    - [TestsPipeline], [TestsState]: the cases of the repository's own unit tests
      ([test/]) whose subject is modelled and whose inputs are values, run on the
      definitions: the model gives what the tests expect of the code.

    ** Conventions

    Every operation of the C++ code is one definition with the code's name. A
    function that can throw returns an [outcome]; one that also changes state
    is in [M] and keeps the changes made before a throw, as the code does.
    Clock readings, random bytes, the results of system calls and what the
    network delivers are arguments. Third-party code (Boost, OpenSSL, libcbor,
    yaml-cpp) is an interface, a [Class] whose fields are its functions; a theorem that
    relies on its behaviour takes the laws as a separate [Class], and each
    witness builds a concrete instance. Locks make operations atomic, so
    concurrent use of the trackers and stores is a sequence of operations in any
    order; where a component releases its lock in the middle of its work
    ([RequestLog], [ConfigStore], [TlsSites]) each critical section is a step and
    the theorems quantify over all interleavings. In [Session] a request of the
    proxy is one step; in [Concurrent] and [System] it is a sequence of steps, one
    for each call of a tracker or history and one for reading the configuration,
    and those of all threads interleave. A request to the admin
    server begins with one step for the session gate on its header, as its body
    is read after that; then an authentication or account handler is a step for
    each call of a store, and any other handler is one step: a configuration
    handler makes one locked change, and what it reads after that is only for
    its answer. One round of a background thread is one step. The theorems of
    [AdminSafety], [AdminAccess], [AdminFactors] and [AdminValid] take a whole
    exchange as one step; [SystemAccess] shows of every run, with the calls of
    all handlers interleaved, that a session has its second factor behind it and
    that power needs a session, and [SystemRaces] what becomes of second factors
    when requests overlap. A thread that waits for the network
    waits between its steps; that a read fails or a timeout passes is an
    input. Machine integers are [Z] with the
    wrap-around or saturation of the code written out. [double] values are
    [spec_float] and are compared as the code compares them.

    ** What the theorems show

    - Request pipeline: what reaches an origin passed every gate or was
      whitelisted; whitelisted clients are never blocked, scored or banned;
      crossing the threshold bans the next request; every answer is logged
      once, with its status; the origin's answer is relayed unchanged.
    - Whole system, for every interleaving of connections, operators, onlookers
      and background threads: an acknowledged ban keeps the address out until it
      ends or is lifted, but for a request that was already past the gate; an
      acknowledged emergency switch turns away whoever arrives until it is turned
      again or a poll reads a configuration from the file in which it is, but not
      the next request of a connection already waiting; a request whose session is
      revoked while its body is read is still carried out; the request log is a shuffle
      of what the connections did, one event for an answer; every thread is done
      after a bounded number of its own steps; configuration and accounts change only by requests that passed the
      gate with a session of somebody who had logged in, or by what a poll reads
      from the file;
      an account keeps a second factor unless somebody asks to remove one, but
      two removals at once may both pass the test for the only factor, and two
      assertions at once the test of the signature counter;
      and each component goes through a sequence of its own calls, so that
      what is proved of the components holds inside the system. The steps of a
      request, run alone, are the handler of [Session], and those of a request to
      the admin server the handlers of [AdminAuth].
    - Start-up: nothing runs unless configuration and accounts load; what runs is
      what the configuration switches on, and an admin
      server off the loopback address has TLS, whatever the file says.
    - Privacy and geolocation: the public globe depends on nothing but when,
      where and with what verdict a request came; the database of positions
      changes no answer.
    - Checks: each stage is the first hit of its checks in order; CIDR
      membership is equality of address prefixes; routing finds the exact host,
      else its wildcard, else the default.
    - Trackers: refinement of each bounded, pruned implementation to its
      specification; the bounds on their size.
    - Histories: a ring holds the most recent events in order; the stream
      delivers each at most once and in order, and all of them while it keeps up
      with the ring; the CSV file gets every record
      once, in order, across all thread interleavings, and reading the file
      back gives the fields written.
    - Accounts: no sequence of operations removes the last account, duplicates
      a name, accepts a text more often than it opens unused backup codes, or a
      TOTP step twice; the file
      holds every acknowledged change; first-run creation succeeds once.
    - Tokens: a session is accepted exactly from creation until expiry; a
      challenge is consumed at most once, and the stores stay bounded.
    - Codecs and crypto glue: round trips of base64url and base32, the
      drift window of TOTP, exactness of password verification, exactness of
      the assertion checks of WebAuthn.
    - Admin server: every session has behind it the evidence its user has to
      give, over any history of requests; without a session, and with one that
      is restricted to enrolling, a request has no power over configuration, bans
      or other accounts; second factors are not lost while they are required;
      the configuration stays well formed; what changes is acknowledged. The
      lemmas behind them are about every row of the routing table, one tactic
      walking through the handlers.
    - Admin operations: every list operation refines an operation on sets;
      site and page operations keep the configuration well formed.
    - Files and network: replacement is atomic at every failure point, static
      files stay under their root, an import never contacts an internal
      address; updates of the configuration reach the file, where nobody edits
      it, no write fails and no poll overlaps its replacement.
    - Documents: a configuration that the file can hold (no blank entry, for one),
      written and loaded again, is the same
      but for the fractions of seconds, and so are the accounts, which is what
      lets [Users] keep its file as a list; whatever a file holds, a
      configuration that loads from it has no blank entry and only addresses
      and ranges that parse; the first start publishes the defaults.
    - Listeners: in every interleaving of handshakes and changes, a handshake
      presents the certificate of the site it names, unless another one is
      loading certificates: then it gets the map of before; the public listener serves no file but the embed's.

    ** Fuel and bounds

    No definition takes fuel from a caller. Loops of the source that are not
    structural take a bound computed from their input (the text
    length for splitting and scanning), and the lemmas about them show the
    bound is not reached.

    ** What is not modelled

    Sockets, TLS records and the event loop are Asio's and OpenSSL's: whether an
    address binds, a handshake completes or a read arrives is an input, and the
    order of the threads is any schedule. A locked call is one step, so that
    waiting for a lock is part of the schedule and a deadlock cannot be
    expressed. In [System] an event stream ends the thread of its connection
    ([EventLogs] has the stream itself), and a configuration handler is one step:
    each changes one store once, but what it then lists in its answer (the bans,
    for one) may in the program already contain a later change. [Program] starts
    the servers one after the other; in the program one may accept a connection
    before another one's failure ends it. The framing fields of a request to
    an origin (Content-Length) are Beast's [prepare_payload]. A server that throws ends the program
    ([fatal_on_error]); what the others had answered until then is not modelled,
    nor are signals and the shutdown but for the two writer threads. The text of
    YAML and JSON documents (yaml-cpp's and Boost.JSON's), the text and the
    length of responses, the inside of MaxMind databases, logging and the browser
    code are third-party or glue. *)
From stdpp Require Export base gmap strings list fin_maps option sorting.
From Stdlib Require Export ZArith Lia Ascii.
From Stdlib Require Import Bool.

#[export] Set Default Goal Selector "!".
#[global] Open Scope Z_scope.
#[global] Open Scope stdpp_scope.

(** ** Byte strings

    A [std::string] or [std::string_view] is the list of its 8-bit characters. *)

Abbreviation str := (list ascii) (only parsing).

Definition lit (s : string) : list ascii := String.list_ascii_of_string s.
Coercion lit : string >-> list.

(** The double quote and the control characters that have no literal. *)
Definition dq : ascii := ascii_of_N 34.
Definition nl : ascii := ascii_of_N 10.
Definition cr : ascii := ascii_of_N 13.
Definition tab : ascii := ascii_of_N 9.
Definition nul : ascii := ascii_of_N 0.

Definition byte_of (c : ascii) : Z := Z.of_N (N_of_ascii c).
Definition char_of (b : Z) : ascii := ascii_of_N (Z.to_N b).

Declare Scope atomwall_scope.
Delimit Scope atomwall_scope with aw.
#[global] Open Scope atomwall_scope.

(** [a == b] is the C++ equality test on values with decidable equality. *)
Notation "a == b" := (bool_decide (a = b)) (at level 70, no associativity) : atomwall_scope.
Notation "a != b" := (negb (bool_decide (a = b))) (at level 70, no associativity) : atomwall_scope.

(** ** Exceptions and state

    A C++ method that mutates an object and may throw is a state transformer
    returning an outcome; what was written before the throw stays written. *)

Inductive exn :=
  | InvalidArgument (msg : str)
  | RuntimeError (msg : str)
  | LogicError (msg : str).

Inductive outcome (A : Type) :=
  | Ok (a : A)
  | Throw (e : exn).
Arguments Ok {A} a.
Arguments Throw {A} e.

#[export] Instance exn_eq_dec : EqDecision exn.
Proof. solve_decision. Defined.
#[export] Instance outcome_eq_dec `{EqDecision A} : EqDecision (outcome A).
Proof. solve_decision. Defined.

Definition is_ok {A} (o : outcome A) : bool := if o is Ok _ then true else false.

#[export] Instance outcome_ret : MRet outcome := fun A a => Ok a.
#[export] Instance outcome_bind : MBind outcome :=
  fun A B k o => match o with Ok a => k a | Throw e => Throw e end.

Definition M (S A : Type) : Type := S -> S * outcome A.

#[export] Instance M_ret {S} : MRet (M S) := fun A a s => (s, Ok a).
#[export] Instance M_bind {S} : MBind (M S) :=
  fun A B k m s =>
    match m s with
    | (s', Ok a) => k a s'
    | (s', Throw e) => (s', Throw e)
    end.

Definition throwM {S A} (e : exn) : M S A := fun s => (s, Throw e).
Definition getM {S} : M S S := fun s => (s, Ok s).
Definition putM {S} (s' : S) : M S unit := fun _ => (s', Ok tt).
Definition liftM {S A} (o : outcome A) : M S A := fun s => (s, o).

(** ** Machine integers *)

Definition INT_MAX : Z := 2147483647.
Definition INT_MIN : Z := -2147483648.
Definition INT64_MAX : Z := 9223372036854775807.
Definition INT64_MIN : Z := -9223372036854775808.
Definition SIZE_MAX : Z := 18446744073709551615.
Definition UINT32_MAX : Z := 4294967295.

Definition wrap8 (z : Z) : Z := z mod 2 ^ 8.
Definition wrap16 (z : Z) : Z := z mod 2 ^ 16.
Definition wrap32 (z : Z) : Z := z mod 2 ^ 32.
Definition wrap64 (z : Z) : Z := z mod 2 ^ 64.
Definition swrap (w : Z) (z : Z) : Z := (z + 2 ^ (w - 1)) mod 2 ^ w - 2 ^ (w - 1).
Definition swrap32 (z : Z) : Z := swrap 32 z.
Definition swrap64 (z : Z) : Z := swrap 64 z.
Definition clamp (lo hi z : Z) : Z := Z.max lo (Z.min hi z).

Lemma swrap_small w z : 0 < w -> - 2 ^ (w - 1) <= z < 2 ^ (w - 1) -> swrap w z = z.
Proof.
  intros Hw Hz. unfold swrap.
  assert (2 ^ w = 2 * 2 ^ (w - 1)) as E.
  { rewrite <- Z.pow_succ_r by lia. f_equal. lia. }
  rewrite Z.mod_small; lia.
Qed.

Lemma swrap64_small z : INT64_MIN <= z <= INT64_MAX -> swrap64 z = z.
Proof. intros H. apply swrap_small; [lia|]. unfold INT64_MIN, INT64_MAX in H. lia. Qed.

Lemma swrap32_small z : INT_MIN <= z <= INT_MAX -> swrap32 z = z.
Proof. intros H. apply swrap_small; [lia|]. unfold INT_MIN, INT_MAX in H. lia. Qed.

(** ** Clocks

    A [time_point] is a count of nanoseconds since the clock's epoch in a
    64-bit signed integer, as in libstdc++; adding a duration wraps there. *)

Abbreviation time_point := Z (only parsing).

Definition ns_per_ms : Z := 1000000.
Definition ns_per_s : Z := 1000000000.
Definition ns_per_min : Z := 60 * ns_per_s.
Definition ns_per_hour : Z := 3600 * ns_per_s.
Definition tp_add (t d : Z) : Z := swrap64 (t + d).

(** Clock values for which the additions below cannot overflow: up to the
    year 2116. *)
Definition clock_ok (t : Z) : Prop := 0 <= t <= 2 ^ 62.

Lemma tp_add_small t d : clock_ok t -> 0 <= d < 2 ^ 62 -> tp_add t d = t + d.
Proof.
  unfold clock_ok. intros Ht Hd. apply swrap64_small. unfold INT64_MIN, INT64_MAX. lia.
Qed.

(** ** Decimal text: [std::to_string] and [std::from_chars] *)

Definition digit_char (d : Z) : ascii := char_of (48 + d).
Definition digit_val (c : ascii) : option Z :=
  let v := byte_of c - 48 in
  if (0 <=? v) && (v <=? 9) then Some v else None.

Fixpoint dec_go (fuel : nat) (n : Z) (acc : str) : str :=
  match fuel with
  | O => acc
  | S fuel' =>
      let acc' := digit_char (n mod 10) :: acc in
      if n / 10 =? 0 then acc' else dec_go fuel' (n / 10) acc'
  end.

(** Fuel: [n] has at most [Z.log2 n + 1] decimal digits. *)
Definition dec_nat (n : Z) : str := dec_go (S (Z.to_nat (Z.log2 n))) n [].
Definition to_dec (n : Z) : str :=
  if n <? 0 then "-"%char :: dec_nat (- n) else dec_nat n.

Fixpoint scan_digits (s : str) (acc : Z) : Z * str :=
  match s with
  | c :: s' =>
      match digit_val c with
      | Some d => scan_digits s' (acc * 10 + d)
      | None => (acc, s)
      end
  | [] => (acc, [])
  end.

(** [std::from_chars] on an unsigned type with maximum [hi]: the value and
    the unread rest, [None] when [ec] is set (no digit, or out of range). *)
Definition from_chars_u (hi : Z) (s : str) : option (Z * str) :=
  match s with
  | c :: _ =>
      match digit_val c with
      | Some _ => let '(v, rest) := scan_digits s 0 in
                  if v <=? hi then Some (v, rest) else None
      | None => None
      end
  | [] => None
  end.

Definition from_chars_int (s : str) : option (Z * str) :=
  match s with
  | "-"%char :: s' =>
      match from_chars_u (- INT_MIN) s' with
      | Some (v, rest) => Some (- v, rest)
      | None => None
      end
  | _ => from_chars_u INT_MAX s
  end.

Arguments digit_val : simpl never.
Arguments digit_char : simpl never.

Lemma byte_of_range c : 0 <= byte_of c < 256.
Proof. unfold byte_of. pose proof (N_ascii_bounded c). lia. Qed.

Lemma char_of_byte c : char_of (byte_of c) = c.
Proof. unfold char_of, byte_of. rewrite N2Z.id. apply ascii_N_embedding. Qed.

Lemma byte_of_char b : 0 <= b < 256 -> byte_of (char_of b) = b.
Proof. intros H. unfold char_of, byte_of. rewrite N_ascii_embedding; lia. Qed.

Lemma byte_of_inj c d : byte_of c = byte_of d -> c = d.
Proof. intros H. rewrite <- (char_of_byte c), <- (char_of_byte d). by f_equal. Qed.

Lemma digit_val_char d : 0 <= d <= 9 -> digit_val (digit_char d) = Some d.
Proof.
  intros H. unfold digit_val, digit_char. rewrite byte_of_char by lia.
  replace (48 + d - 48) with d by lia.
  by replace ((0 <=? d) && (d <=? 9)) with true by (symmetry; apply andb_true_iff; lia).
Qed.

Lemma dec_go_scan fuel n acc rest k :
  0 <= n -> (Z.to_nat (Z.log2 n) < fuel)%nat ->
  exists m, 0 < m /\
    scan_digits (dec_go fuel n acc ++ rest) k = scan_digits (acc ++ rest) (k * m + n) /\
    (exists d s, dec_go fuel n acc = digit_char d :: s /\ 0 <= d <= 9).
Proof.
  revert n acc k. induction fuel as [|fuel IH]; intros n acc k Hn Hf; [lia|].
  simpl. pose proof (Z.mod_pos_bound n 10 ltac:(lia)) as Hm.
  destruct (Z.eqb_spec (n / 10) 0) as [E|E].
  - exists 10. split_and!; [lia| |by exists (n mod 10), acc; split; [|lia]].
    simpl. rewrite digit_val_char by lia. f_equal.
    pose proof (Z.div_mod n 10). lia.
  - assert (0 <= n / 10) by (apply Z.div_pos; lia).
    assert (Z.log2 (n / 10) < Z.log2 n) as Hl.
    { assert (10 <= n) by (destruct (Z.lt_ge_cases n 10); [rewrite Z.div_small in E; lia|lia]).
      assert (n / 10 <= n / 2) by (apply Z.div_le_compat_l; lia).
      eapply Z.le_lt_trans; [by apply Z.log2_le_mono|].
      rewrite <- Z.div2_div. 
      assert (0 < Z.log2 n) by (apply Z.log2_pos; lia).
      rewrite Z.div2_spec, Z.log2_shiftr by lia. lia. }
    pose proof (Z.log2_nonneg (n / 10)).
    destruct (IH (n / 10) (digit_char (n mod 10) :: acc) k) as (m & Hm0 & Hs & Hd); [lia|lia|].
    exists (m * 10). split_and!; [lia| |done].
    rewrite Hs. simpl. rewrite digit_val_char by lia. f_equal.
    pose proof (Z.div_mod n 10). lia.
Qed.

(** [std::from_chars] reads back what [std::to_string] wrote. *)
Lemma from_chars_dec hi n rest :
  0 <= n <= hi -> (if rest is c :: _ then digit_val c else None) = None ->
  from_chars_u hi (dec_nat n ++ rest) = Some (n, rest).
Proof.
  intros Hn Hr. unfold dec_nat.
  destruct (dec_go_scan (S (Z.to_nat (Z.log2 n))) n [] rest 0) as (m & _ & Hs & d & s & E & Hd);
    [lia|lia|].
  unfold from_chars_u. rewrite E in *. cbn [app]. rewrite digit_val_char by lia.
  replace (0 * m + n) with n in Hs by lia. cbn [app] in Hs. rewrite Hs.
  assert (scan_digits rest n = (n, rest)) as ->.
  { destruct rest as [|c r]; simpl; [done|]. by rewrite Hr. }
  destruct (Z.leb_spec n hi); [done|lia].
Qed.

(** Decimal text is made of digits and the minus sign. *)
Definition dec_chars : str := lit "0123456789-".

Lemma digit_char_dec d : 0 <= d <= 9 -> digit_char d ∈ dec_chars.
Proof.
  intros H. assert (d = 0 \/ d = 1 \/ d = 2 \/ d = 3 \/ d = 4 \/ d = 5 \/ d = 6 \/ d = 7 \/ d = 8 \/ d = 9)
    as Hd by lia.
  repeat (destruct Hd as [->|Hd]; [refine (bool_decide_unpack _ _); vm_compute; exact I|]).
  subst d. refine (bool_decide_unpack _ _); vm_compute; exact I.
Qed.

Lemma dec_go_chars fuel n acc :
  Forall (fun c => c ∈ dec_chars) acc -> Forall (fun c => c ∈ dec_chars) (dec_go fuel n acc).
Proof.
  revert n acc. induction fuel as [|fuel IH]; intros n acc Ha; [done|]. cbn [dec_go].
  pose proof (Z.mod_pos_bound n 10 ltac:(lia)).
  assert (digit_char (n mod 10) ∈ dec_chars) by (apply digit_char_dec; lia).
  destruct (n / 10 =? 0); [by constructor|]. apply IH. by constructor.
Qed.

Lemma to_dec_chars n : Forall (fun c => c ∈ dec_chars) (to_dec n).
Proof.
  unfold to_dec, dec_nat. destruct (n <? 0).
  - constructor; [refine (bool_decide_unpack _ _); vm_compute; exact I|]. apply dec_go_chars. constructor.
  - apply dec_go_chars. constructor.
Qed.

(** ** Automation *)

Create HintDb atomwall.
Create Rewrite HintDb atomwall.

(** Case analysis on the tests of the goal and of the hypotheses, then the
    arithmetic and congruence that is left. *)
Ltac case_bool :=
  repeat match goal with
  | H : _ && _ = true |- _ => apply andb_true_iff in H as [? ?]
  | H : _ || _ = false |- _ => apply orb_false_iff in H as [? ?]
  | H : negb _ = true |- _ => apply negb_true_iff in H
  | H : negb _ = false |- _ => apply negb_false_iff in H
  | H : bool_decide _ = true |- _ => apply bool_decide_eq_true in H
  | H : bool_decide _ = false |- _ => apply bool_decide_eq_false in H
  | H : (_ <=? _) = true |- _ => apply Z.leb_le in H
  | H : (_ <=? _) = false |- _ => apply Z.leb_gt in H
  | H : (_ <? _) = true |- _ => apply Z.ltb_lt in H
  | H : (_ <? _) = false |- _ => apply Z.ltb_ge in H
  | H : (_ =? _) = true |- _ => apply Z.eqb_eq in H
  | H : (_ =? _) = false |- _ => apply Z.eqb_neq in H
  end.

(** Split on every [if] and [match] whose scrutinee is a plain term. *)
Ltac case_code :=
  repeat (case_match; simplify_eq/=; case_bool); try done; try lia.

(** Membership and equality facts between literals. *)
Ltac decide_literal := refine (bool_decide_unpack _ _); vm_compute; exact I.

(** ** Lists *)

Section lists.
Context {A : Type}.
Implicit Types l : list A.

(** Keep the last [n] elements: what a bounded queue holds. *)
Definition lastn (n : nat) (l : list A) : list A := drop (length l - n) l.

Lemma length_lastn n l : length (lastn n l) = Nat.min n (length l).
Proof. unfold lastn. rewrite length_drop. lia. Qed.

Lemma lastn_all n l : (length l <= n)%nat -> lastn n l = l.
Proof. intros H. unfold lastn. by replace (length l - n)%nat with 0%nat by lia. Qed.

Lemma lastn_lastn n m l : lastn n (lastn m l) = lastn (Nat.min n m) l.
Proof.
  unfold lastn. rewrite length_drop, drop_drop. f_equal. lia.
Qed.

Lemma lastn_app_le n l k : (length k <= n)%nat -> lastn n (l ++ k) = lastn (n - length k) l ++ k.
Proof.
  intros H. unfold lastn. rewrite length_app.
  destruct (decide (length k = 0)%nat) as [E|E].
  - apply nil_length_inv in E as ->. rewrite !app_nil_r. simpl. f_equal. lia.
  - rewrite drop_app_le by lia. do 2 f_equal. lia.
Qed.

Lemma lastn_suffix n l : lastn n l `suffix_of` l.
Proof. exists (take (length l - n) l). unfold lastn. by rewrite take_drop. Qed.

Lemma elem_of_snoc l x y : y ∈ l ++ [x] <-> y ∈ l \/ y = x.
Proof. by rewrite elem_of_app, list_elem_of_singleton. Qed.

Lemma list_find_none_forall (P : A -> Prop) `{!forall x, Decision (P x)} (l : list A) :
  list_find P l = None <-> Forall (fun x => ~ P x) l.
Proof. apply list_find_None. Qed.
End lists.

(** A map whose keys all occur in a list is no larger than the list. *)
Lemma dom_size_le `{Countable K} {V} (m : gmap K V) (l : list K) :
  (forall k v, m !! k = Some v -> k ∈ l) -> (size m <= length l)%nat.
Proof.
  intros Hl. rewrite <- length_map_to_list, <- (length_fmap fst).
  apply submseteq_length, NoDup_submseteq; [apply NoDup_fst_map_to_list|].
  intros k ([k' v] & -> & Hkv%elem_of_map_to_list)%list_elem_of_fmap. by eapply Hl.
Qed.

(** Filters. *)
Lemma Forall_filter_le {A} (P Q : A -> Prop) `{!forall x, Decision (P x)} (l : list A) :
  Forall Q l -> Forall Q (filter P l).
Proof.
  rewrite !Forall_forall. intros Hl x Hx. apply list_elem_of_filter in Hx as [_ Hx]. by apply Hl.
Qed.

Lemma filter_all {A} (P : A -> Prop) `{!forall x, Decision (P x)} (l : list A) :
  (forall x, x ∈ l -> P x) -> filter P l = l.
Proof.
  induction l as [|x l IH]; intros Hl; [done|].
  rewrite filter_cons_True by (apply Hl; left). f_equal. apply IH. intros y Hy. apply Hl. by right.
Qed.

Lemma NoDup_fmap_filter {A B} (f : A -> B) (P : A -> Prop) `{!forall x, Decision (P x)} (l : list A) :
  NoDup (f <$> l) -> NoDup (f <$> filter P l).
Proof. intros Hl. eapply sublist_NoDup; [done|]. apply fmap_sublist, sublist_filter. Qed.

(** A decision procedure for time-ordered histories, used on concrete ones. *)
Fixpoint sorted_le (l : list Z) : bool :=
  match l with
  | x :: ((y :: _) as l') => (x <=? y) && sorted_le l'
  | _ => true
  end.

Lemma sorted_le_sound l : sorted_le l = true -> StronglySorted Z.le l.
Proof.
  intros H. apply Sorted_StronglySorted; [intros x y z; lia|].
  induction l as [|x [|y l] IH]; [constructor|by repeat constructor|].
  simpl in H. apply andb_true_iff in H as [H1 H2].
  constructor; [by apply IH|]. constructor. by apply Z.leb_le.
Qed.

Definition clock_okb (t : Z) : bool := (0 <=? t) && (t <=? 2 ^ 62).

Lemma clock_okb_sound l : forallb clock_okb l = true -> Forall clock_ok l.
Proof.
  intros H. apply Forall_forall. intros t Ht%list_elem_of_In.
  rewrite forallb_forall in H. specialize (H t Ht). unfold clock_okb, clock_ok in *. lia.
Qed.
