(* ===== verification/Text.v ===== *)
(** * Text: the string helpers of [pipeline/net_utils.cpp]

    The [std::string_view] operations the program uses ([find], [rfind],
    [substr], [find_first_of]) on character lists, the C-locale character
    classes, and the case-insensitive comparisons [icontains],
    [istarts_with], [iequals] and [to_lower], each with the equation that
    relates it to comparison of lower-cased text. *)
From S2P Require Import Prelude.

(** ** Characters (C locale) *)

Definition tolower (c : ascii) : ascii :=
  let v := byte_of c in
  if (65 <=? v) && (v <=? 90) then char_of (v + 32) else c.
Definition toupper (c : ascii) : ascii :=
  let v := byte_of c in
  if (97 <=? v) && (v <=? 122) then char_of (v - 32) else c.
Definition isspace (c : ascii) : bool :=
  let v := byte_of c in (v =? 32) || ((9 <=? v) && (v <=? 13)).
Definition isdigit (c : ascii) : bool :=
  let v := byte_of c in (48 <=? v) && (v <=? 57).
Definition isxdigit (c : ascii) : bool :=
  let v := byte_of c in
  ((48 <=? v) && (v <=? 57)) || ((65 <=? v) && (v <=? 70)) || ((97 <=? v) && (v <=? 102)).

(** ** [std::string_view] *)

Definition find_char (c : ascii) (s : str) : option nat := fst <$> list_find (c =.) s.
Definition rfind_char (c : ascii) (s : str) : option nat :=
  match find_char c (rev s) with
  | Some i => Some (length s - 1 - i)%nat
  | None => None
  end.
Definition find_first_of (cs s : str) : option nat := fst <$> list_find (.∈ cs) s.
Definition find_first_not_of (cs s : str) : option nat := fst <$> list_find (.∉ cs) s.

(** [s.substr(0, s.find(c))]: the text before [c], all of it when absent. *)
Definition before_char (c : ascii) (s : str) : str :=
  match find_char c s with Some i => take i s | None => s end.

Definition starts_with (s p : str) : bool := take (length p) s == p.
Definition ends_with (s p : str) : bool :=
  if decide (length p <= length s)%nat then drop (length s - length p) s == p else false.

(** Strip the characters of [is_blank] from both ends. *)
Fixpoint drop_while (p : ascii -> bool) (s : str) : str :=
  match s with
  | c :: s' => if p c then drop_while p s' else s
  | [] => []
  end.
Definition trim_by (p : ascii -> bool) (s : str) : str :=
  rev (drop_while p (rev (drop_while p s))).

(** ** [net_utils.cpp] *)

Definition ieq_char (a b : ascii) : bool := tolower a == tolower b.

(** [std::equal(a.begin(), a.end(), b.begin(), ieq)]; the callers ensure [b]
    is long enough, the last case is the out-of-range read they exclude. *)
Fixpoint equal_range (a b : str) : bool :=
  match a, b with
  | [], _ => true
  | x :: a', y :: b' => if ieq_char x y then equal_range a' b' else false
  | _ :: _, [] => false
  end.

(** [std::search]: the position of the first occurrence. *)
Fixpoint search (haystack needle : str) : option nat :=
  if equal_range needle haystack then Some 0%nat
  else match haystack with
       | [] => None
       | _ :: h => S <$> search h needle
       end.

Definition icontains (haystack needle : str) : bool :=
  match needle with
  | [] => true
  | _ => if search haystack needle is Some _ then true else false
  end.

Definition istarts_with (haystack prefix : str) : bool :=
  if (length haystack <? length prefix)%nat then false else equal_range prefix haystack.

Definition iequals (a b : str) : bool :=
  if negb (length a =? length b)%nat then false else equal_range a b.

Definition to_lower (text : str) : str := map tolower text.

(** ** Properties *)

Lemma tolower_idemp c : tolower (tolower c) = tolower c.
Proof. destruct c as [[] [] [] [] [] [] [] []]; reflexivity. Qed.

Lemma to_lower_idemp s : to_lower (to_lower s) = to_lower s.
Proof. unfold to_lower. rewrite map_map. apply map_ext, tolower_idemp. Qed.

Lemma length_to_lower s : length (to_lower s) = length s.
Proof. apply length_map. Qed.

Lemma to_lower_app a b : to_lower (a ++ b) = to_lower a ++ to_lower b.
Proof. apply map_app. Qed.

Lemma equal_range_prefix a b : equal_range a b = true <-> to_lower a `prefix_of` to_lower b.
Proof.
  revert b. induction a as [|x a IH]; intros [|y b]; simpl.
  - split; [intros _; by exists []|done].
  - split; [intros _; apply prefix_nil|done].
  - split; [done|]. intros [k Hk]. done.
  - unfold ieq_char. case_bool_decide as E.
    + rewrite E, IH. split; [apply prefix_cons|apply prefix_cons_inv_2].
    + split; [done|]. intros H%prefix_cons_inv_1. done.
Qed.

Lemma search_spec h n :
  is_Some (search h n) <-> exists pre suf, to_lower h = pre ++ to_lower n ++ suf.
Proof.
  induction h as [|c h IH]; simpl;
    destruct (equal_range n _) eqn:E.
  - split; [|eauto]. intros _. apply equal_range_prefix in E as [k Hk]. by exists [], k.
  - split; [by intros [? ?]|]. intros (pre & suf & H).
    apply not_true_iff_false in E. destruct E. apply equal_range_prefix.
    destruct pre; [|done]. by exists suf.
  - split; [|eauto]. intros _. apply equal_range_prefix in E as [k Hk]. by exists [], k.
  - rewrite fmap_is_Some, IH. split.
    + intros (pre & suf & H). exists (tolower c :: pre), suf. by rewrite H.
    + intros (pre & suf & H). destruct pre as [|p pre]; simplify_eq/=; [|by exists pre, suf].
      apply not_true_iff_false in E. destruct E. apply equal_range_prefix. by exists suf.
Qed.

(** [icontains] is substring search after lower-casing both sides. *)
Lemma icontains_spec h n :
  icontains h n = true <-> exists pre suf, to_lower h = pre ++ to_lower n ++ suf.
Proof.
  rewrite <- search_spec. unfold icontains. destruct n as [|c n].
  - split; [|done]. intros _. destruct h; simpl; eauto.
  - destruct (search h (c :: n)); split; eauto; [done|]. intros [? [=]].
Qed.

Lemma istarts_with_spec h p : istarts_with h p = true <-> to_lower p `prefix_of` to_lower h.
Proof.
  unfold istarts_with. destruct (Nat.ltb_spec (length h) (length p)).
  - split; [done|]. intros H'%prefix_length. rewrite !length_to_lower in H'. lia.
  - apply equal_range_prefix.
Qed.

Lemma iequals_spec a b : iequals a b = true <-> to_lower a = to_lower b.
Proof.
  unfold iequals. destruct (Nat.eqb_spec (length a) (length b)) as [E|E]; simpl.
  - rewrite equal_range_prefix. split; [|by intros ->].
    intros [k Hk]. assert (length k = 0%nat) as K%nil_length_inv.
    { apply (f_equal length) in Hk. rewrite length_app, !length_to_lower in Hk. lia. }
    by rewrite K, app_nil_r in Hk.
  - split; [done|]. intros H%(f_equal length). by rewrite !length_to_lower in H.
Qed.

Lemma istarts_with_icontains h p : istarts_with h p = true -> icontains h p = true.
Proof.
  rewrite istarts_with_spec, icontains_spec. intros [k Hk]. by exists [], k.
Qed.

#[export] Hint Resolve to_lower_idemp istarts_with_icontains : atomwall.
#[export] Hint Rewrite to_lower_idemp length_to_lower to_lower_app : atomwall.
