(* ===== verification/Net.v ===== *)
(** * Net: client addresses and CIDR ranges

    Models [pipeline/net_utils.cpp]: [parse_cidr], [prefix_matches],
    [address_in_cidr], [normalize_client_address]. An address is what
    [boost::asio::ip::address] is observed as: four bytes, or sixteen bytes
    and a scope id. Boost's parser, printer and address predicates are the
    fields of the interface [AsioIp]; [AsioIpLaws] states the part of their
    documented behaviour that theorems rely on. *)
From S2P Require Import Prelude Text.

(** ** Addresses *)

Inductive address :=
  | addr_v4 (bytes : list Z)
  | addr_v6 (bytes : list Z) (scope : Z).

#[export] Instance address_eq_dec : EqDecision address.
Proof. solve_decision. Defined.
#[export] Instance address_countable : Countable address.
Proof.
  refine (inj_countable'
    (fun a => match a with addr_v4 b => inl b | addr_v6 b s => inr (b, s) end)
    (fun x => match x with inl b => addr_v4 b | inr (b, s) => addr_v6 b s end) _).
  by intros [].
Defined.

Definition is_v4 (a : address) : bool := if a is addr_v4 _ then true else false.
Definition is_v6 (a : address) : bool := if a is addr_v6 _ _ then true else false.

Definition byte_ok (b : Z) : Prop := 0 <= b < 256.
Definition bytes_ok (n : nat) (l : list Z) : Prop := length l = n /\ Forall byte_ok l.
Definition address_ok (a : address) : Prop :=
  match a with
  | addr_v4 b => bytes_ok 4 b
  | addr_v6 b scope => bytes_ok 16 b /\ 0 <= scope <= UINT32_MAX
  end.

(** Boost.Asio, as the program uses it. *)
Class AsioIp := {
  make_address : str -> option address;
  to_string : address -> str;
  v6_is_v4_mapped : list Z -> bool;
  make_address_v4_mapped : list Z -> list Z;
  is_loopback : address -> bool;
  is_multicast : address -> bool;
  is_unspecified : address -> bool;
}.

(** Documented facts: printing an address gives text that parses back to it,
    the parser yields well-formed addresses, the mapped IPv4 address has four
    bytes. *)
Class AsioIpLaws (Asio : AsioIp) := {
  make_address_to_string a : address_ok a -> make_address (to_string a) = Some a;
  make_address_ok s a : make_address s = Some a -> address_ok a;
  mapped_ok b : bytes_ok 16 b -> v6_is_v4_mapped b = true ->
                bytes_ok 4 (make_address_v4_mapped b);
}.

(** ** CIDR ranges *)

Record CidrRange := mkCidrRange {
  cidr_prefix : address;
  cidr_prefix_len : Z;
  cidr_text : str;
  cidr_created_at : time_point;
  cidr_source : str;
}.

#[export] Instance CidrRange_eq_dec : EqDecision CidrRange.
Proof. solve_decision. Defined.

(** A [CidrRange] built from its first three members: the others take their
    default initialisers ([created_at] is [now()], [source] is "manual"). *)
Definition make_cidr (p : address) (len : Z) (text : str) (now : time_point) : CidrRange :=
  mkCidrRange p len text now "manual".

Section cidr.
Context `{Asio : AsioIp}.

Definition UINT_MAX : Z := UINT32_MAX.

Definition parse_cidr (now : time_point) (text : str) : option CidrRange :=
  match find_char "/" text with
  | None => None
  | Some slash =>
      let address_part := take slash text in
      let prefix_part := drop (S slash) text in
      match make_address address_part with
      | None => None
      | Some address =>
          match from_chars_u UINT_MAX prefix_part with
          | Some (prefix_len, []) =>
              let max_bits := if is_v4 address then 32 else 128 in
              if prefix_len >? max_bits then None
              else Some (make_cidr address prefix_len text now)
          | _ => None
          end
      end
  end.

(** The loop compares whole bytes, then the leading bits of the next one. *)
Definition prefix_matches (a b : list Z) (prefix_len : Z) : bool :=
  let full_bytes := Z.to_nat (prefix_len / 8) in
  let remaining_bits := prefix_len mod 8 in
  if forallb (fun i => nth i a 0 =? nth i b 0) (seq 0 full_bytes) then
    if remaining_bits =? 0 then true
    else
      let mask := wrap8 (Z.shiftr 0xFF00 remaining_bits) in
      Z.land (nth full_bytes a 0) mask =? Z.land (nth full_bytes b 0) mask
  else false.

Definition address_in_cidr (a : address) (range : CidrRange) : bool :=
  match a, cidr_prefix range with
  | addr_v4 x, addr_v4 y => prefix_matches x y (cidr_prefix_len range)
  | addr_v6 x _, addr_v6 y _ => prefix_matches x y (cidr_prefix_len range)
  | _, _ => false
  end.

Definition normalize_client_address (a : address) : address :=
  match a with
  | addr_v6 v6 _ => if v6_is_v4_mapped v6 then addr_v4 (make_address_v4_mapped v6) else a
  | addr_v4 _ => a
  end.

End cidr.

(** ** The prefix test is a comparison of the leading bits *)

(** The address as a big-endian number. *)
Definition be_number (l : list Z) : Z := foldl (fun acc b => acc * 256 + b) 0 l.

(** Reference definition: the numbers agree after dropping the low bits. *)
Definition same_network (bits prefix_len : Z) (a b : list Z) : bool :=
  Z.shiftr (be_number a) (bits - prefix_len) =? Z.shiftr (be_number b) (bits - prefix_len).

Lemma be_number_go l acc :
  foldl (fun acc b => acc * 256 + b) acc l = acc * 256 ^ Z.of_nat (length l) + be_number l.
Proof.
  unfold be_number. revert acc. induction l as [|x l IH]; intros acc; [simpl; lia|].
  cbn [foldl length]. rewrite IH, (IH (0 * 256 + x)), Nat2Z.inj_succ, Z.pow_succ_r by lia. ring.
Qed.

Lemma be_number_cons x l : be_number (x :: l) = x * 256 ^ Z.of_nat (length l) + be_number l.
Proof. unfold be_number at 1. cbn [foldl]. rewrite be_number_go. f_equal. Qed.

Lemma be_number_bound l : Forall byte_ok l -> 0 <= be_number l < 256 ^ Z.of_nat (length l).
Proof.
  induction 1 as [|x l Hx Hl IH]; [done|].
  rewrite be_number_cons. cbn [length]. rewrite Nat2Z.inj_succ, Z.pow_succ_r by lia.
  unfold byte_ok in Hx. nia.
Qed.

Lemma pow256_pos n : 0 < 256 ^ Z.of_nat n.
Proof. apply Z.pow_pos_nonneg; lia. Qed.

(** Two numbers agree at the top iff their leading digits agree and so do the
    rests. *)
Lemma div_digit_eq x y r s k m :
  0 < k -> (m | k) -> 0 < m -> 0 <= r < k -> 0 <= s < k ->
  (x * k + r) / m = (y * k + s) / m <-> x = y /\ r / m = s / m.
Proof.
  intros Hk [q ->] Hm Hr Hs.
  assert (forall z t, (z * (q * m) + t) / m = z * q + t / m) as E.
  { intros z t. by rewrite Z.mul_assoc, Z.div_add_l by lia. }
  assert (forall t, 0 <= t < q * m -> 0 <= t / m < q) as B.
  { intros t Ht. split; [by apply Z.div_pos; lia|]. apply Z.div_lt_upper_bound; lia. }
  rewrite !E. pose proof (B r Hr). pose proof (B s Hs).
  generalize dependent (r / m). generalize dependent (s / m). intros s' Hs' r' Hr'.
  split; [|intros [-> ->]; done]. intros H'. assert (x = y) by nia. subst. split; [done|lia].
Qed.

(** The mask keeps the [p] leading bits of a byte. *)
Lemma mask_byte x p :
  byte_ok x -> 0 < p < 8 ->
  Z.land x (wrap8 (Z.shiftr 0xFF00 p)) = x / 2 ^ (8 - p) * 2 ^ (8 - p).
Proof.
  intros Hx Hp.
  assert (forallb (fun p => forallb (fun x =>
            Z.land x (wrap8 (Z.shiftr 0xFF00 p)) =? x / 2 ^ (8 - p) * 2 ^ (8 - p))
          (map Z.of_nat (seq 0 256))) [1; 2; 3; 4; 5; 6; 7] = true) as H by (by vm_compute).
  rewrite forallb_forall in H.
  assert (In p [1; 2; 3; 4; 5; 6; 7]) as Hin by (simpl; lia).
  specialize (H p Hin). cbv beta in H. rewrite forallb_forall in H.
  apply Z.eqb_eq, H, in_map_iff. exists (Z.to_nat x).
  unfold byte_ok in Hx. split; [lia|]. apply in_seq. lia.
Qed.

Lemma mask_byte_eq x y p :
  byte_ok x -> byte_ok y -> 0 < p < 8 ->
  (Z.land x (wrap8 (Z.shiftr 0xFF00 p)) =? Z.land y (wrap8 (Z.shiftr 0xFF00 p))) =
  (x / 2 ^ (8 - p) =? y / 2 ^ (8 - p)).
Proof.
  intros Hx Hy Hp. rewrite !mask_byte by done.
  assert (0 < 2 ^ (8 - p)) by (apply Z.pow_pos_nonneg; lia).
  destruct (Z.eqb_spec (x / 2 ^ (8 - p)) (y / 2 ^ (8 - p))) as [->|Hne]; [apply Z.eqb_refl|].
  apply Z.eqb_neq. nia.
Qed.

Lemma forallb_map_S (g h : nat -> bool) l :
  (forall i, g (S i) = h i) -> forallb g (map S l) = forallb h l.
Proof. intros E. induction l as [|i l IH]; simpl; [done|]. by rewrite E, IH. Qed.

Lemma prefix_matches_cons x y a b p :
  8 <= p -> prefix_matches (x :: a) (y :: b) p = (x =? y) && prefix_matches a b (p - 8).
Proof.
  intros Hp. unfold prefix_matches.
  assert (p / 8 = Z.succ ((p - 8) / 8)) as E.
  { replace p with (p - 8 + 1 * 8) at 1 by lia. rewrite Z.div_add by lia. lia. }
  assert (p mod 8 = (p - 8) mod 8) as E'.
  { replace p with (p - 8 + 1 * 8) at 1 by lia. apply Z.mod_add. lia. }
  rewrite E, E', Z2Nat.inj_succ by (apply Z.div_pos; lia).
  cbn [seq forallb nth]. rewrite <- seq_shift, (forallb_map_S _ (fun i => nth i a 0 =? nth i b 0)) by done.
  by destruct (x =? y).
Qed.

(** [prefix_matches] decides whether the first [prefix_len] bits agree. *)
Lemma prefix_matches_same_network a b p :
  length a = length b -> Forall byte_ok a -> Forall byte_ok b ->
  0 <= p <= 8 * Z.of_nat (length a) ->
  prefix_matches a b p = same_network (8 * Z.of_nat (length a)) p a b.
Proof.
  intros Hlen Ha. revert b p Hlen.
  induction Ha as [|x a Hx Ha IH]; intros [|y b] p Hlen Hb Hp; simplify_eq/=.
  { assert (p = 0) as -> by (simpl in Hp; lia). done. }
  apply Forall_cons in Hb as [Hy Hb].
  pose proof (be_number_bound a Ha) as Ba. pose proof (be_number_bound b Hb) as Bb.
  rewrite <- Hlen in Bb. pose proof (pow256_pos (length a)) as Kpos.
  set (n := length a) in *.
  assert (256 ^ Z.of_nat n = 2 ^ (8 * Z.of_nat n)) as Kpow by (by rewrite Z.pow_mul_r by lia).
  unfold same_network. rewrite !Z.shiftr_div_pow2, !be_number_cons, <- Hlen by lia. fold n.
  destruct (Z.le_gt_cases 8 p) as [Hp8|Hp8].
  - rewrite prefix_matches_cons, IH by (done || lia). unfold same_network.
    rewrite !Z.shiftr_div_pow2 by lia.
    replace (8 * Z.of_nat n - (p - 8)) with (8 * Z.of_nat (S n) - p) by lia.
    set (m := 2 ^ (8 * Z.of_nat (S n) - p)).
    assert (0 < m) by (apply Z.pow_pos_nonneg; lia).
    pose proof (div_digit_eq x y (be_number a) (be_number b) (256 ^ Z.of_nat n) m Kpos) as D.
    destruct D as [D1 D2]; [|done..|].
    { exists (2 ^ (p - 8)). rewrite Kpow. unfold m. rewrite <- Z.pow_add_r by lia. f_equal. lia. }
    apply eq_true_iff_eq. rewrite andb_true_iff, !Z.eqb_eq. tauto.
  - replace (2 ^ (8 * Z.of_nat (S n) - p)) with (256 ^ Z.of_nat n * 2 ^ (8 - p))
      by (rewrite Kpow, <- Z.pow_add_r by lia; f_equal; lia).
    assert (0 < 2 ^ (8 - p)) by (apply Z.pow_pos_nonneg; lia).
    rewrite <- !Z.div_div, !Z.div_add_l, !(Z.div_small _ (256 ^ _)), !Z.add_0_r by lia.
    unfold prefix_matches. rewrite Z.div_small, Z.mod_small by lia. simpl.
    destruct (Z.eqb_spec p 0) as [->|]; [|by apply mask_byte_eq; [..|lia]].
    unfold byte_ok in *. by rewrite !Z.div_small by (simpl; lia).
Qed.

Section cidr_theorems.
Context `{Asio : AsioIp}.

Definition range_ok (r : CidrRange) : Prop :=
  address_ok (cidr_prefix r) /\
  0 <= cidr_prefix_len r <= (if is_v4 (cidr_prefix r) then 32 else 128).

(** An address is in a range iff the families agree and so do the networks. *)
Definition in_network (a : address) (r : CidrRange) : bool :=
  match a, cidr_prefix r with
  | addr_v4 x, addr_v4 y => same_network 32 (cidr_prefix_len r) x y
  | addr_v6 x _, addr_v6 y _ => same_network 128 (cidr_prefix_len r) x y
  | _, _ => false
  end.

Lemma address_in_cidr_in_network a r :
  address_ok a -> range_ok r -> address_in_cidr a r = in_network a r.
Proof.
  intros Ha [Hr Hl]. unfold address_in_cidr, in_network.
  assert (forall n x y, bytes_ok n x -> bytes_ok n y ->
            0 <= cidr_prefix_len r <= 8 * Z.of_nat n ->
            prefix_matches x y (cidr_prefix_len r) =
            same_network (8 * Z.of_nat n) (cidr_prefix_len r) x y) as H.
  { intros n x y [<- Fx] [Ly Fy] Hn. by apply prefix_matches_same_network. }
  destruct a as [x|x sx], (cidr_prefix r) as [y|y sy]; simpl in *; try done;
    [by apply (H 4%nat)|apply (H 16%nat); tauto].
Qed.

Lemma scan_digits_nonneg s acc v rest :
  0 <= acc -> scan_digits s acc = (v, rest) -> 0 <= v.
Proof.
  revert acc. induction s as [|c s IH]; intros acc Ha; simpl; [by intros [= <- _]|].
  destruct (digit_val c) as [d|] eqn:E; [|by intros [= <- _]].
  apply IH. unfold digit_val in E. case_match eqn:E'; [|done]. case_bool. simplify_eq. lia.
Qed.

Lemma from_chars_u_nonneg hi s v rest : from_chars_u hi s = Some (v, rest) -> 0 <= v <= hi.
Proof.
  unfold from_chars_u. destruct s as [|c s]; [done|].
  destruct (digit_val c); [|done]. destruct (scan_digits _ _) as [v' r'] eqn:E.
  case_match eqn:E'; [|done]. intros [= <- <-]. case_bool.
  split; [eapply scan_digits_nonneg; [|done]; lia|done].
Qed.

Lemma parse_cidr_ok `{!AsioIpLaws Asio} now text r :
  parse_cidr now text = Some r -> range_ok r /\ cidr_text r = text.
Proof.
  unfold parse_cidr. intros H. case_code.
  all: match goal with H : from_chars_u _ _ = _ |- _ => apply from_chars_u_nonneg in H end.
  all: split; [split; [by eapply make_address_ok|]|done].
  all: match goal with H : is_v4 _ = _ |- _ => simpl; rewrite H end.
  all: rewrite Z.gtb_ltb in *; case_bool; lia.
Qed.

End cidr_theorems.

(** ** A concrete parser and printer

    An instance of [AsioIp] that satisfies the laws, used by the witnesses of
    theorems stated for any instance: bytes in decimal, separated by dots for
    IPv4 and by colons for IPv6, where the scope follows a percent sign. *)

Fixpoint print_bytes (sep : ascii) (l : list Z) : str :=
  match l with
  | [] => []
  | [b] => dec_nat b
  | b :: l' => dec_nat b ++ sep :: print_bytes sep l'
  end.

Fixpoint scan_bytes (sep : ascii) (n : nat) (s : str) : option (list Z * str) :=
  match n with
  | O => Some ([], s)
  | S n' =>
      '(b, rest) ← from_chars_u 255 s;
      match n', rest with
      | O, _ => Some ([b], rest)
      | _, c :: rest' => if c == sep then '(l, r) ← scan_bytes sep n' rest'; Some (b :: l, r) else None
      | _, [] => None
      end
  end.

Definition text_of_address (a : address) : str :=
  match a with
  | addr_v4 b => print_bytes "." b
  | addr_v6 b scope => print_bytes ":" b ++ "%"%char :: dec_nat scope
  end.

Definition address_of_text (s : str) : option address :=
  match scan_bytes "." 4 s with
  | Some (b, []) => Some (addr_v4 b)
  | _ =>
      match scan_bytes ":" 16 s with
      | Some (b, "%"%char :: s') =>
          match from_chars_u UINT32_MAX s' with
          | Some (scope, []) => Some (addr_v6 b scope)
          | _ => None
          end
      | _ => None
      end
  end.

(** The loopback, multicast and unspecified ranges of both families, and the
    v4-mapped prefix. *)
Definition mapped_prefix : list Z := [0; 0; 0; 0; 0; 0; 0; 0; 0; 0; 255; 255].

Definition text_asio : AsioIp := {|
  make_address := address_of_text;
  to_string := text_of_address;
  v6_is_v4_mapped b := take 12 b == mapped_prefix;
  make_address_v4_mapped b := drop 12 b;
  is_loopback a := match a with
                   | addr_v4 b => nth 0 b 0 =? 127
                   | addr_v6 b _ => b == replicate 15 0 ++ [1]
                   end;
  is_multicast a := match a with
                    | addr_v4 b => Z.land (nth 0 b 0) 0xF0 =? 0xE0
                    | addr_v6 b _ => nth 0 b 0 =? 255
                    end;
  is_unspecified a := match a with
                      | addr_v4 b => b == replicate 4 0
                      | addr_v6 b _ => b == replicate 16 0
                      end |}.

Lemma scan_print_bytes sep l rest :
  l <> [] -> Forall byte_ok l -> digit_val sep = None ->
  (if rest is c :: _ then digit_val c else None) = None ->
  scan_bytes sep (length l) (print_bytes sep l ++ rest) = Some (l, rest).
Proof.
  intros Hne Hl Hsep Hrest. induction Hl as [|b l Hb Hl IH]; [done|]. clear Hne.
  unfold byte_ok in Hb. destruct l as [|b' l].
  { cbn [length scan_bytes print_bytes]. rewrite from_chars_dec by (done || lia). done. }
  change (print_bytes sep (b :: b' :: l)) with (dec_nat b ++ sep :: print_bytes sep (b' :: l)).
  rewrite <- app_assoc. cbn [length app].
  change (scan_bytes sep (S (S (length l)))) with (fun s =>
    '(b, rest) ← from_chars_u 255 s;
    match rest with
    | c :: rest' => if c == sep then '(l, r) ← scan_bytes sep (length (b' :: l)) rest'; Some (b :: l, r) else None
    | [] => None
    end). cbv beta.
  rewrite from_chars_dec by (done || lia). cbn [mbind option_bind].
  rewrite bool_decide_eq_true_2 by done. by rewrite IH.
Qed.

Lemma scan_bytes_ok sep n s l rest : scan_bytes sep n s = Some (l, rest) -> bytes_ok n l.
Proof.
  revert s l rest. induction n as [|n IH]; intros s l rest; [intros [= <- <-]; by split|].
  cbn [scan_bytes]. destruct (from_chars_u 255 s) as [[b r]|] eqn:E; [|done].
  apply from_chars_u_nonneg in E. assert (byte_ok b) by (unfold byte_ok; lia). cbn.
  destruct n as [|n]; [intros [= <- <-]; split; [done|by apply Forall_singleton]|].
  destruct r as [|c r]; [done|]. case_match; [|done].
  destruct (scan_bytes sep (S n) r) as [[l' r']|] eqn:E'; [|done]. intros [= <- <-].
  destruct (IH _ _ _ E') as [H1 H2]. split; [by simpl; f_equal|by constructor].
Qed.

(** A text with one separator does not scan with another. *)
Lemma scan_wrong_sep sep sep' b l rest n :
  byte_ok b -> digit_val sep' = None -> sep' <> sep ->
  scan_bytes sep (S (S n)) (dec_nat b ++ sep' :: l ++ rest) = None.
Proof.
  intros Hb Hd Hne. unfold byte_ok in Hb. remember (S n) as m. cbn [scan_bytes].
  rewrite from_chars_dec by (done || lia). cbn. subst m.
  by rewrite bool_decide_eq_false_2.
Qed.

#[export] Instance text_asio_laws : AsioIpLaws text_asio.
Proof.
  split.
  - intros [b|b scope]; cbn [make_address to_string text_asio address_ok].
    + intros [Hb Hl]. unfold address_of_text, text_of_address.
      rewrite <- (app_nil_r (print_bytes "." b)), <- Hb, scan_print_bytes; try done.
      by destruct b.
    + intros [[Hb Hl] Hs]. unfold address_of_text, text_of_address.
      destruct b as [|b0 [|b1 b]]; try done. 
      change (print_bytes ":" (b0 :: b1 :: b)) with (dec_nat b0 ++ ":"%char :: print_bytes ":" (b1 :: b)).
      rewrite <- app_assoc. cbn [app]. apply Forall_cons in Hl as Hl'. destruct Hl' as [Hb0 _].
      rewrite (scan_wrong_sep "." ":") by done.
      rewrite app_comm_cons, app_assoc. change (dec_nat b0 ++ ":"%char :: print_bytes ":" (b1 :: b))
        with (print_bytes ":" (b0 :: b1 :: b)).
      rewrite <- Hb, scan_print_bytes by done. unfold UINT32_MAX in *.
      rewrite <- (app_nil_r (dec_nat scope)), from_chars_dec by (done || lia). done.
  - intros s a. cbn [make_address text_asio]. unfold address_of_text. intros H.
    repeat case_match; simplify_eq; cbn [address_ok].
    all: repeat match goal with
      | H : scan_bytes _ _ _ = Some _ |- _ => apply scan_bytes_ok in H
      | H : from_chars_u _ _ = Some _ |- _ => apply from_chars_u_nonneg in H
      end; auto.
  - intros b [Hb Hl] _. cbn [make_address_v4_mapped text_asio]. split; [by rewrite length_drop, Hb|].
    by apply Forall_drop.
Qed.

(** ** Membership in a parsed range *)

(** C28: the range [parse_cidr] accepts contains exactly the addresses of its
    own family whose leading [prefix_len] bits, as a number, are those of the
    range's base address; the length lies within the family's width. *)
Theorem parsed_cidr_membership (Asio : AsioIp) (Laws : AsioIpLaws Asio) now text r a :
  parse_cidr now text = Some r -> address_ok a ->
  range_ok r /\ address_in_cidr a r = in_network a r.
Proof.
  intros Hr Ha. apply parse_cidr_ok in Hr as [Hok _].
  split; [done|]. by apply address_in_cidr_in_network.
Qed.

Lemma parsed_cidr_membership_witness :
  parse_cidr (Asio := text_asio) 0 "10.1.160.7/20" <> None /\
  address_in_cidr (addr_v4 [10; 1; 175; 255]) (make_cidr (addr_v4 [10; 1; 160; 7]) 20 "10.1.160.7/20" 0) = true.
Proof.
  split; [vm_compute; discriminate|].
  destruct (parsed_cidr_membership text_asio text_asio_laws 0 "10.1.160.7/20"
    (make_cidr (addr_v4 [10; 1; 160; 7]) 20 "10.1.160.7/20" 0) (addr_v4 [10; 1; 175; 255])
    ltac:(vm_compute; reflexivity) ltac:(split; [reflexivity|repeat (apply Forall_cons; split; [by vm_compute|]); apply Forall_nil_2]))
    as [_ ->].
  vm_compute. reflexivity.
Defined.
