(* ===== verification/Config.v ===== *)
(** * Config: the runtime configuration

    The structs of [config/runtime_config.hpp] with their default member
    initialisers. [created_at = system_clock::now()] defaults take the clock
    reading as an argument. Ports are 16-bit values, [std::size_t] and [int]
    fields are integers of those types held as [Z]; a [double] is a
    [spec_float]. *)
From S2P Require Import Prelude Text Net.
From Stdlib Require Export SpecFloat.

(** ** Listeners, upstream, sites *)

Record HttpListenerConfig := mkHttp {
  http_enabled : bool; http_bind_host : str; http_port : Z }.
Definition default_http : HttpListenerConfig := mkHttp true "0.0.0.0" 80.

Record HttpsListenerConfig := mkHttps {
  https_enabled : bool; https_bind_host : str; https_port : Z;
  https_cert_file : str; https_key_file : str }.
Definition default_https : HttpsListenerConfig :=
  mkHttps true "0.0.0.0" 443 "certs/dev.crt" "certs/dev.key".

Record UpstreamConfig := mkUpstream { upstream_host : str; upstream_port : Z }.
Definition default_upstream : UpstreamConfig := mkUpstream "127.0.0.1" 8000.

Record SiteConfig := mkSite {
  domain : str; site_enabled : bool; cert_file : str; key_file : str;
  site_upstream : UpstreamConfig }.
Definition default_site : SiteConfig := mkSite [] true [] [] default_upstream.

Record AdminConfig := mkAdmin {
  admin_enabled : bool; admin_bind_host : str; admin_port : Z; static_dir : str;
  tls_cert_file : str; tls_key_file : str }.
Definition default_admin : AdminConfig := mkAdmin true "127.0.0.1" 9000 "webui" [] [].

Record LimitsConfig := mkLimits {
  max_header_bytes : Z; max_body_bytes : Z;
  upstream_connect_timeout : Z; request_timeout : Z }.
Definition default_limits : LimitsConfig :=
  mkLimits (16 * 1024) (10 * 1024 * 1024) 5 30.

(** ** Blacklist and whitelist *)

Record BlacklistEntry := mkEntry {
  value : str; created_at : time_point; created_by : str; source : str }.
#[export] Instance BlacklistEntry_eq_dec : EqDecision BlacklistEntry.
Proof. solve_decision. Defined.

(** The members of [BlacklistConfig] and [WhitelistConfig]; [ip_exact] and
    [ip_cidrs] occur in both. *)
Record BlacklistConfig := mkBlacklist {
  ip_exact : list BlacklistEntry; ip_cidrs : list CidrRange;
  routes : list BlacklistEntry; countries : list BlacklistEntry;
  isps : list BlacklistEntry; user_agents : list BlacklistEntry;
  referrers : list BlacklistEntry; body_patterns : list BlacklistEntry;
  fake_routes : list BlacklistEntry; max_body_size_bytes : Z }.
Definition default_blacklist : BlacklistConfig := mkBlacklist [] [] [] [] [] [] [] [] [] 0.

Record WhitelistConfig := mkWhitelist {
  wl_ip_exact : list BlacklistEntry; wl_ip_cidrs : list CidrRange;
  wl_routes : list BlacklistEntry }.
Definition default_whitelist : WhitelistConfig := mkWhitelist [] [] [].

(** ** Bans, rate limit, methods, switches *)

Definition kMaxBanDurationHours : Z := 24 * 365 * 10.

Record BanConfig := mkBan {
  ban_enabled : bool; threshold : Z; ban_duration_hours : Z; scores : gmap str Z }.
Definition default_scores : gmap str Z := list_to_map [
  (lit "route_blacklist", 50); (lit "user_agent_blacklist", 100);
  (lit "body_blacklist", 75); (lit "body_size_limit", 60);
  (lit "country_blacklist", 25); (lit "isp_blacklist", 25); (lit "speed_check", 40);
  (lit "referrer_blacklist", 50); (lit "fake_route", 100); (lit "method_not_allowed", 50)].
Definition default_ban : BanConfig := mkBan false 100 24 default_scores.

Record MethodCheckConfig := mkMethodCheck { mc_enabled : bool; allowed_methods : list (list ascii) }.
Definition default_method_check : MethodCheckConfig :=
  mkMethodCheck false [lit "GET"; lit "POST"; lit "HEAD"].

Record SpeedCheckConfig := mkSpeed { sc_enabled : bool; max_requests : Z; window_seconds : Z }.
Definition default_speed_check : SpeedCheckConfig := mkSpeed false 20 10.

Record EmergencyOffConfig := mkEmergency { eo_enabled : bool }.
Definition default_emergency_off : EmergencyOffConfig := mkEmergency false.

(** ** Pages, files, GeoIP, globe, security *)

Record StatusPageEntry := mkStatusPage { code : Z; html : str; sp_created_at : time_point }.

Record ResponsePagesConfig := mkPages {
  blocked_html : str; banned_html : str; status_pages : list StatusPageEntry }.
Definition default_pages : ResponsePagesConfig := mkPages [] [] [].

Record RobotsTxtConfig := mkRobots { custom_content : str }.

Record RequestLogConfig := mkRequestLogConfig { rl_enabled : bool; csv_path : str }.
Definition default_request_log : RequestLogConfig := mkRequestLogConfig false "config/requests.csv".

Record GeoIpConfig := mkGeoIp { mmdb_path : str; asn_mmdb_path : str }.

Record GlobeConfig := mkGlobe {
  public_enabled : bool; public_bind_host : str; public_port : Z;
  public_tls_cert_file : str; public_tls_key_file : str;
  server_lat : option spec_float; server_lon : option spec_float;
  auto_detect_server_location : bool; history_size : Z }.
Definition default_globe : GlobeConfig :=
  mkGlobe false "0.0.0.0" 9443 [] [] None None true 500.

Record SecurityConfig := mkSecurity { require_2fa : bool }.
Definition default_security : SecurityConfig := mkSecurity false.

(** ** The whole configuration *)

Record RuntimeConfig := mkRuntime {
  http : HttpListenerConfig; https : HttpsListenerConfig; upstream : UpstreamConfig;
  sites : list SiteConfig; admin : AdminConfig; limits : LimitsConfig;
  blacklist : BlacklistConfig; whitelist : WhitelistConfig; ban : BanConfig;
  speed_check : SpeedCheckConfig; method_check : MethodCheckConfig;
  emergency_off : EmergencyOffConfig; pages : ResponsePagesConfig;
  request_log : RequestLogConfig; robots_txt : RobotsTxtConfig;
  geoip : GeoIpConfig; globe : GlobeConfig; security : SecurityConfig }.

Definition default_config : RuntimeConfig :=
  mkRuntime default_http default_https default_upstream [] default_admin default_limits
    default_blacklist default_whitelist default_ban default_speed_check
    default_method_check default_emergency_off default_pages default_request_log
    (mkRobots []) (mkGeoIp [] []) default_globe default_security.

(** ** Member updates *)

Definition set_sites (v : list SiteConfig) (c : RuntimeConfig) : RuntimeConfig :=
    mkRuntime (http c) (https c) (upstream c) v (admin c) (limits c) (blacklist c)
    (whitelist c) (ban c) (speed_check c) (method_check c) (emergency_off c) (pages c)
    (request_log c) (robots_txt c) (geoip c) (globe c) (security c).
Definition set_blacklist (v : BlacklistConfig) (c : RuntimeConfig) : RuntimeConfig :=
    mkRuntime (http c) (https c) (upstream c) (sites c) (admin c) (limits c) v (whitelist
    c) (ban c) (speed_check c) (method_check c) (emergency_off c) (pages c) (request_log
    c) (robots_txt c) (geoip c) (globe c) (security c).
Definition set_whitelist (v : WhitelistConfig) (c : RuntimeConfig) : RuntimeConfig :=
    mkRuntime (http c) (https c) (upstream c) (sites c) (admin c) (limits c) (blacklist c)
    v (ban c) (speed_check c) (method_check c) (emergency_off c) (pages c) (request_log c)
    (robots_txt c) (geoip c) (globe c) (security c).
Definition set_ban (v : BanConfig) (c : RuntimeConfig) : RuntimeConfig :=
    mkRuntime (http c) (https c) (upstream c) (sites c) (admin c) (limits c) (blacklist c)
    (whitelist c) v (speed_check c) (method_check c) (emergency_off c) (pages c)
    (request_log c) (robots_txt c) (geoip c) (globe c) (security c).
Definition set_speed_check (v : SpeedCheckConfig) (c : RuntimeConfig) : RuntimeConfig :=
    mkRuntime (http c) (https c) (upstream c) (sites c) (admin c) (limits c) (blacklist c)
    (whitelist c) (ban c) v (method_check c) (emergency_off c) (pages c) (request_log c)
    (robots_txt c) (geoip c) (globe c) (security c).
Definition set_method_check (v : MethodCheckConfig) (c : RuntimeConfig) : RuntimeConfig :=
    mkRuntime (http c) (https c) (upstream c) (sites c) (admin c) (limits c) (blacklist c)
    (whitelist c) (ban c) (speed_check c) v (emergency_off c) (pages c) (request_log c)
    (robots_txt c) (geoip c) (globe c) (security c).
Definition set_emergency_off (v : EmergencyOffConfig) (c : RuntimeConfig) : RuntimeConfig :=
    mkRuntime (http c) (https c) (upstream c) (sites c) (admin c) (limits c) (blacklist c)
    (whitelist c) (ban c) (speed_check c) (method_check c) v (pages c) (request_log c)
    (robots_txt c) (geoip c) (globe c) (security c).
Definition set_pages (v : ResponsePagesConfig) (c : RuntimeConfig) : RuntimeConfig :=
    mkRuntime (http c) (https c) (upstream c) (sites c) (admin c) (limits c) (blacklist c)
    (whitelist c) (ban c) (speed_check c) (method_check c) (emergency_off c) v
    (request_log c) (robots_txt c) (geoip c) (globe c) (security c).
Definition set_request_log (v : RequestLogConfig) (c : RuntimeConfig) : RuntimeConfig :=
    mkRuntime (http c) (https c) (upstream c) (sites c) (admin c) (limits c) (blacklist c)
    (whitelist c) (ban c) (speed_check c) (method_check c) (emergency_off c) (pages c) v
    (robots_txt c) (geoip c) (globe c) (security c).
Definition set_robots_txt (v : RobotsTxtConfig) (c : RuntimeConfig) : RuntimeConfig :=
    mkRuntime (http c) (https c) (upstream c) (sites c) (admin c) (limits c) (blacklist c)
    (whitelist c) (ban c) (speed_check c) (method_check c) (emergency_off c) (pages c)
    (request_log c) v (geoip c) (globe c) (security c).
Definition set_geoip (v : GeoIpConfig) (c : RuntimeConfig) : RuntimeConfig :=
    mkRuntime (http c) (https c) (upstream c) (sites c) (admin c) (limits c) (blacklist c)
    (whitelist c) (ban c) (speed_check c) (method_check c) (emergency_off c) (pages c)
    (request_log c) (robots_txt c) v (globe c) (security c).
Definition set_globe (v : GlobeConfig) (c : RuntimeConfig) : RuntimeConfig :=
    mkRuntime (http c) (https c) (upstream c) (sites c) (admin c) (limits c) (blacklist c)
    (whitelist c) (ban c) (speed_check c) (method_check c) (emergency_off c) (pages c)
    (request_log c) (robots_txt c) (geoip c) v (security c).
Definition set_security (v : SecurityConfig) (c : RuntimeConfig) : RuntimeConfig :=
    mkRuntime (http c) (https c) (upstream c) (sites c) (admin c) (limits c) (blacklist c)
    (whitelist c) (ban c) (speed_check c) (method_check c) (emergency_off c) (pages c)
    (request_log c) (robots_txt c) (geoip c) (globe c) v.

Definition set_ip_exact (v : list BlacklistEntry) (c : BlacklistConfig) : BlacklistConfig :=
    mkBlacklist v (ip_cidrs c) (routes c) (countries c) (isps c) (user_agents c)
    (referrers c) (body_patterns c) (fake_routes c) (max_body_size_bytes c).
Definition set_ip_cidrs (v : list CidrRange) (c : BlacklistConfig) : BlacklistConfig :=
    mkBlacklist (ip_exact c) v (routes c) (countries c) (isps c) (user_agents c)
    (referrers c) (body_patterns c) (fake_routes c) (max_body_size_bytes c).
Definition set_routes (v : list BlacklistEntry) (c : BlacklistConfig) : BlacklistConfig :=
    mkBlacklist (ip_exact c) (ip_cidrs c) v (countries c) (isps c) (user_agents c)
    (referrers c) (body_patterns c) (fake_routes c) (max_body_size_bytes c).
Definition set_countries (v : list BlacklistEntry) (c : BlacklistConfig) : BlacklistConfig :=
    mkBlacklist (ip_exact c) (ip_cidrs c) (routes c) v (isps c) (user_agents c) (referrers
    c) (body_patterns c) (fake_routes c) (max_body_size_bytes c).
Definition set_isps (v : list BlacklistEntry) (c : BlacklistConfig) : BlacklistConfig :=
    mkBlacklist (ip_exact c) (ip_cidrs c) (routes c) (countries c) v (user_agents c)
    (referrers c) (body_patterns c) (fake_routes c) (max_body_size_bytes c).
Definition set_user_agents (v : list BlacklistEntry) (c : BlacklistConfig) : BlacklistConfig :=
    mkBlacklist (ip_exact c) (ip_cidrs c) (routes c) (countries c) (isps c) v (referrers
    c) (body_patterns c) (fake_routes c) (max_body_size_bytes c).
Definition set_referrers (v : list BlacklistEntry) (c : BlacklistConfig) : BlacklistConfig :=
    mkBlacklist (ip_exact c) (ip_cidrs c) (routes c) (countries c) (isps c) (user_agents
    c) v (body_patterns c) (fake_routes c) (max_body_size_bytes c).
Definition set_body_patterns (v : list BlacklistEntry) (c : BlacklistConfig) : BlacklistConfig :=
    mkBlacklist (ip_exact c) (ip_cidrs c) (routes c) (countries c) (isps c) (user_agents
    c) (referrers c) v (fake_routes c) (max_body_size_bytes c).
Definition set_fake_routes (v : list BlacklistEntry) (c : BlacklistConfig) : BlacklistConfig :=
    mkBlacklist (ip_exact c) (ip_cidrs c) (routes c) (countries c) (isps c) (user_agents
    c) (referrers c) (body_patterns c) v (max_body_size_bytes c).
Definition set_max_body_size_bytes (v : Z) (c : BlacklistConfig) : BlacklistConfig :=
    mkBlacklist (ip_exact c) (ip_cidrs c) (routes c) (countries c) (isps c) (user_agents
    c) (referrers c) (body_patterns c) (fake_routes c) v.

Definition set_wl_ip_exact (v : list BlacklistEntry) (c : WhitelistConfig) : WhitelistConfig :=
    mkWhitelist v (wl_ip_cidrs c) (wl_routes c).
Definition set_wl_ip_cidrs (v : list CidrRange) (c : WhitelistConfig) : WhitelistConfig :=
    mkWhitelist (wl_ip_exact c) v (wl_routes c).
Definition set_wl_routes (v : list BlacklistEntry) (c : WhitelistConfig) : WhitelistConfig :=
    mkWhitelist (wl_ip_exact c) (wl_ip_cidrs c) v.

Definition set_domain (v : str) (c : SiteConfig) : SiteConfig :=
    mkSite v (site_enabled c) (cert_file c) (key_file c) (site_upstream c).
Definition set_site_enabled (v : bool) (c : SiteConfig) : SiteConfig :=
    mkSite (domain c) v (cert_file c) (key_file c) (site_upstream c).
Definition set_cert_file (v : str) (c : SiteConfig) : SiteConfig :=
    mkSite (domain c) (site_enabled c) v (key_file c) (site_upstream c).
Definition set_key_file (v : str) (c : SiteConfig) : SiteConfig :=
    mkSite (domain c) (site_enabled c) (cert_file c) v (site_upstream c).
Definition set_site_upstream (v : UpstreamConfig) (c : SiteConfig) : SiteConfig :=
    mkSite (domain c) (site_enabled c) (cert_file c) (key_file c) v.

Definition set_blocked_html (v : str) (c : ResponsePagesConfig) : ResponsePagesConfig :=
    mkPages v (banned_html c) (status_pages c).
Definition set_banned_html (v : str) (c : ResponsePagesConfig) : ResponsePagesConfig :=
    mkPages (blocked_html c) v (status_pages c).
Definition set_status_pages (v : list StatusPageEntry) (c : ResponsePagesConfig) : ResponsePagesConfig :=
    mkPages (blocked_html c) (banned_html c) v.

Definition set_ban_enabled (v : bool) (c : BanConfig) : BanConfig :=
    mkBan v (threshold c) (ban_duration_hours c) (scores c).
Definition set_threshold (v : Z) (c : BanConfig) : BanConfig :=
    mkBan (ban_enabled c) v (ban_duration_hours c) (scores c).
Definition set_ban_duration_hours (v : Z) (c : BanConfig) : BanConfig :=
    mkBan (ban_enabled c) (threshold c) v (scores c).
Definition set_scores (v : gmap str Z) (c : BanConfig) : BanConfig :=
    mkBan (ban_enabled c) (threshold c) (ban_duration_hours c) v.

Definition set_sc_enabled (v : bool) (c : SpeedCheckConfig) : SpeedCheckConfig :=
    mkSpeed v (max_requests c) (window_seconds c).
Definition set_max_requests (v : Z) (c : SpeedCheckConfig) : SpeedCheckConfig :=
    mkSpeed (sc_enabled c) v (window_seconds c).
Definition set_window_seconds (v : Z) (c : SpeedCheckConfig) : SpeedCheckConfig :=
    mkSpeed (sc_enabled c) (max_requests c) v.

Definition set_mc_enabled (v : bool) (c : MethodCheckConfig) : MethodCheckConfig :=
    mkMethodCheck v (allowed_methods c).
Definition set_allowed_methods (v : list (list ascii)) (c : MethodCheckConfig) : MethodCheckConfig :=
    mkMethodCheck (mc_enabled c) v.

Definition set_public_enabled (v : bool) (c : GlobeConfig) : GlobeConfig :=
    mkGlobe v (public_bind_host c) (public_port c) (public_tls_cert_file c)
    (public_tls_key_file c) (server_lat c) (server_lon c) (auto_detect_server_location c)
    (history_size c).
Definition set_public_bind_host (v : str) (c : GlobeConfig) : GlobeConfig :=
    mkGlobe (public_enabled c) v (public_port c) (public_tls_cert_file c)
    (public_tls_key_file c) (server_lat c) (server_lon c) (auto_detect_server_location c)
    (history_size c).
Definition set_public_port (v : Z) (c : GlobeConfig) : GlobeConfig :=
    mkGlobe (public_enabled c) (public_bind_host c) v (public_tls_cert_file c)
    (public_tls_key_file c) (server_lat c) (server_lon c) (auto_detect_server_location c)
    (history_size c).
Definition set_public_tls_cert_file (v : str) (c : GlobeConfig) : GlobeConfig :=
    mkGlobe (public_enabled c) (public_bind_host c) (public_port c) v (public_tls_key_file
    c) (server_lat c) (server_lon c) (auto_detect_server_location c) (history_size c).
Definition set_public_tls_key_file (v : str) (c : GlobeConfig) : GlobeConfig :=
    mkGlobe (public_enabled c) (public_bind_host c) (public_port c) (public_tls_cert_file
    c) v (server_lat c) (server_lon c) (auto_detect_server_location c) (history_size c).
Definition set_server_lat (v : option spec_float) (c : GlobeConfig) : GlobeConfig :=
    mkGlobe (public_enabled c) (public_bind_host c) (public_port c) (public_tls_cert_file
    c) (public_tls_key_file c) v (server_lon c) (auto_detect_server_location c)
    (history_size c).
Definition set_server_lon (v : option spec_float) (c : GlobeConfig) : GlobeConfig :=
    mkGlobe (public_enabled c) (public_bind_host c) (public_port c) (public_tls_cert_file
    c) (public_tls_key_file c) (server_lat c) v (auto_detect_server_location c)
    (history_size c).
Definition set_auto_detect_server_location (v : bool) (c : GlobeConfig) : GlobeConfig :=
    mkGlobe (public_enabled c) (public_bind_host c) (public_port c) (public_tls_cert_file
    c) (public_tls_key_file c) (server_lat c) (server_lon c) v (history_size c).
Definition set_history_size (v : Z) (c : GlobeConfig) : GlobeConfig :=
    mkGlobe (public_enabled c) (public_bind_host c) (public_port c) (public_tls_cert_file
    c) (public_tls_key_file c) (server_lat c) (server_lon c) (auto_detect_server_location
    c) v.

