(* ===== verification/RateTracker.v ===== *)
(** * RateTracker: the sliding window behind the speed check

    Models [history/request_rate_tracker.cpp]: per-IP queues of request
    times, trimmed on each [record] and swept once per window. The
    specification is the list of all calls so far: [record] returns how many
    of them came from the same IP inside the window. *)
From S2P Require Import Prelude.

(** ** The tracker *)

Record RequestRateTracker := mkRate {
  history_ : gmap str (list Z);
  last_sweep_ : Z }.

Definition rate_init : RequestRateTracker := mkRate ∅ 0.

(** An entry with nothing left inside the window. *)
Definition stale (cutoff : Z) (timestamps : list Z) : bool :=
  match last timestamps with
  | None => true
  | Some t => t <? cutoff
  end.

Definition sweep_locked (cutoff : Z) (tr : RequestRateTracker) : RequestRateTracker :=
  mkRate (filter (fun kv => stale cutoff (snd kv) = false) (history_ tr)) (last_sweep_ tr).

(** [while (!empty() && front() < cutoff) pop_front();] *)
Fixpoint pop_front_while (cutoff : Z) (timestamps : list Z) : list Z :=
  match timestamps with
  | t :: rest => if t <? cutoff then pop_front_while cutoff rest else timestamps
  | [] => []
  end.

(** [window] is in seconds. *)
Definition record (ip : str) (now window : Z) : M RequestRateTracker nat :=
  fun tr =>
    let window_ns := window * ns_per_s in
    let cutoff := tp_add now (- window_ns) in
    let tr1 :=
      if tp_add now (- last_sweep_ tr) >=? window_ns
      then mkRate (history_ (sweep_locked cutoff tr)) now
      else tr in
    let timestamps := default [] (history_ tr1 !! ip) ++ [now] in
    let timestamps := pop_front_while cutoff timestamps in
    (mkRate (<[ip := timestamps]> (history_ tr1)) (last_sweep_ tr1),
     Ok (length timestamps)).

Definition tracked_ips (tr : RequestRateTracker) : nat := size (history_ tr).

(** ** The window specification *)

Section window.
(** The configured window in seconds: an [int], positive. *)
Context (window : Z) (Hwindow : 0 < window <= INT_MAX).
Let w : Z := window * ns_per_s.

(** A call is the client's address text and the steady-clock reading. *)
Definition run_calls (calls : list (str * Z)) : RequestRateTracker :=
  foldl (fun tr c => fst (record (fst c) (snd c) window tr)) rate_init calls.

(** The call times of one address, oldest first. *)
Definition times (ip : str) (calls : list (str * Z)) : list Z :=
  snd <$> filter (fun c => fst c = ip) calls.

Definition since (t0 : Z) (l : list Z) : list Z := filter (fun t => t0 <= t) l.

Definition hist (tr : RequestRateTracker) (ip : str) : list Z := default [] (history_ tr !! ip).

(** The clock readings of the calls never go back. *)
Definition calls_ok (calls : list (str * Z)) : Prop :=
  StronglySorted Z.le (snd <$> calls) /\ Forall clock_ok (snd <$> calls).

Lemma calls_ok_check calls :
  sorted_le (snd <$> calls) && forallb clock_okb (snd <$> calls) = true -> calls_ok calls.
Proof. intros [H1 H2]%andb_true_iff. split; [by apply sorted_le_sound|by apply clock_okb_sound]. Qed.

(** What the queues hold, when the last call was at [now]. *)
Record rate_inv (calls : list (str * Z)) (now : Z) (tr : RequestRateTracker) : Prop := {
  inv_window ip : since (now - w) (times ip calls) = since (now - w) (hist tr ip);
  inv_sorted ip : StronglySorted Z.le (hist tr ip);
  inv_past ip : Forall (fun t => t <= now) (hist tr ip);
  inv_sweep_le : last_sweep_ tr <= now;
  inv_sweep_pos : 0 <= last_sweep_ tr;
  inv_swept : now - last_sweep_ tr < w \/ history_ tr = ∅;
  inv_recent ip l : history_ tr !! ip = Some l ->
    exists t, t ∈ l /\ (ip, t) ∈ calls /\ last_sweep_ tr - w <= t }.

Lemma since_since t0 t1 l : t0 <= t1 -> since t1 (since t0 l) = since t1 l.
Proof.
  intros H. unfold since. rewrite list_filter_filter. apply list_filter_iff. intros x. lia.
Qed.

Lemma since_app t0 l k : since t0 (l ++ k) = since t0 l ++ since t0 k.
Proof. apply filter_app. Qed.

Lemma since_all t0 l : Forall (fun t => t0 <= t) l -> since t0 l = l.
Proof.
  unfold since. induction 1; [done|]. rewrite filter_cons_True by done. by f_equal.
Qed.

Lemma since_none t0 l : Forall (fun t => t < t0) l -> since t0 l = [].
Proof.
  unfold since. induction 1; [done|]. rewrite filter_cons_False by lia. done.
Qed.

Lemma pop_front_while_since t0 l :
  StronglySorted Z.le l -> pop_front_while t0 l = since t0 l.
Proof.
  intros Hs. induction Hs as [|x l Hs IH Hx]; [done|]. simpl.
  destruct (Z.ltb_spec x t0).
  - unfold since. by rewrite IH, filter_cons_False by lia.
  - symmetry. apply since_all. constructor; [done|]. eapply Forall_impl; [done|]. simpl. lia.
Qed.

Lemma stale_all_old t0 l :
  StronglySorted Z.le l -> stale t0 l = true -> Forall (fun t => t < t0) l.
Proof.
  intros Hs. induction Hs as [|x l Hs IH Hx]; [by constructor|]. unfold stale.
  destruct l as [|y l]; simpl.
  - intros H. case_bool. by repeat constructor.
  - intros H. specialize (IH H). constructor; [|done].
    apply Forall_cons in IH as [? _]. apply Forall_cons in Hx as [? _]. lia.
Qed.

Lemma stale_false_last t0 l :
  stale t0 l = false -> exists t, t ∈ l /\ t0 <= t.
Proof.
  unfold stale. destruct (last l) as [t|] eqn:E; [|done]. intros H. case_bool.
  exists t. split; [by apply last_Some_elem_of|done].
Qed.

Lemma sorted_snoc l t :
  StronglySorted Z.le l -> Forall (fun x => x <= t) l -> StronglySorted Z.le (l ++ [t]).
Proof.
  induction 1 as [|x l Hs IH Hx]; intros Hf; simpl; [by repeat constructor|].
  apply Forall_cons in Hf as [Hxt Hf]. constructor; [by apply IH|].
  apply Forall_app. by repeat constructor.
Qed.

Lemma sorted_since t0 l : StronglySorted Z.le l -> StronglySorted Z.le (since t0 l).
Proof.
  induction 1 as [|x l Hs IH Hx]; [constructor|]. unfold since.
  destruct (decide (t0 <= x)); [rewrite filter_cons_True by done|by rewrite filter_cons_False by done].
  constructor; [done|]. apply Forall_forall. intros y [_ Hy]%list_elem_of_filter.
  by eapply Forall_forall in Hx.
Qed.

Lemma hist_sweep tr t0 ip :
  hist (sweep_locked t0 tr) ip = if stale t0 (hist tr ip) then [] else hist tr ip.
Proof.
  unfold hist, sweep_locked. simpl. rewrite map_lookup_filter.
  destruct (history_ tr !! ip) as [l|]; simpl; [|done].
  case_guard; simpl in *; destruct (stale t0 l); done.
Qed.

Lemma rate_inv_init now : 0 <= now -> rate_inv [] now rate_init.
Proof.
  intros. split; try done; intros; try (by constructor); try (by right); simpl in *; simplify_map_eq.
Qed.

Lemma length_since_times t0 ip calls :
  length (since t0 (times ip calls)) =
  length (filter (fun c => fst c = ip /\ t0 <= snd c) calls).
Proof.
  unfold since, times. induction calls as [|[ip' t] calls IH]; [done|].
  destruct (decide (ip' = ip)) as [->|Hip].
  - rewrite filter_cons_True by done. rewrite fmap_cons.
    destruct (decide (t0 <= t)).
    + rewrite !filter_cons_True by done. simpl. by f_equal.
    + rewrite !filter_cons_False by (simpl; tauto). done.
  - rewrite !filter_cons_False by (simpl; tauto). done.
Qed.

Lemma times_snoc ip calls ip' t :
  times ip (calls ++ [(ip', t)]) = times ip calls ++ (if decide (ip' = ip) then [t] else []).
Proof.
  unfold times. rewrite filter_app, fmap_app. f_equal.
  destruct (decide (ip' = ip)); [by rewrite filter_cons_True|by rewrite filter_cons_False].
Qed.

Definition after_sweep (now : Z) (tr : RequestRateTracker) : RequestRateTracker :=
  if tp_add now (- last_sweep_ tr) >=? w
  then mkRate (history_ (sweep_locked (tp_add now (- w)) tr)) now else tr.

(** Moving the clock forward and sweeping keeps the window's contents. *)
Lemma after_sweep_inv calls now0 now tr :
  rate_inv calls now0 tr -> now0 <= now -> clock_ok now ->
  rate_inv calls now (after_sweep now tr) /\ now - last_sweep_ (after_sweep now tr) < w.
Proof.
  intros [Hw Hs Hp Hle Hpos Hsw Hr] Hnow Hck.
  assert (0 < w < 2 ^ 62) as Hw62 by (unfold w, ns_per_s; unfold INT_MAX in *; lia).
  assert (tp_add now (- w) = now - w) as Ecut.
  { apply swrap64_small. unfold clock_ok, INT64_MIN, INT64_MAX in *. lia. }
  assert (tp_add now (- last_sweep_ tr) = now - last_sweep_ tr) as Eel.
  { apply swrap64_small. unfold clock_ok, INT64_MIN, INT64_MAX in *. lia. }
  unfold after_sweep. rewrite Ecut, Eel, Z.geb_leb.
  assert (forall ip, since (now - w) (times ip calls) = since (now - w) (hist tr ip)) as Hw'.
  { intros ip. rewrite <- (since_since (now0 - w)), Hw by lia. apply since_since. lia. }
  assert (forall ip, Forall (fun t => t <= now) (hist tr ip)) as Hp'.
  { intros ip. eapply Forall_impl; [apply Hp|]. simpl. lia. }
  destruct (Z.leb_spec w (now - last_sweep_ tr)) as [Hge|Hlt].
  - set (tr' := mkRate _ now).
    assert (forall ip, hist tr' ip = if stale (now - w) (hist tr ip) then [] else hist tr ip) as Eh
      by (intros ip; apply hist_sweep).
    split; [|simpl; lia]. split; try (simpl; lia).
    + intros ip. rewrite Hw', Eh. destruct (stale _ _) eqn:E; [|done].
      apply stale_all_old in E; [|done]. by apply since_none.
    + intros ip. rewrite Eh. destruct (stale _ _); [constructor|done].
    + intros ip. rewrite Eh. destruct (stale _ _); [constructor|done].
    + intros ip l [Hl Hst]%map_lookup_filter_Some. simpl in Hst.
      apply stale_false_last in Hst as (t & Ht & Hge').
      assert (t ∈ since (now - w) (times ip calls)) as Hin.
      { rewrite Hw'. apply list_elem_of_filter. unfold hist. by rewrite Hl. }
      exists t. split_and!; [done| |done].
      apply list_elem_of_filter in Hin as [_ Hin]. unfold times in Hin.
      apply list_elem_of_fmap in Hin as ([ip' t'] & -> & Hin).
      apply list_elem_of_filter in Hin as [Hip Hin]. simpl in *. by subst.
  - split; [|lia]. split; try done; try lia.
Qed.

Lemma record_unfold ip now tr :
  record ip now window tr =
  let tr1 := after_sweep now tr in
  let ts := pop_front_while (tp_add now (- w)) (hist tr1 ip ++ [now]) in
  (mkRate (<[ip := ts]> (history_ tr1)) (last_sweep_ tr1), Ok (length ts)).
Proof. reflexivity. Qed.

(** One call: the returned count is the specification's, and the invariant
    is kept. *)
Lemma record_inv calls now0 ip now tr :
  rate_inv calls now0 tr -> now0 <= now -> clock_ok now ->
  let '(tr', n) := record ip now window tr in
  n = Ok (length (since (now - w) (times ip (calls ++ [(ip, now)])))) /\
  rate_inv (calls ++ [(ip, now)]) now tr' /\ now - last_sweep_ tr' < w.
Proof.
  intros Hinv Hnow Hck. destruct (after_sweep_inv _ _ _ _ Hinv Hnow Hck) as [Hinv' Hlt].
  rewrite record_unfold. cbv zeta. set (tr1 := after_sweep now tr) in *.
  assert (tp_add now (- w) = now - w) as ->.
  { assert (0 < w < 2 ^ 62) by (unfold w, ns_per_s; unfold INT_MAX in *; lia).
    apply swrap64_small. unfold clock_ok, INT64_MIN, INT64_MAX in *. lia. }
  destruct Hinv' as [Hw Hs Hp Hle Hpos Hsw Hr].
  assert (StronglySorted Z.le (hist tr1 ip ++ [now])) as Hsort by (by apply sorted_snoc).
  rewrite pop_front_while_since by done.
  assert (0 < w) by (unfold w, ns_per_s; lia).
  assert (forall ip', since (now - w) (times ip' (calls ++ [(ip, now)])) =
    since (now - w) (hist tr1 ip' ++ (if decide (ip = ip') then [now] else []))) as Ew.
  { intros ip'. rewrite times_snoc, !since_app, Hw. done. }
  set (ts := since (now - w) (hist tr1 ip ++ [now])).
  assert (forall ip', hist (mkRate (<[ip:=ts]> (history_ tr1)) (last_sweep_ tr1)) ip' =
    if decide (ip = ip') then ts else hist tr1 ip') as Eh.
  { intros ip'. unfold hist. simpl. rewrite lookup_insert. by case_decide. }
  split_and!; [by rewrite Ew, decide_True| |done].
  split; try done.
  - intros ip'. rewrite Ew, Eh. case_decide as E; [subst ip'|by rewrite app_nil_r].
    unfold ts. by rewrite since_since.
  - intros ip'. rewrite Eh. case_decide; [by apply sorted_since|done].
  - intros ip'. rewrite Eh. case_decide; [|done]. apply Forall_forall.
    intros t [_ Ht]%list_elem_of_filter. revert t Ht. apply Forall_forall, Forall_app.
    split; [done|by repeat constructor].
  - by left.
  - intros ip' l. simpl. rewrite lookup_insert. case_decide as E.
    + intros [= <-]. subst ip'. exists now. split_and!; [|by apply elem_of_snoc; right|simpl; lia].
      apply list_elem_of_filter. split; [lia|by apply elem_of_snoc; right].
    + intros Hl. destruct (Hr _ _ Hl) as (t & ? & ? & ?). exists t.
      split_and!; [done|by apply elem_of_snoc; left|done].
Qed.

Lemma run_calls_snoc calls c :
  run_calls (calls ++ [c]) = fst (record (fst c) (snd c) window (run_calls calls)).
Proof. unfold run_calls. by rewrite foldl_app. Qed.

Lemma calls_ok_snoc calls ip now :
  calls_ok (calls ++ [(ip, now)]) ->
  calls_ok calls /\ clock_ok now /\ Forall (fun t => t <= now) (snd <$> calls).
Proof.
  unfold calls_ok. rewrite fmap_app. intros [Hs [Hc Hn]%Forall_app].
  apply StronglySorted_app in Hs as (Hle & Hs & _).
  apply Forall_cons in Hn as [Hn _]. split_and!; try done.
  apply Forall_forall. intros t Ht. apply Hle; [done|by constructor].
Qed.

(** The time of the last call, the epoch when there was none. *)
Definition last_call (calls : list (str * Z)) : Z := default 0 (snd <$> last calls).

Lemma run_calls_inv calls :
  calls_ok calls ->
  rate_inv calls (last_call calls) (run_calls calls) /\
  (calls <> [] -> last_call calls - last_sweep_ (run_calls calls) < w).
Proof.
  induction calls as [|[ip now] calls IH] using rev_ind; intros Hok.
  - split; [by apply rate_inv_init|done].
  - destruct (calls_ok_snoc _ _ _ Hok) as (Hok' & Hck & Hle).
    destruct (IH Hok') as [Hinv _]. rewrite run_calls_snoc. cbn [fst snd].
    assert (last_call (calls ++ [(ip, now)]) = now) as -> by (unfold last_call; by rewrite last_snoc).
    assert (last_call calls <= now) as Hnow.
    { unfold last_call. destruct (last calls) as [c|] eqn:E; simpl.
      - eapply Forall_forall in Hle; [done|]. apply list_elem_of_fmap_2.
        by apply last_Some_elem_of.
      - unfold clock_ok in Hck. lia. }
    pose proof (record_inv _ _ ip now _ Hinv Hnow Hck) as H.
    destruct (record ip now window (run_calls calls)) as [tr' n]. simpl.
    destruct H as (_ & Hinv' & Hlt). split; [done|by intros _].
Qed.

Lemma record_count calls ip now :
  calls_ok (calls ++ [(ip, now)]) ->
  snd (record ip now window (run_calls calls)) =
  Ok (length (filter (fun c => fst c = ip /\ now - w <= snd c) (calls ++ [(ip, now)]))).
Proof.
  intros Hok. destruct (calls_ok_snoc _ _ _ Hok) as (Hok' & Hck & Hle).
  destruct (run_calls_inv calls Hok') as [Hinv _].
  assert (last_call calls <= now) as Hnow.
  { unfold last_call. destruct (last calls) as [c|] eqn:E; simpl.
    - eapply Forall_forall in Hle; [done|]. apply list_elem_of_fmap_2.
      by apply last_Some_elem_of.
    - unfold clock_ok in Hck. lia. }
  pose proof (record_inv _ _ ip now _ Hinv Hnow Hck) as H.
  destruct (record ip now window (run_calls calls)) as [tr' n]. simpl in *.
  destruct H as (-> & _). f_equal. apply length_since_times.
Qed.

(** C0: [RequestRateTracker::record], called with the configured window on a
    clock that never goes back, returns exactly the number of requests of
    that IP (this one included) whose time lies inside the window: trimming
    and the once-per-window sweep never lose or keep a request wrongly. *)
Theorem record_counts_window calls ip now :
  calls_ok (calls ++ [(ip, now)]) ->
  snd (record ip now window (run_calls calls)) =
  Ok (length (filter (fun c => fst c = ip /\ now - w <= snd c) (calls ++ [(ip, now)]))).
Proof. apply record_count. Qed.

(** The tracker's memory is bounded by recent traffic: after any call,
    there are at most as many tracked addresses as there were requests in
    the last two windows, however many addresses were ever seen. *)
Theorem tracked_ips_bounded calls ip now :
  calls_ok (calls ++ [(ip, now)]) ->
  (tracked_ips (run_calls (calls ++ [(ip, now)])) <=
   length (filter (fun c => now - 2 * w < snd c)%Z (calls ++ [(ip, now)])))%nat.
Proof.
  intros Hok. destruct (run_calls_inv _ Hok) as [Hinv Hlt].
  specialize (Hlt ltac:(by destruct calls)). revert Hinv Hlt.
  unfold last_call. rewrite last_snoc. simpl.
  generalize (run_calls (calls ++ [(ip, now)])) as tr.
  generalize (calls ++ [(ip, now)]) as log. intros log tr Hinv Hlt.
  unfold tracked_ips. rewrite <- (length_fmap fst).
  apply dom_size_le. intros ip' l Hl.
  destruct (inv_recent _ _ _ Hinv _ _ Hl) as (t & _ & Hin & Ht).
  apply list_elem_of_fmap. exists (ip', t). split; [done|].
  apply list_elem_of_filter. split; [simpl; lia|done].
Qed.
End window.

Definition example_calls : list (str * Z) :=
  [(lit "1.2.3.4", 100 * ns_per_s); (lit "9.9.9.9", 101 * ns_per_s); (lit "1.2.3.4", 105 * ns_per_s)].

Lemma record_counts_window_witness :
  snd (record "1.2.3.4" (112 * ns_per_s) 10 (run_calls 10 example_calls)) = Ok 2%nat.
Proof.
  apply (record_counts_window 10 ltac:(unfold INT_MAX; lia) example_calls "1.2.3.4" (112 * ns_per_s)).
  by apply calls_ok_check.
Defined.

Lemma tracked_ips_bounded_witness :
  (tracked_ips (run_calls 10 ([(lit "a", 0); (lit "b", 1 * ns_per_s)] ++ [(lit "c", 40 * ns_per_s)])%Z)
   <= 1)%nat.
Proof.
  apply (tracked_ips_bounded 10 ltac:(unfold INT_MAX; lia)
    [(lit "a", 0); (lit "b", 1 * ns_per_s)] "c" (40 * ns_per_s)).
  by apply calls_ok_check.
Defined.
