(* ===== verification/ScoreTracker.v ===== *)
(** * ScoreTracker: running ban scores per address

    Models [history/score_tracker.hpp/.cpp]: a map from address text to a
    saturating score, an insertion-order queue that may hold stale items, and
    eviction of the oldest entry beyond [max_tracked_ips_]. *)
From S2P Require Import Prelude.

(** ** State and operations *)

Record Entry := mkScoreEntry { score : Z; seq_no : Z }.

Record ScoreTracker := mkScores {
  max_tracked_ips_ : nat;
  scores_ : gmap str Entry;
  order_ : list (str * Z);
  next_seq_ : Z }.

Definition kDefaultMaxTrackedIps : nat := Z.to_nat 100000.

Definition score_init (max_tracked_ips : nat) : ScoreTracker :=
  mkScores (Nat.max 1 max_tracked_ips) ∅ [] 0.

(** [while (order_.size() > max_tracked_ips_) { ...; order_.pop_front(); }] *)
Fixpoint evict (max : nat) (order : list (str * Z)) (scores : gmap str Entry)
  : list (str * Z) * gmap str Entry :=
  match order with
  | [] => ([], scores)
  | oldest :: rest =>
      if (max <? length order)%nat then
        let scores' :=
          match scores !! fst oldest with
          | Some found => if seq_no found =? snd oldest then delete (fst oldest) scores else scores
          | None => scores
          end in
        evict max rest scores'
      else (order, scores)
  end.

(** The iterator [it] is used after the eviction loop: [None] in the last
    lookup would be an access through an invalidated iterator. *)
Definition add_points (ip : str) (points : Z) : M ScoreTracker Z :=
  fun tr =>
    let tr1 :=
      match scores_ tr !! ip with
      | Some _ => tr
      | None =>
          let seq := next_seq_ tr in
          let scores := <[ip := mkScoreEntry 0 seq]> (scores_ tr) in
          let order := order_ tr ++ [(ip, seq)] in
          let '(order, scores) := evict (max_tracked_ips_ tr) order scores in
          mkScores (max_tracked_ips_ tr) scores order (wrap64 (seq + 1))
      end in
    match scores_ tr1 !! ip with
    | Some e =>
        let sum := score e + points in
        let total := clamp INT_MIN INT_MAX sum in
        (mkScores (max_tracked_ips_ tr1) (<[ip := mkScoreEntry total (seq_no e)]> (scores_ tr1))
           (order_ tr1) (next_seq_ tr1), Ok total)
    | None => (tr1, Throw (LogicError "dangling iterator"))
    end.

Definition reset (ip : str) (tr : ScoreTracker) : ScoreTracker :=
  mkScores (max_tracked_ips_ tr) (delete ip (scores_ tr)) (order_ tr) (next_seq_ tr).

Definition current (tr : ScoreTracker) (ip : str) : Z :=
  match scores_ tr !! ip with Some e => score e | None => 0 end.

Definition tracked_ips (tr : ScoreTracker) : nat := size (scores_ tr).

(** ** The invariant *)

Definition seq_lt (x y : str * Z) : Prop := snd x < snd y.

Record score_inv (tr : ScoreTracker) : Prop := {
  sinv_max : (1 <= max_tracked_ips_ tr)%nat;
  sinv_len : (length (order_ tr) <= max_tracked_ips_ tr)%nat;
  sinv_tracked ip e : scores_ tr !! ip = Some e -> (ip, seq_no e) ∈ order_ tr;
  sinv_fresh : Forall (fun x => snd x < next_seq_ tr) (order_ tr);
  sinv_sorted : StronglySorted seq_lt (order_ tr);
  sinv_seq : 0 <= next_seq_ tr < 2 ^ 64;
  sinv_scores ip e : scores_ tr !! ip = Some e -> INT_MIN <= score e <= INT_MAX }.

Lemma score_init_inv n : score_inv (score_init n).
Proof.
  split; simpl; try lia; try (by constructor); intros; simplify_map_eq.
Qed.

Lemma sorted_seq_inj order ip ip' q :
  StronglySorted seq_lt order -> (ip, q) ∈ order -> (ip', q) ∈ order -> ip = ip'.
Proof.
  unfold seq_lt. induction 1 as [|x l Hs IH Hx]; intros H1 H2; [by apply not_elem_of_nil in H1|].
  rewrite Forall_forall in Hx.
  apply elem_of_cons in H1 as [E1|H1]; apply elem_of_cons in H2 as [E2|H2].
  - rewrite <- E1 in E2. by injection E2.
  - subst x. specialize (Hx _ H2). simpl in Hx. lia.
  - subst x. specialize (Hx _ H1). simpl in Hx. lia.
  - by apply IH.
Qed.

(** What the eviction loop does to a queue and the map it describes. *)
Lemma evict_spec max order scores order' scores' :
  evict max order scores = (order', scores') ->
  StronglySorted seq_lt order ->
  (forall ip e, scores !! ip = Some e -> (ip, seq_no e) ∈ order) ->
  exists old, order = old ++ order' /\ length order' = Nat.min max (length order) /\
    (forall ip e, scores' !! ip = Some e <-> scores !! ip = Some e /\ (ip, seq_no e) ∈ order').
Proof.
  revert scores. induction order as [|[ip0 q0] order IH]; intros scores; simpl.
  - intros [= <- <-] _ Ht. exists []. split_and!; [done|by simpl; lia|]. intros ip e.
    split; [intros H; split; [done|by apply Ht]|by intros [? _]].
  - destruct (Nat.ltb_spec max (S (length order))) as [Hlt|Hge].
    + intros He Hs Ht. inversion Hs as [|? ? Hs' Hx]; subst.
      set (sc := match scores !! ip0 with Some found => _ | None => _ end) in He.
      assert (forall ip e, sc !! ip = Some e <->
                scores !! ip = Some e /\ (ip, seq_no e) ∈ order) as Hsc.
      { intros ip e. rewrite Forall_forall in Hx. unfold seq_lt in Hx. simpl in Hx. subst sc.
        destruct (scores !! ip0) as [f0|] eqn:E0; [destruct (Z.eqb_spec (seq_no f0) q0) as [Eq|Hne]|].
        - rewrite lookup_delete_Some. split.
          + intros [Hne H]. split; [done|]. specialize (Ht _ _ H).
            apply elem_of_cons in Ht as [E|?]; [by injection E|done].
          + intros [H Hin]. split; [|done]. intros ->. simplify_eq.
            specialize (Hx _ Hin). simpl in Hx. lia.
        - split; [|by intros [? _]]. intros H. split; [done|]. specialize (Ht _ _ H).
          apply elem_of_cons in Ht as [E|?]; [|done]. injection E as -> E. by simplify_eq.
        - split; [|by intros [? _]]. intros H. split; [done|]. specialize (Ht _ _ H).
          apply elem_of_cons in Ht as [E|?]; [|done]. injection E as -> E. by simplify_eq. }
      destruct (IH sc He Hs') as (old & -> & Hlen & Hiff).
      { intros ip e H. by apply Hsc in H as [_ ?]. }
      exists ((ip0, q0) :: old). split_and!; [done|lia|].
      intros ip e. rewrite Hiff, Hsc. split; [tauto|]. intros [? ?]. split_and!; [done| |done].
      apply elem_of_app. by right.
    + intros [= <- <-] _ Ht. exists []. split_and!; [done|simpl; lia|]. intros ip e.
      split; [intros H; split; [done|by apply Ht]|by intros [? _]].
Qed.

(** ** [add_points] and [reset] *)

Lemma clamp_range lo hi z : lo <= hi -> lo <= clamp lo hi z <= hi.
Proof. unfold clamp. lia. Qed.

Lemma clamp_id lo hi z : lo <= z <= hi -> clamp lo hi z = z.
Proof. unfold clamp. lia. Qed.

(** The tracker after the entry of [ip] is known to exist. *)
Definition ensure (ip : str) (tr : ScoreTracker) : ScoreTracker :=
  match scores_ tr !! ip with
  | Some _ => tr
  | None =>
      let '(order, scores) :=
        evict (max_tracked_ips_ tr) (order_ tr ++ [(ip, next_seq_ tr)])
              (<[ip := mkScoreEntry 0 (next_seq_ tr)]> (scores_ tr)) in
      mkScores (max_tracked_ips_ tr) scores order (wrap64 (next_seq_ tr + 1))
  end.

Lemma ensure_spec ip tr :
  score_inv tr -> next_seq_ tr < 2 ^ 64 - 1 ->
  let tr1 := ensure ip tr in
  score_inv tr1 /\ is_Some (scores_ tr1 !! ip) /\ current tr1 ip = current tr ip /\
  next_seq_ tr1 <= next_seq_ tr + 1 /\
  (forall ip', ip' <> ip ->
     scores_ tr1 !! ip' = scores_ tr !! ip' \/
     (scores_ tr !! ip = None /\ length (order_ tr) = max_tracked_ips_ tr /\
      scores_ tr1 !! ip' = None)).
Proof.
  intros Hinv Hq. cbv zeta. unfold ensure. destruct (scores_ tr !! ip) as [e|] eqn:Eip.
  { split_and!; try done; try lia; eauto. }
  destruct Hinv as [Hm Hl Ht Hf Hs Hn Hsc].
  assert (wrap64 (next_seq_ tr + 1) = next_seq_ tr + 1) as Ew by (apply Z.mod_small; lia).
  destruct (evict _ _ _) as [order' scores'] eqn:Ev.
  apply evict_spec in Ev as (old & Ho & Hlen & Hiff).
  - rewrite length_app in Hlen. simpl in Hlen.
    destruct order' as [|x order'' _] using rev_ind; [simpl in Hlen; lia|].
    rewrite app_assoc in Ho. apply app_inj_tail in Ho as [Ho <-].
    set (order' := order'' ++ [(ip, next_seq_ tr)]) in *.
    assert (Forall (fun x => snd x < next_seq_ tr + 1) order') as Hf'.
    { rewrite Ho in Hf. apply Forall_app in Hf as [_ Hf]. apply Forall_app.
      split; [eapply Forall_impl; [done|simpl; lia]|by repeat constructor; simpl; lia]. }
    assert (scores' !! ip = Some (mkScoreEntry 0 (next_seq_ tr))) as Hip.
    { apply Hiff. split; [by rewrite lookup_insert_eq|]. apply elem_of_snoc. by right. }
    split_and!; simpl; try lia.
    + split; simpl; try lia; try done.
      * intros ip' e' H. by apply Hiff in H as [_ ?].
      * by rewrite Ew.
      * subst order'. rewrite Ho in Hs, Hf. apply StronglySorted_app in Hs as (_ & _ & Hs).
        apply StronglySorted_app. apply Forall_app in Hf as [_ Hf]. split_and!; [|done|by repeat constructor].
        intros x1 x2 Hx1 ->%list_elem_of_singleton. by eapply Forall_forall in Hf.
      * intros ip' e' H. apply Hiff in H as [H _].
        apply lookup_insert_Some in H as [[_ <-]|[_ H]]; [simpl; unfold INT_MIN, INT_MAX; lia|by eapply Hsc].
    + by rewrite Hip.
    + unfold current. simpl. by rewrite Hip, Eip.
    + intros ip' Hne. destruct (scores' !! ip') as [e|] eqn:E'.
      { left. apply Hiff in E' as [E' _]. by rewrite lookup_insert_ne in E'. }
      destruct (scores_ tr !! ip') as [e|] eqn:E''; [|by left]. right. split_and!; try done.
      destruct (decide (length (order_ tr) = max_tracked_ips_ tr)) as [|Hlt]; [done|].
      exfalso. assert (scores' !! ip' = Some e); [|congruence].
      apply Hiff. rewrite lookup_insert_ne by done. split; [done|]. apply elem_of_snoc. left.
      assert (old = []) as ->.
      { apply length_zero_iff_nil. apply (f_equal length) in Ho. rewrite length_app in Ho.
        subst order'. rewrite length_app in Hlen. simpl in Hlen. lia. }
      simpl in Ho. rewrite <- Ho. by apply Ht.
  - apply StronglySorted_app. split_and!; [|done|by repeat constructor].
    intros x1 x2 Hx1 ->%list_elem_of_singleton. by eapply Forall_forall in Hf.
  - intros ip' e' [[<- <-]|[_ H]]%lookup_insert_Some; apply elem_of_snoc; [by right|].
    left. by apply Ht.
Qed.

Lemma add_points_ensure ip points tr :
  add_points ip points tr =
  match scores_ (ensure ip tr) !! ip with
  | Some e =>
      let total := clamp INT_MIN INT_MAX (score e + points) in
      (mkScores (max_tracked_ips_ (ensure ip tr))
         (<[ip := mkScoreEntry total (seq_no e)]> (scores_ (ensure ip tr)))
         (order_ (ensure ip tr)) (next_seq_ (ensure ip tr)), Ok total)
  | None => (ensure ip tr, Throw (LogicError "dangling iterator"))
  end.
Proof. reflexivity. Qed.

(** The full effect of [add_points]: it returns, it saturates, it changes no
    other score except by evicting entries from a full queue. *)
Lemma add_points_effect ip points tr :
  score_inv tr -> next_seq_ tr < 2 ^ 64 - 1 ->
  exists tr', add_points ip points tr = (tr', Ok (clamp INT_MIN INT_MAX (current tr ip + points))) /\
    score_inv tr' /\ next_seq_ tr' <= next_seq_ tr + 1 /\
    current tr' ip = clamp INT_MIN INT_MAX (current tr ip + points) /\
    (forall ip', ip' <> ip ->
       current tr' ip' = current tr ip' \/
       (scores_ tr !! ip = None /\ length (order_ tr) = max_tracked_ips_ tr /\
        scores_ tr' !! ip' = None)).
Proof.
  intros Hinv Hq. destruct (ensure_spec ip tr Hinv Hq) as (Hinv' & [e He] & Hc & Hn & Ho).
  rewrite add_points_ensure, He. cbv zeta.
  assert (score e = current tr ip) as Es by (rewrite <- Hc; unfold current; by rewrite He).
  rewrite Es. eexists. split; [done|].
  set (total := clamp _ _ _). split_and!; simpl; [|done| |].
  - destruct Hinv' as [Hm Hl Ht Hf Hs Hsq Hsc]. split; simpl; try done.
    + intros ip' e' [[<- <-]|[_ H]]%lookup_insert_Some; [exact (Ht _ _ He)|by apply Ht].
    + intros ip' e' [[<- <-]|[_ H]]%lookup_insert_Some; [|by eapply Hsc].
      apply clamp_range. unfold INT_MIN, INT_MAX. lia.
  - unfold current at 1. simpl. by rewrite lookup_insert_eq.
  - intros ip' Hne. destruct (Ho ip' Hne) as [E|(E1 & E2 & E3)].
    + left. unfold current. simpl. by rewrite lookup_insert_ne, E by done.
    + right. by rewrite lookup_insert_ne.
Qed.

Lemma reset_effect ip tr :
  score_inv tr -> score_inv (reset ip tr) /\ current (reset ip tr) ip = 0 /\
  (forall ip', ip' <> ip -> current (reset ip tr) ip' = current tr ip').
Proof.
  intros [Hm Hl Ht Hf Hs Hsq Hsc]. unfold reset, current. split_and!; simpl.
  - split; simpl; try done; intros ip' e' [_ H]%lookup_delete_Some; [by apply Ht|by eapply Hsc].
  - by rewrite lookup_delete_eq.
  - intros ip' Hne. by rewrite lookup_delete_ne.
Qed.

(** ** Sequences of operations *)

Inductive score_op := Add (ip : str) (points : Z) | Reset (ip : str).

Definition run_op (tr : ScoreTracker) (o : score_op) : ScoreTracker :=
  match o with
  | Add ip points => fst (add_points ip points tr)
  | Reset ip => reset ip tr
  end.
Definition run_ops (max : nat) (ops : list score_op) : ScoreTracker :=
  foldl run_op (score_init max) ops.

(** Configured point values are [int]s; the queue counter is 64 bits wide. *)
Definition points_ok (o : score_op) : Prop :=
  match o with Add _ p => INT_MIN <= p <= INT_MAX | Reset _ => True end.
Definition few (ops : list score_op) : Prop := Z.of_nat (length ops) < 2 ^ 64 - 1.

Lemma run_ops_snoc max ops o : run_ops max (ops ++ [o]) = run_op (run_ops max ops) o.
Proof. unfold run_ops. by rewrite foldl_app. Qed.

Lemma run_op_inv tr o :
  score_inv tr -> next_seq_ tr < 2 ^ 64 - 1 ->
  score_inv (run_op tr o) /\ next_seq_ (run_op tr o) <= next_seq_ tr + 1 /\
  max_tracked_ips_ (run_op tr o) = max_tracked_ips_ tr.
Proof.
  intros Hinv Hq. destruct o as [ip p|ip]; simpl.
  - destruct (add_points_effect ip p tr Hinv Hq) as (tr' & E & Hinv' & Hn & _).
    rewrite E. split_and!; try done. simpl.
    rewrite add_points_ensure in E. assert (max_tracked_ips_ (ensure ip tr) = max_tracked_ips_ tr) as Em.
    { unfold ensure. destruct (scores_ tr !! ip); [done|]. by destruct (evict _ _ _). }
    destruct (scores_ (ensure ip tr) !! ip); by injection E as <-.
  - destruct (reset_effect ip tr Hinv) as (Hinv' & _). split_and!; [done|simpl; lia|done].
Qed.

Lemma run_ops_inv max ops :
  few ops -> score_inv (run_ops max ops) /\ next_seq_ (run_ops max ops) <= Z.of_nat (length ops) /\
  max_tracked_ips_ (run_ops max ops) = Nat.max 1 max.
Proof.
  unfold few. induction ops as [|o ops IH] using rev_ind; intros Hf.
  { split_and!; [apply score_init_inv|simpl; lia|done]. }
  rewrite length_app in *. simpl in *. destruct IH as (Hinv & Hn & Hm); [lia|].
  rewrite run_ops_snoc. destruct (run_op_inv (run_ops max ops) o Hinv) as (? & ? & ?); [lia|].
  split_and!; [done|lia|congruence].
Qed.

(** However many addresses a remote party scores from, the tracker never
    holds more than [max_tracked_ips_] of them (at least one), and neither
    does the queue with its stale items. *)
Theorem tracked_ips_capped max ops :
  few ops ->
  (tracked_ips (run_ops max ops) <= Nat.max 1 max)%nat /\
  (length (order_ (run_ops max ops)) <= Nat.max 1 max)%nat.
Proof.
  intros Hf. destruct (run_ops_inv max ops Hf) as (Hinv & _ & <-).
  destruct Hinv as [Hm Hl Ht _ _ _ _]. split; [|done].
  etrans; [|done]. unfold tracked_ips. rewrite <- (length_fmap fst (order_ _)).
  apply dom_size_le. intros ip e H. apply list_elem_of_fmap. exists (ip, seq_no e). eauto.
Qed.

Lemma tracked_ips_capped_witness :
  (tracked_ips (run_ops 2 [Add "a" 5; Add "b" 5; Add "c" 5]) <= 2)%nat /\
  (length (order_ (run_ops 2 [Add "a" 5; Add "b" 5; Add "c" 5])) <= 2)%nat.
Proof. apply (tracked_ips_capped 2 [Add "a" 5; Add "b" 5; Add "c" 5]). unfold few. simpl. lia. Defined.

(** In every reachable state [add_points] returns (no iterator is used
    after its entry was evicted), the result is the running total saturated
    to [int] (never wrapped), the total is stored, and every other address
    keeps its score unless the queue was full and the address was dropped. *)
Theorem add_points_saturates max ops ip points :
  few ops -> INT_MIN <= points <= INT_MAX ->
  exists tr', let tr := run_ops max ops in
    add_points ip points tr = (tr', Ok (clamp INT_MIN INT_MAX (current tr ip + points))) /\
    current tr' ip = clamp INT_MIN INT_MAX (current tr ip + points) /\
    (0 <= points -> current tr ip <= current tr' ip) /\
    (forall ip', ip' <> ip -> current tr' ip' = current tr ip' \/
       (length (order_ tr) = Nat.max 1 max /\ scores_ tr' !! ip' = None)).
Proof.
  intros Hf Hp. destruct (run_ops_inv max ops Hf) as (Hinv & Hn & Hm).
  destruct (add_points_effect ip points _ Hinv) as (tr' & E & Hinv' & _ & Hc & Ho); [unfold few in Hf; lia|].
  exists tr'. cbv zeta. split_and!; try done.
  - intros H0. rewrite Hc. assert (current (run_ops max ops) ip <= INT_MAX).
    { unfold current. destruct (_ !! ip) as [e|] eqn:Ee; [|unfold INT_MAX; lia].
      apply (sinv_scores _ Hinv) in Ee. lia. }
    unfold clamp. lia.
  - intros ip' Hne. destruct (Ho ip' Hne) as [?|(? & E2 & ?)]; [by left|right].
    split; [congruence|done].
Qed.

Lemma add_points_saturates_witness :
  exists tr', let tr := run_ops 3 [Add "a" 2000000000] in
    add_points "a" 2000000000 tr = (tr', Ok INT_MAX) /\ current tr' "a" = INT_MAX.
Proof.
  destruct (add_points_saturates 3 [Add "a" 2000000000] "a" 2000000000) as (tr' & E & Hc & _).
  - unfold few. simpl. lia.
  - unfold INT_MIN, INT_MAX. lia.
  - exists tr'. cbv zeta in *. split; [exact E|exact Hc].
Defined.

(** The specification of the score of [ip]: the points since the last reset. *)
Definition points_since_reset (ip : str) (ops : list score_op) : Z :=
  foldl (fun acc o =>
    match o with
    | Add ip' p => if ip' == ip then acc + p else acc
    | Reset ip' => if ip' == ip then 0 else acc
    end) 0 ops.

Definition nonneg (o : score_op) : Prop := match o with Add _ p => 0 <= p <= INT_MAX | _ => True end.

Lemma order_length_le max ops : few ops -> (length (order_ (run_ops max ops)) <= length ops)%nat.
Proof.
  unfold few. induction ops as [|o ops IH] using rev_ind; intros Hf; [done|].
  rewrite length_app in *. simpl in *. specialize (IH ltac:(lia)).
  rewrite run_ops_snoc. destruct (run_ops_inv max ops) as ([Hm Hl Ht _ Hs _ _] & _); [unfold few; lia|].
  destruct o as [ip p|ip]; simpl; [|lia].
  rewrite add_points_ensure. assert (length (order_ (ensure ip (run_ops max ops))) <=
    S (length (order_ (run_ops max ops))))%nat as Hle.
  { unfold ensure. destruct (scores_ _ !! ip); [lia|]. destruct (evict _ _ _) as [o' s'] eqn:E. simpl.
    assert (length o' <= length (order_ (run_ops max ops) ++ [(ip, next_seq_ (run_ops max ops))]))%nat as H.
    { revert E. generalize (<[ip:=mkScoreEntry 0 (next_seq_ (run_ops max ops))]> (scores_ (run_ops max ops))).
      generalize (order_ (run_ops max ops) ++ [(ip, next_seq_ (run_ops max ops))]) as l.
      induction l as [|x l IHl]; intros sc; simpl; [by intros [= <- <-]|].
      destruct (_ <? _)%nat; [intros H; apply IHl in H; lia|by intros [= <- <-]]. }
    rewrite length_app in H. simpl in H. lia. }
  destruct (_ !! ip); simpl; lia.
Qed.

(** As long as the tracker has not seen more operations than it can track
    addresses (so nothing is evicted), the score of an address is exactly the
    sum of its points since its last reset, capped at [INT_MAX]. *)
Theorem score_is_sum_of_points max ops ip :
  (length ops <= Nat.max 1 max)%nat -> few ops -> Forall nonneg ops ->
  current (run_ops max ops) ip = Z.min INT_MAX (points_since_reset ip ops) /\
  0 <= points_since_reset ip ops.
Proof.
  induction ops as [|o ops IH] using rev_ind; intros Hl Hf Hn.
  { unfold current. simpl. unfold INT_MAX. done. }
  rewrite length_app in Hl. simpl in Hl. apply Forall_app in Hn as [Hn [Ho _]%Forall_cons].
  assert (few ops) as Hf' by (unfold few in *; rewrite length_app in Hf; simpl in Hf; lia).
  specialize (IH ltac:(lia) Hf' Hn) as [IH Hpos]. rewrite run_ops_snoc.
  destruct (run_ops_inv max ops Hf') as (Hinv & Hq & Hm).
  pose proof (order_length_le max ops Hf') as Hol.
  unfold points_since_reset in *. rewrite foldl_app. simpl.
  set (acc := foldl _ _ ops) in *. destruct o as [ip' p|ip']; simpl in *.
  - destruct (add_points_effect ip' p _ Hinv) as (tr' & E & Hinv' & _ & Hc & Hoth); [unfold few in Hf'; lia|].
    rewrite E. simpl. case_bool_decide as Eip.
    + subst ip'. rewrite Hc, IH. unfold clamp, INT_MIN, INT_MAX in *. lia.
    + destruct (Hoth ip) as [->|(_ & Hfull & _)]; [congruence|done|]. rewrite Hm in Hfull. lia.
  - destruct (reset_effect ip' _ Hinv) as (_ & Hc & Hoth). case_bool_decide as Eip.
    + subst ip'. rewrite Hc. unfold INT_MAX. lia.
    + by rewrite Hoth by congruence.
Qed.

Lemma score_is_sum_of_points_witness :
  current (run_ops 5 [Add "a" 40; Add "b" 7; Reset "a"; Add "a" 25; Add "a" 30]) "a" = 55 /\ 0 <= 55.
Proof.
  apply (score_is_sum_of_points 5 [Add "a" 40; Add "b" 7; Reset "a"; Add "a" 25; Add "a" 30] "a").
  - simpl. lia.
  - unfold few. simpl. lia.
  - repeat constructor; simpl; unfold INT_MAX; lia.
Defined.
