(* ===== verification/IpBlocks.v ===== *)
(** * IpBlocks: temporary IP and CIDR bans

    Models [history/ip_block_tracker.hpp/.cpp]: a hash map for exact
    addresses, a list for CIDR entries, expiry checked on lookup, and pruning
    throttled by [prune_interval_]. The specification keeps every block ever
    added and never prunes; the tracker is shown to be indistinguishable. *)
From S2P Require Import Prelude Text Net.

(** ** Data *)

Record TemporaryIpBlock := mkBlock {
  b_text : str;
  b_is_cidr : bool;
  b_address : address;
  b_prefix_len : Z;
  b_source : str;
  b_score_at_block : Z;
  b_created_at : time_point;
  b_expires_at : time_point }.

#[export] Instance TemporaryIpBlock_eq_dec : EqDecision TemporaryIpBlock.
Proof. solve_decision. Defined.

Record CidrEntry := mkCidrEntry { block : TemporaryIpBlock; range : CidrRange }.

Record IpBlockTracker := mkIpBlocks {
  prune_interval_ : Z;
  exact_ : gmap address TemporaryIpBlock;
  cidrs_ : list CidrEntry;
  last_prune_ : time_point }.

Definition blocks_init (prune_interval : Z) : IpBlockTracker := mkIpBlocks prune_interval ∅ [] 0.

(** ** Operations; [now] is the clock reading each method takes itself *)

Definition prune_expired_locked (now : Z) (tr : IpBlockTracker) : IpBlockTracker :=
  mkIpBlocks (prune_interval_ tr)
    (filter (fun kv => ~ b_expires_at (snd kv) <= now) (exact_ tr))
    (filter (fun e => ~ b_expires_at (block e) <= now) (cidrs_ tr))
    (last_prune_ tr).

Definition set_last_prune (now : Z) (tr : IpBlockTracker) : IpBlockTracker :=
  mkIpBlocks (prune_interval_ tr) (exact_ tr) (cidrs_ tr) now.

Definition add (now : Z) (b : TemporaryIpBlock) (tr : IpBlockTracker) : IpBlockTracker :=
  let tr1 :=
    if tp_add now (- last_prune_ tr) >=? prune_interval_ tr
    then set_last_prune now (prune_expired_locked now tr) else tr in
  if b_is_cidr b then
    let kept := filter (fun e => ~ b_text (block e) = b_text b) (cidrs_ tr1) in
    let r := make_cidr (b_address b) (b_prefix_len b) (b_text b) now in
    mkIpBlocks (prune_interval_ tr1) (exact_ tr1) (kept ++ [mkCidrEntry b r]) (last_prune_ tr1)
  else
    mkIpBlocks (prune_interval_ tr1) (<[b_address b := b]> (exact_ tr1)) (cidrs_ tr1) (last_prune_ tr1).

Definition is_blocked (now : Z) (ip : address) (tr : IpBlockTracker) : bool :=
  match exact_ tr !! ip with
  | Some b => if b_expires_at b >? now then true
              else existsb (fun e => (b_expires_at (block e) >? now) && address_in_cidr ip (range e)) (cidrs_ tr)
  | None => existsb (fun e => (b_expires_at (block e) >? now) && address_in_cidr ip (range e)) (cidrs_ tr)
  end.

(** [std::string]'s [operator<]: lexicographic on unsigned characters. *)
Fixpoint str_ltb (a b : str) : bool :=
  match a, b with
  | _, [] => false
  | [], _ :: _ => true
  | x :: a', y :: b' =>
      if byte_of x <? byte_of y then true
      else if byte_of y <? byte_of x then false else str_ltb a' b'
  end.

(** The comparator of the [std::sort] in [list_active]. *)
Definition newer_first (a b : TemporaryIpBlock) : bool :=
  if b_created_at a =? b_created_at b then str_ltb (b_text a) (b_text b)
  else b_created_at a >? b_created_at b.

Definition in_order (a b : TemporaryIpBlock) : Prop := newer_first b a = false.
#[export] Instance in_order_dec a b : Decision (in_order a b).
Proof. unfold in_order. solve_decision. Defined.

Definition list_active (now : Z) (tr : IpBlockTracker) : IpBlockTracker * list TemporaryIpBlock :=
  let tr1 := set_last_prune now (prune_expired_locked now tr) in
  let result := (snd <$> map_to_list (exact_ tr1)) ++ (block <$> cidrs_ tr1) in
  (tr1, merge_sort in_order result).

Definition tracker_size (tr : IpBlockTracker) : nat := (size (exact_ tr) + length (cidrs_ tr))%nat.

Section remove.
Context `{Asio : AsioIp}.

Definition remove (text : str) (tr : IpBlockTracker) : IpBlockTracker * bool :=
  match make_address text with
  | Some a =>
      (mkIpBlocks (prune_interval_ tr) (delete a (exact_ tr)) (cidrs_ tr) (last_prune_ tr),
       bool_decide (is_Some (exact_ tr !! a)))
  | None =>
      let kept := filter (fun e => ~ b_text (block e) = text) (cidrs_ tr) in
      (mkIpBlocks (prune_interval_ tr) (exact_ tr) kept (last_prune_ tr),
       (0 <? length (cidrs_ tr) - length kept)%nat)
  end.
End remove.

(** ** Well-formedness: the map's keys and the cached ranges are the blocks' own *)

Record blocks_wf (tr : IpBlockTracker) : Prop := {
  wf_exact a b : exact_ tr !! a = Some b -> b_address b = a /\ b_is_cidr b = false;
  wf_cidrs : Forall (fun e => b_is_cidr (block e) = true /\
    cidr_prefix (range e) = b_address (block e) /\
    cidr_prefix_len (range e) = b_prefix_len (block e)) (cidrs_ tr);
  wf_texts : NoDup ((fun e => b_text (block e)) <$> cidrs_ tr) }.

(** ** The specification: a list of blocks, never pruned *)

Definition covers (b : TemporaryIpBlock) (ip : address) : bool :=
  if b_is_cidr b
  then address_in_cidr ip (make_cidr (b_address b) (b_prefix_len b) (b_text b) 0)
  else ip == b_address b.

Definition live (now : Z) (b : TemporaryIpBlock) : bool := b_expires_at b >? now.

Definition spec_blocked (now : Z) (ip : address) (spec : list TemporaryIpBlock) : bool :=
  existsb (fun b => live now b && covers b ip) spec.

(** A new block replaces the one for the same address, or the same CIDR text. *)
Definition same_slot (b c : TemporaryIpBlock) : bool :=
  if b_is_cidr b then b_is_cidr c && (b_text c == b_text b)
  else negb (b_is_cidr c) && (b_address c == b_address b).

Definition spec_add (b : TemporaryIpBlock) (spec : list TemporaryIpBlock) : list TemporaryIpBlock :=
  filter (fun c => same_slot b c = false) spec ++ [b].

Definition spec_remove `{AsioIp} (text : str) (spec : list TemporaryIpBlock) : list TemporaryIpBlock :=
  match make_address text with
  | Some a => filter (fun c => b_is_cidr c = true \/ b_address c <> a) spec
  | None => filter (fun c => b_is_cidr c = false \/ b_text c <> text) spec
  end.

(** The blocks a tracker holds. *)
Definition held (tr : IpBlockTracker) (b : TemporaryIpBlock) : Prop :=
  exact_ tr !! b_address b = Some b /\ b_is_cidr b = false \/
  exists e, e ∈ cidrs_ tr /\ block e = b.

(** Simulation relation at time [t]: the live blocks are the same. *)
Definition simulates (t : Z) (tr : IpBlockTracker) (spec : list TemporaryIpBlock) : Prop :=
  blocks_wf tr /\ forall b, live t b = true -> (held tr b <-> b ∈ spec).

(** ** Histories: timed calls on the tracker and on the specification *)

Inductive block_call :=
  | CallAdd (b : TemporaryIpBlock)
  | CallRemove (text : str)
  | CallList.

Section history.
Context `{Asio : AsioIp}.

Definition run_call (tr : IpBlockTracker) (c : Z * block_call) : IpBlockTracker :=
  match snd c with
  | CallAdd b => add (fst c) b tr
  | CallRemove text => fst (remove text tr)
  | CallList => fst (list_active (fst c) tr)
  end.

Definition spec_call (spec : list TemporaryIpBlock) (c : Z * block_call) : list TemporaryIpBlock :=
  match snd c with
  | CallAdd b => spec_add b spec
  | CallRemove text => spec_remove text spec
  | CallList => spec
  end.

Definition run_calls (interval : Z) (cs : list (Z * block_call)) : IpBlockTracker :=
  foldl run_call (blocks_init interval) cs.
Definition spec_calls (cs : list (Z * block_call)) : list TemporaryIpBlock :=
  foldl spec_call [] cs.

(** The clock does not run backwards and has not passed [now]. *)
Definition clock_steady (cs : list (Z * block_call)) (now : Z) : Prop :=
  StronglySorted Z.le (map fst cs ++ [now]).
End history.

(** ** Simulation *)

Lemma live_mono t t' b : t <= t' -> live t' b = true -> live t b = true.
Proof. unfold live. rewrite !Z.gtb_lt. lia. Qed.

Lemma simulates_mono t t' tr spec : t <= t' -> simulates t tr spec -> simulates t' tr spec.
Proof. intros Ht [Hwf H]. split; [done|]. eauto using live_mono. Qed.

Lemma init_simulates interval t : simulates t (blocks_init interval) [].
Proof.
  split.
  - split; [intros a b; simpl; rewrite lookup_empty; discriminate|constructor|constructor].
  - intros b _. split; [|intros H; inversion H].
    intros [[H _]|(e & H & _)]; simpl in H; [by rewrite lookup_empty in H|inversion H].
Qed.

(** Any filter of the tables keeps the well-formedness. *)
Lemma filter_wf (P : TemporaryIpBlock -> Prop) `{!forall b, Decision (P b)} tr tr' :
  blocks_wf tr -> exact_ tr' ⊆ exact_ tr ->
  cidrs_ tr' = filter (fun e => P (block e)) (cidrs_ tr) -> blocks_wf tr'.
Proof.
  intros [W1 W2 W3] Hm E. split.
  - intros a b Hab. apply W1. by eapply lookup_weaken.
  - rewrite E. by apply Forall_filter_le.
  - rewrite E. by apply NoDup_fmap_filter.
Qed.

Lemma prune_held now tr b :
  blocks_wf tr -> held (prune_expired_locked now tr) b <-> held tr b /\ live now b = true.
Proof.
  intros Hwf. unfold held, live. cbn [prune_expired_locked exact_ cidrs_].
  rewrite map_lookup_filter_Some, Z.gtb_lt. cbn [snd]. split.
  - intros [[[H1 H2] H3]|(e & He & <-)].
    + split; [by left|lia].
    + apply list_elem_of_filter in He as [? ?]. split; [right; eauto|lia].
  - intros [[[H1 H2]|(e & He & <-)] Hl]; [left; split_and!; auto; lia|right].
    exists e. split; [|done]. apply list_elem_of_filter. split; [lia|done].
Qed.

Lemma prune_wf now tr : blocks_wf tr -> blocks_wf (prune_expired_locked now tr).
Proof.
  intros Hwf.
  apply (filter_wf (fun b => ~ b_expires_at b <= now) tr); [done| |done].
  apply map_filter_subseteq.
Qed.

(** Pruning is invisible to the specification. *)
Lemma prune_simulates now tr spec :
  simulates now tr spec -> simulates now (prune_expired_locked now tr) spec.
Proof.
  intros [Hwf H]. split; [by apply prune_wf|].
  intros b Hb. rewrite prune_held by done. rewrite H by done. tauto.
Qed.

Lemma set_last_prune_simulates now t tr spec :
  simulates now tr spec -> simulates now (set_last_prune t tr) spec.
Proof. intros [[W1 W2 W3] H]. by split. Qed.

Lemma elem_of_spec_add b c spec :
  c ∈ spec_add b spec <-> c = b \/ c ∈ spec /\ same_slot b c = false.
Proof.
  unfold spec_add. rewrite elem_of_snoc, list_elem_of_filter. tauto.
Qed.

Lemma same_slot_exact b c :
  b_is_cidr b = false -> b_is_cidr c = false -> same_slot b c = (b_address c == b_address b).
Proof. unfold same_slot. by intros -> ->. Qed.

Lemma insert_held b tr c :
  blocks_wf tr -> b_is_cidr b = false ->
  held (mkIpBlocks (prune_interval_ tr) (<[b_address b := b]> (exact_ tr)) (cidrs_ tr)
    (last_prune_ tr)) c <-> c = b \/ held tr c /\ same_slot b c = false.
Proof.
  intros [W1 W2 W3] Hb. unfold held. cbn [exact_ cidrs_]. split.
  - intros [[[[E ->]|[Hne H]]%lookup_insert_Some Hc]|(e & He & <-)]; [by left|right..].
    + split; [by left|]. rewrite same_slot_exact by done. by apply bool_decide_eq_false.
    + split; [right; eauto|]. unfold same_slot. rewrite Hb.
      rewrite Forall_forall in W2. by destruct (W2 e He) as [-> _].
  - intros [->|[[[H Hc]|(e & He & <-)] Hs]].
    + left. by rewrite lookup_insert_eq.
    + rewrite same_slot_exact in Hs by done. case_bool. left. by rewrite lookup_insert_ne by done.
    + right. eauto.
Qed.

Lemma append_held b r tr c :
  blocks_wf tr -> b_is_cidr b = true ->
  held (mkIpBlocks (prune_interval_ tr) (exact_ tr)
    (filter (fun e => ~ b_text (block e) = b_text b) (cidrs_ tr) ++ [mkCidrEntry b r])
    (last_prune_ tr)) c <-> c = b \/ held tr c /\ same_slot b c = false.
Proof.
  intros [W1 W2 W3] Hb. unfold held. cbn [exact_ cidrs_]. unfold same_slot. rewrite Hb. split.
  - intros [[H Hc]|(e & [He| ->]%elem_of_snoc & <-)]; [right| |by left].
    + split; [by left|]. by rewrite Hc.
    + right. apply list_elem_of_filter in He as [Ht He]. split; [right; eauto|].
      apply andb_false_iff. right. by apply bool_decide_eq_false.
  - intros [->|[[[H Hc]|(e & He & <-)] Hs]].
    + right. exists (mkCidrEntry b r). by rewrite elem_of_snoc; auto.
    + by left.
    + right. exists e. split; [|done]. apply elem_of_snoc. left. apply list_elem_of_filter.
      rewrite Forall_forall in W2. destruct (W2 e He) as [Hc _]. rewrite Hc in Hs.
      simpl in Hs. case_bool. done.
Qed.

Lemma insert_wf b tr :
  blocks_wf tr -> b_is_cidr b = false ->
  blocks_wf (mkIpBlocks (prune_interval_ tr) (<[b_address b := b]> (exact_ tr)) (cidrs_ tr)
    (last_prune_ tr)).
Proof.
  intros [W1 W2 W3] Hb. split; [|done..]. cbn.
  intros a c [[<- <-]|[_ H]]%lookup_insert_Some; eauto.
Qed.

Lemma append_wf b tr now :
  blocks_wf tr -> b_is_cidr b = true ->
  blocks_wf (mkIpBlocks (prune_interval_ tr) (exact_ tr)
    (filter (fun e => ~ b_text (block e) = b_text b) (cidrs_ tr) ++
      [mkCidrEntry b (make_cidr (b_address b) (b_prefix_len b) (b_text b) now)])
    (last_prune_ tr)).
Proof.
  intros [W1 W2 W3] Hb. split; [done|..]; cbn.
  - apply Forall_app. split; [by apply Forall_filter_le|by constructor].
  - rewrite fmap_app. apply NoDup_app. split_and!; [by apply NoDup_fmap_filter| |apply NoDup_singleton].
    intros x (e & -> & He)%list_elem_of_fmap Hx%list_elem_of_singleton.
    apply list_elem_of_filter in He as [He _]. by apply He.
Qed.

Lemma add_simulates now b tr spec :
  simulates now tr spec -> simulates now (add now b tr) (spec_add b spec).
Proof.
  intros H. unfold add.
  set (tr1 := if _ >=? _ then _ else _).
  assert (simulates now tr1 spec) as [Hwf Hs].
  { unfold tr1. case_match; [|done]. by apply set_last_prune_simulates, prune_simulates. }
  clearbody tr1. destruct (b_is_cidr b) eqn:Hb.
  - split; [by apply append_wf|]. intros c Hc.
    rewrite append_held by done. rewrite elem_of_spec_add, Hs by done. done.
  - split; [by apply insert_wf|]. intros c Hc.
    rewrite insert_held by done. rewrite elem_of_spec_add, Hs by done. done.
Qed.

Section simulation.
Context `{Asio : AsioIp}.

Lemma remove_simulates now text tr spec :
  simulates now tr spec -> simulates now (fst (remove text tr)) (spec_remove text spec).
Proof.
  intros [Hwf Hs]. unfold remove, spec_remove. destruct (make_address text) as [a|]; split.
  - apply (filter_wf (fun _ => True) tr); [done|apply delete_subseteq|].
    symmetry. by apply filter_all.
  - intros b Hb. rewrite list_elem_of_filter, <- Hs by done. unfold held. cbn.
    rewrite lookup_delete_Some. destruct Hwf as [W1 W2 W3]. rewrite Forall_forall in W2.
    split.
    + intros [[[Hne ?] ?]|(e & He & <-)]; [split; [by right|by left]|].
      split; [left; by apply W2|right; eauto].
    + intros [Hcase [[Hb1 Hb2]|(e & He & <-)]]; [|right; eauto].
      left. split_and!; try done. intros ->. destruct Hcase; congruence.
  - by apply (filter_wf (fun b => ~ b_text b = text) tr).
  - intros b Hb. rewrite list_elem_of_filter, <- Hs by done. unfold held. cbn.
    destruct Hwf as [W1 W2 W3]. rewrite Forall_forall in W2. split.
    + intros [[??]|(e & He & <-)]; [split; [by left|by left]|].
      apply list_elem_of_filter in He as [??]. split; [by right|right; eauto].
    + intros [Ht [[??]|(e & He & <-)]]; [by left|]. right. exists e.
      destruct (W2 e He) as [Hc _]. rewrite list_elem_of_filter. destruct Ht; [congruence|done].
Qed.

Lemma run_call_simulates now c tr spec :
  fst c = now -> simulates now tr spec -> simulates now (run_call tr c) (spec_call spec c).
Proof.
  destruct c as [t [b|text|]]; intros <- H; unfold run_call, spec_call; cbn -[add remove].
  - by apply add_simulates.
  - by apply remove_simulates.
  - by apply set_last_prune_simulates, prune_simulates.
Qed.

Lemma run_calls_simulates interval cs now :
  clock_steady cs now -> simulates now (run_calls interval cs) (spec_calls cs).
Proof.
  unfold clock_steady, run_calls, spec_calls. revert now.
  induction cs as [|c cs IH] using rev_ind; intros now H; [apply init_simulates|].
  rewrite !foldl_app. cbn [foldl].
  rewrite map_app, <- app_assoc in H. cbn [map app] in H.
  apply (simulates_mono (fst c)).
  - apply StronglySorted_app_1_r, StronglySorted_inv in H as [_ H].
    by apply Forall_cons in H as [??].
  - apply run_call_simulates; [done|]. apply IH.
    rewrite cons_middle, app_assoc in H. by apply StronglySorted_app_1_l in H.
Qed.
End simulation.

(** ** Lookups *)

Lemma address_in_cidr_ext ip r r' :
  cidr_prefix r = cidr_prefix r' -> cidr_prefix_len r = cidr_prefix_len r' ->
  address_in_cidr ip r = address_in_cidr ip r'.
Proof. unfold address_in_cidr. by intros -> ->. Qed.

(** A lookup scans exactly the blocks held. *)
Lemma is_blocked_held now ip tr :
  blocks_wf tr ->
  is_blocked now ip tr = true <-> exists b, held tr b /\ live now b = true /\ covers b ip = true.
Proof.
  intros [W1 W2 W3]. rewrite Forall_forall in W2.
  assert (existsb (fun e => (b_expires_at (block e) >? now) && address_in_cidr ip (range e))
            (cidrs_ tr) = true <->
          exists e, e ∈ cidrs_ tr /\ live now (block e) = true /\ covers (block e) ip = true) as Hc.
  { rewrite existsb_exists. apply exist_proper. intros e. rewrite <- list_elem_of_In, andb_true_iff.
    unfold live, covers. split; intros (He & H1 & H2); destruct (W2 e He) as (Hcd & Hp & Hl);
      (split_and!; [done|done|]); rewrite Hcd in *; rewrite <- H2;
      by apply address_in_cidr_ext. }
  unfold is_blocked, held.
  destruct (exact_ tr !! ip) as [b|] eqn:E; [destruct (W1 _ _ E) as [Ha Hb]; case_match eqn:Hl|].
  - split; [intros _|done]. exists b. split_and!; [left; by rewrite Ha|done|].
    unfold covers. rewrite Hb. by apply bool_decide_eq_true.
  - rewrite Hc. split; [naive_solver|].
    intros (c & [[H1 H2]|(e & He & <-)] & H3 & H4); [|eauto].
    unfold covers in H4. rewrite H2 in H4. case_bool. unfold live in H3. congruence.
  - rewrite Hc. split; [naive_solver|].
    intros (c & [[H1 H2]|(e & He & <-)] & H3 & H4); [|eauto].
    unfold covers in H4. rewrite H2 in H4. case_bool. subst. congruence.
Qed.

Lemma is_blocked_simulates now ip tr spec :
  simulates now tr spec -> is_blocked now ip tr = spec_blocked now ip spec.
Proof.
  intros [Hwf Hs]. apply eq_true_iff_eq. rewrite is_blocked_held by done.
  unfold spec_blocked. rewrite existsb_exists. apply exist_proper. intros b.
  rewrite <- list_elem_of_In, andb_true_iff. split; intros (H1 & H2 & H3);
    (split_and!; [|done|done]); by apply Hs.
Qed.

(** An exact block just added answers for its address until it expires. *)
Lemma is_blocked_added now t b tr :
  b_is_cidr b = false -> t < b_expires_at b -> is_blocked t (b_address b) (add now b tr) = true.
Proof.
  intros Hb Ht. unfold is_blocked, add. rewrite Hb. cbn [exact_ cidrs_].
  rewrite lookup_insert_eq. by replace (b_expires_at b >? t) with true by (symmetry; apply Z.gtb_lt; lia).
Qed.

(** A lookup of an address no CIDR entry covers is decided by its own entry. *)
Lemma is_blocked_exact_only t ip tr :
  (forall e, e ∈ cidrs_ tr -> address_in_cidr ip (range e) = false) ->
  is_blocked t ip tr = match exact_ tr !! ip with Some b => b_expires_at b >? t | None => false end.
Proof.
  intros Hc. unfold is_blocked.
  assert (existsb (fun e => (b_expires_at (block e) >? t) && address_in_cidr ip (range e)) (cidrs_ tr) = false) as ->.
  { apply not_true_iff_false. rewrite existsb_exists. intros (e & He%list_elem_of_In & Hb).
    rewrite (Hc e He), andb_false_r in Hb. done. }
  repeat case_match; done.
Qed.

(** ** The listing *)

Lemma str_ltb_trans a b c : str_ltb b a = false -> str_ltb c b = false -> str_ltb c a = false.
Proof.
  revert b c. induction a as [|x a IH]; intros [|y b] [|z c]; simpl; try done.
  intros H1 H2. case_code. by eapply IH.
Qed.

Lemma str_ltb_total a b : str_ltb a b = false \/ str_ltb b a = false.
Proof.
  revert b. induction a as [|x a IH]; intros [|y b]; simpl; auto.
  case_match; case_match; auto; case_bool; lia.
Qed.

#[export] Instance in_order_trans : Transitive in_order.
Proof.
  intros a b c. unfold in_order, newer_first. rewrite !Z.gtb_ltb. intros H1 H2. case_code.
  by eapply str_ltb_trans.
Qed.

#[export] Instance in_order_total : Total in_order.
Proof.
  intros a b. unfold in_order, newer_first. rewrite !Z.gtb_ltb.
  rewrite (Z.eqb_sym (b_created_at a)).
  destruct (Z.eqb_spec (b_created_at b) (b_created_at a)); [apply or_comm, str_ltb_total|].
  rewrite !Z.ltb_ge. lia.
Qed.

Lemma held_list tr b :
  blocks_wf tr ->
  b ∈ (snd <$> map_to_list (exact_ tr)) ++ (block <$> cidrs_ tr) <-> held tr b.
Proof.
  intros [W1 W2 W3]. rewrite elem_of_app, !list_elem_of_fmap. unfold held. split.
  - intros [([a c] & -> & H%elem_of_map_to_list)|(e & -> & He)]; [left|right; eauto].
    destruct (W1 _ _ H) as [Ha Hc]. simpl. by rewrite Ha.
  - intros [[H1 H2]|(e & He & <-)]; [left|right; eauto].
    exists (b_address b, b). by rewrite elem_of_map_to_list.
Qed.

Lemma NoDup_held_list tr :
  blocks_wf tr -> NoDup ((snd <$> map_to_list (exact_ tr)) ++ (block <$> cidrs_ tr)).
Proof.
  intros [W1 W2 W3]. rewrite Forall_forall in W2. apply NoDup_app. split_and!.
  - apply NoDup_fmap_2_strong; [|apply NoDup_map_to_list].
    intros [a b] [a' b'] H%elem_of_map_to_list H'%elem_of_map_to_list E. simpl in E. subst.
    destruct (W1 _ _ H), (W1 _ _ H'). congruence.
  - intros b ([a c] & -> & H%elem_of_map_to_list)%list_elem_of_fmap
      (e & E & He)%list_elem_of_fmap. simpl in E. subst.
    destruct (W1 _ _ H), (W2 _ He). congruence.
  - apply (NoDup_fmap_1 b_text). by rewrite <- list_fmap_compose.
Qed.

Lemma NoDup_spec_add b spec : NoDup spec -> NoDup (spec_add b spec).
Proof.
  intros H. apply NoDup_app. split_and!; [by apply NoDup_filter| |apply NoDup_singleton].
  intros c [Hc _]%list_elem_of_filter ->%list_elem_of_singleton.
  unfold same_slot in Hc. destruct (b_is_cidr b); simpl in Hc; by case_bool.
Qed.

Section listing.
Context `{Asio : AsioIp}.

Lemma NoDup_spec_calls cs : NoDup (spec_calls cs).
Proof.
  induction cs as [|[t c] cs IH] using rev_ind; [apply NoDup_nil_2|].
  unfold spec_calls in *. rewrite foldl_app. cbn [foldl]. unfold spec_call.
  destruct c as [b|text|]; cbn [snd]; [by apply NoDup_spec_add| |done].
  unfold spec_remove. case_match; by apply NoDup_filter.
Qed.

(** C27: a lookup answers as if every block ever added were kept in a list:
    whatever the pruning interval and however adds, removals and listings were
    interleaved before, the address is blocked exactly when an unexpired,
    unreplaced, unremoved block covers it. *)
Theorem is_blocked_refines interval cs now ip :
  clock_steady cs now ->
  is_blocked now ip (run_calls interval cs) = spec_blocked now ip (spec_calls cs).
Proof. intros H. by apply is_blocked_simulates, run_calls_simulates. Qed.

(** The admin listing returns each unexpired block once and no other,
    newest first, ties by text; and listing changes no later lookup. *)
Theorem list_active_sorted interval cs now :
  clock_steady cs now ->
  let '(tr', l) := list_active now (run_calls interval cs) in
  l ≡ₚ filter (fun b => live now b = true) (spec_calls cs) /\
  StronglySorted in_order l /\
  forall later ip, now <= later ->
    is_blocked later ip tr' = is_blocked later ip (run_calls interval cs).
Proof.
  intros H. pose proof (run_calls_simulates interval cs now H) as Hs.
  pose proof (set_last_prune_simulates now now _ _ (prune_simulates _ _ _ Hs)) as Hp.
  unfold list_active. set (tr := run_calls interval cs) in *.
  set (tr1 := set_last_prune now _) in *. split_and!.
  - rewrite merge_sort_Permutation. destruct Hp as [Hwf Hp].
    apply NoDup_Permutation; [by apply NoDup_held_list|apply NoDup_filter, NoDup_spec_calls|].
    intros b. rewrite held_list, list_elem_of_filter by done. split; [|naive_solver].
    intros Hb. assert (live now b = true) as Hl by (by apply prune_held in Hb as [_ ?]; destruct Hs).
    split; [done|]. by apply Hp.
  - apply StronglySorted_merge_sort; apply _.
  - intros later ip Hl.
    rewrite (is_blocked_simulates later ip tr1 (spec_calls cs)),
      (is_blocked_simulates later ip tr (spec_calls cs)); eauto using simulates_mono.
Qed.
End listing.

(** ** Witnesses *)

Definition example_block (last : Z) (cidr : bool) (created expires : Z) : TemporaryIpBlock :=
  mkBlock "x" cidr (addr_v4 [10; 0; 0; last]) (if cidr then 24 else 0) "manual" 0 created expires.

Definition example_calls : list (Z * block_call) :=
  [(0, CallAdd (example_block 1 false 0 10)); (1, CallAdd (example_block 0 true 1 30));
   (2, CallAdd (example_block 9 false 2 5)); (3, CallList); (4, CallRemove "none")].

Lemma example_calls_steady : clock_steady example_calls 7.
Proof. by apply sorted_le_sound. Qed.

Lemma is_blocked_refines_witness :
  clock_steady example_calls 7 /\
  is_blocked 7 (addr_v4 [10; 0; 0; 5]) (run_calls (Asio := text_asio) ns_per_min example_calls) = true /\
  spec_blocked 7 (addr_v4 [10; 0; 0; 5]) (spec_calls (Asio := text_asio) example_calls) = true.
Proof.
  split_and!; [exact example_calls_steady| |vm_compute; reflexivity].
  rewrite (is_blocked_refines (Asio := text_asio) ns_per_min example_calls 7 _ example_calls_steady).
  vm_compute. reflexivity.
Defined.

Lemma list_active_sorted_witness :
  clock_steady example_calls 7 /\
  let '(_, l) := list_active 7 (run_calls (Asio := text_asio) ns_per_min example_calls) in
  l ≡ₚ filter (fun b => live 7 b = true) (spec_calls (Asio := text_asio) example_calls).
Proof.
  split; [exact example_calls_steady|].
  apply (list_active_sorted (Asio := text_asio) ns_per_min example_calls 7 example_calls_steady).
Defined.
