(* ===== verification/Checks.v ===== *)
(** * Checks: the blocking checks of the request pipeline

    Models [pipeline/checks.hpp/.cpp]: the whitelist tests, the header-phase
    checks in their order, the method allowlist, the rate check over the
    shared tracker, and the body-phase checks. Beast's field lookup
    ([header.find(name)], case-insensitive) is the function [header_find] of
    the request header. *)
From S2P Require Import Prelude Text Net Config.
From S2P Require RateTracker.

(** ** Results *)

Inductive Verdict := Allow | Block.
#[export] Instance Verdict_eq_dec : EqDecision Verdict.
Proof. solve_decision. Defined.

Record CheckResult := mkResult { verdict : Verdict; check_name : str; reason : str }.
#[export] Instance CheckResult_eq_dec : EqDecision CheckResult.
Proof. solve_decision. Defined.

Definition allow : CheckResult := mkResult Allow [] [].
Definition block (name reason : str) : CheckResult := mkResult Block name reason.
Definition blocked (r : CheckResult) : bool := verdict r == Block.

(** What the program reads of a parsed request header. *)
Record request_header := mkHeader {
  version : Z;
  method_string : str;
  target : str;
  header_find : str -> option str }.

(** ** The loops over pattern lists *)

(** [for (e : list) if (hit(e)) return on_hit(e); return otherwise;] *)
Fixpoint first_hit {A B} (hit : A -> bool) (on_hit : A -> B) (otherwise : B) (l : list A) : B :=
  match l with
  | [] => otherwise
  | e :: l' => if hit e then on_hit e else first_hit hit on_hit otherwise l'
  end.

Section checks.
Context `{Asio : AsioIp}.

Definition is_ip_whitelisted (config : WhitelistConfig) (client_ip : address) : bool :=
  let ip_text := to_string client_ip in
  first_hit (fun e => value e == ip_text) (fun _ => true)
    (first_hit (fun r => address_in_cidr client_ip r) (fun _ => true) false (wl_ip_cidrs config))
    (wl_ip_exact config).

Definition is_route_whitelisted (config : WhitelistConfig) (path : str) : bool :=
  first_hit (fun e => icontains path (value e)) (fun _ => true) false (wl_routes config).

Definition check_ip_blacklist (config : BlacklistConfig) (client_ip : address) : CheckResult :=
  let ip_text := to_string client_ip in
  first_hit (fun e => value e == ip_text) (fun e => block "ip_blacklist" ("exact match: " ++ value e))
    (first_hit (fun r => address_in_cidr client_ip r)
       (fun r => block "ip_blacklist" ("cidr match: " ++ cidr_text r)) allow (ip_cidrs config))
    (ip_exact config).

(** [check_country_blacklist] has no data source and always allows. *)
Definition check_country_blacklist (config : BlacklistConfig) (client_ip : address) : CheckResult :=
  allow.
End checks.

Definition check_route_blacklist (config : BlacklistConfig) (path : str) : CheckResult :=
  first_hit (fun e => icontains path (value e))
    (fun e => block "route_blacklist" ("pattern match: " ++ value e)) allow (routes config).

Definition check_fake_routes (config : BlacklistConfig) (path : str) : CheckResult :=
  first_hit (fun e => istarts_with path (value e))
    (fun e => block "fake_route" ("honeypot path: " ++ value e)) allow (fake_routes config).

Definition check_isp_blacklist (config : BlacklistConfig) (isp : str) : CheckResult :=
  match isp with
  | [] => allow
  | _ => first_hit (fun e => icontains isp (value e))
           (fun e => block "isp_blacklist" ("pattern match: " ++ value e)) allow (isps config)
  end.

Definition check_user_agent_blacklist (config : BlacklistConfig) (header : request_header) : CheckResult :=
  match header_find header "User-Agent" with
  | None => allow
  | Some user_agent =>
      first_hit (fun e => icontains user_agent (value e))
        (fun e => block "user_agent_blacklist" ("pattern match: " ++ value e)) allow (user_agents config)
  end.

Definition check_referrer_blacklist (config : BlacklistConfig) (header : request_header) : CheckResult :=
  match header_find header "Referer" with
  | None => allow
  | Some referrer =>
      first_hit (fun e => icontains referrer (value e))
        (fun e => block "referrer_blacklist" ("pattern match: " ++ value e)) allow (referrers config)
  end.

Definition join_methods (methods : list (list ascii)) : str :=
  foldl (fun allowed_list allowed =>
           allowed_list ++ (match allowed_list with [] => [] | _ => lit ", " end) ++ allowed) [] methods.

Definition check_method_allowlist (config : MethodCheckConfig) (method : str) : CheckResult :=
  if negb (mc_enabled config) then allow
  else first_hit (fun allowed => iequals method allowed) (fun _ => allow)
         (block "method_not_allowed"
            ("method not in allowlist [" ++ join_methods (allowed_methods config) ++ lit "]"))
         (allowed_methods config).

(** ** Navigation requests and the rate check *)

Definition kExtensions : list (list ascii) := map lit [
  ".js"; ".mjs"; ".css"; ".map"; ".png"; ".jpg"; ".jpeg"; ".gif";
  ".svg"; ".ico"; ".webp"; ".avif"; ".woff"; ".woff2"; ".ttf"; ".otf";
  ".eot"; ".mp4"; ".webm"; ".mp3"; ".wav"; ".json"]%string.

Definition has_static_asset_extension (path : str) : bool :=
  match rfind_char "." path with
  | None => false
  | Some dot => first_hit (fun candidate => iequals (drop dot path) candidate) (fun _ => true) false kExtensions
  end.

Definition is_navigation_request (header : request_header) (path : str) : bool :=
  match header_find header "Sec-Fetch-Dest" with
  | Some v => iequals v "document"
  | None => negb (has_static_asset_extension path)
  end.

Definition check_request_rate `{AsioIp} (config : SpeedCheckConfig) (client_ip : address)
    (path : str) (header : request_header) (now : Z) : M RateTracker.RequestRateTracker CheckResult :=
  if negb (sc_enabled config) then mret allow
  else if negb (is_navigation_request header path) then mret allow
  else
    count ← RateTracker.record (to_string client_ip) now (window_seconds config);
    if swrap32 (Z.of_nat count) >? max_requests config then
      mret (block "speed_check"
        (to_dec (Z.of_nat count) ++ lit " requests in " ++ to_dec (window_seconds config) ++
         lit "s exceeds limit " ++ to_dec (max_requests config)))
    else mret allow.

(** ** The body phase and the two pipelines *)

Definition check_body_size (config : BlacklistConfig) (body_size : Z) : CheckResult :=
  if (max_body_size_bytes config >? 0) && (body_size >? max_body_size_bytes config) then
    block "body_size_limit"
      ("body size " ++ to_dec body_size ++ lit " exceeds limit " ++ to_dec (max_body_size_bytes config))
  else allow.

Definition check_body_blacklist (config : BlacklistConfig) (body : str) : CheckResult :=
  first_hit (fun e => icontains body (value e))
    (fun e => block "body_blacklist" ("pattern match: " ++ value e)) allow (body_patterns config).

(** [if (auto result = r; result.blocked()) return result; rest] *)
Definition or_else (r rest : CheckResult) : CheckResult := if blocked r then r else rest.

Definition evaluate_header_checks `{AsioIp} (config : BlacklistConfig) (client_ip : address)
    (path : str) (header : request_header) (isp : str) : CheckResult :=
  or_else (check_ip_blacklist config client_ip) (
  or_else (check_route_blacklist config path) (
  or_else (check_fake_routes config path) (
  or_else (check_country_blacklist config client_ip) (
  or_else (check_isp_blacklist config isp) (
  or_else (check_user_agent_blacklist config header) (
  or_else (check_referrer_blacklist config header) allow)))))).

Definition evaluate_body_checks (config : BlacklistConfig) (body : str) : CheckResult :=
  or_else (check_body_size config (Z.of_nat (length body))) (
  or_else (check_body_blacklist config body) allow).

(** ** What a match is *)

(** Case-insensitive substring and prefix. *)
Definition contains_ci (h n : str) : Prop := exists pre suf, to_lower h = pre ++ to_lower n ++ suf.
Definition prefix_ci (h p : str) : Prop := to_lower p `prefix_of` to_lower h.

(** A configured entry [v] of the named check matches the request. *)
Inductive header_hit `{AsioIp} (config : BlacklistConfig) (client_ip : address) (path : str)
    (header : request_header) (isp : str) : str -> str -> Prop :=
  | hit_ip e : e ∈ ip_exact config -> value e = to_string client_ip ->
      header_hit config client_ip path header isp "ip_blacklist" ("exact match: " ++ value e)
  | hit_cidr r : r ∈ ip_cidrs config -> address_in_cidr client_ip r = true ->
      header_hit config client_ip path header isp "ip_blacklist" ("cidr match: " ++ cidr_text r)
  | hit_route e : e ∈ routes config -> contains_ci path (value e) ->
      header_hit config client_ip path header isp "route_blacklist" ("pattern match: " ++ value e)
  | hit_fake e : e ∈ fake_routes config -> prefix_ci path (value e) ->
      header_hit config client_ip path header isp "fake_route" ("honeypot path: " ++ value e)
  | hit_isp e : e ∈ isps config -> isp <> [] -> contains_ci isp (value e) ->
      header_hit config client_ip path header isp "isp_blacklist" ("pattern match: " ++ value e)
  | hit_agent e ua : e ∈ user_agents config -> header_find header "User-Agent" = Some ua ->
      contains_ci ua (value e) ->
      header_hit config client_ip path header isp "user_agent_blacklist" ("pattern match: " ++ value e)
  | hit_referrer e rf : e ∈ referrers config -> header_find header "Referer" = Some rf ->
      contains_ci rf (value e) ->
      header_hit config client_ip path header isp "referrer_blacklist" ("pattern match: " ++ value e).

(** The order in which the checks run. *)
Definition header_order : list (list ascii) := map lit [
  "ip_blacklist"; "route_blacklist"; "fake_route"; "isp_blacklist";
  "user_agent_blacklist"; "referrer_blacklist"]%string.
Definition rank (name : str) : nat := default 99%nat (fst <$> list_find (name =.) header_order).

(** ** Loops and combinators *)

Lemma first_hit_spec {A B} (hit : A -> bool) (on_hit : A -> B) otherwise l :
  (exists e, e ∈ l /\ hit e = true /\ first_hit hit on_hit otherwise l = on_hit e) \/
  (forall e, e ∈ l -> hit e = false) /\ first_hit hit on_hit otherwise l = otherwise.
Proof.
  induction l as [|e l IH]; simpl.
  - right. split; [intros e He; inversion He|done].
  - destruct (hit e) eqn:E; [left; exists e; by split; [left|]|].
    destruct IH as [(e' & ? & ? & ?)|[IH ?]]; [left; exists e'; by split; [right|]|right].
    split; [|done]. intros e' [->|?]%elem_of_cons; auto.
Qed.

Lemma first_hit_bool {A} (hit : A -> bool) rest l :
  first_hit hit (fun _ => true) rest l = true <-> (exists e, e ∈ l /\ hit e = true) \/ rest = true.
Proof.
  destruct (first_hit_spec hit (fun _ => true) rest l) as [(e & ? & ? & ->)|[Hl ->]].
  - split; [intros _; left; eauto|done].
  - split; [by right|]. intros [(e & He & Hh)|?]; [|done]. apply Hl in He. congruence.
Qed.

(** What a single check establishes: allow when nothing hits, otherwise the
    named block with a hit's reason. *)
Definition check_post (name : str) (hits : str -> Prop) (r : CheckResult) : Prop :=
  r = allow /\ (forall why, ~ hits why) \/ exists why, hits why /\ r = block name why.

Lemma first_hit_post {A} (name : str) (hit : A -> bool) (phrase : A -> str) (rest : CheckResult) l
    (hits : str -> Prop) :
  (forall why, hits why -> exists e, e ∈ l /\ hit e = true) ->
  (forall e, e ∈ l -> hit e = true -> hits (phrase e)) ->
  rest = allow ->
  check_post name hits (first_hit hit (fun e => block name (phrase e)) rest l).
Proof.
  intros H1 H2 ->.
  destruct (first_hit_spec hit (fun e => block name (phrase e)) allow l)
    as [(e & He & Hh & ->)|[Hl ->]]; [right; eauto|left].
  split; [done|]. intros why (e & He & Hh)%H1. rewrite (Hl e He) in Hh. done.
Qed.

Lemma or_else_post r rest : verdict r = Allow -> or_else r rest = rest.
Proof. unfold or_else, blocked. intros ->. done. Qed.


(** ** Each check against the matching relation *)

Section post.
Context `{Asio : AsioIp} (config : BlacklistConfig) (client_ip : address) (path : str)
  (header : request_header) (isp : str).
Let hits (name why : str) : Prop := header_hit config client_ip path header isp name why.

(** Read the entry back from a hit of a known check. *)
Ltac invert_hit H :=
  inversion H; subst; try (exfalso; discriminate); eauto.

Lemma ip_blacklist_post : check_post "ip_blacklist" (hits "ip_blacklist") (check_ip_blacklist config client_ip).
Proof.
  unfold check_ip_blacklist.
  match goal with |- check_post _ _ (first_hit ?h ?f ?o ?l) =>
    destruct (first_hit_spec h f o l) as [(e & He & Hh & ->)|[Hl ->]] end.
  { right. case_bool. eexists. split; [by apply hit_ip|done]. }
  match goal with |- check_post _ _ (first_hit ?h ?f ?o ?l) =>
    destruct (first_hit_spec h f o l) as [(e & He & Hh & ->)|[Hl' ->]] end.
  { right. eexists. split; [by apply hit_cidr|done]. }
  left. split; [done|]. intros why H. invert_hit H.
  - specialize (Hl _ H0). case_bool. done.
  - specialize (Hl' _ H0). congruence.
Qed.

Lemma route_blacklist_post : check_post "route_blacklist" (hits "route_blacklist") (check_route_blacklist config path).
Proof.
  apply (first_hit_post _ _ (fun e => "pattern match: " ++ value e)); [| |done].
  - intros why H. invert_hit H. exists e. by rewrite icontains_spec.
  - intros e He Hh. apply hit_route; [done|]. by apply icontains_spec.
Qed.

Lemma fake_routes_post : check_post "fake_route" (hits "fake_route") (check_fake_routes config path).
Proof.
  apply (first_hit_post _ _ (fun e => "honeypot path: " ++ value e)); [| |done].
  - intros why H. invert_hit H. exists e. by rewrite istarts_with_spec.
  - intros e He Hh. apply hit_fake; [done|]. by apply istarts_with_spec.
Qed.

Lemma isp_blacklist_post : check_post "isp_blacklist" (hits "isp_blacklist") (check_isp_blacklist config isp).
Proof.
  destruct (decide (isp = [])) as [->|Hne].
  { left. split; [done|]. intros why H. invert_hit H. }
  assert (check_isp_blacklist config isp = first_hit (fun e => icontains isp (value e))
    (fun e => block "isp_blacklist" ("pattern match: " ++ value e)) allow (isps config)) as ->
    by (by destruct isp).
  apply (first_hit_post _ _ (fun e => "pattern match: " ++ value e)); [| |done].
  - intros why H. invert_hit H. exists e. by rewrite icontains_spec.
  - intros e He Hh. apply hit_isp; [done|done|]. by apply icontains_spec.
Qed.

Lemma user_agent_post : check_post "user_agent_blacklist" (hits "user_agent_blacklist") (check_user_agent_blacklist config header).
Proof.
  unfold check_user_agent_blacklist. destruct (header_find header "User-Agent") as [ua|] eqn:E.
  2: { left. split; [done|]. intros why H. invert_hit H. congruence. }
  apply (first_hit_post _ _ (fun e => "pattern match: " ++ value e)); [| |done].
  - intros why H. invert_hit H. exists e. rewrite icontains_spec. simplify_eq. done.
  - intros e He Hh. apply (hit_agent _ _ _ _ _ e ua); [done|done|]. by apply icontains_spec.
Qed.

Lemma referrer_post : check_post "referrer_blacklist" (hits "referrer_blacklist") (check_referrer_blacklist config header).
Proof.
  unfold check_referrer_blacklist. destruct (header_find header "Referer") as [rf|] eqn:E.
  2: { left. split; [done|]. intros why H. invert_hit H. congruence. }
  apply (first_hit_post _ _ (fun e => "pattern match: " ++ value e)); [| |done].
  - intros why H. invert_hit H. exists e. rewrite icontains_spec. simplify_eq. done.
  - intros e He Hh. apply (hit_referrer _ _ _ _ _ e rf); [done|done|]. by apply icontains_spec.
Qed.
End post.

(** ** The pipelines *)

Lemma check_post_or_else name hits r rest :
  check_post name hits r ->
  (r = allow /\ (forall why, ~ hits why) /\ or_else r rest = rest) \/
  exists why, hits why /\ or_else r rest = block name why.
Proof. intros [[-> H]|(why & H & ->)]; [left|right]; eauto. Qed.

Section evaluate.
Context `{Asio : AsioIp} (config : BlacklistConfig) (client_ip : address) (path : str)
  (header : request_header) (isp : str).
Let hits (name why : str) : Prop := header_hit config client_ip path header isp name why.

(** One [or_else]: either the check allows and the next one decides, or its
    block is the result and every other hit is of a later check. *)
Ltac next_check post :=
  match goal with |- context [or_else ?r ?rest] =>
    let H := fresh "No" in
    destruct (check_post_or_else _ _ r rest post) as [(_ & H & ->)|(why & H & ->)];
    [|right; split; [done|split; [exact H|]];
      let n := fresh in let w := fresh in
      intros n w Hn; inversion Hn; subst; try (vm_compute; lia);
      exfalso; match goal with No : forall why, ~ _ |- _ => by eapply No end]
  end.

Lemma evaluate_header_checks_post :
  let r := evaluate_header_checks config client_ip path header isp in
  (blocked r = false /\ r = allow /\ forall name why, ~ header_hit config client_ip path header isp name why) \/
  (blocked r = true /\ header_hit config client_ip path header isp (check_name r) (reason r) /\
   forall name why, header_hit config client_ip path header isp name why ->
     (rank (check_name r) <= rank name)%nat).
Proof.
  unfold evaluate_header_checks, check_country_blacklist.
  rewrite (or_else_post allow) by done.
  next_check (ip_blacklist_post config client_ip path header isp).
  next_check (route_blacklist_post config client_ip path header isp).
  next_check (fake_routes_post config client_ip path header isp).
  next_check (isp_blacklist_post config client_ip path header isp).
  next_check (user_agent_post config client_ip path header isp).
  next_check (referrer_post config client_ip path header isp).
  left. split_and!; [done|done|]. intros name why H. pose proof H as H'.
  inversion H; subst;
    match goal with No : forall why, ~ _ |- _ => by eapply No; exact H' end.
Qed.

(** C19: the header phase allows a request exactly when no configured address,
    range, route, honeypot path, ISP, user agent or referrer entry matches
    it; otherwise it returns the block of an entry that does match, of the
    first check in the documented order that has one. *)
Theorem evaluate_header_checks_spec :
  let r := evaluate_header_checks config client_ip path header isp in
  (blocked r = false /\ r = allow /\ forall name why, ~ header_hit config client_ip path header isp name why) \/
  (blocked r = true /\ header_hit config client_ip path header isp (check_name r) (reason r) /\
   forall name why, header_hit config client_ip path header isp name why ->
     (rank (check_name r) <= rank name)%nat).
Proof. apply evaluate_header_checks_post. Qed.
End evaluate.

(** The body phase blocks exactly an oversized body (when a limit is set)
    or one that contains a configured pattern, the size test first. *)
Theorem evaluate_body_checks_spec config body :
  let r := evaluate_body_checks config body in
  let oversized := max_body_size_bytes config > 0 /\ Z.of_nat (length body) > max_body_size_bytes config in
  let hit e := e ∈ body_patterns config /\ contains_ci body (value e) in
  (blocked r = true <-> oversized \/ exists e, hit e) /\
  (check_name r = "body_size_limit" <-> oversized) /\
  (check_name r = "body_blacklist" -> exists e, hit e /\ reason r = "pattern match: " ++ value e).
Proof.
  unfold evaluate_body_checks, check_body_size, check_body_blacklist.
  set (n := Z.of_nat (length body)). cbv zeta.
  match goal with |- context [first_hit ?h ?f ?o ?l] =>
    destruct (first_hit_spec h f o l) as [(e & He & Hh & Heq)|[Hl Heq]]; rewrite Heq end;
    rewrite !Z.gtb_ltb.
  - apply icontains_spec in Hh.
    destruct ((0 <? max_body_size_bytes config) && (max_body_size_bytes config <? n)) eqn:E;
      cbn; case_bool; split_and!; try done.
    + split; [intros _; left; lia|done].
    + split; [intros _; lia|done].
    + split; [intros _; right; eauto|done].
    + split; [done|]. intros [? ?]. apply andb_false_iff in E as [?|?]; case_bool; lia.
    + intros _. eauto.
  - assert (~ exists e, e ∈ body_patterns config /\ contains_ci body (value e)) as Hno.
    { intros (e & He & Hh%icontains_spec). rewrite (Hl e He) in Hh. done. }
    destruct ((0 <? max_body_size_bytes config) && (max_body_size_bytes config <? n)) eqn:E;
      cbn; case_bool; split_and!; try done.
    + split; [intros _; left; lia|done].
    + split; [intros _; lia|done].
    + split; [done|]. intros [[? ?]|?]; [|done].
      apply andb_false_iff in E as [?|?]; case_bool; lia.
    + split; [done|]. intros [? ?]. apply andb_false_iff in E as [?|?]; case_bool; lia.
Qed.

(** The method allowlist blocks exactly when it is enabled and the
    request's method equals no allowed method, letter case aside; so enabled
    with an empty list it blocks every request. *)
Theorem check_method_allowlist_spec config method :
  (blocked (check_method_allowlist config method) = true <->
   mc_enabled config = true /\
   forall m, m ∈ allowed_methods config -> to_lower method <> to_lower m) /\
  (mc_enabled config = true -> allowed_methods config = [] ->
   blocked (check_method_allowlist config method) = true).
Proof.
  unfold check_method_allowlist. destruct (mc_enabled config); simpl; [|by split; [split|]; naive_solver].
  match goal with |- context [first_hit ?h ?f ?o ?l] =>
    destruct (first_hit_spec h f o l) as [(e & He & Hh & ->)|[Hl ->]] end.
  - apply iequals_spec in Hh. split.
    + split; [done|]. intros [_ H]. by apply H in He.
    + intros _ E. rewrite E in He. inversion He.
  - split; [|done]. split; [|done]. intros _. split; [done|].
    intros m Hm H%iequals_spec. rewrite (Hl m Hm) in H. done.
Qed.

(** ** The whitelist *)

Lemma is_ip_whitelisted_spec `{AsioIp} config client_ip :
  is_ip_whitelisted config client_ip = true <->
  (exists e, e ∈ wl_ip_exact config /\ value e = to_string client_ip) \/
  (exists r, r ∈ wl_ip_cidrs config /\ address_in_cidr client_ip r = true).
Proof.
  unfold is_ip_whitelisted. rewrite !first_hit_bool.
  setoid_rewrite bool_decide_eq_true. naive_solver.
Qed.

Lemma is_route_whitelisted_spec config path :
  is_route_whitelisted config path = true <->
  exists e, e ∈ wl_routes config /\ contains_ci path (value e).
Proof.
  unfold is_route_whitelisted. rewrite first_hit_bool. setoid_rewrite icontains_spec. naive_solver.
Qed.

(** ** The rate check over a history of calls *)

Definition in_window (window : Z) (ip : str) (now : Z) (calls : list (str * Z)) : nat :=
  length (filter (fun c => fst c = ip /\ now - window * ns_per_s <= snd c) calls).

(** The speed check counts page navigations only: for them, and when it
    is enabled, it blocks exactly when the client made more than
    [max_requests] counted requests in the last [window_seconds] seconds, this
    one included, and records this one; any other request is allowed and
    leaves the tracker alone. *)
Theorem check_request_rate_spec (Asio : AsioIp) config calls client_ip path header now :
  0 < window_seconds config <= INT_MAX ->
  RateTracker.calls_ok (calls ++ [(to_string client_ip, now)]) ->
  Z.of_nat (length calls) < INT_MAX ->
  let calls' := calls ++ [(to_string client_ip, now)] in
  let tr := RateTracker.run_calls (window_seconds config) calls in
  let '(tr', res) := check_request_rate config client_ip path header now tr in
  if sc_enabled config && is_navigation_request header path then
    tr' = RateTracker.run_calls (window_seconds config) calls' /\
    exists r, res = Ok r /\
      blocked r = (Z.of_nat (in_window (window_seconds config) (to_string client_ip) now calls')
                   >? max_requests config)
  else tr' = tr /\ res = Ok allow.
Proof.
  intros Hw Hok Hlen. cbv zeta. unfold check_request_rate.
  destruct (sc_enabled config); [|done]. destruct (is_navigation_request header path); [|done].
  cbn [negb andb].
  pose proof (RateTracker.record_count (window_seconds config) Hw calls _ _ Hok) as Hr.
  rewrite RateTracker.run_calls_snoc. cbn [fst snd]. unfold mbind, M_bind.
  destruct (RateTracker.record _ _ _ _) as [tr' res]. cbn [fst snd] in *. subst res.
  fold (in_window (window_seconds config) (to_string client_ip) now (calls ++ [(to_string client_ip, now)])).
  set (n := in_window _ _ _ _).
  assert (Z.of_nat n <= INT_MAX) as Hn.
  { assert (n <= length (calls ++ [(to_string client_ip, now)]))%nat by apply length_filter.
    rewrite length_app in *. cbn [length] in *. lia. }
  rewrite swrap32_small by (unfold INT_MIN, INT_MAX in *; lia).
  destruct (Z.of_nat n >? max_requests config) eqn:E; (split; [done|]); eexists; split; done.
Qed.

(** ** Witnesses *)

Definition plain_header (agent : option str) : request_header :=
  mkHeader 11 "GET" "/" (fun name => if name == "User-Agent" then agent else None).

Lemma check_request_rate_spec_witness :
  let config := mkSpeed true 1 10 in
  let calls := [(text_of_address (addr_v4 [1; 2; 3; 4]), 100 * ns_per_s)] in
  exists tr' r,
    check_request_rate (H := text_asio) config (addr_v4 [1; 2; 3; 4]) "/index.html" (plain_header None)
      (105 * ns_per_s) (RateTracker.run_calls 10 calls) = (tr', Ok r) /\ blocked r = true.
Proof.
  intros config calls.
  pose proof (check_request_rate_spec text_asio config calls (addr_v4 [1; 2; 3; 4]) "/index.html"
    (plain_header None) (105 * ns_per_s)
    ltac:(unfold INT_MAX; simpl; lia)
    ltac:(by apply RateTracker.calls_ok_check)
    ltac:(unfold INT_MAX; simpl; lia)) as H.
  cbv zeta in H. cbn [window_seconds config] in H.
  destruct (check_request_rate _ _ _ _ _ _) as [tr' res].
  destruct H as (_ & r & -> & Hb). exists tr', r. split; [reflexivity|].
  rewrite Hb. vm_compute. reflexivity.
Defined.
