(* ===== verification/Robots.v ===== *)
(** * Robots: the generated robots.txt

    Models [pipeline/robots_txt.cpp]: splitting the admin's text into lines,
    finding the first wildcard group, and merging one [Disallow] line per
    honeypot route into it. *)
From S2P Require Import Prelude Text Net Config.

(** ** Definitions *)

Definition trim (s : str) : str := trim_by isspace s.

Definition is_wildcard_user_agent_line (line : str) : bool :=
  let trimmed := trim line in
  match find_char ":" trimmed with
  | None => false
  | Some colon =>
      (to_lower (trim (take colon trimmed)) == lit "user-agent") &&
      (trim (drop (S colon) trimmed) == lit "*")
  end.

(** [std::getline] until the end: the text after the last newline is a line
    only when it is not empty. *)
Fixpoint split_lines (text : str) : list (list ascii) :=
  match text with
  | [] => []
  | c :: text' =>
      if c == nl then [] :: split_lines text'
      else match split_lines text' with
           | [] => [[c]]
           | line :: lines => (c :: line) :: lines
           end
  end.

(** [for (line : lines) out += line + newline]. *)
Definition join_lines (out : str) (lines : list (list ascii)) : str :=
  foldl (fun out line => out ++ line ++ [nl]) out lines.

Definition disallow_lines (fake_routes : list BlacklistEntry) : list (list ascii) :=
  map (fun route => lit "Disallow: " ++ value route) fake_routes.

Definition ends_with_newline (base : str) : bool := last base == Some nl.

Definition build_robots_txt_body (base : str) (fake_routes : list BlacklistEntry) : str :=
  match fake_routes with
  | [] => base
  | _ =>
      let disallow := disallow_lines fake_routes in
      match base with
      | [] => join_lines (lit "User-agent: *" ++ [nl]) disallow
      | _ =>
          let lines := split_lines base in
          match list_find (fun line => is_wildcard_user_agent_line line = true) lines with
          | Some (it, _) =>
              let merged := take (S it) lines ++ disallow ++ drop (S it) lines in
              let out := join_lines [] merged in
              if negb (ends_with_newline base) then removelast out else out
          | None => join_lines [] (lines ++ [[]] ++ [lit "User-agent: *"] ++ disallow)
          end
      end
  end.

(** ** Lines *)

Definition one_line (line : str) : Prop := nl ∉ line.

Lemma split_lines_one_line text : Forall one_line (split_lines text).
Proof.
  induction text as [|c text IH]; simpl; [constructor|].
  case_bool_decide; [constructor; [apply not_elem_of_nil|done]|].
  destruct (split_lines text) as [|line lines].
  - constructor; [|done]. unfold one_line. rewrite list_elem_of_singleton. congruence.
  - apply Forall_cons in IH as [Hl Hls]. constructor; [|done].
    unfold one_line in *. by apply not_elem_of_cons.
Qed.

Lemma split_lines_cons line rest :
  one_line line -> split_lines (line ++ nl :: rest) = line :: split_lines rest.
Proof.
  unfold one_line. induction line as [|c line IH]; intros H; cbn [app split_lines].
  - by rewrite bool_decide_eq_true_2.
  - apply not_elem_of_cons in H as [Hc Hl]. by rewrite bool_decide_eq_false_2, IH by done.
Qed.

Lemma split_lines_last line : one_line line -> line <> [] -> split_lines line = [line].
Proof.
  unfold one_line. induction line as [|c line IH]; intros H Hne; [done|].
  apply not_elem_of_cons in H as [Hc Hl]. cbn [split_lines]. rewrite bool_decide_eq_false_2 by done.
  destruct line as [|d line]; [done|]. by rewrite IH.
Qed.

Definition unlines (lines : list (list ascii)) : str := concat (map (fun l => l ++ [nl]) lines).

Lemma join_lines_unlines out lines : join_lines out lines = out ++ unlines lines.
Proof.
  unfold join_lines, unlines. revert out. induction lines as [|l lines IH]; intros out; simpl.
  - by rewrite app_nil_r.
  - rewrite IH, <- !app_assoc. done.
Qed.

Lemma split_unlines lines rest :
  Forall one_line lines -> split_lines (unlines lines ++ rest) = lines ++ split_lines rest.
Proof.
  unfold unlines. induction 1 as [|l lines Hl Hls IH]; simpl; [done|].
  rewrite <- !app_assoc. simpl. by rewrite split_lines_cons, IH.
Qed.

Lemma split_unlines_all lines : Forall one_line lines -> split_lines (unlines lines) = lines.
Proof. intros H. rewrite <- (app_nil_r (unlines lines)), split_unlines by done. apply app_nil_r. Qed.

Lemma unlines_snoc lines l : unlines (lines ++ [l]) = unlines lines ++ l ++ [nl].
Proof. unfold unlines. rewrite map_app, concat_app. simpl. by rewrite app_nil_r. Qed.

(** Dropping the final newline loses no line, unless the last one is empty. *)
Lemma split_removelast lines l :
  Forall one_line (lines ++ [l]) -> l <> [] ->
  split_lines (removelast (unlines (lines ++ [l]))) = lines ++ [l].
Proof.
  intros [Hls Hl]%Forall_app Hne. rewrite unlines_snoc, app_assoc, removelast_last.
  rewrite split_unlines by done. apply Forall_cons in Hl as [Hl _]. by rewrite split_lines_last.
Qed.

Lemma last_split_lines text l :
  last text <> Some nl -> last (split_lines text) = Some l -> l <> [].
Proof.
  revert l. induction text as [|c text IH]; intros l; simpl; [done|].
  destruct text as [|d text'].
  - simpl. intros Hc. rewrite bool_decide_eq_false_2 by congruence. simpl. intros [= <-]. done.
  - intros Hlast. assert (last (d :: text') <> Some nl) as Hl by done. 
    destruct (split_lines (d :: text')) as [|line lines] eqn:E.
    + simpl in E. case_bool_decide; [done|]. by destruct (split_lines text').
    + case_bool_decide.
      * destruct lines; intros H'; by eapply IH.
      * destruct lines as [|line2 lines]; simpl; [by intros [= <-]|]. by apply IH.
Qed.

(** ** The generated file *)

(** The file served always advertises every honeypot route, as the lines
    directly after the first wildcard [User-agent] line, and never drops or
    reorders a line of the admin's own text: read back line by line it is
    that text with the block of [Disallow] lines inserted after its first
    wildcard group header, or followed by a new wildcard group when it has
    none; with no honeypot route it is the text itself. *)
Theorem build_robots_txt_body_lines base fake_routes :
  Forall (fun r => one_line (value r)) fake_routes ->
  let out := build_robots_txt_body base fake_routes in
  (fake_routes = [] -> out = base) /\
  (fake_routes <> [] ->
   (exists before ua after,
      split_lines base = before ++ ua :: after /\
      Forall (fun l => is_wildcard_user_agent_line l = false) before /\
      is_wildcard_user_agent_line ua = true /\
      split_lines out = before ++ ua :: disallow_lines fake_routes ++ after) \/
   (Forall (fun l => is_wildcard_user_agent_line l = false) (split_lines base) /\
    exists gap, (forall l, l ∈ gap -> l = []) /\
    split_lines out = split_lines base ++ gap ++ lit "User-agent: *" :: disallow_lines fake_routes)).
Proof.
  intros Hone. cbv zeta. split; [by intros ->|]. intros Hne.
  assert (Forall one_line (disallow_lines fake_routes)) as Hdis.
  { apply Forall_map. eapply Forall_impl; [exact Hone|]. intros r Hr. unfold one_line in *. cbn beta.
    apply not_elem_of_app. split; [decide_literal|done]. }
  assert (one_line (lit "User-agent: *")) as Hua.
  { unfold one_line. decide_literal. }
  unfold build_robots_txt_body. destruct fake_routes as [|r rs]; [done|].
  set (dis := disallow_lines (r :: rs)) in *. destruct base as [|b base'].
  { right. split; [constructor|]. exists []. split; [intros l Hl; inversion Hl|].
    rewrite join_lines_unlines.
    change ((lit "User-agent: *" ++ [nl]) ++ unlines dis) with (unlines (lit "User-agent: *" :: dis)).
    apply split_unlines_all. by constructor. }
  set (base := b :: base') in *. pose proof (split_lines_one_line base) as Hb.
  destruct (list_find _ (split_lines base)) as [[it ua]|] eqn:E.
  - left. apply list_find_Some in E as (Hit & Hw & Hfirst).
    exists (take it (split_lines base)), ua, (drop (S it) (split_lines base)).
    assert (split_lines base = take it (split_lines base) ++ ua :: drop (S it) (split_lines base)) as Hsplit.
    { by rewrite take_drop_middle. }
    split_and!; [done| |done|].
    { apply Forall_forall. intros l (j & Hj & Hlt)%elem_of_take. apply not_true_is_false. by eapply Hfirst. }
    rewrite join_lines_unlines. cbn [app].
    rewrite (take_S_r _ _ _ Hit), <- app_assoc. cbn [app].
    set (l1 := take it _) in *. set (l2 := drop (S it) _) in *.
    assert (Forall one_line (l1 ++ ua :: dis ++ l2)) as Hall.
    { rewrite Hsplit in Hb. apply Forall_app in Hb as [? [? ?]%Forall_cons].
      apply Forall_app; split; [done|]. constructor; [done|]. by apply Forall_app. }
    destruct (ends_with_newline base) eqn:En; cbn [negb]; [by apply split_unlines_all|].
    unfold ends_with_newline in En. case_bool.
    assert (exists front l, l1 ++ ua :: dis ++ l2 = front ++ [l] /\ l <> []) as (front & l & Heq & Hl).
    { destruct (decide (l2 = [])) as [->|Hl2].
      - destruct (exists_last (l := dis)) as (d & x & Hd); [done|]. exists (l1 ++ ua :: d), x.
        rewrite Hd, app_nil_r, <- app_assoc. split; [done|].
        assert (x ∈ dis) as Hx by (rewrite Hd; apply elem_of_snoc; by right).
        unfold dis, disallow_lines in Hx. apply list_elem_of_fmap in Hx as (y & -> & _). done.
      - destruct (exists_last Hl2) as (d & x & Hd). exists (l1 ++ ua :: dis ++ d), x. split.
        { rewrite Hd. rewrite <- !app_assoc. simpl. by rewrite <- app_assoc. }
        apply (last_split_lines base); [done|]. rewrite Hsplit, Hd.
        rewrite (app_comm_cons d [x]), app_assoc. by rewrite last_snoc. }
    rewrite Heq in *. by apply split_removelast.
  - right. split; [apply list_find_None in E; eapply Forall_impl; [done|]; intros l; apply not_true_is_false|].
    exists [[]]. split; [by intros l ->%list_elem_of_singleton|].
    rewrite join_lines_unlines. apply split_unlines_all.
    apply Forall_app; split; [done|]. constructor; [apply not_elem_of_nil|].
    by constructor.
Qed.

(** ** Witnesses *)

Definition text_of_lines (lines : list string) : str := unlines (map lit lines).

Lemma build_robots_txt_body_lines_witness :
  Forall (fun r => one_line (value r)) [mkEntry "/trap" 0 [] []] /\
  split_lines (build_robots_txt_body (text_of_lines ["User-Agent : *"; "Disallow: /a"])
    [mkEntry "/trap" 0 [] []]) = map lit ["User-Agent : *"; "Disallow: /trap"; "Disallow: /a"]%string.
Proof.
  assert (Forall (fun r => one_line (value r)) [mkEntry "/trap" 0 [] []]) as H
    by (apply Forall_singleton; unfold one_line; decide_literal).
  split; [exact H|].
  destruct (build_robots_txt_body_lines (text_of_lines ["User-Agent : *"; "Disallow: /a"]) _ H) as [_ _].
  vm_compute. reflexivity.
Defined.

(** A file that lists several agents over one rule group is split by the
    merge: the wildcard agent keeps only the honeypot line and loses the
    rules it shared with the agent named next. *)
Example merge_splits_shared_group :
  build_robots_txt_body
    (text_of_lines ["User-agent: *"; "User-agent: GoodBot"; "Disallow: /private"])
    [mkEntry "/trap" 0 [] []] =
  text_of_lines ["User-agent: *"; "Disallow: /trap"; "User-agent: GoodBot"; "Disallow: /private"].
Proof. vm_compute. reflexivity. Qed.
