(* ===== verification/Sites.v ===== *)
(** * Sites: routing by host name, and the admin's site and page operations

    Models [config/site_lookup.cpp] (the site a request is for),
    [config/site_ops.cpp] and [config/status_page_ops.cpp] (the throwing
    operations on [RuntimeConfig::sites] and on the status pages). *)
From S2P Require Import Prelude Text Net Config.

(** ** Lookup *)

(** Pointers into the configuration are the values they point to. *)
Record ResolvedSite := mkResolved {
  rs_upstream : UpstreamConfig;
  rs_cert_file : option str;
  rs_key_file : option str;
  rs_enabled : bool;
  rs_matched : bool }.

Definition strip_port (host : str) : str :=
  match rfind_char ":" host with
  | None => host
  | Some colon =>
      let port_part := drop (S colon) host in
      if (port_part == []) || bool_decide (is_Some (find_first_not_of "0123456789" port_part))
      then host else take colon host
  end.

Definition nonempty (s : str) : option str := match s with [] => None | _ => Some s end.

Fixpoint resolve_in (name : str) (l : list SiteConfig) (fallback : ResolvedSite) : ResolvedSite :=
  match l with
  | [] => fallback
  | site :: l' =>
      if iequals name (domain site) then
        mkResolved (site_upstream site) (nonempty (cert_file site)) (nonempty (key_file site))
          (site_enabled site) true
      else resolve_in name l' fallback
  end.

Definition resolve_site (config : RuntimeConfig) (host_or_sni : str) : ResolvedSite :=
  resolve_in (strip_port host_or_sni) (sites config)
    (mkResolved (upstream config) None None true false).

(** ** Operations on the sites *)

(** The index [std::find_if] stops at. *)
Definition find_site (domain_name : str) (l : list SiteConfig) : option nat :=
  fst <$> list_find (fun s => iequals (domain s) domain_name = true) l.

Definition add_site (config : RuntimeConfig) (site : SiteConfig) : outcome RuntimeConfig :=
  if (domain site == []) || bool_decide (is_Some (find_first_of (lit " " ++ [tab] ++ lit "/") (domain site)))
  then Throw (InvalidArgument "site domain must be a bare hostname, e.g. 'example.com'")
  else
    let site := set_domain (to_lower (domain site)) site in
    if find_site (domain site) (sites config) is Some _
    then Throw (InvalidArgument ("a site for domain '" ++ domain site ++ lit "' already exists"))
    else Ok (set_sites (sites config ++ [site]) config).

Record SiteUpdate := mkSiteUpdate {
  u_enabled : option bool; u_cert_file : option str; u_key_file : option str;
  u_upstream_host : option str; u_upstream_port : option Z }.

Definition apply_update (update : SiteUpdate) (site : SiteConfig) : SiteConfig :=
  mkSite (domain site)
    (default (site_enabled site) (u_enabled update))
    (default (cert_file site) (u_cert_file update))
    (default (key_file site) (u_key_file update))
    (mkUpstream (default (upstream_host (site_upstream site)) (u_upstream_host update))
       (default (upstream_port (site_upstream site)) (u_upstream_port update))).

Definition no_site (domain_name : str) : exn :=
  InvalidArgument ("no site configured for domain '" ++ domain_name ++ lit "'").

Definition update_site (config : RuntimeConfig) (domain_name : str) (update : SiteUpdate)
  : outcome RuntimeConfig :=
  match find_site domain_name (sites config) with
  | None => Throw (no_site domain_name)
  | Some it => Ok (set_sites (alter (apply_update update) it (sites config)) config)
  end.

Definition remove_site (config : RuntimeConfig) (domain_name : str) : outcome RuntimeConfig :=
  match find_site domain_name (sites config) with
  | None => Throw (no_site domain_name)
  | Some it => Ok (set_sites (delete it (sites config)) config)
  end.

(** ** Operations on the status pages *)

Definition find_status_page (c : Z) (l : list StatusPageEntry) : option nat :=
  fst <$> list_find (fun e => code e = c) l.

Definition validate_code (c : Z) : outcome unit :=
  if (c <? 100) || (c >? 599)
  then Throw (InvalidArgument "status code must be between 100 and 599") else Ok tt.

Definition add_status_page (now : Z) (config : RuntimeConfig) (c : Z) (page : str) : outcome RuntimeConfig :=
  _ ← validate_code c;
  if find_status_page c (status_pages (pages config)) is Some _
  then Throw (InvalidArgument ("a page override for status " ++ to_dec c ++ lit " already exists"))
  else Ok (set_pages (set_status_pages (status_pages (pages config) ++ [mkStatusPage c page now])
                        (pages config)) config).

Definition no_status_page (c : Z) : exn :=
  InvalidArgument ("no page override configured for status " ++ to_dec c).

Definition update_status_page (config : RuntimeConfig) (c : Z) (page : str) : outcome RuntimeConfig :=
  match find_status_page c (status_pages (pages config)) with
  | None => Throw (no_status_page c)
  | Some it =>
      Ok (set_pages (set_status_pages
        (alter (fun e => mkStatusPage (code e) page (sp_created_at e)) it (status_pages (pages config)))
        (pages config)) config)
  end.

Definition remove_status_page (config : RuntimeConfig) (c : Z) : outcome RuntimeConfig :=
  match find_status_page c (status_pages (pages config)) with
  | None => Throw (no_status_page c)
  | Some it => Ok (set_pages (set_status_pages (delete it (status_pages (pages config))) (pages config)) config)
  end.

(** ** The invariant of the site list *)

Definition domain_ok (d : str) : Prop :=
  d <> [] /\ to_lower d = d /\ find_first_of (lit " " ++ [tab] ++ lit "/") d = None.

Record sites_ok (l : list SiteConfig) : Prop := {
  sites_domains : Forall (fun s => domain_ok (domain s)) l;
  sites_unique : NoDup (domain <$> l) }.

(** The only site a name can select: the one whose domain it spells. *)
Definition selects (name : str) (s : SiteConfig) : Prop := domain s = to_lower name.
#[export] Instance selects_dec name s : Decision (selects name s).
Proof. unfold selects. apply _. Defined.

Definition resolved_of (s : SiteConfig) : ResolvedSite :=
  mkResolved (site_upstream s) (nonempty (cert_file s)) (nonempty (key_file s)) (site_enabled s) true.
Definition default_resolved (c : RuntimeConfig) : ResolvedSite :=
  mkResolved (upstream c) None None true false.

Lemma find_first_of_None cs s : find_first_of cs s = None <-> forall c, c ∈ s -> c ∉ cs.
Proof.
  unfold find_first_of. rewrite fmap_None, list_find_None, Forall_forall. done.
Qed.

Lemma find_site_Some d l i :
  find_site d l = Some i ->
  exists s, l !! i = Some s /\ to_lower (domain s) = to_lower d.
Proof.
  unfold find_site. intros ([j s] & E & ->)%fmap_Some. exists s.
  apply list_find_Some in E as (H1 & H2 & _). split; [done|]. by apply iequals_spec.
Qed.

Lemma find_site_None d l :
  find_site d l = None <-> forall s, s ∈ l -> to_lower (domain s) <> to_lower d.
Proof.
  unfold find_site. rewrite fmap_None, list_find_None, Forall_forall.
  by setoid_rewrite iequals_spec.
Qed.

Lemma resolve_in_spec name l fallback :
  sites_ok l ->
  (exists s, s ∈ l /\ selects name s /\ resolve_in name l fallback = resolved_of s) \/
  (forall s, s ∈ l -> ~ selects name s) /\ resolve_in name l fallback = fallback.
Proof.
  intros [HF _]. unfold selects. induction HF as [|s l (_ & Hs & _) Hl IH]; simpl.
  - right. split; [intros x Hx; inversion Hx|done].
  - destruct (iequals name (domain s)) eqn:E.
    + apply iequals_spec in E. left. exists s. split_and!; [left|congruence|done].
    + destruct IH as [(s' & ? & ? & ?)|[IH ?]]; [left; exists s'; by split; [right|]|right].
      split; [|done]. intros s' [->|?]%elem_of_cons; [|by apply IH].
      intros E'. apply not_true_iff_false in E. apply E, iequals_spec. congruence.
Qed.

Lemma sites_unique_eq l s s' :
  sites_ok l -> s ∈ l -> s' ∈ l -> domain s = domain s' -> s = s'.
Proof.
  intros [_ H] [i Hi]%list_elem_of_lookup [j Hj]%list_elem_of_lookup E.
  assert (i = j) as ->.
  { eapply NoDup_lookup; [exact H|rewrite list_lookup_fmap, Hi; done|].
    rewrite list_lookup_fmap, Hj. simpl. by rewrite E. }
  congruence.
Qed.

(** ** The port suffix *)

Lemma find_char_None c s : find_char c s = None <-> c ∉ s.
Proof.
  unfold find_char. rewrite fmap_None, list_find_None, Forall_forall. naive_solver.
Qed.

Lemma find_char_app c s s' : c ∉ s -> find_char c (s ++ c :: s') = Some (length s).
Proof.
  intros Hc. unfold find_char. rewrite list_find_app_r.
  - cbn [list_find]. rewrite decide_True by done. simpl. done.
  - apply list_find_None. apply Forall_forall. intros x Hx ->. done.
Qed.

Lemma rfind_char_None c s : c ∉ s -> rfind_char c s = None.
Proof.
  intros Hc. unfold rfind_char. replace (find_char c (rev s)) with (@None nat); [done|].
  symmetry. apply find_char_None. by rewrite list_elem_of_In, <- in_rev, <- list_elem_of_In.
Qed.

Lemma strip_port_plain name : ":"%char ∉ name -> strip_port name = name.
Proof. intros H. unfold strip_port. by rewrite rfind_char_None. Qed.

Lemma rfind_char_app c s s' : c ∉ s' -> rfind_char c (s ++ c :: s') = Some (length s).
Proof.
  intros Hc. unfold rfind_char. rewrite rev_app_distr. simpl. rewrite <- app_assoc. cbn [app].
  rewrite find_char_app by (by rewrite list_elem_of_In, <- in_rev, <- list_elem_of_In).
  f_equal. rewrite length_app, length_rev. simpl. lia.
Qed.

Definition digits (s : str) : Prop := forall c, c ∈ s -> c ∈ lit "0123456789".

Lemma strip_port_digits name port :
  port <> [] -> digits port -> strip_port (name ++ ":"%char :: port) = name.
Proof.
  intros Hne Hd. unfold strip_port.
  rewrite rfind_char_app.
  - replace (drop (S (length name)) (name ++ ":"%char :: port)) with port.
    2: { rewrite drop_app_ge by lia. by replace (S (length name) - length name)%nat with 1%nat by lia. }
    rewrite (bool_decide_eq_false_2 (port = [])) by done. simpl.
    rewrite bool_decide_eq_false_2.
    + by rewrite take_app_length.
    + intros [i Hi]. unfold find_first_not_of in Hi.
      apply fmap_Some in Hi as ([j c] & Hj & _). apply list_find_Some in Hj as (Hc & Hn & _).
      apply Hn, Hd. by eapply list_elem_of_lookup_2.
  - intros H%Hd. revert H. change (":"%char ∉ lit "0123456789"). decide_literal.
Qed.

(** ** Routing *)

(** A host name selects a named site only by spelling its whole domain,
    letter case and a trailing port aside; no other name can reach it, the
    selection is unique, and any name that spells no domain gets the default
    site, enabled. *)
Theorem resolve_site_exact config host :
  sites_ok (sites config) ->
  match list_find (selects (strip_port host)) (sites config) with
  | Some (_, s) =>
      resolve_site config host = resolved_of s /\
      forall s', s' ∈ sites config -> selects (strip_port host) s' -> s' = s
  | None => resolve_site config host = default_resolved config
  end.
Proof.
  intros Hok. unfold resolve_site.
  destruct (resolve_in_spec (strip_port host) (sites config) (default_resolved config) Hok)
    as [(s & Hs & Hsel & Hr)|[Hno Hr]]; fold (default_resolved config); rewrite Hr;
    destruct (list_find _ _) as [[i s']|] eqn:E.
  - apply list_find_Some in E as (Hi & Hsel' & _). apply list_elem_of_lookup_2 in Hi.
    assert (forall s2, s2 ∈ sites config -> selects (strip_port host) s2 -> s2 = s') as Hu.
    { intros s2 H2 Hsel2. eapply sites_unique_eq; [done..|]. unfold selects in *. congruence. }
    split; [by rewrite (Hu s)|done].
  - apply list_find_None in E. rewrite Forall_forall in E. by destruct (E s).
  - apply list_find_Some in E as (Hi & Hsel' & _). apply list_elem_of_lookup_2 in Hi. by destruct (Hno s').
  - done.
Qed.

(** ** The operations keep the invariant *)

Lemma tolower_blank c : tolower c ∈ lit " " ++ [tab] ++ lit "/" -> c ∈ lit " " ++ [tab] ++ lit "/".
Proof.
  assert (bool_decide (tolower c ∈ lit " " ++ [tab] ++ lit "/") =
          bool_decide (c ∈ lit " " ++ [tab] ++ lit "/")) as E
    by (destruct c as [[] [] [] [] [] [] [] []]; vm_compute; reflexivity).
  intros H%(bool_decide_eq_true_2 _). rewrite E in H. by apply bool_decide_eq_true in H.
Qed.

Lemma add_site_domain config site config' :
  add_site config site = Ok config' ->
  sites config' = sites config ++ [set_domain (to_lower (domain site)) site] /\
  domain_ok (to_lower (domain site)) /\
  forall s, s ∈ sites config -> to_lower (domain s) <> to_lower (domain site).
Proof.
  unfold add_site. destruct (_ || _) eqn:E; [done|].
  destruct (find_site _ _) eqn:F; [done|]. intros [= <-]. split; [done|].
  apply orb_false_iff in E as [E1 E2]. case_bool. split.
  - split_and!; [by destruct (domain site)|by autorewrite with atomwall|].
    apply eq_None_not_Some. intros [i Hi]. apply E2.
    unfold find_first_of in *. apply fmap_Some in Hi as ([j c] & Hj & _).
    apply list_find_Some in Hj as (Hc & Hin & _). cbn beta in Hin.
    unfold to_lower in Hc. rewrite list_lookup_fmap in Hc. apply fmap_Some in Hc as (d & Hd & ->).
    apply fmap_is_Some. eapply list_find_elem_of; [by eapply list_elem_of_lookup_2|].
    by apply tolower_blank.
  - intros s Hs. destruct site. simpl in *. rewrite find_site_None in F.
    specialize (F s Hs). cbn in F. by autorewrite with atomwall in F.
Qed.

Lemma sites_ok_delete l i : sites_ok l -> sites_ok (delete i l).
Proof.
  intros [H1 H2]. split; [by apply Forall_delete|].
  eapply sublist_NoDup; [exact H2|]. apply fmap_sublist, sublist_delete.
Qed.

Lemma alter_update_domains u (i : nat) (l : list SiteConfig) : domain <$> alter (apply_update u) i l = domain <$> l.
Proof.
  revert i. induction l as [|s l IH]; intros [|i]; simpl; [done..|]. f_equal. apply IH.
Qed.

Lemma sites_ok_alter u (l : list SiteConfig) (i : nat) : sites_ok l -> sites_ok (alter (apply_update u) i l).
Proof.
  intros [H1 H2]. split; [|by rewrite alter_update_domains].
  change (Forall (domain_ok ∘ domain) (alter (apply_update u) i l)).
  rewrite <- Forall_fmap, alter_update_domains. by apply Forall_fmap.
Qed.

Lemma sites_ok_add config site config' :
  sites_ok (sites config) -> add_site config site = Ok config' -> sites_ok (sites config').
Proof.
  intros [H1 H2] (-> & Hd & Hno)%add_site_domain. split.
  - apply Forall_app. split; [done|]. by apply Forall_singleton.
  - rewrite fmap_app. apply NoDup_app. split_and!; [done| |apply NoDup_singleton].
    intros d (s & -> & Hs)%list_elem_of_fmap Heq%list_elem_of_singleton.
    rewrite Forall_forall in H1. destruct (H1 s Hs) as (_ & Hl & _).
    apply (Hno s Hs). rewrite Hl, Heq. by destruct site.
Qed.

(** The admin's site operations as one step. *)
Inductive site_op := AddSite (s : SiteConfig) | UpdateSite (d : str) (u : SiteUpdate) | RemoveSite (d : str).

Definition site_step (config : RuntimeConfig) (o : site_op) : outcome RuntimeConfig :=
  match o with
  | AddSite s => add_site config s
  | UpdateSite d u => update_site config d u
  | RemoveSite d => remove_site config d
  end.

Lemma find_site_only l d i s :
  sites_ok l -> find_site d l = Some i -> l !! i = Some s -> domain s = to_lower d.
Proof.
  intros [H _] Hf Hi. destruct (find_site_Some _ _ _ Hf) as (s' & Hi' & E). simplify_eq.
  rewrite Forall_forall in H. destruct (H s) as (_ & Hl & _); [by eapply list_elem_of_lookup_2|].
  congruence.
Qed.

Lemma find_site_sites l d :
  sites_ok l -> is_Some (find_site d l) <-> exists s, s ∈ l /\ domain s = to_lower d.
Proof.
  intros Hok. split.
  - intros [i Hi]. destruct (find_site_Some _ _ _ Hi) as (s & Hs & _).
    exists s. split; [by eapply list_elem_of_lookup_2|by eapply find_site_only].
  - intros (s & Hs & E). destruct (find_site d l) as [i|] eqn:F; [eauto|].
    rewrite find_site_None in F. destruct (F s Hs). rewrite E. by autorewrite with atomwall.
Qed.

(** Every successful operation keeps the list well formed (bare lower-case
    domains, no two alike); adding fails exactly on a malformed or already
    configured domain, updating and removing exactly on an unknown one, and a
    failed operation has no configuration to store. *)
Theorem site_ops_preserve config o :
  sites_ok (sites config) ->
  match site_step config o with
  | Ok config' =>
      sites_ok (sites config') /\ set_sites (sites config) config' = config /\
      match o with
      | AddSite s => ~ exists t, t ∈ sites config /\ domain t = to_lower (domain s)
      | UpdateSite d _ | RemoveSite d => exists t, t ∈ sites config /\ domain t = to_lower d
      end
  | Throw _ =>
      match o with
      | AddSite s => domain s = [] \/ find_first_of (lit " " ++ [tab] ++ lit "/") (domain s) <> None \/
                     exists t, t ∈ sites config /\ domain t = to_lower (domain s)
      | UpdateSite d _ | RemoveSite d => ~ exists t, t ∈ sites config /\ domain t = to_lower d
      end
  end.
Proof.
  intros Hok. destruct o as [s|d u|d]; simpl.
  - destruct (add_site config s) as [config'|e] eqn:E.
    + split_and!; [by eapply sites_ok_add| |].
      * unfold add_site in E. repeat case_match; simplify_eq. by destruct config.
      * apply add_site_domain in E as (_ & _ & Hno). intros (t & Ht & Hd).
        apply (Hno t Ht). rewrite Hd. by autorewrite with atomwall.
    + unfold add_site in E. destruct (_ || _) eqn:B.
      * apply orb_true_iff in B as [B|B]; case_bool; [by left|right; left].
        by apply not_eq_None_Some.
      * right; right. destruct (find_site _ _) as [i|] eqn:F; [|done].
        assert (is_Some (find_site (domain (set_domain (to_lower (domain s)) s)) (sites config))) as H by eauto.
        apply find_site_sites in H as (t & Ht & Hd); [|done]. exists t. split; [done|].
        destruct s. cbn in Hd |- *. by autorewrite with atomwall in Hd.
  - unfold update_site. pose proof (find_site_sites (sites config) d Hok) as Hf.
    destruct (find_site d (sites config)) as [i|].
    + split_and!; [by apply sites_ok_alter|by destruct config|apply Hf; eauto].
    + intros H%Hf. by destruct H.
  - unfold remove_site. pose proof (find_site_sites (sites config) d Hok) as Hf.
    destruct (find_site d (sites config)) as [i|].
    + split_and!; [by apply sites_ok_delete|by destruct config|apply Hf; eauto].
    + intros H%Hf. by destruct H.
Qed.

(** ** The status pages are a finite map *)

(** [detail::find_status_page_html]: the override for a response status. *)
Fixpoint find_status_page_html (l : list StatusPageEntry) (status_code : Z) : option str :=
  match l with
  | [] => None
  | entry :: l' => if code entry =? swrap32 status_code then Some (html entry)
                   else find_status_page_html l' status_code
  end.

Definition pages_map (l : list StatusPageEntry) : gmap Z str :=
  list_to_map ((fun e => (code e, html e)) <$> l).
Arguments pages_map : simpl never.

Record pages_ok (l : list StatusPageEntry) : Prop := {
  pages_codes : Forall (fun e => 100 <= code e <= 599) l;
  pages_unique : NoDup (code <$> l) }.

Inductive page_op := AddPage (now c : Z) (page : str) | UpdatePage (c : Z) (page : str) | RemovePage (c : Z).

Definition page_step (config : RuntimeConfig) (o : page_op) : outcome RuntimeConfig :=
  match o with
  | AddPage now c page => add_status_page now config c page
  | UpdatePage c page => update_status_page config c page
  | RemovePage c => remove_status_page config c
  end.

Lemma find_page_Some c l i :
  find_status_page c l = Some i <->
  exists e, l !! i = Some e /\ code e = c /\ forall j e', l !! j = Some e' -> (j < i)%nat -> code e' <> c.
Proof.
  unfold find_status_page. rewrite fmap_Some. split.
  - intros ([j e] & (H1 & H2 & H3)%list_find_Some & ->). eauto.
  - intros (e & H1 & H2 & H3). exists (i, e). split; [|done]. by apply list_find_Some.
Qed.

Lemma find_page_None c l : find_status_page c l = None <-> pages_map l !! c = None.
Proof.
  unfold find_status_page, pages_map. rewrite fmap_None, list_find_None, Forall_forall.
  rewrite <- not_elem_of_list_to_map, <- list_fmap_compose. split.
  - intros H (e & -> & He)%list_elem_of_fmap. by apply (H e).
  - intros H e He <-. apply H. apply list_elem_of_fmap. by exists e.
Qed.

Lemma find_status_page_html_map l c :
  INT_MIN <= c <= INT_MAX -> find_status_page_html l c = pages_map l !! c.
Proof.
  intros Hc. unfold pages_map. induction l as [|e l IH]; [done|].
  cbn [find_status_page_html fmap list_fmap list_to_map foldr fst snd].
  rewrite swrap32_small, lookup_insert by done.
  destruct (Z.eqb_spec (code e) c); case_decide; try done.
Qed.

Lemma pages_map_app l e :
  code e ∉ (code <$> l) -> pages_map (l ++ [e]) = <[code e := html e]> (pages_map l).
Proof.
  intros He. unfold pages_map. rewrite fmap_app, list_to_map_app. simpl.
  rewrite <- insert_union_r, map_union_empty; [done|].
  apply not_elem_of_list_to_map. by rewrite <- list_fmap_compose.
Qed.

Lemma pages_map_split l1 e l2 :
  NoDup (code <$> (l1 ++ e :: l2)) ->
  pages_map (l1 ++ e :: l2) = <[code e := html e]> (pages_map (l1 ++ l2)) /\
  pages_map (l1 ++ l2) !! code e = None.
Proof.
  rewrite fmap_app. simpl. intros H. unfold pages_map.
  rewrite !fmap_app, !list_to_map_app. simpl.
  rewrite <- Permutation_middle in H. apply NoDup_cons in H as [Hn _].
  rewrite not_elem_of_app in Hn. destruct Hn as [H1 H2].
  assert (forall l, code e ∉ code <$> l ->
    (list_to_map ((fun e => (code e, html e)) <$> l) : gmap Z str) !! code e = None) as Hl.
  { intros l Hn. apply not_elem_of_list_to_map. by rewrite <- list_fmap_compose. }
  split; [|by rewrite lookup_union, !Hl].
  rewrite <- insert_union_r by auto. done.
Qed.

Lemma split_at_lookup {A} (l : list A) i x :
  l !! i = Some x -> exists l1 l2, l = l1 ++ x :: l2 /\ length l1 = i /\ delete i l = l1 ++ l2 /\
    forall f, alter f i l = l1 ++ f x :: l2.
Proof.
  revert i. induction l as [|y l IH]; intros [|i] H; simplify_eq/=.
  - exists [], l. split_and!; done.
  - destruct (IH _ H) as (l1 & l2 & -> & Hlen & Hd & Ha). exists (y :: l1), l2.
    split_and!; [done|by f_equal/=|by f_equal/=|]. intros f. simpl. f_equal. apply Ha.
Qed.

(** The status-page operations implement a finite map from status codes
    between 100 and 599 to pages: a successful add inserts a code that was
    absent, an update overwrites and a removal deletes one that was present,
    each fails in exactly the other case, the list stays well formed, and the
    page served for a response is the map's. *)
Theorem status_pages_map config o :
  pages_ok (status_pages (pages config)) ->
  let m := pages_map (status_pages (pages config)) in
  (forall c, INT_MIN <= c <= INT_MAX ->
     find_status_page_html (status_pages (pages config)) c = m !! c) /\
  match page_step config o with
  | Ok config' =>
      pages_ok (status_pages (pages config')) /\
      pages_map (status_pages (pages config')) =
        match o with
        | AddPage _ c page | UpdatePage c page => <[c := page]> m
        | RemovePage c => delete c m
        end /\
      match o with
      | AddPage _ c _ => m !! c = None /\ 100 <= c <= 599
      | UpdatePage c _ | RemovePage c => m !! c <> None
      end
  | Throw _ =>
      match o with
      | AddPage _ c _ => m !! c <> None \/ ~ 100 <= c <= 599
      | UpdatePage c _ | RemovePage c => m !! c = None
      end
  end.
Proof.
  intros Hok m. split; [intros c; apply find_status_page_html_map|].
  destruct Hok as [Hc Hn]. destruct o as [now c page|c page|c]; simpl.
  - unfold add_status_page, validate_code. rewrite Z.gtb_ltb.
    destruct (_ || _) eqn:E; cbn.
    { right. apply orb_true_iff in E as [E|E]; case_bool; lia. }
    case_bool. destruct (find_status_page _ _) as [i|] eqn:F.
    { left. intros Hm%find_page_None. congruence. }
    apply find_page_None in F as F'. cbn.
    assert (c ∉ code <$> status_pages (pages config)) as Hnot.
    { apply not_elem_of_list_to_map in F'. by rewrite <- list_fmap_compose in F'. }
    split_and!; [split| |done|lia|lia].
    + apply Forall_app. split; [done|]. apply Forall_singleton. cbn. lia.
    + rewrite fmap_app. apply NoDup_app. split_and!; [done| |apply NoDup_singleton].
      by intros d Hd ->%list_elem_of_singleton.
    + by apply (pages_map_app _ (mkStatusPage c page now)).
  - unfold update_status_page. destruct (find_status_page _ _) as [i|] eqn:F; cbn; [|by apply find_page_None].
    apply find_page_Some in F as (e & He & Hce & _).
    destruct (split_at_lookup _ _ _ He) as (l1 & l2 & Hl & _ & _ & Ha).
    rewrite Ha. unfold m. rewrite Hl in Hn, Hc |- *. cbv beta.
    assert (NoDup (code <$> l1 ++ mkStatusPage (code e) page (sp_created_at e) :: l2)) as Hn'
      by (rewrite fmap_app in *; done).
    destruct (pages_map_split _ _ _ Hn) as [-> Hnone]. destruct (pages_map_split _ _ _ Hn') as [-> _].
    cbn. rewrite Hce in *. split_and!; [split; [|done]|by rewrite insert_insert_eq|by rewrite lookup_insert_eq].
    apply Forall_app in Hc as [? [? ?]%Forall_cons]. apply Forall_app. split; [done|]. constructor; [cbn; lia|done].
  - unfold remove_status_page. destruct (find_status_page _ _) as [i|] eqn:F; cbn; [|by apply find_page_None].
    apply find_page_Some in F as (e & He & Hce & _).
    destruct (split_at_lookup _ _ _ He) as (l1 & l2 & Hl & _ & Hd & _).
    rewrite Hd. unfold m. rewrite Hl in Hn, Hc |- *.
    destruct (pages_map_split _ _ _ Hn) as [-> Hnone].
    rewrite Hce in *. split_and!; [split|by rewrite delete_insert_id|by rewrite lookup_insert_eq].
    + apply Forall_app in Hc as [? [? ?]%Forall_cons]. by apply Forall_app.
    + rewrite fmap_app in *. eapply sublist_NoDup; [exact Hn|].
      apply sublist_app; [done|]. by apply sublist_cons.
Qed.

(** ** Witnesses *)

Definition example_sites : list SiteConfig := [
  mkSite "example.com" true [] [] (mkUpstream "127.0.0.1" 8001);
  mkSite "shop.example.com" false "shop.crt" "shop.key" (mkUpstream "127.0.0.1" 8002)].

Lemma example_sites_ok : sites_ok example_sites.
Proof.
  split; [|decide_literal].
  repeat (apply Forall_cons; split; [split_and!; [discriminate|reflexivity|reflexivity]|]). constructor.
Qed.

Lemma resolve_site_exact_witness :
  rs_matched (resolve_site (set_sites example_sites default_config) "Shop.Example.COM:8443") = true /\
  rs_matched (resolve_site (set_sites example_sites default_config) "example.com.evil.com") = false.
Proof.
  pose proof (resolve_site_exact (set_sites example_sites default_config) "Shop.Example.COM:8443"
    example_sites_ok) as [-> _].
  pose proof (resolve_site_exact (set_sites example_sites default_config) "example.com.evil.com"
    example_sites_ok) as ->.
  split; reflexivity.
Defined.

Lemma site_ops_preserve_witness :
  exists config', site_step (set_sites example_sites default_config)
    (AddSite (mkSite "API.example.com" true [] [] default_upstream)) = Ok config' /\
    sites_ok (sites config').
Proof.
  pose proof (site_ops_preserve (set_sites example_sites default_config)
    (AddSite (mkSite "API.example.com" true [] [] default_upstream)) example_sites_ok) as H.
  assert (match site_step (set_sites example_sites default_config) (AddSite (mkSite "API.example.com" true [] [] default_upstream))
          with Ok _ => true | Throw _ => false end = true) as Ht by (vm_compute; reflexivity).
  destruct (site_step _ _) as [config'|e]; [|discriminate Ht]. exists config'. split; [reflexivity|exact (proj1 H)].
Defined.

Lemma status_pages_map_witness :
  pages_ok [mkStatusPage 404 "nf" 0] /\
  exists config', page_step (set_pages (mkPages [] [] [mkStatusPage 404 "nf" 0]) default_config)
    (AddPage 5 503 "down") = Ok config' /\ pages_ok (status_pages (pages config')).
Proof.
  assert (pages_ok [mkStatusPage 404 "nf" 0]) as Hok
    by (split; [apply Forall_singleton; cbn; lia|decide_literal]).
  split; [exact Hok|].
  destruct (status_pages_map (set_pages (mkPages [] [] [mkStatusPage 404 "nf" 0]) default_config)
    (AddPage 5 503 "down") Hok) as [_ H].
  assert (match page_step (set_pages (mkPages [] [] [mkStatusPage 404 "nf" 0]) default_config) (AddPage 5 503 "down")
          with Ok _ => true | Throw _ => false end = true) as Ht by (vm_compute; reflexivity).
  destruct (page_step _ _) as [config'|e]; [|discriminate Ht]. exists config'. split; [reflexivity|exact (proj1 H)].
Defined.
