(* ===== verification/EventLogs.v ===== *)
(** * EventLogs: the bounded histories and the event stream

    Models [history/request_log], [history/globe_event_log],
    [history/login_history] and [history/sse_stream.hpp]. The three histories
    are one ring buffer over events that carry a sequence number (the
    interface [Sequenced]). The request log adds the CSV batching, whose
    writer thread runs concurrently: a step relation. The text of a row is
    in the file Csv. *)
From S2P Require Import Prelude.
From Stdlib Require Import SpecFloat.

(** ** Events *)

Record RequestEvent := mkEvent {
  ev_seq : Z; ev_timestamp : time_point; ev_client_ip : str; ev_country : str; ev_isp : str;
  ev_user_agent : str; ev_method : str; ev_path : str; ev_domain : str; ev_listener : str;
  ev_blocked : bool; ev_block_reason : str; ev_bytes_transferred : Z; ev_status_code : Z }.

Record GlobeArcEvent := mkArc {
  arc_seq : Z; arc_timestamp : time_point; arc_lat : spec_float; arc_lon : spec_float;
  arc_blocked : bool }.

Record GeoLocation := mkGeo { geo_lat : spec_float; geo_lon : spec_float; geo_country : str }.

Record LoginEvent := mkLogin {
  login_seq : Z; login_timestamp : time_point; login_username : str; login_client_ip : str }.

(** What the logs need of an event: its number, which [record] assigns. *)
Class Sequenced (E : Type) := {
  seq_of : E -> Z;
  with_seq : Z -> E -> E;
  seq_of_with_seq n e : seq_of (with_seq n e) = n }.

#[export] Instance RequestEvent_sequenced : Sequenced RequestEvent.
Proof.
  refine {| seq_of := ev_seq; with_seq n e :=
    mkEvent n (ev_timestamp e) (ev_client_ip e) (ev_country e) (ev_isp e) (ev_user_agent e)
      (ev_method e) (ev_path e) (ev_domain e) (ev_listener e) (ev_blocked e) (ev_block_reason e)
      (ev_bytes_transferred e) (ev_status_code e) |}.
  done.
Defined.

#[export] Instance GlobeArcEvent_sequenced : Sequenced GlobeArcEvent.
Proof.
  refine {| seq_of := arc_seq; with_seq n e :=
    mkArc n (arc_timestamp e) (arc_lat e) (arc_lon e) (arc_blocked e) |}.
  done.
Defined.

#[export] Instance LoginEvent_sequenced : Sequenced LoginEvent.
Proof.
  refine {| seq_of := login_seq; with_seq n e :=
    mkLogin n (login_timestamp e) (login_username e) (login_client_ip e) |}.
  done.
Defined.

(** ** The ring buffer *)

Record Ring (E : Type) := mkRing { buffer_ : list E; capacity_ : nat; next_seq_ : Z }.
Arguments mkRing {E}.
Arguments buffer_ {E}.
Arguments capacity_ {E}.
Arguments next_seq_ {E}.

Section ring.
Context {E : Type} `{Sequenced E}.
Implicit Types (r : Ring E) (e : E).

Definition ring_init (capacity : nat) : Ring E := mkRing [] capacity 1.

(** [while (buffer_.size() > capacity_) buffer_.pop_front();] *)
Fixpoint trim_front (capacity : nat) (buffer : list E) : list E :=
  match buffer with
  | [] => []
  | _ :: rest => if (capacity <? length buffer)%nat then trim_front capacity rest else buffer
  end.

Definition record e r : Ring E :=
  mkRing (trim_front (capacity_ r) (buffer_ r ++ [with_seq (next_seq_ r) e])) (capacity_ r)
    (wrap64 (next_seq_ r + 1)).

Definition recent (limit : nat) r : list E :=
  let count := Nat.min limit (length (buffer_ r)) in
  drop (length (buffer_ r) - count) (buffer_ r).

Fixpoint collect_since (since_seq : Z) (limit : nat) (result buffer : list E) : list E :=
  match buffer with
  | [] => result
  | event :: rest =>
      if seq_of event >? since_seq then
        let result := result ++ [event] in
        if (limit <=? length result)%nat then result else collect_since since_seq limit result rest
      else collect_since since_seq limit result rest
  end.

Definition events_since (since_seq : Z) (limit : nat) r : list E :=
  collect_since since_seq limit [] (buffer_ r).

Definition latest_seq r : Z := wrap64 (next_seq_ r - 1).

(** *** The history a ring stands for: every event, numbered from one *)

Definition numbered (log : list E) : list E := imap (fun i e => with_seq (Z.of_nat i + 1) e) log.
Definition run_ring (capacity : nat) (log : list E) : Ring E :=
  foldl (fun r e => record e r) (ring_init capacity) log.
Definition few (log : list E) : Prop := Z.of_nat (length log) < 2 ^ 64 - 1.

Lemma few_small (log : list E) : (length log <=? 1000)%nat = true -> few log.
Proof. intros Hl%Nat.leb_le. unfold few. lia. Qed.

Lemma trim_front_lastn c l : trim_front c l = lastn c l.
Proof.
  unfold lastn. induction l as [|x l IH]; [done|]. cbn [trim_front].
  destruct (Nat.ltb_spec c (length (x :: l))) as [Hlt|Hge]; cbn [length] in *.
  - rewrite IH. replace (S (length l) - c)%nat with (S (length l - c)) by lia. done.
  - by replace (S (length l) - c)%nat with 0%nat by lia.
Qed.

Lemma numbered_snoc log e :
  numbered (log ++ [e]) = numbered log ++ [with_seq (Z.of_nat (length log) + 1) e].
Proof. unfold numbered. rewrite imap_app. simpl. by rewrite Nat.add_0_r. Qed.

Lemma length_numbered log : length (numbered log) = length log.
Proof. apply length_imap. Qed.

Lemma run_ring_spec c log :
  few log ->
  run_ring c log = mkRing (lastn c (numbered log)) c (Z.of_nat (length log) + 1).
Proof.
  unfold few. induction log as [|e log IH] using rev_ind; intros Hf.
  { by rewrite lastn_all by (simpl; lia). }
  rewrite length_app in Hf. cbn [length] in Hf.
  unfold run_ring. rewrite foldl_app. cbn [foldl]. fold (run_ring c log).
  rewrite IH by lia. unfold record. cbn [buffer_ capacity_ next_seq_].
  rewrite trim_front_lastn, numbered_snoc, length_app. cbn [length]. f_equal.
  - destruct c as [|c]; [by rewrite !lastn_0_nil || (unfold lastn; rewrite !Nat.sub_0_r, !drop_all)|].
    rewrite !lastn_app_le by (simpl; lia). cbn [length]. f_equal. rewrite lastn_lastn. f_equal. lia.
  - unfold wrap64. rewrite Z.mod_small; lia.
Qed.

Lemma lookup_numbered log i e :
  numbered log !! i = Some e -> seq_of e = Z.of_nat i + 1.
Proof.
  unfold numbered. rewrite list_lookup_imap. intros (x & _ & ->)%fmap_Some. apply seq_of_with_seq.
Qed.
End ring.

Section ring_queries.
Context {E : Type} `{Sequenced E}.
Implicit Types (r : Ring E) (e : E).

(** A run of consecutive numbers after [k]. *)
Definition consecutive (k : Z) (l : list E) : Prop :=
  forall i e, l !! i = Some e -> seq_of e = k + Z.of_nat i + 1.

Lemma consecutive_numbered log : consecutive 0 (numbered log).
Proof. intros i e He. apply lookup_numbered in He. lia. Qed.

Lemma consecutive_drop k l n : consecutive k l -> consecutive (k + Z.of_nat n) (drop n l).
Proof. intros Hl i e He. rewrite lookup_drop in He. rewrite (Hl _ _ He). lia. Qed.

Lemma consecutive_take k l n : consecutive k l -> consecutive k (take n l).
Proof.
  intros Hl i e He. apply Hl. apply lookup_take_Some in He. tauto.
Qed.

Lemma consecutive_cons k e l : consecutive k (e :: l) -> seq_of e = k + 1 /\ consecutive (k + 1) l.
Proof.
  intros Hl. split; [rewrite (Hl 0%nat e eq_refl); lia|].
  intros i x Hx. rewrite (Hl (S i) x Hx). lia.
Qed.

Lemma filter_consecutive k l since :
  consecutive k l -> filter (fun e => since < seq_of e) l = drop (Z.to_nat (since - k)) l.
Proof.
  revert k. induction l as [|e l IH]; intros k Hl; [by rewrite drop_nil|].
  destruct (consecutive_cons _ _ _ Hl) as [He Hl'].
  destruct (decide (since < seq_of e)).
  - rewrite filter_cons_True, (IH (k + 1)) by done.
    replace (Z.to_nat (since - (k + 1))) with 0%nat by lia.
    by replace (Z.to_nat (since - k)) with 0%nat by lia.
  - rewrite filter_cons_False, (IH (k + 1)) by done.
    by replace (Z.to_nat (since - k)) with (S (Z.to_nat (since - (k + 1)))) by lia.
Qed.

Lemma collect_since_filter since limit result buffer :
  (length result < limit)%nat ->
  collect_since since limit result buffer =
  take limit (result ++ filter (fun e => since < seq_of e) buffer).
Proof.
  revert result. induction buffer as [|e buffer IH]; intros result Hr; cbn [collect_since].
  { rewrite filter_nil, app_nil_r. by rewrite take_ge by lia. }
  rewrite Z.gtb_ltb. destruct (Z.ltb_spec since (seq_of e)) as [Hlt|Hge].
  - rewrite filter_cons_True by done.
    set (k := filter _ buffer).
    replace (result ++ e :: k) with ((result ++ [e]) ++ k) by (by rewrite <- app_assoc).
    destruct (Nat.leb_spec limit (length (result ++ [e]))) as [Hle|Hgt].
    + assert (length (result ++ [e]) = limit) as <- by (rewrite length_app in *; simpl in *; lia).
      by rewrite take_app_length.
    + by rewrite IH.
  - rewrite filter_cons_False by lia. by rewrite IH.
Qed.

Lemma events_since_spec c log since limit :
  few log -> (0 < limit)%nat -> 0 <= since ->
  events_since since limit (run_ring c log) =
  take limit (drop (Nat.max (length log - c) (Z.to_nat since)) (numbered log)).
Proof.
  intros Hf Hl Hs. unfold events_since. rewrite run_ring_spec by done. cbn [buffer_].
  rewrite collect_since_filter by (simpl; lia). cbn [app]. f_equal.
  unfold lastn. rewrite length_numbered.
  rewrite (filter_consecutive (Z.of_nat (length log - c))).
  - rewrite drop_drop. f_equal. generalize (length log - c)%nat. intros k. lia.
  - apply (consecutive_drop 0), consecutive_numbered.
Qed.

Lemma recent_spec c log limit :
  few log -> recent limit (run_ring c log) = lastn (Nat.min limit c) (numbered log).
Proof.
  intros Hf. rewrite run_ring_spec by done. unfold recent. cbn [buffer_].
  rewrite <- lastn_lastn. set (b := lastn c _). unfold lastn. f_equal. lia.
Qed.

Lemma latest_seq_spec c log : few log -> latest_seq (run_ring c log) = Z.of_nat (length log).
Proof.
  intros Hf. rewrite run_ring_spec by done. unfold latest_seq, few, wrap64 in *. cbn [next_seq_].
  rewrite Z.mod_small; lia.
Qed.

(** A history is the numbered list of everything recorded, seen through a
    window of its last [capacity] events: [recent] returns the newest of them,
    oldest first, at most [limit]; [events_since] returns, in order, the first
    [limit] events newer than the given number that are still held;
    [latest_seq] is the number of events recorded; and no more than [capacity]
    events are ever held. *)
Theorem ring_history capacity (log : list E) limit since :
  few log -> (0 < limit)%nat -> 0 <= since ->
  let r := run_ring capacity log in
  (length (buffer_ r) <= capacity)%nat /\
  recent limit r = lastn (Nat.min limit capacity) (numbered log) /\
  events_since since limit r =
    take limit (filter (fun e => since < seq_of e) (lastn capacity (numbered log))) /\
  latest_seq r = Z.of_nat (length log).
Proof.
  intros Hf Hl Hs. cbv zeta. split_and!.
  - rewrite run_ring_spec by done. cbn [buffer_]. rewrite length_lastn. lia.
  - by apply recent_spec.
  - unfold events_since. rewrite run_ring_spec by done. by apply collect_since_filter.
  - by apply latest_seq_spec.
Qed.

(** ** The event stream

    One [run_sse_session]: it starts at [latest_seq], and each poll sends the
    new events in order (or a ping) and advances [last_seq] with each event
    sent. [record] calls from other connections interleave freely. *)

Inductive sse_action := Recorded (e : E) | Polled.

Record sse_state := mkSse { sse_log : list E; last_seq : Z; sent : list E; pings : nat }.

Definition default_limit : nat := 500.

Definition sse_start (log : list E) (c : nat) : sse_state :=
  mkSse log (latest_seq (run_ring c log)) [] 0.

Definition sse_send (st : sse_state) (e : E) : sse_state :=
  mkSse (sse_log st) (seq_of e) (sent st ++ [e]) (pings st).

Definition sse_step (c : nat) (st : sse_state) (a : sse_action) : sse_state :=
  match a with
  | Recorded e => mkSse (sse_log st ++ [e]) (last_seq st) (sent st) (pings st)
  | Polled =>
      match events_since (last_seq st) default_limit (run_ring c (sse_log st)) with
      | [] => mkSse (sse_log st) (last_seq st) (sent st) (S (pings st))
      | events => foldl sse_send st events
      end
  end.

Definition sse_run (c : nat) (st : sse_state) (acts : list sse_action) : sse_state :=
  foldl (sse_step c) st acts.

Lemma sse_send_all st events :
  events <> [] -> foldl sse_send st events =
  mkSse (sse_log st) (default 0 (seq_of <$> last events)) (sent st ++ events) (pings st).
Proof.
  revert st. induction events as [|e events IH]; intros st Hne; [done|]. cbn [foldl].
  destruct events as [|e' events]; [done|]. rewrite IH by done.
  unfold sse_send. cbn [sse_log sent pings last_seq]. rewrite <- app_assoc. done.
Qed.

(** The part of the log a subscriber that started after [n0] has been sent. *)
Record sse_inv (n0 : nat) (st : sse_state) : Prop := {
  sse_range : Z.of_nat n0 <= last_seq st <= Z.of_nat (length (sse_log st));
  sse_sent : sent st `sublist_of` drop n0 (take (Z.to_nat (last_seq st)) (numbered (sse_log st))) }.

Lemma take_numbered_app n (log log' : list E) :
  (n <= length log)%nat -> take n (numbered (log ++ log')) = take n (numbered log).
Proof.
  intros Hn. unfold numbered. rewrite imap_app, take_app_le by (rewrite length_imap; lia). done.
Qed.

Lemma last_segment k m (l : list E) e :
  consecutive 0 l -> last (take k (drop m l)) = Some e ->
  seq_of e = Z.of_nat (m + length (take k (drop m l))).
Proof.
  intros Hc Hlast. rewrite last_lookup in Hlast. apply lookup_take_Some in Hlast as [Hlook Hlt].
  rewrite lookup_drop in Hlook. rewrite (Hc _ _ Hlook).
  destruct (take k (drop m l)) eqn:E'; [simpl in *|cbn [length pred]; lia].
  assert (length (take k (drop m l)) = 0%nat) as Hz by (by rewrite E').
  rewrite length_take, length_drop in Hz. apply lookup_lt_Some in Hlook. lia.
Qed.

(** One poll: the events sent are the log's segment from [m]. *)
Lemma poll_spec c st :
  few (sse_log st) -> 0 <= last_seq st ->
  let m := Nat.max (length (sse_log st) - c) (Z.to_nat (last_seq st)) in
  let seg := take default_limit (drop m (numbered (sse_log st))) in
  sse_step c st Polled =
  mkSse (sse_log st) (match seg with [] => last_seq st | _ => Z.of_nat (m + length seg) end)
    (sent st ++ seg) (match seg with [] => S (pings st) | _ => pings st end).
Proof.
  intros Hf H0 m seg. unfold sse_step.
  rewrite events_since_spec by (unfold default_limit; done || lia). fold m. fold seg.
  destruct seg as [|e l] eqn:Eseg; [by rewrite app_nil_r|].
  rewrite sse_send_all by done. f_equal.
  destruct (last (e :: l)) as [x|] eqn:Hl; [|by apply last_None in Hl].
  rewrite <- Eseg in *. by apply (last_segment default_limit m (numbered (sse_log st)) x (consecutive_numbered _)).
Qed.

Lemma drop_prefix_app (n : nat) (l1 l2 l3 : list E) :
  l1 `prefix_of` l2 -> (n <= length l1)%nat -> (drop n l1 ++ l3) `sublist_of` drop n (l2 ++ l3).
Proof.
  intros [k ->] Hn. rewrite !drop_app_le by (rewrite ?length_app; lia).
  rewrite <- app_assoc. apply sublist_app; [done|]. by apply sublist_inserts_l.
Qed.

Lemma sse_step_inv n0 c st a :
  few (sse_log (sse_step c st a)) -> few (sse_log st) -> sse_inv n0 st -> sse_inv n0 (sse_step c st a).
Proof.
  intros Hf' Hf [Hr Hs]. destruct a as [e|].
  - split; cbn [sse_step last_seq sse_log sent].
    + rewrite length_app. lia.
    + by rewrite take_numbered_app by lia.
  - rewrite poll_spec by (done || lia).
    set (m := Nat.max _ _). set (seg := take _ _).
    assert (length seg = Nat.min default_limit (length (sse_log st) - m)) as Hlen.
    { unfold seg. by rewrite length_take, length_drop, length_numbered. }
    destruct seg as [|e l] eqn:Eseg; [by split; rewrite ?app_nil_r|]. rewrite <- Eseg in *.
    assert (length seg <> 0%nat) as Hpos by (by rewrite Eseg).
    split; cbn [sse_log last_seq sent]; [lia|].
    rewrite Nat2Z.id, <- take_take_drop.
    assert (take (length seg) (drop m (numbered (sse_log st))) = seg) as ->.
    { unfold seg. by rewrite length_take, <- take_take, firstn_all. }
    etrans; [by apply sublist_app|].
    apply drop_prefix_app; [|rewrite length_take, length_numbered; lia].
    exists (take (m - Z.to_nat (last_seq st)) (drop (Z.to_nat (last_seq st)) (numbered (sse_log st)))).
    rewrite take_take_drop. f_equal. lia.
Qed.

Fixpoint n_recorded (acts : list sse_action) : nat :=
  match acts with
  | [] => 0
  | Recorded _ :: acts' => S (n_recorded acts')
  | Polled :: acts' => n_recorded acts'
  end.

Lemma sse_log_run c st acts :
  length (sse_log (sse_run c st acts)) = (length (sse_log st) + n_recorded acts)%nat.
Proof.
  unfold sse_run. revert st. induction acts as [|a acts IH]; intros st; simpl; [lia|].
  rewrite IH. destruct a as [e|]; simpl.
  - rewrite length_app. simpl. lia.
  - destruct (events_since _ _ _) as [|e l] eqn:Eev; [done|].
    change (foldl sse_send (sse_send st e) l) with (foldl sse_send st (e :: l)).
    by rewrite sse_send_all.
Qed.

(** The events recorded since the subscriber came that it has not been sent. *)
Definition outstanding (n0 : nat) (st : sse_state) : nat := length (sse_log st) - n0 - length (sent st).

(** At no poll were more events outstanding than the ring still holds. *)
Fixpoint kept_up (c n0 : nat) (st : sse_state) (acts : list sse_action) : Prop :=
  match acts with
  | [] => True
  | a :: acts' => (a = Polled -> (outstanding n0 st <= c)%nat) /\ kept_up c n0 (sse_step c st a) acts'
  end.

(** Everything up to [last_seq] was sent. *)
Definition sse_complete (n0 : nat) (st : sse_state) : Prop :=
  sent st = drop n0 (take (Z.to_nat (last_seq st)) (numbered (sse_log st))).

Lemma complete_sent n0 st :
  sse_inv n0 st -> sse_complete n0 st -> Z.to_nat (last_seq st) = (n0 + length (sent st))%nat.
Proof.
  intros [Hr _] Hc. rewrite Hc, length_drop, length_take, length_numbered. lia.
Qed.

Lemma complete_prefix n0 st :
  sse_inv n0 st -> sse_complete n0 st -> sent st = take (length (sent st)) (drop n0 (numbered (sse_log st))).
Proof.
  intros Hi Hc. etransitivity; [exact Hc|]. rewrite (complete_sent n0 st), skipn_firstn_comm by done. f_equal. lia.
Qed.

(** A poll sends the next events, up to the limit, when the ring still holds
    what is outstanding. *)
Lemma poll_sends n0 c st :
  few (sse_log st) -> sse_inv n0 st -> sse_complete n0 st -> (outstanding n0 st <= c)%nat ->
  sent (sse_step c st Polled) = take (length (sent st) + default_limit) (drop n0 (numbered (sse_log st))).
Proof.
  intros Hf Hi Hc Hk. pose proof (complete_sent _ _ Hi Hc) as Hseq. pose proof (complete_prefix _ _ Hi Hc) as Hp.
  destruct Hi as [Hr _]. rewrite poll_spec by (done || lia). cbn [sent]. unfold outstanding in Hk.
  replace (Nat.max _ _) with (n0 + length (sent st))%nat by lia. rewrite <- drop_drop.
  rewrite <- take_take_drop. by f_equal.
Qed.

Lemma poll_log c st : sse_log (sse_step c st Polled) = sse_log st.
Proof.
  simpl. destruct (events_since _ _ _) as [|e l]; [done|].
  change (foldl sse_send (sse_send st e) l) with (foldl sse_send st (e :: l)). by rewrite sse_send_all.
Qed.

Lemma sse_step_complete n0 c st a :
  few (sse_log st) -> sse_inv n0 st -> sse_complete n0 st ->
  (a = Polled -> (outstanding n0 st <= c)%nat) ->
  sse_complete n0 (sse_step c st a).
Proof.
  unfold sse_complete. intros Hf Hi Hc Hk. destruct a as [e|].
  - destruct Hi as [Hr _]. cbn [sse_step last_seq sse_log sent]. by rewrite take_numbered_app by lia.
  - specialize (Hk eq_refl). pose proof (complete_sent _ _ Hi Hc) as Hseq. destruct Hi as [Hr _]. unfold outstanding in Hk.
    rewrite poll_spec by (done || lia).
    replace (Nat.max _ _) with (Z.to_nat (last_seq st)) by lia.
    set (seg := take _ _).
    destruct seg as [|e l] eqn:Eseg; [by rewrite ?app_nil_r|]. rewrite <- Eseg in *.
    cbn [sse_log last_seq sent]. rewrite Nat2Z.id, <- take_take_drop.
    assert (take (length seg) (drop (Z.to_nat (last_seq st)) (numbered (sse_log st))) = seg) as ->.
    { unfold seg. by rewrite length_take, <- take_take, firstn_all. }
    rewrite Hc, drop_app_le by (rewrite length_take, length_numbered; lia). done.
Qed.

(** Polls alone catch up with what is outstanding. *)
Lemma polls_send n0 c st k :
  few (sse_log st) -> sse_inv n0 st -> sse_complete n0 st -> (outstanding n0 st <= c)%nat ->
  sent (sse_run c st (replicate k Polled)) = take (length (sent st) + k * default_limit) (drop n0 (numbered (sse_log st))).
Proof.
  unfold sse_run. revert st. induction k as [|k IH]; intros st Hf Hi Hc Ho; cbn [replicate foldl].
  - rewrite Nat.mul_0_l, Nat.add_0_r. by apply complete_prefix.
  - pose proof (poll_sends n0 c st Hf Hi Hc Ho) as Hs. pose proof (poll_log c st) as Hl.
    rewrite IH.
    + rewrite Hl, Hs, length_take, length_drop, length_numbered. unfold default_limit.
      destruct (decide (length (sent st) + 500 <= length (sse_log st) - n0)%nat) as [Hle|Hgt].
      * f_equal. lia.
      * rewrite !take_ge by (rewrite length_drop, length_numbered; lia). done.
    + by rewrite Hl.
    + apply sse_step_inv; [by rewrite Hl|done..].
    + by apply sse_step_complete.
    + unfold outstanding in *. rewrite Hl, Hs, length_take, length_drop, length_numbered. lia.
Qed.

Lemma few_app (l k : list E) : few (l ++ k) -> few l.
Proof. unfold few. rewrite length_app. lia. Qed.

Lemma sse_step_log c st a : exists k, sse_log (sse_step c st a) = sse_log st ++ k.
Proof.
  destruct a as [e|]; simpl; [by exists [e]|]. exists []. rewrite app_nil_r.
  destruct (events_since _ _ _) as [|e l] eqn:Eev; [done|].
  change (foldl sse_send (sse_send st e) l) with (foldl sse_send st (e :: l)).
  by rewrite sse_send_all.
Qed.

Lemma sse_run_inv n0 c st acts :
  few (sse_log (sse_run c st acts)) -> sse_inv n0 st ->
  few (sse_log st) /\ sse_inv n0 (sse_run c st acts) /\
  (sse_complete n0 st -> kept_up c n0 st acts -> sse_complete n0 (sse_run c st acts)).
Proof.
  unfold sse_run. revert st. induction acts as [|a acts IH]; intros st Hf Hi; [done|].
  cbn [foldl] in *. destruct (sse_step_log c st a) as [k Hk].
  assert (few (sse_log (sse_step c st a)) /\ few (sse_log st)) as [Hf1 Hf0].
  { assert (few (sse_log (sse_step c st a))) as Hs; [|split; [done|rewrite Hk in Hs; by eapply few_app]].
    unfold few in *. pose proof (sse_log_run c (sse_step c st a) acts) as Hl. unfold sse_run in Hl. lia. }
  destruct (IH (sse_step c st a) Hf) as (_ & H1 & H2); [by apply sse_step_inv|].
  split_and!; [done|done|]. intros Hc [Hk1 Hk2]. apply H2; [|done]. by apply sse_step_complete.
Qed.

(** C40: however records and polls interleave, a subscriber is sent events
    that were recorded after it connected, each at most once and in the order
    recorded. As long as no poll finds more events outstanding than the ring
    holds, it is sent them with no gap, the next 500 at every poll, so that
    [k] polls in a row send everything outstanding up to [500 * k] events. *)
Theorem sse_delivers capacity (log0 : list E) acts :
  let n0 := length log0 in
  let st := sse_run capacity (sse_start log0 capacity) acts in
  let recorded_since := drop n0 (numbered (sse_log st)) in
  few (sse_log st) ->
  sent st `sublist_of` recorded_since /\
  (kept_up capacity n0 (sse_start log0 capacity) acts ->
   sent st `prefix_of` recorded_since /\
   ((outstanding n0 st <= capacity)%nat ->
    forall k, sent (sse_run capacity st (replicate k Polled)) = take (length (sent st) + 500 * k) recorded_since)).
Proof.
  intros n0 st recorded_since Hf.
  assert (few log0) as Hf0.
  { unfold few in *. unfold st in Hf. rewrite sse_log_run in Hf. unfold sse_start in Hf. simpl in Hf. lia. }
  assert (sse_complete n0 (sse_start log0 capacity)) as Hc0.
  { unfold sse_complete, sse_start. cbn [sent last_seq sse_log]. rewrite latest_seq_spec by done.
    rewrite Nat2Z.id, drop_ge; [done|]. rewrite length_take. lia. }
  assert (sse_inv n0 (sse_start log0 capacity)) as Hi0.
  { split; [|rewrite <- Hc0; done]. unfold sse_start. cbn [last_seq sse_log].
    rewrite latest_seq_spec by done. lia. }
  destruct (sse_run_inv n0 capacity _ acts Hf Hi0) as (_ & Hi & Hcomp). fold st in Hi, Hcomp.
  assert (forall n, drop n0 (take n (numbered (sse_log st))) `prefix_of` recorded_since) as Hpre.
  { intros n. rewrite skipn_firstn_comm. apply prefix_take. }
  split; [etrans; [apply Hi|destruct (Hpre (Z.to_nat (last_seq st))) as [l El]; rewrite El; by apply sublist_inserts_r]|].
  intros Hk. specialize (Hcomp Hc0 Hk). split; [unfold sse_complete in Hcomp; rewrite Hcomp; apply Hpre|].
  intros Ho k. rewrite (polls_send n0) by done. unfold default_limit. by rewrite (Nat.mul_comm k).
Qed.
End ring_queries.

(** ** Witnesses *)

Definition example_login (t : Z) : LoginEvent := mkLogin 0 t "admin" "127.0.0.1".

Lemma ring_history_witness :
  recent 5 (run_ring 2 [example_login 1; example_login 2; example_login 3]) =
  [mkLogin 2 2 "admin" "127.0.0.1"; mkLogin 3 3 "admin" "127.0.0.1"].
Proof.
  destruct (ring_history 2 [example_login 1; example_login 2; example_login 3] 5 0
    ltac:(apply few_small; reflexivity) ltac:(lia) ltac:(lia)) as (_ & -> & _ & _).
  vm_compute. reflexivity.
Defined.

Lemma sse_delivers_witness :
  let acts := [Recorded (example_login 2); Polled; Recorded (example_login 3); Recorded (example_login 4)] in
  let st := sse_run 10 (sse_start [example_login 1] 10) acts in
  sent st = [mkLogin 2 2 "admin" "127.0.0.1"] /\
  sent (sse_run 10 st (replicate 1 Polled)) =
    [mkLogin 2 2 "admin" "127.0.0.1"; mkLogin 3 3 "admin" "127.0.0.1"; mkLogin 4 4 "admin" "127.0.0.1"].
Proof.
  intros acts st. split; [vm_compute; reflexivity|].
  destruct (sse_delivers 10 [example_login 1] acts ltac:(apply few_small; reflexivity)) as [_ H].
  destruct H as [_ H]; [repeat split; intros [=]; vm_compute; lia|].
  fold st in H. rewrite (H ltac:(vm_compute; lia) 1%nat). vm_compute. reflexivity.
Defined.
