(* ===== verification/Csv.v ===== *)
(** * Csv: the text of the request log file

    Models the row writer of [history/request_log.cpp]: [to_iso8601],
    [csv_escape], [kCsvHeader] and [to_csv_row]; and a reader for RFC 4180
    records against which the writer is checked. *)
From S2P Require Import Prelude Text EventLogs.

(** ** [to_iso8601] *)

(** The digits of [%0wd] for the values printed here. *)
Definition pad (w : nat) (n : Z) : str :=
  let s := to_dec n in replicate (w - length s) "0"%char ++ s.

Record tm := mkTm { tm_year : Z; tm_mon : Z; tm_mday : Z; tm_hour : Z; tm_min : Z; tm_sec : Z }.

(** [gmtime_r]: the proleptic Gregorian date of a count of seconds. *)
Definition gmtime (t : Z) : tm :=
  let days := t / 86400 in
  let z := days + 719468 in
  let era := z / 146097 in
  let doe := z - era * 146097 in
  let yoe := (doe - doe / 1460 + doe / 36524 - doe / 146096) / 365 in
  let doy := doe - (365 * yoe + yoe / 4 - yoe / 100) in
  let mp := (5 * doy + 2) / 153 in
  let d := doy - (153 * mp + 2) / 5 + 1 in
  let m := if mp <? 10 then mp + 3 else mp - 9 in
  let y := yoe + era * 400 + (if m <=? 2 then 1 else 0) in
  let s := t mod 86400 in
  mkTm (y - 1900) (m - 1) d (s / 3600) (s mod 3600 / 60) (s mod 60).

Definition to_iso8601 (tp : time_point) : str :=
  let ms := Z.rem (Z.quot tp ns_per_ms) 1000 in
  let tt := Z.quot tp ns_per_s in
  let t := gmtime tt in
  take 31 (pad 4 (tm_year t + 1900) ++ lit "-" ++ pad 2 (tm_mon t + 1) ++ lit "-" ++
    pad 2 (tm_mday t) ++ lit "T" ++ pad 2 (tm_hour t) ++ lit ":" ++ pad 2 (tm_min t) ++ lit ":" ++
    pad 2 (tm_sec t) ++ lit "." ++ pad 3 ms ++ lit "Z").

Example iso_leap_day : to_iso8601 (1709210096789 * ns_per_ms) = "2024-02-29T12:34:56.789Z".
Proof. vm_compute. reflexivity. Qed.

(** ** [csv_escape] and the rows *)

Definition formula_starts : str := lit "=+-@" ++ [tab; cr].
Definition specials : str := lit "," ++ [dq; nl; cr].

Definition formula_like (raw : str) : bool :=
  match raw with
  | c :: _ => bool_decide (c ∈ formula_starts)
  | [] => false
  end.

Definition cell_value (raw : str) : str := if formula_like raw then "'"%char :: raw else raw.

(** The loop that doubles the quotes. *)
Definition double_quotes (value : str) : str :=
  foldl (fun escaped c => (if c == dq then escaped ++ [dq] else escaped) ++ [c]) [] value.

Definition csv_escape (raw : str) : str :=
  let value := cell_value raw in
  if find_first_of specials value is None then value
  else [dq] ++ double_quotes value ++ [dq].

Definition kCsvHeader : str :=
  lit "seq,timestamp,client_ip,country,isp,user_agent,method,path,domain,listener,blocked," ++
  lit "block_reason,bytes_transferred,status_code" ++ [nl].

Definition bool_text (b : bool) : str := if b then "true" else "false".

Definition to_csv_row (event : RequestEvent) : str :=
  to_dec (ev_seq event) ++ lit "," ++ to_iso8601 (ev_timestamp event) ++ lit "," ++
  csv_escape (ev_client_ip event) ++ lit "," ++ csv_escape (ev_country event) ++ lit "," ++
  csv_escape (ev_isp event) ++ lit "," ++ csv_escape (ev_user_agent event) ++ lit "," ++
  csv_escape (ev_method event) ++ lit "," ++ csv_escape (ev_path event) ++ lit "," ++
  csv_escape (ev_domain event) ++ lit "," ++ csv_escape (ev_listener event) ++ lit "," ++
  bool_text (ev_blocked event) ++ lit "," ++ csv_escape (ev_block_reason event) ++ lit "," ++
  to_dec (ev_bytes_transferred event) ++ lit "," ++ to_dec (ev_status_code event) ++ [nl].

(** ** A reader of RFC 4180 records *)

(** The text up to the closing quote, doubled quotes undone. *)
Fixpoint read_quoted (s : str) : option (str * str) :=
  match s with
  | [] => None
  | c :: s1 =>
      if c == dq then
        match s1 with
        | d :: s2 => if d == dq then '(v, r) ← read_quoted s2; Some (dq :: v, r) else Some ([], s1)
        | [] => Some ([], [])
        end
      else '(v, r) ← read_quoted s1; Some (c :: v, r)
  end.

Fixpoint read_plain (s : str) : str * str :=
  match s with
  | c :: s' => if bool_decide (c ∈ specials) then ([], s)
               else let '(v, r) := read_plain s' in (c :: v, r)
  | [] => ([], [])
  end.

Definition read_field (s : str) : option (str * str) :=
  match s with
  | c :: s' => if c == dq then read_quoted s' else Some (read_plain s)
  | [] => Some ([], [])
  end.

(** One record: fields separated by commas, ended by a newline. Fuel: a
    record has fewer fields than characters. *)
Fixpoint read_fields (fuel : nat) (s : str) : option (list (list ascii) * str) :=
  match fuel with
  | O => None
  | S fuel' =>
      '(v, r) ← read_field s;
      match r with
      | c :: r' =>
          if c == ","%char then '(vs, rest) ← read_fields fuel' r'; Some (v :: vs, rest)
          else if c == nl then Some ([v], r') else None
      | [] => None
      end
  end.

Definition read_record (s : str) : option (list (list ascii) * str) := read_fields (length s) s.

(** All the records of a file. *)
Fixpoint read_file (fuel : nat) (s : str) : option (list (list (list ascii))) :=
  match s with
  | [] => Some []
  | _ =>
      match fuel with
      | O => None
      | S fuel' => '(rec, rest) ← read_record s; recs ← read_file fuel' rest; Some (rec :: recs)
      end
  end.

(** What a reader should get back for an event. *)
Definition row_fields (event : RequestEvent) : list (list ascii) := [
  to_dec (ev_seq event); to_iso8601 (ev_timestamp event); cell_value (ev_client_ip event);
  cell_value (ev_country event); cell_value (ev_isp event); cell_value (ev_user_agent event);
  cell_value (ev_method event); cell_value (ev_path event); cell_value (ev_domain event);
  cell_value (ev_listener event); bool_text (ev_blocked event); cell_value (ev_block_reason event);
  to_dec (ev_bytes_transferred event); to_dec (ev_status_code event)].

(** ** Fields *)

(** Text that needs no quotes. *)
Definition plain (s : str) : Prop := Forall (fun c => c ∉ specials) s.
(** A field ends at a comma or at the end of the record. *)
Definition ends_field (rest : str) : Prop := exists c r, rest = c :: r /\ (c = ","%char \/ c = nl).

Lemma double_quotes_flat value :
  double_quotes value = flat_map (fun c => if c == dq then [dq; dq] else [c]) value.
Proof.
  unfold double_quotes.
  assert (forall acc, foldl (fun escaped c => (if c == dq then escaped ++ [dq] else escaped) ++ [c]) acc value
    = acc ++ flat_map (fun c => if c == dq then [dq; dq] else [c]) value) as H; [|apply H].
  induction value as [|c value IH]; intros acc; cbn [foldl flat_map]; [by rewrite app_nil_r|].
  rewrite IH. case_bool_decide; subst; by rewrite <- !app_assoc.
Qed.

Lemma read_quoted_spec value rest :
  (forall r, rest <> dq :: r) ->
  read_quoted (double_quotes value ++ dq :: rest) = Some (value, rest).
Proof.
  intros Hr. rewrite double_quotes_flat. induction value as [|c value IH]; cbn [flat_map app].
  - cbn [read_quoted]. rewrite bool_decide_eq_true_2 by done. destruct rest as [|d rest]; [done|].
    rewrite bool_decide_eq_false_2; [done|]. intros ->. by eapply Hr.
  - rewrite <- app_assoc. destruct (decide (c = dq)) as [->|Hc].
    + rewrite (bool_decide_eq_true_2 (dq = dq)) by done. cbn [app read_quoted].
      rewrite !(bool_decide_eq_true_2 (dq = dq)) by done. by rewrite IH.
    + rewrite bool_decide_eq_false_2 by done. cbn [app read_quoted].
      rewrite bool_decide_eq_false_2 by done. by rewrite IH.
Qed.

Lemma ends_field_special rest : ends_field rest -> exists c r, rest = c :: r /\ c ∈ specials /\ c <> dq.
Proof.
  intros (c & r & -> & H). exists c, r.
  split; [done|]. destruct H as [-> | ->]; (split; [decide_literal|discriminate]).
Qed.

Lemma read_plain_spec value rest :
  plain value -> ends_field rest -> read_plain (value ++ rest) = (value, rest).
Proof.
  intros Hv (c & r & -> & Hc & _)%ends_field_special. induction Hv as [|d value Hd Hv IH]; cbn [app read_plain].
  - by rewrite bool_decide_eq_true_2.
  - rewrite bool_decide_eq_false_2 by done. by rewrite IH.
Qed.

Lemma read_field_plain value rest :
  plain value -> ends_field rest -> read_field (value ++ rest) = Some (value, rest).
Proof.
  intros Hv Hr. pose proof (read_plain_spec value rest Hv Hr) as Hp.
  destruct (ends_field_special _ Hr) as (c & r & -> & Hc & Hdq).
  destruct value as [|d value]; cbn [app read_field].
  - rewrite bool_decide_eq_false_2 by done. by rewrite <- Hp.
  - apply Forall_cons in Hv as [Hd _]. rewrite bool_decide_eq_false_2; [by rewrite <- Hp|].
    intros ->. apply Hd. decide_literal.
Qed.

(** Whatever the raw text is, the reader gets the cell's value back. *)
Lemma read_field_escape raw rest :
  ends_field rest -> read_field (csv_escape raw ++ rest) = Some (cell_value raw, rest).
Proof.
  intros Hr. unfold csv_escape. destruct (find_first_of specials (cell_value raw)) eqn:E.
  - cbn [app read_field]. rewrite bool_decide_eq_true_2 by done.
    rewrite <- app_assoc. apply read_quoted_spec.
    destruct (ends_field_special _ Hr) as (c & r & -> & _ & Hdq). by intros r' [= ->].
  - apply read_field_plain; [|done]. unfold find_first_of in E.
    apply fmap_None, list_find_None in E. exact E.
Qed.

(** ** The generated text is plain *)

Lemma plain_subset (cs : str) s :
  Forall (fun c => c ∉ specials) cs -> Forall (fun c => c ∈ cs) s -> plain s.
Proof.
  intros Hc Hs. unfold plain. eapply Forall_impl; [exact Hs|]. intros c Hin.
  rewrite Forall_forall in Hc. by apply Hc.
Qed.

Lemma plain_app s t : plain s -> plain t -> plain (s ++ t).
Proof. intros. by apply Forall_app. Qed.

Lemma plain_dec n : plain (to_dec n).
Proof. eapply plain_subset; [|apply to_dec_chars]. decide_literal. Qed.

Lemma plain_zeros n : plain (replicate n "0"%char).
Proof. apply Forall_replicate. decide_literal. Qed.

Lemma plain_lit (s : string) : bool_decide (plain (lit s)) = true -> plain (lit s).
Proof. apply bool_decide_eq_true. Qed.

#[local] Hint Resolve plain_app plain_dec plain_zeros : atomwall.
#[local] Hint Extern 1 (plain _) => (apply plain_lit; vm_compute; reflexivity) : atomwall.

Lemma plain_iso tp : plain (to_iso8601 tp).
Proof. unfold to_iso8601. apply Forall_take. repeat (apply plain_app); auto with atomwall. Qed.

Lemma plain_bool b : plain (bool_text b).
Proof. destruct b; unfold bool_text; auto with atomwall. Qed.

(** ** Records *)

Lemma read_fields_comma fuel f v rest vs r :
  read_field (f ++ lit "," ++ rest) = Some (v, lit "," ++ rest) ->
  read_fields fuel rest = Some (vs, r) ->
  read_fields (S fuel) (f ++ lit "," ++ rest) = Some (v :: vs, r).
Proof. intros H1 H2. cbn [read_fields]. rewrite H1. cbn. by rewrite H2. Qed.

Lemma read_fields_end fuel f v rest :
  read_field (f ++ nl :: rest) = Some (v, nl :: rest) ->
  read_fields (S fuel) (f ++ nl :: rest) = Some ([v], rest).
Proof. intros H1. cbn [read_fields]. by rewrite H1. Qed.

Lemma ends_comma rest : ends_field (lit "," ++ rest).
Proof. exists ","%char, rest. split; [done|by left]. Qed.
Lemma ends_nl rest : ends_field (nl :: rest).
Proof. exists nl, rest. split; [done|by right]. Qed.
#[local] Hint Resolve ends_comma ends_nl plain_iso plain_bool : atomwall.

Lemma read_fields_more fuel fuel' s vs r :
  read_fields fuel s = Some (vs, r) -> (fuel <= fuel')%nat -> read_fields fuel' s = Some (vs, r).
Proof.
  revert fuel' s vs r. induction fuel as [|fuel IH]; intros fuel' s vs r H Hle; [done|].
  destruct fuel' as [|fuel']; [lia|]. cbn [read_fields] in *.
  destruct (read_field s) as [[v r0]|]; [|done]. cbn in *. destruct r0 as [|c r0]; [done|].
  case_bool_decide; [|done]. destruct (read_fields fuel r0) as [[vs' rest]|] eqn:E; [|done].
  by rewrite (IH fuel' _ _ _ E) by lia.
Qed.

Lemma to_csv_row_fields event rest :
  read_fields 14 (to_csv_row event ++ rest) = Some (row_fields event, rest).
Proof.
  unfold to_csv_row, row_fields. rewrite <- !app_assoc.
  repeat (apply read_fields_comma;
    [first [apply read_field_escape | apply read_field_plain]; auto with atomwall|]).
  apply read_fields_end, read_field_plain; auto with atomwall.
Qed.

Lemma to_csv_row_length event : (14 <= length (to_csv_row event))%nat.
Proof. unfold to_csv_row. rewrite !length_app. change (length (lit ",")) with 1%nat. cbn [length]. lia. Qed.

Lemma read_record_row event rest :
  read_record (to_csv_row event ++ rest) = Some (row_fields event, rest).
Proof.
  unfold read_record. eapply read_fields_more; [apply to_csv_row_fields|].
  rewrite length_app. pose proof (to_csv_row_length event). lia.
Qed.

Lemma read_file_rows events fuel :
  (length events <= fuel)%nat ->
  read_file fuel (flat_map to_csv_row events) = Some (map row_fields events).
Proof.
  revert fuel. induction events as [|e events IH]; intros fuel Hf; [by destruct fuel|].
  destruct fuel as [|fuel]; [simpl in Hf; lia|]. cbn [flat_map map].
  destruct (to_csv_row e ++ flat_map to_csv_row events) as [|c s] eqn:E.
  - apply (f_equal length) in E. rewrite length_app in E. pose proof (to_csv_row_length e).
    simpl in E. lia.
  - cbn [read_file]. rewrite <- E, read_record_row. cbn. simpl in Hf. by rewrite IH by lia.
Qed.

Definition header_fields : list (list ascii) := map lit [
  "seq"; "timestamp"; "client_ip"; "country"; "isp"; "user_agent"; "method"; "path"; "domain";
  "listener"; "blocked"; "block_reason"; "bytes_transferred"; "status_code"]%string.

(** C38: the request log file reads back: parsed as RFC 4180, the header line
    followed by the rows of any events, whatever bytes a visitor put into the
    user agent, path, host or other text fields, is the header record and one
    record of fourteen fields per event, with no text field cut, split or
    merged; the only change to a text field is a leading apostrophe before one
    that would start a spreadsheet formula, so no cell read back does. *)
Theorem csv_round_trip events :
  read_file (S (length events)) (kCsvHeader ++ flat_map to_csv_row events) =
    Some (header_fields :: map row_fields events) /\
  forall raw, formula_like (cell_value raw) = false /\
    (cell_value raw = raw \/ cell_value raw = "'"%char :: raw).
Proof.
  split.
  - change (kCsvHeader ++ flat_map to_csv_row events)
      with ("s"%char :: (tail kCsvHeader ++ flat_map to_csv_row events)).
    cbn [read_file].
    change ("s"%char :: (tail kCsvHeader ++ flat_map to_csv_row events))
      with (kCsvHeader ++ flat_map to_csv_row events).
    assert (read_record (kCsvHeader ++ flat_map to_csv_row events) =
            Some (header_fields, flat_map to_csv_row events)) as ->.
    { unfold read_record. apply (read_fields_more 14).
      - generalize (flat_map to_csv_row events). intros rest. vm_compute. reflexivity.
      - assert (14 <= length kCsvHeader)%nat by (apply Nat.leb_le; vm_compute; reflexivity).
        rewrite length_app. lia. }
    cbn. by rewrite read_file_rows.
  - intros raw. unfold cell_value. destruct (formula_like raw) eqn:E; [split; [done|by right]|split; [done|by left]].
Qed.
