(* ===== verification/RequestLog.v ===== *)
(** * RequestLog: CSV batching and the writer thread

    Models the rest of [history/request_log.cpp]: [record]'s batching under
    the mutex, the destructor, and [writer_loop] on its own thread. Each
    critical section and each uninterrupted run of file output is one step;
    the steps of the threads interleave in any order. *)
From S2P Require Import Prelude EventLogs Csv.

Definition kCsvBatchSize : nat := 100.
Arguments kCsvBatchSize : simpl never.
Arguments kCsvHeader : simpl never.

(** Where [writer_loop] is. [WriterFailed]: the file could not be opened and
    the thread returned. *)
Inductive writer_state :=
  | WriterOpening
  | WriterWaiting
  | WriterWriting (batches : list (list RequestEvent))
  | WriterFailed
  | WriterExited.

Record RequestLog := mkLog {
  ring : Ring RequestEvent;
  csv_path_ : str;
  pending_batch_ : list RequestEvent;
  write_queue_ : list (list RequestEvent);
  stop_ : bool;
  writer : option writer_state;
  file : str }.

(** The constructor, over what the file already holds. *)
Definition log_init (capacity : nat) (path contents : str) : RequestLog :=
  mkLog (ring_init capacity) path [] [] false
    (match path with [] => None | _ => Some WriterOpening end) contents.

Definition set_writer (w : writer_state) (l : RequestLog) : RequestLog :=
  mkLog (ring l) (csv_path_ l) (pending_batch_ l) (write_queue_ l) (stop_ l) (Some w) (file l).

(** [RequestLog::record]. *)
Definition record (event : RequestEvent) (l : RequestLog) : RequestLog :=
  let numbered_event := with_seq (next_seq_ (ring l)) event in
  let '(pending, queue) :=
    match csv_path_ l with
    | [] => (pending_batch_ l, write_queue_ l)
    | _ =>
        let pending := pending_batch_ l ++ [numbered_event] in
        if (kCsvBatchSize <=? length pending)%nat
        then ([], write_queue_ l ++ [pending]) else (pending, write_queue_ l)
    end in
  mkLog (EventLogs.record event (ring l)) (csv_path_ l) pending queue (stop_ l) (writer l) (file l).

(** The destructor's critical section; it then joins the writer. *)
Definition begin_destroy (l : RequestLog) : RequestLog :=
  match writer l with
  | None => l
  | Some w =>
      let queue := match pending_batch_ l with
                   | [] => write_queue_ l
                   | _ => write_queue_ l ++ [pending_batch_ l]
                   end in
      mkLog (ring l) (csv_path_ l) [] queue true (Some w) (file l)
  end.

(** The header is written to a new or empty file. *)
Definition open_file (l : RequestLog) : RequestLog :=
  mkLog (ring l) (csv_path_ l) (pending_batch_ l) (write_queue_ l) (stop_ l) (Some WriterWaiting)
    (match file l with [] => kCsvHeader | contents => contents end).

Definition take_queue (l : RequestLog) : RequestLog :=
  mkLog (ring l) (csv_path_ l) (pending_batch_ l) [] (stop_ l) (Some (WriterWriting (write_queue_ l)))
    (file l).

Definition write_batches (batches : list (list RequestEvent)) (l : RequestLog) : RequestLog :=
  mkLog (ring l) (csv_path_ l) (pending_batch_ l) (write_queue_ l) (stop_ l) (Some WriterWaiting)
    (file l ++ flat_map (flat_map to_csv_row) batches).

(** One step and the events it records. *)
Inductive log_step : RequestLog -> list RequestEvent -> RequestLog -> Prop :=
  | step_record e l : stop_ l = false -> log_step l [e] (record e l)
  | step_destroy l : stop_ l = false -> log_step l [] (begin_destroy l)
  | step_open l : writer l = Some WriterOpening -> log_step l [] (open_file l)
  | step_open_fails l : writer l = Some WriterOpening -> log_step l [] (set_writer WriterFailed l)
  | step_wake l : writer l = Some WriterWaiting -> write_queue_ l <> [] -> log_step l [] (take_queue l)
  | step_write l batches : writer l = Some (WriterWriting batches) -> log_step l [] (write_batches batches l)
  | step_exit l : writer l = Some WriterWaiting -> write_queue_ l = [] -> stop_ l = true ->
      log_step l [] (set_writer WriterExited l).

(** Reachable states with everything recorded so far. *)
Inductive log_reach (capacity : nat) (path contents : str) : list RequestEvent -> RequestLog -> Prop :=
  | reach_init : log_reach capacity path contents [] (log_init capacity path contents)
  | reach_step log l es l' : log_reach capacity path contents log l -> log_step l es l' ->
      log_reach capacity path contents (log ++ es) l'.

(** ** Conservation of events *)

Definition in_flight (l : RequestLog) : list (list RequestEvent) :=
  match writer l with
  | Some (WriterWriting batches) => batches
  | _ => []
  end.

(** The events recorded and not yet in the file, oldest first. *)
Definition owed (l : RequestLog) : list RequestEvent :=
  concat (in_flight l ++ write_queue_ l) ++ pending_batch_ l.

Definition opened (l : RequestLog) : bool :=
  match writer l with
  | Some WriterWaiting | Some (WriterWriting _) | Some WriterExited => true
  | _ => false
  end.

Definition file_start (contents : str) : str := match contents with [] => kCsvHeader | _ => contents end.

Record log_inv (capacity : nat) (path contents : str) (log : list RequestEvent) (l : RequestLog) : Prop := {
  li_path : csv_path_ l = path;
  li_ring : ring l = run_ring capacity log;
  li_split : exists k, (k <= length log)%nat /\ owed l = drop k (numbered log) /\
    if opened l then file l = file_start contents ++ flat_map to_csv_row (take k (numbered log))
    else k = 0%nat /\ file l = contents;
  li_pending : (length (pending_batch_ l) < kCsvBatchSize)%nat;
  li_stopped : stop_ l = true -> pending_batch_ l = [];
  li_exited : writer l = Some WriterExited -> stop_ l = true /\ write_queue_ l = [];
  li_writer : writer l <> None }.

Lemma flat_map_concat {A B} (f : A -> list B) (ls : list (list A)) :
  flat_map (flat_map f) ls = flat_map f (concat ls).
Proof. induction ls as [|l ls IH]; simpl; [done|]. by rewrite flat_map_app, IH. Qed.

Lemma log_init_inv capacity path contents :
  path <> [] -> log_inv capacity path contents [] (log_init capacity path contents).
Proof.
  intros Hp. destruct path as [|c path]; [done|]. split; try done.
  - by exists 0%nat.
  - simpl. unfold kCsvBatchSize. lia.
Qed.

Lemma owed_record e l :
  csv_path_ l <> [] -> owed (record e l) = owed l ++ [with_seq (next_seq_ (ring l)) e].
Proof.
  intros Hp. unfold owed, record, in_flight. destruct (csv_path_ l); [done|].
  set (e' := with_seq _ e). destruct (kCsvBatchSize <=? _)%nat; cbn [writer write_queue_ pending_batch_].
  - rewrite app_nil_r, !concat_app. cbn [concat]. by rewrite app_nil_r, <- !app_assoc.
  - by rewrite <- !app_assoc.
Qed.

Lemma record_pending e l :
  csv_path_ l <> [] -> (length (pending_batch_ (record e l)) < kCsvBatchSize)%nat.
Proof.
  intros Hp. unfold record. destruct (csv_path_ l); [done|].
  destruct (kCsvBatchSize <=? _)%nat eqn:E; cbn [pending_batch_]; [unfold kCsvBatchSize; simpl; lia|].
  by apply Nat.leb_gt in E.
Qed.

Lemma log_record_inv capacity path contents log l e :
  path <> [] -> few (log ++ [e]) -> stop_ l = false ->
  log_inv capacity path contents log l -> log_inv capacity path contents (log ++ [e]) (record e l).
Proof.
  intros Hp Hf Hstop [H1 H2 (k & Hkl & Ho & Hk) H4 H5 H6 H7].
  assert (with_seq (next_seq_ (ring l)) e = with_seq (Z.of_nat (length log) + 1) e) as Hnum.
  { by rewrite H2, run_ring_spec by (by eapply few_app). }
  assert (csv_path_ (record e l) = path /\ stop_ (record e l) = stop_ l /\
    writer (record e l) = writer l /\ file (record e l) = file l /\
    ring (record e l) = EventLogs.record e (ring l)) as (E1 & E2 & E3 & E4 & E5).
  { unfold record. destruct (csv_path_ l); [|destruct (kCsvBatchSize <=? _)%nat]; done. }
  split.
  - done.
  - rewrite E5, H2. unfold run_ring. by rewrite foldl_app.
  - exists k. split_and!; [rewrite length_app; lia| |].
    + rewrite owed_record, Ho, Hnum, numbered_snoc by congruence.
      by rewrite drop_app_le by (rewrite length_numbered; lia).
    + unfold opened in *. rewrite E3, E4, take_numbered_app by lia. done.
  - apply record_pending. congruence.
  - congruence.
  - rewrite E3. intros Hw. destruct (H6 Hw). congruence.
  - congruence.
Qed.

Lemma log_step_inv capacity path contents log l es l' :
  path <> [] -> few (log ++ es) -> log_step l es l' ->
  log_inv capacity path contents log l -> log_inv capacity path contents (log ++ es) l'.
Proof.
  intros Hp Hf Hstep Hinv. destruct Hstep as [e l Hs|l Hs|l Hw|l Hw|l Hw Hq|l b Hw|l Hw Hq Hs];
    [by apply log_record_inv|..]; rewrite app_nil_r in *;
    destruct Hinv as [H1 H2 (k & Hkl & Ho & Hk) H4 H5 H6 H7].
  - unfold begin_destroy. destruct (writer l) as [w|] eqn:Hw; [|done].
    assert (w <> WriterExited) as Hne by (intros ->; destruct (H6 eq_refl); congruence).
    split; cbn; try done; [|unfold kCsvBatchSize; lia|congruence].
    exists k. split_and!; [done| |by unfold opened in *; rewrite Hw in Hk].
    rewrite <- Ho. unfold owed, in_flight. cbn. rewrite Hw.
    destruct (pending_batch_ l); rewrite !app_nil_r; [done|].
    rewrite app_assoc, !concat_app. simpl. by rewrite app_nil_r.
  - split; cbn; try done. exists 0%nat. unfold opened in *. rewrite Hw in Hk. destruct Hk as [-> Hfile].
    split_and!; [lia| |rewrite Hfile; destruct contents; symmetry; apply app_nil_r].
    rewrite <- Ho. unfold owed, in_flight. cbn. by rewrite Hw.
  - split; cbn; try done. exists k. unfold opened in *. rewrite Hw in Hk.
    split; [done|]. split; [|done]. rewrite <- Ho. unfold owed, in_flight. cbn. by rewrite Hw.
  - split; cbn; try done. exists k. unfold opened in *. rewrite Hw in Hk.
    split; [done|]. split; [|done]. rewrite <- Ho. unfold owed, in_flight. cbn. by rewrite Hw, app_nil_r.
  - split; cbn; try done. unfold opened in *. rewrite Hw in Hk. unfold owed, in_flight in Ho. rewrite Hw in Ho.
    exists (k + length (concat b))%nat.
    rewrite concat_app, <- app_assoc in Ho.
    assert (concat b = take (length (concat b)) (drop k (numbered log))) as Hb
      by (by rewrite <- Ho, take_app_length).
    split_and!.
    + apply (f_equal length) in Ho. rewrite length_app, length_drop, length_numbered in Ho. lia.
    + unfold owed, in_flight. cbn. rewrite <- drop_drop, <- Ho. by rewrite drop_app_length.
    + rewrite Hk, flat_map_concat, <- app_assoc, <- flat_map_app. do 2 f_equal.
      rewrite Hb at 1. by rewrite take_take_drop.
  - split; cbn; try done. exists k. unfold opened in *. rewrite Hw in Hk.
    split; [done|]. split; [|done]. rewrite <- Ho. unfold owed, in_flight. cbn. by rewrite Hw.
Qed.

Lemma log_reach_inv capacity path contents log l :
  path <> [] -> few log -> log_reach capacity path contents log l -> log_inv capacity path contents log l.
Proof.
  intros Hp Hf H. induction H as [|log l es l' H IH Hstep]; [by apply log_init_inv|].
  eapply log_step_inv; [done|done|done|]. apply IH. by eapply few_app.
Qed.

(** ** Shutting down *)

(** An upper bound on the writer's remaining steps once [stop_] is set. *)
Definition steps_left (l : RequestLog) : nat :=
  match writer l with
  | Some WriterOpening => 5
  | Some (WriterWriting _) => match write_queue_ l with [] => 2 | _ => 4 end
  | Some WriterWaiting => match write_queue_ l with [] => 1 | _ => 3 end
  | _ => 0
  end.

Lemma csv_no_loss_exited capacity path contents log l :
  path <> [] -> few log -> log_reach capacity path contents log l -> writer l = Some WriterExited ->
  file l = file_start contents ++ flat_map to_csv_row (numbered log).
Proof.
  intros Hp Hf H Hw. destruct (log_reach_inv _ _ _ _ _ Hp Hf H) as [_ _ (k & Hkl & Ho & Hk) _ H5 H6 _].
  destruct (H6 Hw) as [Hs Hq]. unfold opened in Hk. rewrite Hw in Hk. rewrite Hk. do 2 f_equal.
  unfold owed, in_flight in Ho. rewrite Hw, Hq, (H5 Hs) in Ho. simpl in Ho.
  apply take_ge. apply (f_equal length) in Ho. rewrite length_drop in Ho. simpl in Ho. lia.
Qed.

(** C32: with persistence on, no interleaving of requests, writer and
    destructor loses, repeats or reorders a row: the file always holds the
    header or what it held before, then the rows of the first [k] events
    recorded, in order, and the other events are still queued or pending, at
    most 99 of them unbatched; once the writer has exited the file holds the
    row of every event ever recorded. *)
Theorem csv_no_loss capacity path contents log l :
  path <> [] -> few log -> log_reach capacity path contents log l ->
  (length (pending_batch_ l) < kCsvBatchSize)%nat /\
  (opened l = true -> exists k,
     file l = file_start contents ++ flat_map to_csv_row (take k (numbered log)) /\
     owed l = drop k (numbered log)) /\
  (writer l = Some WriterExited ->
     file l = file_start contents ++ flat_map to_csv_row (numbered log)).
Proof.
  intros Hp Hf H. pose proof (csv_no_loss_exited _ _ _ _ _ Hp Hf H) as Hex.
  destruct (log_reach_inv _ _ _ _ _ Hp Hf H) as [_ _ (k & _ & Ho & Hk) H4 _ _ _].
  split_and!; [done|intros Hop; rewrite Hop in Hk; eauto|done].
Qed.

(** C39: shutting down terminates and drains the queue: once the destructor
    has set [stop_], every step brings the writer closer to returning, a step
    is always possible until it has, and it returns only because the file
    could not be opened or with every event in the file. *)
Theorem csv_shutdown_drains capacity path contents log l :
  path <> [] -> few log -> log_reach capacity path contents log l -> stop_ l = true ->
  (forall es l', log_step l es l' -> es = [] /\ stop_ l' = true /\ (steps_left l' < steps_left l)%nat) /\
  (steps_left l <> 0%nat -> exists l', log_step l [] l') /\
  (steps_left l = 0%nat -> writer l = Some WriterFailed \/
     writer l = Some WriterExited /\
     file l = file_start contents ++ flat_map to_csv_row (numbered log)).
Proof.
  intros Hp Hf H Hstop. pose proof (csv_no_loss_exited capacity path contents log l Hp Hf H) as Hex.
  destruct (log_reach_inv _ _ _ _ _ Hp Hf H) as [H1 H2 _ H4 H5 H6 H7].
  split_and!.
  - intros es l' Hstep. destruct Hstep; try congruence; unfold steps_left; cbn;
      repeat match goal with Hw : writer _ = _ |- _ => rewrite Hw; clear Hw end;
      (split_and!; [done|done|]); repeat case_match; try done; lia.
  - unfold steps_left. destruct (writer l) as [[| |b| |]|] eqn:Hw; try done; intros _.
    + exists (open_file l). by apply step_open.
    + destruct (write_queue_ l) eqn:Hq.
      * exists (set_writer WriterExited l). by apply step_exit.
      * exists (take_queue l). apply step_wake; congruence.
    + exists (write_batches b l). by apply step_write.
  - unfold steps_left. destruct (writer l) as [[| |b| |]|] eqn:Hw; try done;
      try (by destruct (write_queue_ l)); intros _; [by left|right]. split; [done|]. by apply Hex.
Qed.

(** When the file cannot be opened the writer is gone but [record] goes on
    batching: every event ever recorded stays in memory, whatever the ring's
    capacity, until the process ends. *)
Theorem failed_writer_keeps_everything capacity path contents log l :
  path <> [] -> few log -> log_reach capacity path contents log l ->
  writer l = Some WriterFailed ->
  concat (write_queue_ l) ++ pending_batch_ l = numbered log /\ file l = contents.
Proof.
  intros Hp Hf H Hw. destruct (log_reach_inv _ _ _ _ _ Hp Hf H) as [_ _ (k & _ & Ho & Hk) _ _ _ _].
  unfold opened in Hk. rewrite Hw in Hk. destruct Hk as [-> Hfile].
  unfold owed, in_flight in Ho. by rewrite Hw in Ho.
Qed.

(** ** Witnesses *)

Definition example_event : RequestEvent :=
  mkEvent 0 0 "203.0.113.7" "unknown" "unknown" "=cmd" "GET" "/a,b" "example.com" "http" false [] 10 200.

Definition opened_log : RequestLog := open_file (log_init 5 "r.csv" []).
Definition closing_log : RequestLog := begin_destroy (record example_event opened_log).
Definition closed_log : RequestLog :=
  set_writer WriterExited (write_batches (write_queue_ closing_log) (take_queue closing_log)).

Lemma closing_log_reach : log_reach 5 "r.csv" [] [example_event] closing_log.
Proof.
  apply (reach_step _ _ _ [example_event] (record example_event opened_log) []).
  - apply (reach_step _ _ _ [] opened_log [example_event]).
    + apply (reach_step _ _ _ [] (log_init 5 "r.csv" []) []); [apply reach_init|by apply step_open].
    + by apply step_record.
  - by apply step_destroy.
Qed.

Lemma closed_log_reach : log_reach 5 "r.csv" [] [example_event] closed_log.
Proof.
  apply (reach_step _ _ _ [example_event] (write_batches (write_queue_ closing_log) (take_queue closing_log)) []).
  - apply (reach_step _ _ _ [example_event] (take_queue closing_log) []).
    + apply (reach_step _ _ _ [example_event] closing_log []); [apply closing_log_reach|by apply step_wake].
    + by apply step_write.
  - by apply step_exit.
Qed.

Lemma csv_no_loss_witness :
  file closed_log = kCsvHeader ++ flat_map to_csv_row (numbered [example_event]).
Proof.
  destruct (csv_no_loss 5 "r.csv" [] [example_event] closed_log ltac:(discriminate)
    ltac:(apply few_small; reflexivity) closed_log_reach) as (_ & _ & H).
  exact (H eq_refl).
Defined.

Lemma csv_shutdown_drains_witness : exists l', log_step closing_log [] l'.
Proof.
  destruct (csv_shutdown_drains 5 "r.csv" [] [example_event] closing_log ltac:(discriminate)
    ltac:(apply few_small; reflexivity) closing_log_reach eq_refl) as (_ & H & _).
  apply H. discriminate.
Defined.

Definition failed_log : RequestLog := record example_event (set_writer WriterFailed (log_init 5 "r.csv" [])).

Lemma failed_writer_keeps_everything_witness :
  concat (write_queue_ failed_log) ++ pending_batch_ failed_log = numbered [example_event].
Proof.
  apply (failed_writer_keeps_everything 5 "r.csv" [] [example_event] failed_log ltac:(discriminate)
    ltac:(apply few_small; reflexivity)); [|reflexivity].
  apply (reach_step _ _ _ [] (set_writer WriterFailed (log_init 5 "r.csv" [])) [example_event]).
  - apply (reach_step _ _ _ [] (log_init 5 "r.csv" []) []); [apply reach_init|by apply step_open_fails].
  - by apply step_record.
Defined.
