(* ===== verification/Interleave.v ===== *)
(** * Interleave: threads that share a state

    The executor runs every connection as a coroutine on several threads; what
    they share is behind locks. A thread is a program ([prog]): a sequence of
    atomic actions on the shared state, each of which may throw, with a
    continuation. A pool of them runs under any schedule. Four ways to reason
    about all schedules: an invariant of the state that every action keeps
    ([safe]), what a thread may still rely on from its earlier actions
    ([recalls]), what each thread contributes to a log ([emits]), and how many
    moves of its own a thread needs ([within]). *)
From S2P Require Import Prelude.

(** ** Programs *)

Inductive prog (S A : Type) : Type :=
  | Ret (a : A)
  | Raise (e : exn)
  | Act {X : Type} (op : M S X) (k : X -> prog S A).
Arguments Ret {S A}.
Arguments Raise {S A}.
Arguments Act {S A X}.

Fixpoint prog_bind {S A B} (p : prog S A) (k : A -> prog S B) : prog S B :=
  match p with
  | Ret a => k a
  | Raise e => Raise e
  | Act op k' => Act op (fun x => prog_bind (k' x) k)
  end.

#[export] Instance prog_ret S : MRet (prog S) := fun A a => Ret a.
#[export] Instance prog_mbind S : MBind (prog S) := fun A B k p => prog_bind p k.

(** One atomic action. *)
Definition act {S A} (op : M S A) : prog S A := Act op Ret.

(** Alone, a program is its actions in sequence. *)
Fixpoint run {S A} (p : prog S A) : M S A :=
  match p with
  | Ret a => mret a
  | Raise e => throwM e
  | Act op k => x ← op; run (k x)
  end.

Lemma run_bind {S A B} (p : prog S A) (k : A -> prog S B) s :
  run (p ≫= k) s =
  match run p s with (s', Ok a) => run (k a) s' | (s', Throw e) => (s', Throw e) end.
Proof.
  revert s. induction p as [a|e|X op k' IH]; intros s; [done..|].
  unfold mbind, prog_mbind, M_bind in *. cbn [prog_bind run]. unfold mbind, M_bind.
  destruct (op s) as [s' [x|e]]; [apply IH|done].
Qed.

Lemma run_act {S A} (op : M S A) s : run (act op) s = op s.
Proof. unfold act. cbn. unfold mbind, M_bind. by destruct (op s) as [s' []]. Qed.

(** A step that only looks, and a computation that touches nothing. *)
Definition look {S A} (f : S -> A) : prog S A := act (fun s => (s, Ok (f s))).
Definition lift_prog {S A} (o : outcome A) : prog S A := match o with Ok a => Ret a | Throw e => Raise e end.

Lemma run_look {S A} (f : S -> A) s : run (look f) s = (s, Ok (f s)).
Proof. done. Qed.
Lemma run_lift {S A} (o : outcome A) (s : S) : run (lift_prog o) s = (s, o).
Proof. by destruct o. Qed.

(** The same program on a larger state. *)
Fixpoint hoist {S T A} (f : forall X, M S X -> M T X) (p : prog S A) : prog T A :=
  match p with
  | Ret a => Ret a
  | Raise e => Raise e
  | Act op k => Act (f _ op) (fun x => hoist f (k x))
  end.

(** A [try] block over several actions: what it returned or threw. *)
Fixpoint try_prog {S A} (p : prog S A) : prog S (outcome A) :=
  match p with
  | Ret a => Ret (Ok a)
  | Raise e => Ret (Throw e)
  | Act op k =>
      Act (fun s => let '(s', r) := op s in (s', Ok r))
        (fun r => match r with Ok x => try_prog (k x) | Throw e => Ret (Throw e) end)
  end.

Lemma run_try {S A} (p : prog S A) s : run (try_prog p) s = let '(s', r) := run p s in (s', Ok r).
Proof.
  revert s. induction p as [a|e|X op k IH]; intros s; [done..|]. cbn [try_prog run].
  unfold mbind, M_bind. destruct (op s) as [s' [x|e]]; [apply IH|done].
Qed.

Lemma run_hoist {S T A} (f : forall X, M S X -> M T X) (get : T -> S) (put : S -> T -> T) (p : prog S A) t :
  (forall X (op : M S X) t, f X op t = let '(s, r) := op (get t) in (put s t, r)) ->
  (forall s t, get (put s t) = s) -> (forall s s' t, put s (put s' t) = put s t) -> (forall t, put (get t) t = t) ->
  run (hoist f p) t = let '(s, r) := run p (get t) in (put s t, r).
Proof.
  intros Hf Hg Hp Hi. revert t. induction p as [a|e|X op k IH]; intros t; cbn.
  1, 2: by rewrite Hi.
  unfold mbind, M_bind. rewrite Hf. destruct (op (get t)) as [s [x|e]]; [|done]. rewrite IH, Hg.
  destruct (run (k x) s) as [s' r]. by rewrite Hp.
Qed.

(** ** Pools and schedules *)

Section pool.
Context {S A : Type}.
Implicit Types (p : prog S A) (ts : list (prog S A)).

Inductive move :=
  | Run (i : nat)
  | Spawn (p : prog S A).

Definition act_once p (s : S) : S * prog S A :=
  match p with
  | Act op k =>
      match op s with
      | (s', Ok x) => (s', k x)
      | (s', Throw e) => (s', Raise e)
      end
  | _ => (s, p)
  end.

(** Running a thread that is done, or none, changes nothing. *)
Definition make_move (c : S * list (prog S A)) (m : move) : S * list (prog S A) :=
  match m with
  | Run i =>
      match c.2 !! i with
      | Some p => let '(s', p') := act_once p c.1 in (s', <[i := p']> c.2)
      | None => c
      end
  | Spawn p => (c.1, c.2 ++ [p])
  end.

Definition schedule (c : S * list (prog S A)) (ms : list move) : S * list (prog S A) := foldl make_move c ms.

Lemma schedule_snoc c ms m : schedule c (ms ++ [m]) = make_move (schedule c ms) m.
Proof. unfold schedule. by rewrite foldl_app. Qed.

Lemma schedule_app c ms ms' : schedule c (ms ++ ms') = schedule (schedule c ms) ms'.
Proof. unfold schedule. by rewrite foldl_app. Qed.

(** The programs a schedule starts. *)
Definition spawned (ms : list move) : list (prog S A) :=
  omap (fun m => match m with Spawn p => Some p | Run _ => None end) ms.

(** ** An invariant of the shared state *)

Section safety.
Context (I : S -> Prop).

(** Every action of [p] keeps the invariant, whatever the other threads did
    before it as long as they kept it, and what [p] returns satisfies [Q],
    which may differ from thread to thread. *)
Fixpoint safe (Q : A -> Prop) p : Prop :=
  match p with
  | Ret a => Q a
  | Raise _ => True
  | Act op k => forall s, I s -> I (op s).1 /\ forall x, (op s).2 = Ok x -> safe Q (k x)
  end.

(** The same for actions that keep the invariant but in some states. *)
Fixpoint safe_unless (bad : S -> Prop) (Q : A -> Prop) p : Prop :=
  match p with
  | Ret a => Q a
  | Raise _ => True
  | Act op k => forall s, I s -> bad s \/ (I (op s).1 /\ forall x, (op s).2 = Ok x -> safe_unless bad Q (k x))
  end.

Lemma safe_safe_unless bad Q p : safe Q p -> safe_unless bad Q p.
Proof. induction p as [a|e|X op k IH]; [done..|]. intros Hp s Hs. right. destruct (Hp s Hs) as [HI Hk]. split; [done|]. intros x Hx. by apply IH, Hk. Qed.

Lemma safe_unless_never Q p : safe_unless (fun _ => False) Q p -> safe Q p.
Proof. induction p as [a|e|X op k IH]; [done..|]. intros Hp s Hs. destruct (Hp s Hs) as [[]|[HI Hk]]. split; [done|]. intros x Hx. by apply IH, Hk. Qed.

Lemma safe_act_once bad (Q : A -> Prop) p s :
  safe_unless bad Q p -> I s -> bad s \/ (I (act_once p s).1 /\ safe_unless bad Q (act_once p s).2).
Proof.
  intros Hp Hs. destruct p as [a|e|X op k]; [by right..|]. destruct (Hp s Hs) as [Hb|[HI Hk]]; [by left|right].
  unfold act_once. destruct (op s) as [s' [x|e]]; [split; [done|by apply Hk]|done].
Qed.
End safety.

(** The states that a schedule goes through, before each of its moves. *)
Fixpoint past (c : S * list (prog S A)) (ms : list move) : list S :=
  match ms with
  | [] => []
  | m :: ms' => c.1 :: past (make_move c m) ms'
  end.

Lemma past_length c ms : length (past c ms) = length ms.
Proof. revert c. induction ms as [|m ms IH]; intros c; [done|]. cbn. by rewrite IH. Qed.

(** They are what the prefixes of the schedule lead to. *)
Lemma past_lookup c ms i : (i < length ms)%nat -> past c ms !! i = Some (schedule c (take i ms)).1.
Proof.
  revert c i. induction ms as [|m ms IH]; intros c [|i] Hi; cbn in *; [lia..|done|]. apply IH. lia.
Qed.

(** A schedule keeps the invariant unless it goes through a bad state. *)
Theorem schedule_safe_unless (I bad : S -> Prop) c ms qs qs' :
  I c.1 -> Forall2 (safe_unless I bad) qs c.2 -> Forall2 (safe_unless I bad) qs' (spawned ms) ->
  Exists bad (past c ms) \/ (I (schedule c ms).1 /\ Forall2 (safe_unless I bad) (qs ++ qs') (schedule c ms).2).
Proof.
  revert c qs qs'. induction ms as [|m ms IH]; intros c qs qs' HI Hc Hs.
  { inversion_clear Hs. right. by rewrite app_nil_r. }
  cbn [schedule foldl past]. rewrite Exists_cons. fold (schedule (make_move c m) ms).
  destruct m as [i|p]; cbn [spawned omap list_omap] in Hs; cbn [make_move].
  - destruct (c.2 !! i) as [p|] eqn:Hp; [|destruct (IH c qs qs' HI Hc Hs); tauto].
    destruct (Forall2_lookup_r _ _ _ _ _ Hc Hp) as (Q & HQ & Hsafe).
    destruct (safe_act_once I bad Q p c.1 Hsafe HI) as [Hb|[HI' Hp']]; [tauto|].
    destruct (act_once p c.1) as [s' p']. cbn [fst snd] in *.
    destruct (IH (s', <[i := p']> c.2) qs qs') as [H|H]; [done| |done|tauto..].
    cbn [snd]. rewrite <- (list_insert_id qs i Q HQ). by apply Forall2_insert.
  - inversion_clear Hs as [|Q ? qs1 ? Hp Hs1]. replace (qs ++ Q :: qs1) with ((qs ++ [Q]) ++ qs1) by by rewrite <- app_assoc.
    destruct (IH (c.1, c.2 ++ [p]) (qs ++ [Q]) qs1) as [H|H]; [done| |done|tauto..].
    cbn. apply Forall2_app; [done|by constructor].
Qed.

Theorem schedule_safe (I : S -> Prop) c ms qs qs' :
  I c.1 -> Forall2 (safe I) qs c.2 -> Forall2 (safe I) qs' (spawned ms) ->
  I (schedule c ms).1 /\ Forall2 (safe I) (qs ++ qs') (schedule c ms).2.
Proof.
  intros HI Hc Hs.
  destruct (schedule_safe_unless I (fun _ => False) c ms qs qs' HI) as [Hb|[HI' H]].
  - eapply Forall2_impl; [exact Hc|]. intros Q p. apply safe_safe_unless.
  - eapply Forall2_impl; [exact Hs|]. intros Q p. apply safe_safe_unless.
  - apply Exists_exists in Hb as (? & _ & []).
  - split; [done|]. eapply Forall2_impl; [exact H|]. intros Q p. apply safe_unless_never.
Qed.

(** Every action, in whatever state, is one of [P]. *)
Fixpoint steps_by (P : S -> S -> Prop) p : Prop :=
  match p with
  | Act op k => (forall s, P s (op s).1) /\ forall x, steps_by P (k x)
  | _ => True
  end.

Lemma safe_steps (I : S -> Prop) (P : S -> S -> Prop) p :
  (forall s s', P s s' -> I s -> I s') -> steps_by P p -> safe I (fun _ => True) p.
Proof.
  intros HP. induction p as [a|e|X op k IH]; [done..|]. intros [Hop Hk] s Hs. split; [by eapply HP|]. auto.
Qed.

Section memory.
Context (I : list S -> S -> Prop).

(** [p] goes on when the states of [hs] lie behind it: at each of its actions
    the state is one that the invariant allows after some longer past. What a
    thread saw at one action is still in the past at its next. *)
Fixpoint recalls (Q : list S -> A -> Prop) (hs : list S) p : Prop :=
  match p with
  | Ret a => Q hs a
  | Raise _ => True
  | Act op k =>
      forall before s, hs `prefix_of` before -> I before s ->
        I (before ++ [s]) (op s).1 /\ forall x, (op s).2 = Ok x -> recalls Q (before ++ [s]) (k x)
  end.

Lemma recalls_later (Q : list S -> A -> Prop) hs hs' p :
  (forall a, Q hs a -> Q hs' a) -> hs `prefix_of` hs' -> recalls Q hs p -> recalls Q hs' p.
Proof.
  intros HQ Hle. destruct p as [a|e|X op k]; [apply HQ|done|]. intros Hp before s Hb. apply Hp. by etransitivity.
Qed.

Lemma recalls_steps P hs p :
  (forall hs s s', P s s' -> I hs s -> I (hs ++ [s]) s') -> steps_by P p -> recalls (fun _ _ => True) hs p.
Proof.
  intros HP. revert hs. induction p as [a|e|X op k IH]; intros hs; [done..|]. intros [Hop Hk] before s _ Hs. auto.
Qed.

Lemma recalls_act_once hs before p s :
  (forall hs s, I hs s -> I (hs ++ [s]) s) -> recalls (fun _ _ => True) hs p -> hs `prefix_of` before -> I before s ->
  I (before ++ [s]) (act_once p s).1 /\ recalls (fun _ _ => True) (before ++ [s]) (act_once p s).2.
Proof.
  intros Hstay Hp Hle Hs. destruct p as [a|e|X op k]; [by split; [apply Hstay|]..|].
  destruct (Hp before s Hle Hs) as [HI Hk]. unfold act_once.
  destruct (op s) as [s' [x|e]]; cbn [fst snd] in *; (split; [done|]); [by apply Hk|done].
Qed.

Theorem schedule_recalls c ms hs :
  (forall hs s, I hs s -> I (hs ++ [s]) s) ->
  I hs c.1 -> Forall (recalls (fun _ _ => True) hs) c.2 -> Forall (recalls (fun _ _ => True) []) (spawned ms) ->
  I (hs ++ past c ms) (schedule c ms).1.
Proof.
  intros Hstay. revert c hs. induction ms as [|m ms IH]; intros c hs HI Hc Hs; [by rewrite app_nil_r|].
  cbn [schedule foldl past]. change (c.1 :: ?l) with ([c.1] ++ l). rewrite app_assoc.
  assert (forall p, recalls (fun _ _ => True) hs p -> recalls (fun _ _ => True) (hs ++ [c.1]) p) as Hlater.
  { intros p. apply recalls_later; [done|by apply prefix_app_r]. }
  assert (Forall (recalls (fun _ _ => True) (hs ++ [c.1])) c.2) as Hc' by (eapply Forall_impl; [exact Hc|exact Hlater]).
  destruct m as [i|p]; cbn [spawned omap list_omap] in Hs; cbn [make_move].
  - destruct (c.2 !! i) as [p|] eqn:Hp; [|by apply IH; [apply Hstay|..]].
    destruct (recalls_act_once hs hs p c.1 Hstay) as [HI' Hp']; [by eapply Forall_lookup_1|done|done|].
    destruct (act_once p c.1) as [s' p']. cbn [fst snd] in *. apply (IH (s', <[i := p']> c.2)); [done| |done].
    by apply Forall_insert.
  - inversion_clear Hs as [|? ? Hp Hs']. apply (IH (c.1, c.2 ++ [p])); [by apply Hstay| |done]. apply Forall_app.
    split; [done|]. apply Forall_singleton. eapply recalls_later; [| |exact Hp]; [done|apply prefix_nil].
Qed.
End memory.

(** ** What the threads contribute to a log *)

Section contributions.
Context {E : Type} (adds : S -> list E -> S -> Prop).
Context (adds_refl : forall s, adds s [] s).
Context (adds_trans : forall s1 es1 s2 es2 s3, adds s1 es1 s2 -> adds s2 es2 s3 -> adds s1 (es1 ++ es2) s3).

(** [p] has added [acc] so far; when it ends, what it added in all and its
    result, if it returns one, satisfy [P]. *)
Fixpoint emits (P : list E -> option A -> Prop) (acc : list E) p : Prop :=
  match p with
  | Ret a => P acc (Some a)
  | Raise _ => P acc None
  | Act op k => forall s, exists es, adds s es (op s).1 /\
      match (op s).2 with
      | Ok x => emits P (acc ++ es) (k x)
      | Throw _ => P (acc ++ es) None
      end
  end.

Lemma emits_act_once P acc p s :
  emits P acc p -> exists es, adds s es (act_once p s).1 /\ emits P (acc ++ es) (act_once p s).2.
Proof.
  intros Hp. destruct p as [a|e|X op k].
  1, 2: exists []; rewrite app_nil_r; auto.
  destruct (Hp s) as (es & Ha & Hr). exists es. unfold act_once. destruct (op s) as [s' [x|e]]; auto.
Qed.

Lemma concat_insert_app (accs : list (list E)) i acc es :
  accs !! i = Some acc -> concat (<[i := acc ++ es]> accs) ≡ₚ concat accs ++ es.
Proof.
  revert i. induction accs as [|a accs IH]; intros [|i] Hi; [done..| |]; cbn in *.
  - injection Hi as ->. rewrite <- !app_assoc. f_equiv. apply Permutation_app_comm.
  - rewrite IH by done. by rewrite app_assoc.
Qed.

(** What a thread has to account for, with what it has added so far. *)
#[local] Abbreviation account := ((list E -> option A -> Prop) * list E)%type.
Definition accounted (a : account) p : Prop := emits a.1 a.2 p.
Definition opened (P : list E -> option A -> Prop) : account := (P, []).

(** Whatever the schedule, the log is what it was followed by a shuffle of
    what the threads added, each of them its part in order. *)
Theorem schedule_emits c ms accs Ps :
  Forall2 accounted accs c.2 -> Forall2 (fun P p => emits P [] p) Ps (spawned ms) ->
  exists log accs', adds c.1 log (schedule c ms).1 /\ Forall2 accounted accs' (schedule c ms).2 /\
    map fst accs' = map fst accs ++ Ps /\ concat (map snd accs) ++ log ≡ₚ concat (map snd accs').
Proof.
  revert c accs Ps. induction ms as [|m ms IH]; intros c accs Ps Hc Hs.
  { inversion_clear Hs. exists [], accs. by rewrite !app_nil_r. }
  cbn [schedule foldl]. destruct m as [i|p]; cbn [spawned omap list_omap] in Hs; cbn [make_move].
  - destruct (c.2 !! i) as [p|] eqn:Hp; [|by apply IH].
    destruct (Forall2_lookup_r _ _ _ _ _ Hc Hp) as ([P acc] & Hacc & Hp').
    destruct (emits_act_once P acc p c.1 Hp') as (es & Hadd & Hnew).
    destruct (act_once p c.1) as [s' p']. cbn [fst snd] in *.
    destruct (IH (s', <[i := p']> c.2) (<[i := (P, acc ++ es)]> accs) Ps) as (log & accs' & Hlog & Hf & Hm & Hperm);
      [by apply Forall2_insert|done|].
    exists (es ++ log), accs'. split_and!; [by eapply adds_trans|done| |].
    + rewrite Hm. f_equal. change (map fst ?l) with (fst <$> l). rewrite list_fmap_insert. apply list_insert_id.
      by rewrite list_lookup_fmap, Hacc.
    + rewrite <- Hperm. change (map snd ?l) with (snd <$> l). rewrite list_fmap_insert. cbn [snd].
      rewrite concat_insert_app by by rewrite list_lookup_fmap, Hacc. by rewrite app_assoc.
  - inversion_clear Hs as [|P ? Ps' ? Hp Hs'].
    destruct (IH (c.1, c.2 ++ [p]) (accs ++ [opened P]) Ps') as (log & accs' & Hlog & Hf & Hm & Hperm);
      [apply Forall2_app; [done|by constructor]|done|].
    exists log, accs'. split_and!; [done|done| |].
    + rewrite Hm, map_app, <- app_assoc. done.
    + rewrite <- Hperm, map_app, concat_app. cbn. by rewrite !app_nil_r.
Qed.
End contributions.

(** ** Progress *)

Definition finished p : bool := match p with Act _ _ => false | _ => true end.

(** At most [n] actions, whatever they return. *)
Fixpoint within (n : nat) p {struct p} : Prop :=
  match p with
  | Act op k => match n with O => False | Datatypes.S n' => forall x, within n' (k x) end
  | _ => True
  end.

Lemma within_finished p : within 0 p -> finished p = true.
Proof. by destruct p. Qed.

Lemma within_le n m p : (n <= m)%nat -> within n p -> within m p.
Proof.
  revert n m. induction p as [a|e|X op k IH]; intros n m Hn Hp; [done..|].
  destruct n as [|n]; [done|]. destruct m as [|m]; [lia|]. intros x. eapply IH; [|apply Hp]. lia.
Qed.

Lemma within_act_once n p s : within n p -> within (pred n) (act_once p s).2.
Proof.
  destruct p as [a|e|X op k]; [done..|]. destruct n as [|n]; [done|]. intros Hk. unfold act_once.
  destruct (op s) as [s' [x|e]]; [apply Hk|done].
Qed.

(** A finished thread stays as it is. *)
Lemma act_once_finished p s : finished p = true -> act_once p s = (s, p).
Proof. by destruct p. Qed.

Definition runs (i : nat) (m : move) : bool := match m with Run j => bool_decide (j = i) | Spawn _ => false end.
Definition moves_of (i : nat) (ms : list move) : nat := length (filter (fun m => runs i m = true) ms).

Lemma moves_of_cons i m ms : moves_of i (m :: ms) = ((if runs i m then 1 else 0) + moves_of i ms)%nat.
Proof. unfold moves_of. rewrite filter_cons. destruct (runs i m); [by rewrite decide_True|by rewrite decide_False]. Qed.

(** No thread waits for another: after its own moves it has ended, whatever
    the others did in between. *)
Theorem schedule_within c ms i p n :
  c.2 !! i = Some p -> within n p -> exists p', (schedule c ms).2 !! i = Some p' /\ within (n - moves_of i ms) p'.
Proof.
  revert c p n. induction ms as [|m ms IH]; intros c p n Hi Hw.
  { exists p. split; [done|]. unfold moves_of. cbn. by rewrite Nat.sub_0_r. }
  rewrite moves_of_cons. cbn [schedule foldl]. destruct m as [j|q]; cbn [make_move runs].
  - destruct (bool_decide_reflect (j = i)) as [->|Hne].
    + rewrite Hi. pose proof (within_act_once n p c.1 Hw) as Hw'. destruct (act_once p c.1) as [s' p']. cbn [snd] in *.
      destruct (IH (s', <[i := p']> c.2) p' (pred n)) as (p'' & H1 & H2);
        [apply list_lookup_insert_eq; by eapply lookup_lt_Some|done|].
      exists p''. split; [done|]. eapply within_le; [|exact H2]. lia.
    + destruct (c.2 !! j) as [q|]; [|by apply (IH c p)]. destruct (act_once q c.1) as [s' q'].
      apply (IH _ p); [|done]. cbn [snd]. by rewrite list_lookup_insert_ne.
  - apply (IH _ p); [|done]. cbn. by apply lookup_app_l_Some.
Qed.
End pool.
Arguments move : clear implicits.

(** ** Composition *)

Section composition.
Context {S : Type}.

Lemma safe_bind {A B} (I : S -> Prop) (Q : B -> Prop) (p : prog S A) (k : A -> prog S B) :
  safe I (fun a => safe I Q (k a)) p -> safe I Q (p ≫= k).
Proof.
  induction p as [a|e|X op k' IH]; [done..|]. intros H s Hs. destruct (H s Hs) as [HI Hk]. split; [done|].
  intros x Hx. apply IH. by apply Hk.
Qed.

Lemma safe_act {A} (I : S -> Prop) (Q : A -> Prop) (op : M S A) :
  (forall s, I s -> I (op s).1 /\ forall a, (op s).2 = Ok a -> Q a) -> safe I Q (act op).
Proof. intros H s Hs. exact (H s Hs). Qed.

Lemma safe_mono {A} (I : S -> Prop) (Q Q' : A -> Prop) (p : prog S A) :
  (forall a, Q a -> Q' a) -> safe I Q p -> safe I Q' p.
Proof.
  intros HQ. induction p as [a|e|X op k IH]; cbn; [apply HQ|done|]. intros H s Hs. destruct (H s Hs) as [HI Hk].
  split; [done|]. intros x Hx. by apply IH, Hk.
Qed.

Lemma recalls_bind {A B} (I : list S -> S -> Prop) (Q : list S -> B -> Prop) hs (p : prog S A) (k : A -> prog S B) :
  recalls I (fun hs a => recalls I Q hs (k a)) hs p -> recalls I Q hs (p ≫= k).
Proof.
  revert hs. induction p as [a|e|X op k' IH]; intros hs; [done..|]. intros Hp before s Hle Hs.
  destruct (Hp before s Hle Hs) as [HI Hk]. split; [done|]. intros x Hx. apply IH. by apply Hk.
Qed.

Lemma recalls_mono {A} (I : list S -> S -> Prop) (Q Q' : list S -> A -> Prop) hs (p : prog S A) :
  (forall hs a, Q hs a -> Q' hs a) -> recalls I Q hs p -> recalls I Q' hs p.
Proof.
  intros HQ. revert hs. induction p as [a|e|X op k IH]; intros hs; cbn; [apply HQ|done|]. intros Hp before s Hle Hs.
  destruct (Hp before s Hle Hs) as [HI Hk]. split; [done|]. intros x Hx. apply IH. by apply Hk.
Qed.

Lemma recalls_weaken {A} (I I' : list S -> S -> Prop) (Q : list S -> A -> Prop) hs (p : prog S A) :
  (forall before s s', hs `prefix_of` before -> I' before s -> I before s /\ (I (before ++ [s]) s' -> I' (before ++ [s]) s')) ->
  recalls I Q hs p -> recalls I' Q hs p.
Proof.
  revert hs. induction p as [a|e|X op k IH]; intros hs H Hp; [done..|]. intros before s Hle Hs.
  destruct (H before s (op s).1 Hle Hs) as [HI HI']. destruct (Hp before s Hle HI) as [H1 H2]. split; [by apply HI'|].
  intros x Hx. apply IH; [|by apply H2]. intros b s1 s2 Hb. apply H. etransitivity; [exact Hle|].
  etransitivity; [|exact Hb]. by apply prefix_app_r.
Qed.

Lemma recalls_act {A} (I : list S -> S -> Prop) (Q : list S -> A -> Prop) hs (op : M S A) :
  (forall before s, hs `prefix_of` before -> I before s ->
     I (before ++ [s]) (op s).1 /\ forall a, (op s).2 = Ok a -> Q (before ++ [s]) a) ->
  recalls I Q hs (act op).
Proof. intros H before s Hle Hs. exact (H before s Hle Hs). Qed.

(** A [try] block ends whatever happens. *)
Lemma recalls_try {A} (I : list S -> S -> Prop) (Q : list S -> outcome A -> Prop) hs (p : prog S A) :
  (forall hs e, Q hs (Throw e)) -> recalls I (fun hs a => Q hs (Ok a)) hs p -> recalls I Q hs (try_prog p).
Proof.
  intros HQ. revert hs. induction p as [a|e|X op k IH]; intros hs; [done|intros _; apply HQ|].
  intros Hp before s Hle Hs. destruct (Hp before s Hle Hs) as [HI Hk]. destruct (op s) as [s' r]. cbn in *. split; [done|].
  intros r' [= <-]. destruct r as [x|e]; [apply IH; by apply Hk|apply HQ].
Qed.

(** From a part of the state to all of it. *)
Lemma recalls_hoist {T A} (J : list S -> S -> Prop) (I : list T -> T -> Prop) (get : T -> S)
    (Q : list S -> A -> Prop) (f : forall X, M S X -> M T X) (p : prog S A) hs :
  (forall hs t, I hs t -> J (map get hs) (get t)) ->
  (forall X (op : M S X) hs t, I hs t -> J (map get (hs ++ [t])) (op (get t)).1 -> I (hs ++ [t]) (f X op t).1) ->
  (forall X (op : M S X) t, (f X op t).2 = (op (get t)).2) ->
  recalls J Q (map get hs) p -> recalls I (fun hs a => Q (map get hs) a) hs (hoist f p).
Proof.
  intros Hd Hu Hr. revert hs. induction p as [a|e|X op k IH]; intros hs; [done..|]. intros Hp before t Hle Ht.
  destruct (Hp (map get before) (get t)) as [HJ Hk]; [|by apply Hd|].
  { destruct Hle as [l ->]. rewrite map_app. by apply prefix_app_r. }
  change [get t] with (map get [t]) in *. rewrite <- map_app in *. split; [by apply Hu|]. intros x Hx. apply IH, Hk.
  by rewrite <- Hr.
Qed.

Lemma steps_by_act {A} (P : S -> S -> Prop) (op : M S A) : (forall s, P s (op s).1) -> steps_by P (act op).
Proof. by split. Qed.

Lemma steps_by_mono {A} (P P' : S -> S -> Prop) (p : prog S A) :
  (forall s s', P s s' -> P' s s') -> steps_by P p -> steps_by P' p.
Proof. intros HP. induction p as [a|e|X op k IH]; [done..|]. intros [Hop Hk]. split; auto. Qed.

Lemma steps_by_and {A} (P P' : S -> S -> Prop) (p : prog S A) :
  steps_by P p -> steps_by P' p -> steps_by (fun s s' => P s s' /\ P' s s') p.
Proof. induction p as [a|e|X op k IH]; [done..|]. intros [H1 H2] [H3 H4]. split; auto. Qed.

Lemma steps_by_try {A} (P : S -> S -> Prop) (p : prog S A) : steps_by P p -> steps_by P (try_prog p).
Proof.
  induction p as [a|e|X op k IH]; [done..|]. intros [Hop Hk]. split.
  - intros s. specialize (Hop s). by destruct (op s).
  - intros [x|e]; [by apply IH|done].
Qed.

Lemma steps_by_bind {A B} (P : S -> S -> Prop) (p : prog S A) (k : A -> prog S B) :
  steps_by P p -> (forall a, steps_by P (k a)) -> steps_by P (p ≫= k).
Proof. intros Hp Hk. induction p as [a|e|X op k' IH]; [apply Hk|done|]. destruct Hp as [Hop Hp]. split; [done|]. intros x. by apply IH. Qed.

Lemma steps_by_hoist_any {T A} (P : S -> S -> Prop) (f : forall X, M T X -> M S X) (p : prog T A) :
  (forall X (op : M T X) s, P s (f X op s).1) -> steps_by P (hoist f p).
Proof. intros Hf. induction p as [a|e|X op k IH]; [done..|]. split; [apply Hf|apply IH]. Qed.

Lemma steps_by_hoist {T A} (P : S -> S -> Prop) (P' : T -> T -> Prop) (f : forall X, M T X -> M S X) (p : prog T A) :
  (forall X (op : M T X) s, (forall t, P' t (op t).1) -> P s (f X op s).1) -> steps_by P' p -> steps_by P (hoist f p).
Proof. intros Hf. induction p as [a|e|X op k IH]; [done..|]. intros [Hop Hk]. split; auto. Qed.

(** What adds nothing to the log. *)
Lemma emits_steps {A E} (adds : S -> list E -> S -> Prop) (P : list E -> option A -> Prop) (quiet : S -> S -> Prop)
    (p : prog S A) acc :
  (forall s s', quiet s s' -> adds s [] s') -> (forall r, P acc r) -> steps_by quiet p -> emits adds P acc p.
Proof.
  intros Hq HP. induction p as [a|e|X op k IH]; [intros _; apply HP..|]. intros [Hop Hk] s. exists []. rewrite app_nil_r.
  split; [by apply Hq|]. destruct (op s).2; auto.
Qed.

Lemma emits_bind {A B E} (adds : S -> list E -> S -> Prop) (P : list E -> option B -> Prop) (p : prog S A) (k : A -> prog S B) acc :
  emits adds (fun es r => match r with Some a => emits adds P es (k a) | None => P es None end) acc p ->
  emits adds P acc (p ≫= k).
Proof.
  revert acc. induction p as [a|e|X op k' IH]; intros acc; [done..|]. intros H s.
  destruct (H s) as (es & Ha & Hr). exists es. split; [done|]. destruct (op s).2; [by apply IH|done].
Qed.

Lemma within_bind {A B} n m (p : prog S A) (k : A -> prog S B) :
  within n p -> (forall a, within m (k a)) -> within (n + m) (p ≫= k).
Proof.
  revert n. induction p as [a|e|X op k' IH]; intros n Hp Hk.
  - cbn. eapply within_le; [|apply Hk]. lia.
  - done.
  - destruct n as [|n]; [done|]. intros x. apply IH; [apply Hp|done].
Qed.

Lemma within_try {A} n (p : prog S A) : within n p -> within n (try_prog p).
Proof.
  revert n. induction p as [a|e|X op k IH]; intros n Hp; [done..|]. destruct n as [|n]; [done|].
  intros [x|e]; [apply IH, Hp|done].
Qed.

Lemma within_hoist {T A} n (f : forall X, M S X -> M T X) (p : prog S A) : within n p -> within n (hoist f p).
Proof.
  revert n. induction p as [a|e|X op k IH]; intros n Hp; [done..|]. destruct n as [|n]; [done|]. intros x. by apply IH.
Qed.
End composition.
