(* ===== verification/Session.v ===== *)
(** * Session: one request through the proxy

    Models [listener/http_session.hpp] and the request part of
    [upstream/upstream.cpp]: the gates in their order, scoring and auto-ban,
    logging, forwarding, and the keep-alive loop. The state is the part of
    [AppState] the pipeline touches. Clock readings, the body read, the GeoIP
    lookups and the origin's answer are inputs of a request ([Exchange],
    [Connection]). *)
From S2P Require Import Prelude Text Net Config Checks Robots Sites EventLogs.
From S2P Require RateTracker ScoreTracker IpBlocks RequestLog.

(** ** Messages *)

Record AsnInfo := mkAsn { asn_number : Z; asn_organization : str }.

Record Request := mkRequest { rq_header : request_header; rq_body : str; rq_keep_alive : bool }.

(** Response fields in order; [set] replaces every field of the name. *)
Record Response := mkResponse {
  rs_status : Z; rs_fields : list (list ascii * list ascii); rs_body : str; rs_keep_alive : bool }.

Definition set_field (name v : str) (fields : list (list ascii * list ascii)) :=
  filter (fun f => iequals (fst f) name = false) fields ++ [(name, v)].

Definition kDefaultBlockedHtml : str :=
  lit "<!doctype html><html><head><meta charset=" ++ [dq] ++ lit "utf-8" ++ [dq] ++
  lit "><title>Blocked</title></head><body style=" ++ [dq] ++
  lit "font-family:sans-serif;text-align:center;padding:80px;background:#0f1115;color:#e6e9f0;" ++ [dq] ++
  lit "><h1>403 &mdash; Blocked</h1><p style=" ++ [dq] ++ lit "color:#8b93a7;" ++ [dq] ++
  lit ">Your request was blocked by this site's security rules.</p></body></html>".

Definition kDefaultBannedHtml : str :=
  lit "<!doctype html><html><head><meta charset=" ++ [dq] ++ lit "utf-8" ++ [dq] ++
  lit "><title>Banned</title></head><body style=" ++ [dq] ++
  lit "font-family:sans-serif;text-align:center;padding:80px;background:#0f1115;color:#e6e9f0;" ++ [dq] ++
  lit "><h1>403 &mdash; Temporarily Banned</h1><p style=" ++ [dq] ++ lit "color:#8b93a7;" ++ [dq] ++
  lit ">Your IP has been temporarily blocked due to repeated policy violations. Try again later.</p></body></html>".

Definition kEmergencyOffHtml : str := "<!doctype html><html><head></head><body></body></html>".

Definition kBadGatewayHtml : str :=
  lit "<!doctype html><html><head><meta charset=" ++ [dq] ++ lit "utf-8" ++ [dq] ++
  lit "><title>Bad Gateway</title></head><body style=" ++ [dq] ++
  lit "font-family:sans-serif;text-align:center;padding:80px;background:#0f1115;color:#e6e9f0;" ++ [dq] ++
  lit "><h1>502 &mdash; Bad Gateway</h1><p style=" ++ [dq] ++ lit "color:#8b93a7;" ++ [dq] ++
  lit ">The origin server is unavailable. Try again shortly.</p></body></html>".

Definition user_agent_of (header : request_header) : str := default [] (header_find header "User-Agent").

Definition resolve_page_html (configured fallback : str) : str :=
  match configured with [] => fallback | _ => configured end.

Definition make_robots_txt_response (body : str) (method : str) : Response :=
  mkResponse 200 [(lit "Server", lit "atomwall"); (lit "Content-Type", lit "text/plain; charset=utf-8")]
    (if method == lit "HEAD" then [] else body) false.

Definition make_html_response (html : str) (status : Z) : Response :=
  mkResponse status [(lit "Server", lit "atomwall"); (lit "Content-Type", lit "text/html; charset=utf-8")]
    html false.

(** ** State and inputs *)

Record AppState := mkApp {
  scores : ScoreTracker.ScoreTracker;
  ip_blocks : IpBlocks.IpBlockTracker;
  rate_tracker : RateTracker.RequestRateTracker;
  request_log : RequestLog.RequestLog;
  globe_events : Ring GlobeArcEvent }.

(** The readings of the clocks during one request: the event's timestamp, the
    block gate, the rate check (steady clock), and for an auto-ban its
    creation and [IpBlockTracker::add]'s own reading. *)
Record Clock := mkClock { at_event : Z; at_gate : Z; at_rate : Z; at_award : Z; at_add : Z }.

(** One connection: what is looked up once for all its requests. *)
Record Connection := mkConnection {
  client_ip : address; geo : option GeoLocation; asn_info : option AsnInfo; listener_label : str }.

(** One request: its header, the rest of the read ([None] when it fails) and
    what the origin answers ([None] when it cannot be reached). *)
Record Exchange := mkExchange {
  header : request_header;
  body : option (list ascii * bool);
  origin : Request -> UpstreamConfig -> option Response;
  clock : Clock }.

Inductive Next := KeepAlive | Close | Abort.

(** What the handler did: the request sent to an origin, the response sent to
    the client, and whether the loop goes on. *)
Record Served := mkServed {
  forwarded : option (Request * UpstreamConfig); sent : option Response; next : Next }.

Definition on_scores {A} (m : M ScoreTracker.ScoreTracker A) : M AppState A :=
  fun s => let '(t, r) := m (scores s) in
           (mkApp t (ip_blocks s) (rate_tracker s) (request_log s) (globe_events s), r).
Definition on_rate {A} (m : M RateTracker.RequestRateTracker A) : M AppState A :=
  fun s => let '(t, r) := m (rate_tracker s) in
           (mkApp (scores s) (ip_blocks s) t (request_log s) (globe_events s), r).
Definition on_blocks (f : IpBlocks.IpBlockTracker -> IpBlocks.IpBlockTracker) : M AppState unit :=
  fun s => (mkApp (scores s) (f (ip_blocks s)) (rate_tracker s) (request_log s) (globe_events s), Ok tt).
Definition on_request_log (f : RequestLog.RequestLog -> RequestLog.RequestLog) : M AppState unit :=
  fun s => (mkApp (scores s) (ip_blocks s) (rate_tracker s) (f (request_log s)) (globe_events s), Ok tt).
Definition on_globe (f : Ring GlobeArcEvent -> Ring GlobeArcEvent) : M AppState unit :=
  fun s => (mkApp (scores s) (ip_blocks s) (rate_tracker s) (request_log s) (f (globe_events s)), Ok tt).

(** ** Scoring and recording *)

Definition ban_hours (config : RuntimeConfig) : Z :=
  Z.min (ban_duration_hours (ban config)) kMaxBanDurationHours.

Definition score_block (config : RuntimeConfig) (ip : address) (ip_text : str) (total created : Z)
  : IpBlocks.TemporaryIpBlock :=
  IpBlocks.mkBlock ip_text false ip 0 "score" total created
    (tp_add created (ban_hours config * ns_per_hour)).

Definition award_score (config : RuntimeConfig) (ip : address) (ip_text check_name : str) (c : Clock)
  : M AppState unit :=
  if negb (ban_enabled (ban config)) then mret tt
  else match Config.scores (ban config) !! check_name with
       | None => mret tt
       | Some points =>
           if points <=? 0 then mret tt
           else
             total ← on_scores (ScoreTracker.add_points ip_text points);
             if total >=? threshold (ban config) then
               _ ← on_blocks (IpBlocks.add (at_add c) (score_block config ip ip_text total (at_award c)));
               on_scores (fun t => (ScoreTracker.reset ip_text t, Ok tt))
             else mret tt
       end.

Definition record_events (g : option GeoLocation) (event : RequestEvent) : M AppState unit :=
  _ ← match g with
      | Some l => on_globe (EventLogs.record (mkArc 0 (ev_timestamp event) (geo_lat l) (geo_lon l) (ev_blocked event)))
      | None => mret tt
      end;
  on_request_log (RequestLog.record event).

(** ** The handler *)

Definition finish_event (is_blocked : bool) (why : str) (bytes status : Z) (e : RequestEvent) : RequestEvent :=
  mkEvent (ev_seq e) (ev_timestamp e) (ev_client_ip e) (ev_country e) (ev_isp e) (ev_user_agent e)
    (ev_method e) (ev_path e) (ev_domain e) (ev_listener e) is_blocked why bytes status.

Definition size (s : str) : Z := Z.of_nat (length s).

(** Record the event with the response's size and status, send, [co_return]. *)
Definition answer_and_close (g : option GeoLocation) (fwd : option (Request * UpstreamConfig))
    (is_blocked : bool) (why : str) (extra_bytes : Z) (event : RequestEvent) (response : Response)
  : M AppState Served :=
  _ ← record_events g (finish_event is_blocked why (extra_bytes + size (rs_body response))
        (swrap32 (rs_status response)) event);
  mret (mkServed fwd (Some response) Close).

Definition block_reason_of (r : CheckResult) : str := check_name r ++ lit ": " ++ reason r.

(** The request as it is sent to the origin: [keep_alive(false)] is its flag,
    and [prepare_payload] derives the framing fields from its body. *)
Definition origin_request (r : Request) (ip_text scheme : str) : Request :=
  let h := rq_header r in
  mkRequest
    (mkHeader (version h) (method_string h) (target h)
       (fun name => if iequals name "X-Forwarded-Proto" then Some scheme
                    else if iequals name "X-Forwarded-For" then Some ip_text
                    else header_find h name))
    (rq_body r) false.

Definition first_event (conn : Connection) (ip_text : str) (x : Exchange) : RequestEvent :=
  let or_unknown s := match s with [] => lit "unknown" | _ => s end in
  mkEvent 0 (at_event (clock x)) ip_text
    (or_unknown (default [] (geo_country <$> geo conn)))
    (or_unknown (default [] (asn_organization <$> asn_info conn)))
    (user_agent_of (header x)) (method_string (header x)) (target (header x))
    (default [] (header_find (header x) "Host")) (listener_label conn) false [] 0 0.

Section handler.
Context `{Asio : AsioIp}.

Definition is_whitelisted (conn : Connection) (config : RuntimeConfig) (path : str) : bool :=
  is_ip_whitelisted (whitelist config) (client_ip conn) || is_route_whitelisted (whitelist config) path.

(** A failed check: score it, log it, answer with the blocked page. *)
Definition block_request (conn : Connection) (config : RuntimeConfig) (ip_text : str) (x : Exchange)
    (extra_bytes : Z) (event : RequestEvent) (result : CheckResult) : M AppState Served :=
  _ ← award_score config (client_ip conn) ip_text (check_name result) (clock x);
  answer_and_close (geo conn) None true (block_reason_of result) extra_bytes event
    (make_html_response (resolve_page_html (blocked_html (pages config)) kDefaultBlockedHtml) 403).

(** Once every check has passed: forward, and answer with the origin's
    response or with a bad gateway page. *)
Definition forward_request (conn : Connection) (config : RuntimeConfig) (ip_text : str) (x : Exchange)
    (site : ResolvedSite) (event : RequestEvent) (request_body : str) (keep_alive : bool)
  : M AppState Served :=
  let request := origin_request (mkRequest (header x) request_body keep_alive) ip_text (listener_label conn) in
  let fwd := Some (request, rs_upstream site) in
  match origin x request (rs_upstream site) with
  | None => answer_and_close (geo conn) fwd false [] (size request_body) event
              (make_html_response kBadGatewayHtml 502)
  | Some r =>
      let response :=
        match find_status_page_html (status_pages (pages config)) (rs_status r) with
        | Some html => mkResponse (rs_status r)
                         (set_field "Content-Type" "text/html; charset=utf-8" (rs_fields r)) html keep_alive
        | None => mkResponse (rs_status r) (rs_fields r) (rs_body r) keep_alive
        end in
      _ ← record_events (geo conn)
            (finish_event false [] (size request_body + size (rs_body response))
               (swrap32 (rs_status response)) event);
      mret (mkServed fwd (Some response) (if keep_alive then KeepAlive else Close))
  end.

Definition serves_robots (config : RuntimeConfig) (h : request_header) (path : str) : bool :=
  ((method_string h == lit "GET") || (method_string h == lit "HEAD")) && (path == lit "/robots.txt") &&
  (negb (bool_decide (fake_routes (blacklist config) = [])) ||
   negb (custom_content (robots_txt config) == [])).

(** One iteration of the loop of [run_http_session]. *)
Definition handle_request (conn : Connection) (config : RuntimeConfig) (x : Exchange) : M AppState Served :=
  let ip_text := to_string (client_ip conn) in
  let h := header x in
  let path := before_char "?" (target h) in
  let whitelisted := is_whitelisted conn config path in
  let event := first_event conn ip_text x in
  let block := block_request conn config ip_text x in
  if eo_enabled (emergency_off config) then
    answer_and_close (geo conn) None true "emergency off" 0 event (make_html_response kEmergencyOffHtml 503)
  else
  let site := resolve_site config (default [] (header_find h "Host")) in
  if negb (rs_enabled site) then
    answer_and_close (geo conn) None true "site disabled" 0 event
      (make_html_response (resolve_page_html (blocked_html (pages config)) kDefaultBlockedHtml) 403)
  else
  s ← getM;
  if negb whitelisted && IpBlocks.is_blocked (at_gate (clock x)) (client_ip conn) (ip_blocks s) then
    answer_and_close (geo conn) None true "banned: temporarily blocked (manual or score threshold)" 0 event
      (make_html_response (resolve_page_html (banned_html (pages config)) kDefaultBannedHtml) 403)
  else
  rate ← on_rate (check_request_rate (speed_check config) (client_ip conn) path h (at_rate (clock x)));
  if negb whitelisted && blocked rate then block 0 event rate
  else
  let method := check_method_allowlist (method_check config) (method_string h) in
  if negb whitelisted && blocked method then block 0 event method
  else
  let headers := evaluate_header_checks (blacklist config) (client_ip conn) path h
                   (default [] (asn_organization <$> asn_info conn)) in
  if negb whitelisted && blocked headers then block 0 event headers
  else if serves_robots config h path then
    answer_and_close (geo conn) None false [] 0 event
      (make_robots_txt_response
         (build_robots_txt_body (custom_content (robots_txt config)) (fake_routes (blacklist config)))
         (method_string h))
  else
  match body x with
  | None => mret (mkServed None None Abort)
  | Some (request_body, keep_alive) =>
      let content := evaluate_body_checks (blacklist config) request_body in
      if negb whitelisted && blocked content then block (size request_body) event content
      else forward_request conn config ip_text x site event request_body keep_alive
  end.

(** The keep-alive loop over the requests of a connection; [get] reads the
    configuration anew for each one. *)
Fixpoint run_http_session (conn : Connection) (exchanges : list (RuntimeConfig * Exchange))
  : M AppState (list Served) :=
  match exchanges with
  | [] => mret []
  | (config, x) :: rest =>
      served ← handle_request conn config x;
      match next served with
      | KeepAlive => more ← run_http_session conn rest; mret (served :: more)
      | _ => mret [served]
      end
  end.
End handler.

(** ** The decision, separated from its effects *)

Inductive stage :=
  | Refused (why : str) (response : Response)
  | Blocked (result : CheckResult) (extra_bytes : Z)
  | Robots (response : Response)
  | ReadFailed
  | Forward (site : ResolvedSite) (request_body : str) (keep_alive : bool).

Section decision.
Context `{Asio : AsioIp}.

Definition path_of (x : Exchange) : str := before_char "?" (target (header x)).
Definition site_of (config : RuntimeConfig) (x : Exchange) : ResolvedSite :=
  resolve_site config (default [] (header_find (header x) "Host")).
Definition bypasses (conn : Connection) (config : RuntimeConfig) (x : Exchange) : bool :=
  is_whitelisted conn config (path_of x).
Definition banned (conn : Connection) (x : Exchange) (s : AppState) : bool :=
  IpBlocks.is_blocked (at_gate (clock x)) (client_ip conn) (ip_blocks s).
Definition isp_of (conn : Connection) : str := default [] (asn_organization <$> asn_info conn).
Definition rate_check (conn : Connection) (config : RuntimeConfig) (x : Exchange) :=
  check_request_rate (speed_check config) (client_ip conn) (path_of x) (header x) (at_rate (clock x)).
Definition header_result (conn : Connection) (config : RuntimeConfig) (x : Exchange) : CheckResult :=
  evaluate_header_checks (blacklist config) (client_ip conn) (path_of x) (header x) (isp_of conn).

Definition refused_page (config : RuntimeConfig) : Response :=
  make_html_response (resolve_page_html (blocked_html (pages config)) kDefaultBlockedHtml) 403.
Definition banned_page (config : RuntimeConfig) : Response :=
  make_html_response (resolve_page_html (banned_html (pages config)) kDefaultBannedHtml) 403.

(** Past emergency switch, site switch and ban gate. *)
Definition reaches_checks (conn : Connection) (config : RuntimeConfig) (x : Exchange) (s : AppState) : bool :=
  negb (eo_enabled (emergency_off config)) && rs_enabled (site_of config x) &&
  (bypasses conn config x || negb (banned conn x s)).

Definition decide_request (conn : Connection) (config : RuntimeConfig) (x : Exchange) (s : AppState)
    (rate : CheckResult) : stage :=
  let strict := negb (bypasses conn config x) in
  if eo_enabled (emergency_off config) then Refused "emergency off" (make_html_response kEmergencyOffHtml 503)
  else if negb (rs_enabled (site_of config x)) then Refused "site disabled" (refused_page config)
  else if strict && banned conn x s then
    Refused "banned: temporarily blocked (manual or score threshold)" (banned_page config)
  else if strict && blocked rate then Blocked rate 0
  else let method := check_method_allowlist (method_check config) (method_string (header x)) in
  if strict && blocked method then Blocked method 0
  else if strict && blocked (header_result conn config x) then Blocked (header_result conn config x) 0
  else if serves_robots config (header x) (path_of x) then
    Robots (make_robots_txt_response
      (build_robots_txt_body (custom_content (robots_txt config)) (fake_routes (blacklist config)))
      (method_string (header x)))
  else match body x with
       | None => ReadFailed
       | Some (request_body, keep_alive) =>
           let content := evaluate_body_checks (blacklist config) request_body in
           if strict && blocked content then Blocked content (size request_body)
           else Forward (site_of config x) request_body keep_alive
       end.

Definition perform (conn : Connection) (config : RuntimeConfig) (x : Exchange) (st : stage)
  : M AppState Served :=
  let ip_text := to_string (client_ip conn) in
  let event := first_event conn ip_text x in
  match st with
  | Refused why response => answer_and_close (geo conn) None true why 0 event response
  | Blocked result extra => block_request conn config ip_text x extra event result
  | Robots response => answer_and_close (geo conn) None false [] 0 event response
  | ReadFailed => mret (mkServed None None Abort)
  | Forward site request_body keep_alive =>
      forward_request conn config ip_text x site event request_body keep_alive
  end.

Definition with_rate (t : RateTracker.RequestRateTracker) (s : AppState) : AppState :=
  mkApp (scores s) (ip_blocks s) t (request_log s) (globe_events s).

(** The rate check returns; its verdict and what it leaves in the tracker. *)
Definition rate_verdict (conn : Connection) (config : RuntimeConfig) (x : Exchange) (s : AppState) : CheckResult :=
  match snd (rate_check conn config x (rate_tracker s)) with Ok r => r | Throw _ => allow end.
Definition after_rate (conn : Connection) (config : RuntimeConfig) (x : Exchange) (s : AppState) : AppState :=
  if reaches_checks conn config x s then with_rate (fst (rate_check conn config x (rate_tracker s))) s else s.

Lemma rate_check_returns conn config x t : exists t' r, rate_check conn config x t = (t', Ok r).
Proof.
  unfold rate_check, check_request_rate. repeat case_match; try (by eexists _, _).
  unfold mbind, M_bind, RateTracker.record. case_match; by eexists _, _.
Qed.

(** The handler is the decision on the state it finds, then its effects. *)
Lemma handle_request_decides conn config x s :
  handle_request conn config x s =
  perform conn config x (decide_request conn config x s (rate_verdict conn config x s))
    (after_rate conn config x s).
Proof.
  destruct (rate_check_returns conn config x (rate_tracker s)) as (t' & r & Hr).
  unfold handle_request, decide_request, after_rate, reaches_checks, rate_verdict, perform.
  fold (path_of x). fold (site_of config x). fold (bypasses conn config x). fold (isp_of conn).
  fold (rate_check conn config x). fold (header_result conn config x).
  destruct (eo_enabled (emergency_off config)); [done|].
  destruct (rs_enabled (site_of config x)); [|done]. cbn [negb andb].
  unfold mbind at 1, M_bind at 1, getM. fold (banned conn x s).
  destruct (bypasses conn config x); cbn [negb andb orb].
  - unfold mbind at 1, M_bind at 1, on_rate. rewrite Hr. cbn [fst snd].
    fold (with_rate t' s). repeat case_match; try done.
  - destruct (banned conn x s); cbn [negb]; [done|].
    unfold mbind at 1, M_bind at 1, on_rate. rewrite Hr. cbn [fst snd].
    fold (with_rate t' s). repeat case_match; try done.
Qed.
End decision.

(** ** Effects *)

Definition logged (g : option GeoLocation) (e : RequestEvent) (s : AppState) : AppState :=
  mkApp (scores s) (ip_blocks s) (rate_tracker s) (RequestLog.record e (request_log s))
    (match g with
     | Some l => EventLogs.record (mkArc 0 (ev_timestamp e) (geo_lat l) (geo_lon l) (ev_blocked e)) (globe_events s)
     | None => globe_events s
     end).

Lemma record_events_logged g e s : record_events g e s = (logged g e s, Ok tt).
Proof. by destruct g, s. Qed.

Lemma answer_and_close_logged g fwd b why n e r s :
  answer_and_close g fwd b why n e r s =
  (logged g (finish_event b why (n + size (rs_body r)) (swrap32 (rs_status r)) e) s,
   Ok (mkServed fwd (Some r) Close)).
Proof. unfold answer_and_close, mbind, M_bind. by rewrite record_events_logged. Qed.

(** States in which scoring cannot fail. *)
Definition app_ok (s : AppState) : Prop :=
  ScoreTracker.score_inv (scores s) /\ ScoreTracker.next_seq_ (scores s) < 2 ^ 64 - 1.

(** The points a failed check is worth. *)
Definition points_for (config : RuntimeConfig) (check : str) : Z :=
  if ban_enabled (ban config) then Z.max 0 (default 0 (Config.scores (ban config) !! check)) else 0.

Definition score_after (config : RuntimeConfig) (ip_text check : str) (s : AppState) : Z :=
  clamp INT_MIN INT_MAX (ScoreTracker.current (scores s) ip_text + points_for config check).

Definition crosses (config : RuntimeConfig) (ip_text check : str) (s : AppState) : bool :=
  (0 <? points_for config check) && (threshold (ban config) <=? score_after config ip_text check s).

Record award_post (config : RuntimeConfig) (ip : address) (ip_text check : str) (c : Clock)
    (s s' : AppState) : Prop := {
  ap_rate : rate_tracker s' = rate_tracker s;
  ap_log : request_log s' = request_log s;
  ap_globe : globe_events s' = globe_events s;
  ap_inv : ScoreTracker.score_inv (scores s') /\
           ScoreTracker.next_seq_ (scores s') <= ScoreTracker.next_seq_ (scores s) + 1;
  ap_blocks : ip_blocks s' =
    if crosses config ip_text check s
    then IpBlocks.add (at_add c) (score_block config ip ip_text (score_after config ip_text check s) (at_award c))
           (ip_blocks s)
    else ip_blocks s;
  ap_score : ScoreTracker.current (scores s') ip_text =
    if crosses config ip_text check s then 0
    else if 0 <? points_for config check then score_after config ip_text check s
    else ScoreTracker.current (scores s) ip_text }.

Lemma award_score_effect config ip ip_text check c s :
  app_ok s ->
  exists s', award_score config ip ip_text check c s = (s', Ok tt) /\
             award_post config ip ip_text check c s s'.
Proof.
  intros [Hinv Hq]. unfold award_score.
  assert (points_for config check <= 0 ->
    exists s', (s, Ok tt) = (s', Ok tt) /\ award_post config ip ip_text check c s s') as Hnone.
  { intros Hp. exists s. split; [done|].
    assert ((0 <? points_for config check) = false) as E by (apply Z.ltb_ge; lia).
    split; unfold crosses; rewrite ?E; try done. split; [done|lia]. }
  destruct (ban_enabled (ban config)) eqn:Eb; cbn [negb];
    [|apply Hnone; unfold points_for; by rewrite Eb].
  destruct (Config.scores (ban config) !! check) as [points|] eqn:Es;
    [|apply Hnone; unfold points_for; by rewrite Eb, Es].
  destruct (Z.leb_spec points 0);
    [apply Hnone; unfold points_for; rewrite Eb, Es; simpl; lia|]. clear Hnone.
  assert (points_for config check = points) as Ep by (unfold points_for; rewrite Eb, Es; simpl; lia).
  destruct (ScoreTracker.add_points_effect ip_text points (scores s) Hinv Hq)
    as (t & Ht & Hinv' & Hn & Hcur & _).
  unfold mbind, M_bind, on_scores at 1. rewrite Ht.
  fold (score_after config ip_text check s) in *.
  assert (clamp INT_MIN INT_MAX (ScoreTracker.current (scores s) ip_text + points) =
          score_after config ip_text check s) as Etot by (unfold score_after; by rewrite Ep).
  rewrite Etot in *.
  assert ((0 <? points_for config check) = true) as E by (apply Z.ltb_lt; lia).
  destruct (score_after config ip_text check s >=? threshold (ban config)) eqn:Ec; rewrite Z.geb_leb in Ec;
    eexists; (split; [reflexivity|]); split; unfold crosses; rewrite ?E, ?Ec; cbn; try done.
  - by destruct (ScoreTracker.reset_effect ip_text t Hinv') as (? & _).
  - by destruct (ScoreTracker.reset_effect ip_text t Hinv') as (_ & ? & _).
Qed.

(** ** What the handler guarantees *)

Section theorems.
Context `{Asio : AsioIp}.

Lemma after_rate_fields conn config x s :
  scores (after_rate conn config x s) = scores s /\
  ip_blocks (after_rate conn config x s) = ip_blocks s /\
  request_log (after_rate conn config x s) = request_log s /\
  globe_events (after_rate conn config x s) = globe_events s.
Proof. unfold after_rate. by destruct (reaches_checks conn config x s). Qed.

Lemma perform_forwarded conn config x st s s' served p :
  perform conn config x st s = (s', Ok served) -> forwarded served = Some p ->
  exists site b ka, st = Forward site b ka /\
    p = (origin_request (mkRequest (header x) b ka) (to_string (client_ip conn)) (listener_label conn),
         rs_upstream site).
Proof.
  destruct st as [why r|r extra|r| |site b ka]; unfold perform.
  - rewrite answer_and_close_logged. by intros [= _ <-].
  - unfold block_request, mbind, M_bind. destruct (award_score _ _ _ _ _ _) as [s1 [[]|e]]; [|done].
    rewrite answer_and_close_logged. by intros [= _ <-].
  - rewrite answer_and_close_logged. by intros [= _ <-].
  - intros [= _ <-]. done.
  - intros H Hf. exists site, b, ka. split; [done|]. revert H. unfold forward_request.
    case_match; [|rewrite answer_and_close_logged; intros [= _ <-]; by injection Hf as <-].
    unfold mbind, M_bind. rewrite record_events_logged. intros [= _ <-]. by injection Hf as <-.
Qed.

Lemma decide_forward conn config x s rate site b ka :
  decide_request conn config x s rate = Forward site b ka ->
  eo_enabled (emergency_off config) = false /\ rs_enabled (site_of config x) = true /\
  site = site_of config x /\ body x = Some (b, ka) /\
  (bypasses conn config x = true \/
   banned conn x s = false /\ blocked rate = false /\
   blocked (check_method_allowlist (method_check config) (method_string (header x))) = false /\
   blocked (header_result conn config x) = false /\
   blocked (evaluate_body_checks (blacklist config) b) = false).
Proof.
  unfold decide_request. destruct (eo_enabled _); [done|]. destruct (rs_enabled _); [|done]. cbn [negb].
  destruct (bypasses conn config x); cbn [negb andb].
  - destruct (serves_robots _ _ _); [done|]. destruct (body x) as [[b' ka']|]; [|done].
    intros [= <- <- <-]. split_and!; auto.
  - destruct (banned conn x s); [done|]. destruct (blocked rate); [done|].
    destruct (blocked (check_method_allowlist _ _)); [done|].
    destruct (blocked (header_result _ _ _)) eqn:Eh; [by rewrite ?Eh|].
    destruct (serves_robots _ _ _); [done|]. destruct (body x) as [[b' ka']|]; [|done].
    destruct (blocked (evaluate_body_checks _ _)) eqn:Eb; [done|].
    intros [= <- <- <-]. split_and!; auto. right. split_and!; auto.
Qed.

(** C1: a request reaches an origin only when the emergency switch is off, its
    site is enabled, and either the whitelist lets it bypass the checks or the
    client is not banned, the rate and method checks allow it, no blacklist
    entry matches its header, and its body is within the size limit and
    contains no blacklisted pattern. It goes to the origin of the site its
    Host names, with its body unchanged and with X-Forwarded-For and
    X-Forwarded-Proto set by the proxy whatever the client sent. *)
Theorem forwarded_only_if_allowed conn config x s s' served request up :
  handle_request conn config x s = (s', Ok served) ->
  forwarded served = Some (request, up) ->
  eo_enabled (emergency_off config) = false /\
  rs_enabled (site_of config x) = true /\ up = rs_upstream (site_of config x) /\
  (exists keep_alive, body x = Some (rq_body request, keep_alive)) /\
  header_find (rq_header request) "X-Forwarded-For" = Some (to_string (client_ip conn)) /\
  header_find (rq_header request) "X-Forwarded-Proto" = Some (listener_label conn) /\
  (bypasses conn config x = true \/
   banned conn x s = false /\
   blocked (rate_verdict conn config x s) = false /\
   blocked (check_method_allowlist (method_check config) (method_string (header x))) = false /\
   (forall name why, ~ header_hit (blacklist config) (client_ip conn) (path_of x) (header x) (isp_of conn) name why) /\
   blocked (evaluate_body_checks (blacklist config) (rq_body request)) = false).
Proof.
  rewrite handle_request_decides. intros H Hf.
  destruct (perform_forwarded _ _ _ _ _ _ _ _ H Hf) as (site & b & ka & Hd & Hp).
  apply decide_forward in Hd as (He & Hs & -> & Hb & Hall). injection Hp as -> ->.
  split_and!; try done; [by exists ka|].
  destruct Hall as [?|(? & ? & ? & Hh & ?)]; [by left|right]. split_and!; try done.
  destruct (evaluate_header_checks_post (blacklist config) (client_ip conn) (path_of x) (header x) (isp_of conn))
    as [(_ & _ & Hno)|(Hb' & _)]; [exact Hno|]. unfold header_result in Hh. congruence.
Qed.

(** C14: a whitelisted address or path is never refused by a check: with the
    emergency switch off and the site enabled the request is answered or
    forwarded whatever the bans, limits and blacklists say, it scores no
    points and causes no ban; unless it asks for the generated robots.txt it
    goes to the origin as soon as its body is read. *)
Theorem whitelisted_never_blocked conn config x s :
  bypasses conn config x = true ->
  eo_enabled (emergency_off config) = false -> rs_enabled (site_of config x) = true ->
  exists s' served,
    handle_request conn config x s = (s', Ok served) /\
    scores s' = scores s /\ ip_blocks s' = ip_blocks s /\
    (serves_robots config (header x) (path_of x) = true ->
       forwarded served = None /\ rs_status <$> sent served = Some 200) /\
    (serves_robots config (header x) (path_of x) = false -> is_Some (body x) ->
       is_Some (forwarded served) /\ is_Some (sent served)).
Proof.
  intros Hw He Hs. rewrite handle_request_decides. unfold decide_request. rewrite Hw, He, Hs. cbn [negb andb].
  destruct (after_rate_fields conn config x s) as (E1 & E2 & _).
  destruct (serves_robots _ _ _); [|destruct (body x) as [[b ka]|]].
  - unfold perform. rewrite answer_and_close_logged. by eexists _, _.
  - unfold perform, forward_request. case_match.
    + unfold mbind, M_bind. rewrite record_events_logged. eexists _, _. split_and!; try done; intros; split; by eexists.
    + rewrite answer_and_close_logged. eexists _, _. split_and!; try done; intros; split; by eexists.
  - eexists _, _. split_and!; try done; by intros _ [].
Qed.

(** What a stage leaves behind. *)
Record perform_post (conn : Connection) (x : Exchange) (s s' : AppState) (served : Served) : Prop := {
  pp_ok : ScoreTracker.score_inv (scores s') /\
          ScoreTracker.next_seq_ (scores s') <= ScoreTracker.next_seq_ (scores s) + 1;
  pp_rate : rate_tracker s' = rate_tracker s;
  pp_log : match sent served with
    | Some response => exists e,
        request_log s' = RequestLog.record e (request_log s) /\
        ev_client_ip e = to_string (client_ip conn) /\ ev_path e = target (header x) /\
        ev_status_code e = swrap32 (rs_status response) /\
        (ev_blocked e = true -> forwarded served = None /\ next served = Close) /\
        globe_events s' =
          match geo conn with
          | Some l => EventLogs.record (mkArc 0 (ev_timestamp e) (geo_lat l) (geo_lon l) (ev_blocked e)) (globe_events s)
          | None => globe_events s
          end
    | None => s' = s /\ next served = Abort
    end }.

Lemma logged_post conn x s s1 fwd b why n r nxt :
  ScoreTracker.score_inv (scores s1) /\
    ScoreTracker.next_seq_ (scores s1) <= ScoreTracker.next_seq_ (scores s) + 1 ->
  rate_tracker s1 = rate_tracker s -> request_log s1 = request_log s -> globe_events s1 = globe_events s ->
  (b = true -> fwd = None /\ nxt = Close) ->
  perform_post conn x s
    (logged (geo conn) (finish_event b why n (swrap32 (rs_status r)) (first_event conn (to_string (client_ip conn)) x)) s1)
    (mkServed fwd (Some r) nxt).
Proof.
  intros Hok Hr Hl Hg Hb. split; [done|done|]. cbn [sent]. eexists.
  split_and!; [unfold logged; cbn; by rewrite Hl|done|done|done|done|].
  unfold logged. cbn [globe_events]. rewrite Hg. done.
Qed.

Lemma perform_returns conn config x st s :
  app_ok s -> exists s' served, perform conn config x st s = (s', Ok served) /\ perform_post conn x s s' served.
Proof.
  intros Hok. pose proof Hok as [Hinv _].
  assert (ScoreTracker.score_inv (scores s) /\
          ScoreTracker.next_seq_ (scores s) <= ScoreTracker.next_seq_ (scores s) + 1) as Hid by (split; [done|lia]).
  destruct st as [why r|r extra|r| |site b ka]; unfold perform.
  - rewrite answer_and_close_logged. eexists _, _. split; [done|]. by apply logged_post.
  - unfold block_request, mbind, M_bind.
    destruct (award_score_effect config (client_ip conn) (to_string (client_ip conn)) (check_name r) (clock x) s Hok)
      as (s1 & -> & [A1 A2 A3 A4 _ _]).
    rewrite answer_and_close_logged. eexists _, _. split; [done|]. by apply logged_post.
  - rewrite answer_and_close_logged. eexists _, _. split; [done|]. by apply logged_post.
  - eexists _, _. split; [done|]. by split.
  - unfold forward_request. case_match.
    + unfold mbind, M_bind. rewrite record_events_logged. eexists _, _. split; [done|]. by apply logged_post.
    + rewrite answer_and_close_logged. eexists _, _. split; [done|]. by apply logged_post.
Qed.

Lemma after_rate_ok conn config x s : app_ok s -> app_ok (after_rate conn config x s).
Proof. unfold after_rate. by case_match. Qed.

(** Every request is answered and accounted for: in any reachable state
    the handler returns, and unless reading the body failed it sends exactly
    one response and records exactly one event, with the status sent, for
    this client and target (and one arc on the globe exactly when the address
    was located); an event marked blocked was never forwarded and closes the
    connection; a failed read records nothing. *)
Theorem every_answer_logged conn config x s :
  app_ok s ->
  exists s' served, handle_request conn config x s = (s', Ok served) /\
  match sent served with
  | Some response => exists e,
      request_log s' = RequestLog.record e (request_log s) /\
      ev_client_ip e = to_string (client_ip conn) /\ ev_path e = target (header x) /\
      ev_status_code e = swrap32 (rs_status response) /\
      (ev_blocked e = true -> forwarded served = None /\ next served = Close) /\
      globe_events s' =
        match geo conn with
        | Some l => EventLogs.record (mkArc 0 (ev_timestamp e) (geo_lat l) (geo_lon l) (ev_blocked e)) (globe_events s)
        | None => globe_events s
        end
  | None =>
      next served = Abort /\ request_log s' = request_log s /\ globe_events s' = globe_events s /\
      ip_blocks s' = ip_blocks s
  end.
Proof.
  intros Hok. rewrite handle_request_decides.
  destruct (perform_returns conn config x (decide_request conn config x s (rate_verdict conn config x s))
    _ (after_rate_ok conn config x s Hok)) as (s' & served & -> & [_ _ Hlog]).
  destruct (after_rate_fields conn config x s) as (_ & E3 & E1 & E2).
  exists s', served. split; [done|]. destruct (sent served).
  - rewrite E1, E2 in Hlog. exact Hlog.
  - destruct Hlog as [Es Hn]. rewrite Es. split_and!; done.
Qed.

(** ** Bans *)

Definition ban_expiry (config : RuntimeConfig) (created : Z) : Z := tp_add created (ban_hours config * ns_per_hour).

(** No ban duration, however large, overflows into the past: a positive
    duration set when the clock reads [created] expires strictly later, by
    the configured hours or ten years, whichever is less. *)
Theorem ban_expiry_no_overflow config created :
  clock_ok created -> 0 < ban_duration_hours (ban config) <= INT_MAX ->
  ban_expiry config created =
    created + Z.min (ban_duration_hours (ban config)) kMaxBanDurationHours * ns_per_hour /\
  created < ban_expiry config created.
Proof.
  intros Hc Hd. unfold ban_expiry, ban_hours.
  assert (0 < Z.min (ban_duration_hours (ban config)) kMaxBanDurationHours <= 87600) as Hm
    by (unfold kMaxBanDurationHours; lia).
  rewrite tp_add_small; [split; [done|]|done|]; unfold ns_per_hour, ns_per_s; lia.
Qed.

(** Scoring bans exactly at the threshold: a failed check of positive
    worth adds its points, saturating; below the threshold nothing is
    blocked; at or above it the address is blocked until the ban expires and
    its score starts again from zero; checks without points, or with the ban
    system off, change nothing. *)
Theorem award_score_bans config ip ip_text check c s :
  app_ok s ->
  exists s', award_score config ip ip_text check c s = (s', Ok tt) /\
  if points_for config check =? 0 then s' = s
  else if threshold (ban config) <=? score_after config ip_text check s then
    ScoreTracker.current (scores s') ip_text = 0 /\
    forall t, t < ban_expiry config (at_award c) -> IpBlocks.is_blocked t ip (ip_blocks s') = true
  else
    ScoreTracker.current (scores s') ip_text = score_after config ip_text check s /\
    ip_blocks s' = ip_blocks s.
Proof.
  intros Hok. destruct (award_score_effect config ip ip_text check c s Hok) as (s' & Hs & [_ _ _ _ Hb Hsc]).
  exists s'. split; [done|]. unfold crosses in *.
  assert (0 <= points_for config check) by (unfold points_for; destruct (ban_enabled (ban config)); lia).
  destruct (Z.eqb_spec (points_for config check) 0) as [Ep|Ep].
  - revert Hs. unfold award_score, points_for in *. destruct (ban_enabled (ban config)); [|by intros [= ->]].
    cbn [negb]. destruct (Config.scores (ban config) !! check) as [p|]; [|by intros [= ->]]. simpl in Ep.
    destruct (Z.leb_spec p 0); [by intros [= ->]|lia].
  - assert ((0 <? points_for config check) = true) as E by (apply Z.ltb_lt; lia).
    rewrite E in *. cbn [andb] in *. destruct (threshold (ban config) <=? _); [|done]. split; [done|].
    intros t Ht. rewrite Hb. by apply (IpBlocks.is_blocked_added _ t (score_block _ _ _ _ _)).
Qed.

(** C9: once a request is refused by a check whose points take the client to
    the threshold, the client's next request before the ban expires is
    answered with the ban page, on whatever connection, site and
    configuration it comes, unless it is whitelisted, its site disabled or
    the emergency switch on: it is not forwarded, not counted by the rate
    limit, scores nothing and closes the connection. *)
Theorem crossing_bans_next_request conn config x s result extra conn' config' x' :
  app_ok s ->
  decide_request conn config x s (rate_verdict conn config x s) = Blocked result extra ->
  crosses config (to_string (client_ip conn)) (check_name result) s = true ->
  client_ip conn' = client_ip conn ->
  eo_enabled (emergency_off config') = false -> rs_enabled (site_of config' x') = true ->
  bypasses conn' config' x' = false ->
  at_gate (clock x') < ban_expiry config (at_award (clock x)) ->
  exists s1 served1 s2 served2,
    handle_request conn config x s = (s1, Ok served1) /\ forwarded served1 = None /\
    handle_request conn' config' x' s1 = (s2, Ok served2) /\
    served2 = mkServed None (Some (banned_page config')) Close /\
    scores s2 = scores s1 /\ ip_blocks s2 = ip_blocks s1 /\ rate_tracker s2 = rate_tracker s1.
Proof.
  intros Hok Hd Hc Hip He Hs Hw Ht.
  assert (app_ok (after_rate conn config x s)) as Hok' by by apply after_rate_ok.
  destruct (award_score_effect config (client_ip conn) (to_string (client_ip conn)) (check_name result) (clock x)
    _ Hok') as (s1 & Ha & [_ _ _ _ Hb _]).
  destruct (after_rate_fields conn config x s) as (Es & _).
  assert (crosses config (to_string (client_ip conn)) (check_name result) (after_rate conn config x s) = true) as Hc'.
  { unfold crosses, score_after in *. by rewrite Es. }
  rewrite Hc' in Hb.
  rewrite handle_request_decides, Hd. unfold perform, block_request, mbind, M_bind. rewrite Ha.
  rewrite answer_and_close_logged.
  match goal with |- context [logged ?g ?e s1] => set (s1' := logged g e s1) end.
  exists s1'. eexists _.
  assert (banned conn' x' s1' = true) as Hban.
  { unfold banned, s1', logged. cbn [ip_blocks]. rewrite Hb, Hip.
    by apply (IpBlocks.is_blocked_added _ _ (score_block _ _ _ _ _)). }
  exists (logged (geo conn') (finish_event true "banned: temporarily blocked (manual or score threshold)"
            (0 + size (rs_body (banned_page config'))) (swrap32 403)
            (first_event conn' (to_string (client_ip conn')) x')) s1'),
    (mkServed None (Some (banned_page config')) Close).
  split_and!; try done. rewrite handle_request_decides. unfold decide_request.
  rewrite He, Hs, Hw, Hban. cbn [negb andb]. unfold perform. rewrite answer_and_close_logged.
  unfold after_rate, reaches_checks. by rewrite He, Hs, Hw, Hban.
Qed.

(** What the origin answers is what the client gets: its status always,
    its fields and body unless the admin configured a page for that status,
    which then replaces the body and the content type only; the connection
    stays open exactly when the client asked for it; an unreachable origin is
    a 502 page, not a block. *)
Theorem origin_answer_relayed conn config x s s' served request up :
  handle_request conn config x s = (s', Ok served) ->
  forwarded served = Some (request, up) ->
  exists keep_alive response,
    body x = Some (rq_body request, keep_alive) /\ sent served = Some response /\
    match origin x request up with
    | Some r =>
        rs_status response = rs_status r /\ rs_keep_alive response = keep_alive /\
        next served = (if keep_alive then KeepAlive else Close) /\
        match find_status_page_html (status_pages (pages config)) (rs_status r) with
        | Some page => rs_body response = page /\
            rs_fields response = set_field "Content-Type" "text/html; charset=utf-8" (rs_fields r)
        | None => rs_body response = rs_body r /\ rs_fields response = rs_fields r
        end
    | None => response = make_html_response kBadGatewayHtml 502 /\ next served = Close
    end.
Proof.
  rewrite handle_request_decides. intros H Hf.
  destruct (perform_forwarded _ _ _ _ _ _ _ _ H Hf) as (site & b & ka & Hd & Hp).
  injection Hp as -> ->. rewrite Hd in H. apply decide_forward in Hd as (_ & _ & _ & Hb & _).
  exists ka. revert H. unfold perform, forward_request. destruct (origin _ _ _) as [r|].
  - unfold mbind, M_bind. rewrite record_events_logged. intros [= _ <-]. eexists. split; [done|].
    split; [done|]. by destruct (find_status_page_html _ _).
  - rewrite answer_and_close_logged. intros [= _ <-]. eexists. by split.
Qed.
End theorems.

(** A ban duration of zero or less, which only a hand-edited file can hold,
    bans no one: the block has expired when it is created, yet the score that
    led to it is gone. *)
Lemma nonpositive_ban_expired config created :
  clock_ok created -> - 1000000 <= ban_duration_hours (ban config) <= 0 ->
  ban_expiry config created <= created.
Proof.
  unfold clock_ok. intros Hc Hd. unfold ban_expiry, ban_hours, tp_add.
  rewrite swrap64_small; unfold INT64_MIN, INT64_MAX, kMaxBanDurationHours, ns_per_hour, ns_per_s; lia.
Qed.

(** ** Witnesses *)

Definition app0 : AppState :=
  mkApp (ScoreTracker.score_init 10) (IpBlocks.blocks_init ns_per_min) RateTracker.rate_init
    (RequestLog.log_init 10 [] []) (ring_init 5).

Lemma app0_ok : app_ok app0.
Proof. split; [apply ScoreTracker.score_init_inv|reflexivity]. Qed.

Definition visitor : Connection := mkConnection (addr_v4 [203; 0; 113; 7]) None None "http".
Definition clock_at (t : Z) : Clock := mkClock t t t t t.
Definition hello_origin : Request -> UpstreamConfig -> option Response :=
  fun _ _ => Some (mkResponse 200 [] "hello" false).
Definition visit (agent : str) (t : Z) : Exchange :=
  mkExchange (plain_header (Some agent)) (Some ([], true)) hello_origin (clock_at t).

(** Bad bots are blacklisted, and one hit reaches the ban threshold. *)
Definition strict_config : RuntimeConfig :=
  set_ban (mkBan true 100 24 default_scores)
    (set_blacklist (set_user_agents [mkEntry "badbot" 0 [] []] default_blacklist) default_config).
Definition open_config : RuntimeConfig :=
  set_whitelist (mkWhitelist [] [make_cidr (addr_v4 [203; 0; 113; 0]) 24 "203.0.113.0/24" 0] []) strict_config.

Lemma firefox_forwarded :
  exists s' served request up,
    handle_request (Asio := text_asio) visitor strict_config (visit "firefox" 5) app0 = (s', Ok served) /\
    forwarded served = Some (request, up).
Proof.
  assert (match (handle_request (Asio := text_asio) visitor strict_config (visit "firefox" 5) app0).2 with
          | Ok served => bool_decide (is_Some (forwarded served)) | Throw _ => false end = true) as Hf by (vm_compute; reflexivity).
  destruct (handle_request _ _ _ _) as [s' [served|e]]; [|discriminate Hf].
  apply bool_decide_eq_true in Hf as [[request up] F]. by exists s', served, request, up.
Qed.

Lemma forwarded_only_if_allowed_witness :
  banned visitor (visit "firefox" 5) app0 = false /\
  exists s' served request up,
    handle_request (Asio := text_asio) visitor strict_config (visit "firefox" 5) app0 = (s', Ok served) /\
    forwarded served = Some (request, up) /\
    header_find (rq_header request) "X-Forwarded-For" = Some (lit "203.0.113.7").
Proof.
  split; [vm_compute; reflexivity|].
  destruct firefox_forwarded as (s' & served & request & up & E & F).
  exists s', served, request, up. split; [exact E|]. split; [exact F|].
  exact (proj1 (proj2 (proj2 (proj2 (proj2
    (forwarded_only_if_allowed (Asio := text_asio) _ _ _ _ _ _ _ _ E F)))))).
Defined.

Lemma whitelisted_never_blocked_witness :
  exists s' served, handle_request (Asio := text_asio) visitor open_config (visit "badbot" 5) app0 = (s', Ok served) /\
    is_Some (forwarded served).
Proof.
  destruct (whitelisted_never_blocked (Asio := text_asio) visitor open_config (visit "badbot" 5) app0
    ltac:(vm_compute; reflexivity) ltac:(vm_compute; reflexivity) ltac:(vm_compute; reflexivity))
    as (s' & served & H & _ & _ & _ & Hf).
  exists s', served. split; [exact H|]. apply Hf; [vm_compute; reflexivity|eexists; reflexivity].
Defined.

Lemma every_answer_logged_witness :
  exists s' served, handle_request (Asio := text_asio) visitor strict_config (visit "badbot" 5) app0 = (s', Ok served).
Proof.
  destruct (every_answer_logged (Asio := text_asio) visitor strict_config (visit "badbot" 5) app0 app0_ok)
    as (s' & served & H & _).
  exists s', served. exact H.
Defined.

Lemma ban_expiry_no_overflow_witness :
  let config := set_ban (mkBan true 100 INT_MAX default_scores) default_config in
  clock_ok (2 ^ 61) /\ 2 ^ 61 < ban_expiry config (2 ^ 61).
Proof.
  intros config. split; [unfold clock_ok; lia|].
  apply (ban_expiry_no_overflow config (2 ^ 61)); [unfold clock_ok; lia|simpl; unfold INT_MAX; lia].
Defined.

Lemma award_score_bans_witness :
  exists s', award_score strict_config (client_ip visitor) "203.0.113.7" "user_agent_blacklist" (clock_at 5) app0 =
    (s', Ok tt) /\ forall t, t < ban_expiry strict_config 5 ->
      IpBlocks.is_blocked t (client_ip visitor) (ip_blocks s') = true.
Proof.
  destruct (award_score_bans strict_config (client_ip visitor) "203.0.113.7" "user_agent_blacklist"
    (clock_at 5) app0 app0_ok) as (s' & H & Hpost).
  exists s'. split; [exact H|exact (proj2 Hpost)].
Defined.

Lemma crossing_bans_next_request_witness :
  exists s1 served1 s2 served2,
    handle_request (Asio := text_asio) visitor strict_config (visit "BadBot/1.0" 5) app0 = (s1, Ok served1) /\
    handle_request (Asio := text_asio) visitor strict_config (visit "firefox" 6) s1 = (s2, Ok served2) /\
    served2 = mkServed None (Some (banned_page strict_config)) Close.
Proof.
  destruct (crossing_bans_next_request (Asio := text_asio) visitor strict_config (visit "BadBot/1.0" 5) app0
    (block "user_agent_blacklist" "pattern match: badbot") 0 visitor strict_config (visit "firefox" 6)
    app0_ok ltac:(vm_compute; reflexivity) ltac:(vm_compute; reflexivity) eq_refl
    ltac:(vm_compute; reflexivity) ltac:(vm_compute; reflexivity) ltac:(vm_compute; reflexivity)
    ltac:(vm_compute; reflexivity))
    as (s1 & v1 & s2 & v2 & H1 & _ & H2 & H3 & _).
  exists s1, v1, s2, v2. split; [exact H1|split; [exact H2|exact H3]].
Defined.

Lemma origin_answer_relayed_witness :
  exists s' served request up response,
    handle_request (Asio := text_asio) visitor strict_config (visit "firefox" 5) app0 = (s', Ok served) /\
    forwarded served = Some (request, up) /\ sent served = Some response /\ rs_status response = 200.
Proof.
  destruct firefox_forwarded as (s' & served & request & up & E & F).
  destruct (origin_answer_relayed (Asio := text_asio) _ _ _ _ _ _ _ _ E F) as (ka & response & _ & Hsent & Hpost).
  exists s', served, request, up, response. split; [exact E|]. split; [exact F|].
  split; [exact Hsent|]. exact (proj1 Hpost).
Defined.
