(* ===== verification/Bits.v ===== *)
(** * Bits: byte strings as bit strings

    The codecs of the program ([base64url], [base32]) regroup a stream of
    bits through a shift buffer. This file relates one step of such a buffer
    to the list of its pending bits, most significant first. *)
From S2P Require Import Prelude.

(** The low [n] bits of [z], most significant first. *)
Fixpoint to_bits (n : nat) (z : Z) : list bool :=
  match n with
  | O => []
  | S n' => Z.testbit z (Z.of_nat n') :: to_bits n' z
  end.

Lemma length_to_bits n z : length (to_bits n z) = n.
Proof. induction n; simpl; congruence. Qed.

Lemma to_bits_ext n x y :
  (forall i, 0 <= i < Z.of_nat n -> Z.testbit x i = Z.testbit y i) -> to_bits n x = to_bits n y.
Proof.
  induction n as [|n IH]; intros H; simpl; [done|]. f_equal; [apply H; lia|]. apply IH. intros i Hi. apply H. lia.
Qed.

Lemma to_bits_split n w z :
  to_bits (n + w) z = to_bits n (Z.shiftr z (Z.of_nat w)) ++ to_bits w z.
Proof.
  induction n as [|n IH]; simpl; [done|]. rewrite IH. f_equal.
  rewrite Z.shiftr_spec by lia. f_equal. lia.
Qed.

Lemma to_bits_mod n w z : (n <= w)%nat -> to_bits n (z mod 2 ^ Z.of_nat w) = to_bits n z.
Proof. intros H. apply to_bits_ext. intros i Hi. apply Z.mod_pow2_bits_low. lia. Qed.

Lemma bits_above x w i : 0 <= x < 2 ^ w -> 0 <= w <= i -> Z.testbit x i = false.
Proof. intros Hx Hi. rewrite <- (Z.mod_small x (2 ^ w)) by done. by apply Z.mod_pow2_bits_high. Qed.

(** Pushing [x] into the buffer appends its bits. *)
Lemma to_bits_push n w b x :
  0 <= x < 2 ^ Z.of_nat w ->
  to_bits (n + w) (Z.lor (Z.shiftl b (Z.of_nat w)) x) = to_bits n b ++ to_bits w x.
Proof.
  intros Hx. rewrite to_bits_split. f_equal; apply to_bits_ext; intros i Hi.
  - rewrite Z.shiftr_spec, Z.lor_spec, Z.shiftl_spec by lia.
    replace (i + Z.of_nat w - Z.of_nat w) with i by lia.
    rewrite (bits_above x (Z.of_nat w)) by (done || lia). by rewrite orb_false_r.
  - rewrite Z.lor_spec, Z.shiftl_spec_low by lia. done.
Qed.

Lemma to_bits_inj n x y :
  0 <= x < 2 ^ Z.of_nat n -> 0 <= y < 2 ^ Z.of_nat n -> to_bits n x = to_bits n y -> x = y.
Proof.
  intros Hx Hy H. apply Z.bits_inj'. intros i Hi.
  destruct (decide (i < Z.of_nat n)) as [Hlt|Hge].
  - clear Hx Hy. revert H i Hi Hlt. induction n as [|n IH]; intros H i Hi Hlt; [lia|].
    simpl in H. injection H as H1 H2.
    destruct (decide (i = Z.of_nat n)) as [->|]; [done|]. apply IH; [done|lia|lia].
  - rewrite !(bits_above _ (Z.of_nat n)) by (done || lia). done.
Qed.

Definition in_width (n : nat) (x : Z) : Prop := 0 <= x < 2 ^ Z.of_nat n.

(** A list of [n]-bit values as one bit string. *)
Definition bits_of (n : nat) (l : list Z) : list bool := flat_map (to_bits n) l.

Lemma bits_of_app n l k : bits_of n (l ++ k) = bits_of n l ++ bits_of n k.
Proof. apply flat_map_app. Qed.

Lemma length_bits_of n l : length (bits_of n l) = (n * length l)%nat.
Proof.
  unfold bits_of. induction l as [|x l IH]; simpl; [lia|]. rewrite length_app, length_to_bits. lia.
Qed.

Lemma bits_of_inj n l k :
  (0 < n)%nat -> Forall (in_width n) l -> Forall (in_width n) k -> bits_of n l = bits_of n k -> l = k.
Proof.
  intros Hn Hl. revert k. induction Hl as [|x l Hx Hl IH]; intros k Hk H.
  - destruct k as [|y k]; [done|]. apply (f_equal length) in H.
    rewrite !length_bits_of in H. simpl in H. lia.
  - destruct k as [|y k]; [apply (f_equal length) in H; rewrite !length_bits_of in H; simpl in H; lia|].
    apply Forall_cons in Hk as [Hy Hk]. unfold bits_of in H. simpl in H.
    apply app_inj_1 in H as [H1 H2]; [|by rewrite !length_to_bits].
    f_equal; [by eapply to_bits_inj|]. by apply IH.
Qed.

(** Equal bit strings up to a partial trailing group hold equal groups. *)
Lemma bits_of_prefix_inj n l k r s :
  (0 < n)%nat -> Forall (in_width n) l -> Forall (in_width n) k ->
  (length r < n)%nat -> (length s < n)%nat ->
  bits_of n l ++ r = bits_of n k ++ s -> l = k.
Proof.
  intros Hn Hl Hk Hr Hs H. eapply bits_of_inj; [done..|].
  assert (length l = length k) as E.
  { apply (f_equal length) in H. rewrite !length_app, !length_bits_of in H. nia. }
  apply app_inj_1 in H as [H _]; [done|]. by rewrite !length_bits_of, E.
Qed.

(** ** The shift buffer

    [buffer = (buffer << win) | x; bits += win], then groups of [wout] bits
    are taken from the top; the machine word keeps at least the pending bits. *)

Lemma width_shiftr n b k : in_width n (Z.land (Z.shiftr b k) (Z.ones (Z.of_nat n))).
Proof.
  unfold in_width. rewrite Z.land_ones by lia. apply Z.mod_pos_bound. apply Z.pow_pos_nonneg; lia.
Qed.

Lemma to_bits_land n z : to_bits n (Z.land z (Z.ones (Z.of_nat n))) = to_bits n z.
Proof. rewrite Z.land_ones by lia. by apply to_bits_mod. Qed.

(** Taking the top [wout] of [n + wout] pending bits. *)
Lemma to_bits_take n wout b :
  to_bits (wout + n) b =
  to_bits wout (Z.land (Z.shiftr b (Z.of_nat n)) (Z.ones (Z.of_nat wout))) ++ to_bits n b.
Proof. by rewrite to_bits_split, to_bits_land. Qed.

(** A 32-bit buffer holds its low 32 bits, signed or not. *)
Lemma testbit_wrap32 z i : 0 <= i < 32 -> Z.testbit (wrap32 z) i = Z.testbit z i.
Proof. intros Hi. unfold wrap32. apply Z.mod_pow2_bits_low. lia. Qed.

Lemma testbit_swrap32 z i : 0 <= i < 32 -> Z.testbit (swrap32 z) i = Z.testbit z i.
Proof.
  intros Hi. assert (swrap32 z mod 2 ^ 32 = z mod 2 ^ 32) as E.
  { unfold swrap32, swrap. rewrite Zminus_mod_idemp_l. f_equal. lia. }
  rewrite <- (Z.mod_pow2_bits_low z 32 i), <- E by lia. symmetry. apply Z.mod_pow2_bits_low. lia.
Qed.

Lemma to_bits_push32 (wrap : Z -> Z) n w b x :
  (forall z i, 0 <= i < 32 -> Z.testbit (wrap z) i = Z.testbit z i) ->
  (n + w <= 32)%nat -> in_width w x ->
  to_bits (n + w) (Z.lor (wrap (Z.shiftl b (Z.of_nat w))) x) = to_bits n b ++ to_bits w x.
Proof.
  intros Hw Hn Hx. rewrite <- to_bits_push by exact Hx. apply to_bits_ext. intros i Hi.
  rewrite !Z.lor_spec, Hw by lia. done.
Qed.

(** ** Numbers assembled from bytes *)

Lemma lor_parts a b w : 0 <= b < 2 ^ w -> 0 <= w -> Z.lor (Z.shiftl a w) b = a * 2 ^ w + b.
Proof.
  intros Hb Hw. assert (Z.land (Z.shiftl a w) b = 0) as Hl.
  { apply Z.bits_inj'. intros i Hi. rewrite Z.land_spec, Z.bits_0.
    destruct (Z.lt_ge_cases i w); [by rewrite Z.shiftl_spec_low|].
    rewrite (bits_above b w i) by lia. apply andb_false_r. }
  rewrite <- Z.lxor_lor, <- Z.add_nocarry_lxor by done. by rewrite Z.shiftl_mul_pow2.
Qed.

(** Four bytes, most significant first, in a 32-bit word. *)
Lemma assemble32 b3 b2 b1 b0 :
  in_width 8 b3 -> in_width 8 b2 -> in_width 8 b1 -> in_width 8 b0 ->
  Z.lor (Z.lor (Z.lor (wrap32 (Z.shiftl b3 24)) (wrap32 (Z.shiftl b2 16))) (wrap32 (Z.shiftl b1 8))) b0
  = b3 * 2 ^ 24 + b2 * 2 ^ 16 + b1 * 2 ^ 8 + b0.
Proof.
  unfold in_width. change (2 ^ Z.of_nat 8) with 256. intros H3 H2 H1 H0.
  assert (forall a w, 0 <= a * 2 ^ w < 2 ^ 32 -> 0 <= w -> wrap32 (Z.shiftl a w) = Z.shiftl a w) as Hsh.
  { intros a w Ha Hw. rewrite Z.shiftl_mul_pow2 by done. by apply Z.mod_small. }
  rewrite !Hsh by lia.
  rewrite lor_parts by (rewrite ?Z.shiftl_mul_pow2 by lia; lia).
  replace (b3 * 2 ^ 24 + Z.shiftl b2 16) with (Z.shiftl (b3 * 2 ^ 8 + b2) 16) by (rewrite !Z.shiftl_mul_pow2 by lia; lia).
  rewrite lor_parts by (rewrite ?Z.shiftl_mul_pow2 by lia; lia).
  replace ((b3 * 2 ^ 8 + b2) * 2 ^ 16 + Z.shiftl b1 8)
    with (Z.shiftl ((b3 * 2 ^ 8 + b2) * 2 ^ 8 + b1) 8) by (rewrite !Z.shiftl_mul_pow2 by lia; lia).
  rewrite lor_parts by lia. lia.
Qed.
