(* ===== verification/Codec.v ===== *)
(** * Codec: base64url, base32 and hexadecimal text

    Models [auth/base64url.cpp], the base32 functions of [auth/totp.cpp] and
    the hexadecimal functions of [auth/password_hash.cpp] (the token stores
    have the same printer). Bytes are [Z] in range; [std::uint32_t] and [int]
    buffers keep 32 bits. *)
From S2P Require Import Prelude Text Bits.

Definition byte_val (b : Z) : Prop := in_width 8 b.

(** ** base64url *)

Definition b64_alphabet : str := "ABCDEFGHIJKLMNOPQRSTUVWXYZabcdefghijklmnopqrstuvwxyz0123456789-_".
Definition b64_char (i : Z) : ascii := nth (Z.to_nat i) b64_alphabet nul.

Definition build_decode_table : list Z :=
  foldl (fun table i => <[Z.to_nat (byte_of (nth i b64_alphabet nul)) := Z.of_nat i]> table)
    (replicate 256 (-1)) (seq 0 (length b64_alphabet)).
Definition decode_value (c : ascii) : Z := nth (Z.to_nat (byte_of c)) build_decode_table (-1).

Fixpoint base64url_encode (data : list Z) : str :=
  match data with
  | a :: b :: c :: rest =>
      let chunk := Z.lor (Z.lor (Z.shiftl a 16) (Z.shiftl b 8)) c in
      b64_char (Z.land (Z.shiftr chunk 18) 0x3F) :: b64_char (Z.land (Z.shiftr chunk 12) 0x3F) ::
      b64_char (Z.land (Z.shiftr chunk 6) 0x3F) :: b64_char (Z.land chunk 0x3F) :: base64url_encode rest
  | [a; b] =>
      let chunk := Z.lor (Z.shiftl a 16) (Z.shiftl b 8) in
      [b64_char (Z.land (Z.shiftr chunk 18) 0x3F); b64_char (Z.land (Z.shiftr chunk 12) 0x3F);
       b64_char (Z.land (Z.shiftr chunk 6) 0x3F)]
  | [a] =>
      let chunk := Z.shiftl a 16 in
      [b64_char (Z.land (Z.shiftr chunk 18) 0x3F); b64_char (Z.land (Z.shiftr chunk 12) 0x3F)]
  | [] => []
  end.

Fixpoint b64_loop (text : str) (buffer bits : Z) (out : list Z) : outcome (list Z) :=
  match text with
  | [] => Ok out
  | c :: text' =>
      let value := decode_value c in
      if value <? 0 then Throw (InvalidArgument "invalid base64url character")
      else
        let buffer := Z.lor (wrap32 (Z.shiftl buffer 6)) value in
        let bits := bits + 6 in
        if bits >=? 8 then
          b64_loop text' buffer (bits - 8) (out ++ [wrap8 (Z.land (Z.shiftr buffer (bits - 8)) 0xFF)])
        else b64_loop text' buffer bits out
  end.

Definition base64url_decode (text : str) : outcome (list Z) :=
  if bool_decide (is_Some (find_char "=" text)) then
    Throw (InvalidArgument "base64url input must not be padded")
  else if Z.of_nat (length text) mod 4 =? 1 then Throw (InvalidArgument "invalid base64url length")
  else b64_loop text 0 0 [].

(** ** base32 *)

Definition kBase32Alphabet : str := "ABCDEFGHIJKLMNOPQRSTUVWXYZ234567".
Definition b32_char (i : Z) : ascii := nth (Z.to_nat i) kBase32Alphabet nul.

(** [while (bits_left >= 5) { bits_left -= 5; push(...) }]; fuel: at most two
    groups are pending after a byte. *)
Fixpoint b32_emit (fuel : nat) (buffer bits_left : Z) (out : str) : Z * str :=
  match fuel with
  | O => (bits_left, out)
  | S fuel' =>
      if bits_left >=? 5 then
        b32_emit fuel' buffer (bits_left - 5)
          (out ++ [b32_char (Z.land (Z.shiftr buffer (bits_left - 5)) 0x1F)])
      else (bits_left, out)
  end.

Fixpoint b32_encode_loop (data : list Z) (buffer bits_left : Z) (out : str) : str :=
  match data with
  | [] => if bits_left >? 0
          then out ++ [b32_char (Z.land (swrap32 (Z.shiftl buffer (5 - bits_left))) 0x1F)] else out
  | byte :: data' =>
      let buffer := Z.lor (swrap32 (Z.shiftl buffer 8)) byte in
      let '(bits_left, out) := b32_emit 3 buffer (bits_left + 8) out in
      b32_encode_loop data' buffer bits_left out
  end.

Definition base32_encode (data : list Z) : str := b32_encode_loop data 0 0 [].

Fixpoint b32_decode_loop (input : str) (buffer bits_left : Z) (out : list Z) : outcome (list Z) :=
  match input with
  | [] => Ok out
  | raw :: input' =>
      if (raw == "="%char) || (raw == " "%char) || (raw == "-"%char) then
        b32_decode_loop input' buffer bits_left out
      else
        match find_char (toupper raw) kBase32Alphabet with
        | None => Throw (InvalidArgument "invalid base32 character in TOTP secret")
        | Some pos =>
            let buffer := Z.lor (swrap32 (Z.shiftl buffer 5)) (Z.of_nat pos) in
            let bits_left := bits_left + 5 in
            if bits_left >=? 8 then
              b32_decode_loop input' buffer (bits_left - 8)
                (out ++ [wrap8 (Z.land (Z.shiftr buffer (bits_left - 8)) 0xFF)])
            else b32_decode_loop input' buffer bits_left out
        end
  end.

Definition base32_decode (input : str) : outcome (list Z) := b32_decode_loop input 0 0 [].

(** ** Hexadecimal *)

Definition hex_digits : str := "0123456789abcdef".
Definition hex_char (i : Z) : ascii := nth (Z.to_nat i) hex_digits nul.

Definition to_hex (data : list Z) : str :=
  flat_map (fun b => [hex_char (Z.shiftr b 4); hex_char (Z.land b 0x0F)]) data.

Definition hex_val (c : ascii) : option Z :=
  let v := byte_of c in
  if (48 <=? v) && (v <=? 57) then Some (v - 48)
  else if (97 <=? v) && (v <=? 102) then Some (v - 87)
  else if (65 <=? v) && (v <=? 70) then Some (v - 55)
  else None.

Fixpoint scan_hex (s : str) (acc : Z) : Z :=
  match s with
  | c :: s' => match hex_val c with Some d => scan_hex s' (acc * 16 + d) | None => acc end
  | [] => acc
  end.

(** [std::stoi(s, nullptr, 16)] on text short enough not to overflow: blanks,
    a sign, an optional 0x before a digit, then at least one digit. *)
Definition stoi16 (s : str) : outcome Z :=
  let s1 := drop_while isspace s in
  let '(sign, s2) := match s1 with
                     | "-"%char :: r => (-1, r)
                     | "+"%char :: r => (1, r)
                     | _ => (1, s1)
                     end in
  let s3 := match s2 with
            | "0"%char :: x :: d :: r =>
                if ((x == "x"%char) || (x == "X"%char)) && bool_decide (is_Some (hex_val d)) then d :: r else s2
            | _ => s2
            end in
  match s3 with
  | c :: _ => match hex_val c with
              | Some _ => Ok (sign * scan_hex s3 0)
              | None => Throw (InvalidArgument "stoi")
              end
  | [] => Throw (InvalidArgument "stoi")
  end.

Fixpoint from_hex (hex : str) : outcome (list Z) :=
  match hex with
  | a :: b :: rest =>
      v ← stoi16 [a; b];
      l ← from_hex rest;
      mret (wrap8 v :: l)
  | _ => Ok []
  end.

(** ** base64url round trip *)

Lemma in_width_forallb n (P : Z -> bool) x :
  in_width n x -> forallb (fun i => P (Z.of_nat i)) (seq 0 (2 ^ n)) = true -> P x = true.
Proof.
  unfold in_width. intros Hx H. rewrite forallb_forall in H.
  assert (x < Z.of_nat (2 ^ n)) by (rewrite Nat2Z.inj_pow; lia).
  rewrite <- (Z2Nat.id x) by lia. apply H, in_seq. lia.
Qed.

Definition decodes_back (v : Z) : bool :=
  (decode_value (b64_char v) =? v) && negb (bool_decide (b64_char v = "="%char)).

Lemma decodes_back_all : forallb (fun i => decodes_back (Z.of_nat i)) (seq 0 (2 ^ 6)) = true.
Proof. vm_compute. reflexivity. Qed.

Lemma decode_value_char v : in_width 6 v -> decode_value (b64_char v) = v /\ b64_char v <> "="%char.
Proof.
  intros Hv. pose proof (in_width_forallb 6 decodes_back v Hv decodes_back_all) as H.
  unfold decodes_back in H. case_bool. done.
Qed.

Definition pad_bits (r : list bool) : Prop := (length r < 6)%nat /\ Forall (fun b => b = false) r.

Lemma land63_width b k : in_width 6 (Z.land (Z.shiftr b k) 0x3F).
Proof. apply (width_shiftr 6). Qed.
Lemma land63_width0 b : in_width 6 (Z.land b 0x3F).
Proof. rewrite <- (Z.shiftr_0_r b). apply land63_width. Qed.

(** The top groups of a 24-bit chunk. *)
Lemma chunk_bits chunk :
  to_bits 24 chunk =
  to_bits 6 (Z.land (Z.shiftr chunk 18) 0x3F) ++ to_bits 6 (Z.land (Z.shiftr chunk 12) 0x3F) ++
  to_bits 6 (Z.land (Z.shiftr chunk 6) 0x3F) ++ to_bits 6 (Z.land chunk 0x3F).
Proof.
  pose proof (to_bits_take 18 6 chunk) as E1. pose proof (to_bits_take 12 6 chunk) as E2.
  pose proof (to_bits_take 6 6 chunk) as E3. pose proof (to_bits_land 6 chunk) as E4.
  change (6 + 18)%nat with 24%nat in E1. change (6 + 12)%nat with 18%nat in E2.
  change (6 + 6)%nat with 12%nat in E3. rewrite E1, E2, E3, <- E4 at 1. done.
Qed.

Lemma chunk3_bits a b c :
  byte_val a -> byte_val b -> byte_val c ->
  to_bits 24 (Z.lor (Z.lor (Z.shiftl a 16) (Z.shiftl b 8)) c) = to_bits 8 a ++ to_bits 8 b ++ to_bits 8 c.
Proof.
  intros Ha Hb Hc.
  replace (Z.lor (Z.shiftl a 16) (Z.shiftl b 8)) with (Z.shiftl (Z.lor (Z.shiftl a 8) b) 8)
    by (rewrite Z.shiftl_lor, Z.shiftl_shiftl by lia; done).
  rewrite (to_bits_push 16 8) by done. rewrite (to_bits_push 8 8) by done. by rewrite <- app_assoc.
Qed.

Lemma list_ind3 {A} (P : list A -> Prop) :
  P [] -> (forall a, P [a]) -> (forall a b, P [a; b]) ->
  (forall a b c l, P l -> P (a :: b :: c :: l)) -> forall l, P l.
Proof.
  intros H0 H1 H2 H3 l.
  enough (P l /\ (forall a, P (a :: l)) /\ (forall a b, P (a :: b :: l))) by tauto.
  induction l as [|x l (? & ? & ?)]; split_and!; auto.
Qed.

Lemma base64url_encode_bits data :
  Forall byte_val data ->
  exists vs r, base64url_encode data = map b64_char vs /\ Forall (in_width 6) vs /\
    bits_of 6 vs = bits_of 8 data ++ r /\ pad_bits r.
Proof.
  induction data as [|a|a b|a b c l IH] using list_ind3; intros Hd.
  - exists [], []. split_and!; [done|constructor|done|split; [simpl; lia|constructor]].
  - apply Forall_cons in Hd as [Ha _]. set (chunk := Z.shiftl a 16).
    exists [Z.land (Z.shiftr chunk 18) 0x3F; Z.land (Z.shiftr chunk 12) 0x3F], (repeat false 4).
    split_and!; [done|repeat (constructor; [apply land63_width|]); constructor| |split; [simpl; lia|by repeat constructor]].
    assert (to_bits 24 chunk = to_bits 8 a ++ repeat false 16) as E.
    { replace chunk with (Z.lor (Z.lor (Z.shiftl a 16) (Z.shiftl 0 8)) 0)
        by (unfold chunk; by rewrite Z.shiftl_0_l, !Z.lor_0_r).
      rewrite chunk3_bits; [done|done|by vm_compute|by vm_compute]. }
    unfold bits_of. cbn [flat_map]. rewrite !app_nil_r. rewrite chunk_bits, app_assoc in E.
    change (repeat false 16) with (repeat false 4 ++ repeat false 12) in E. rewrite (app_assoc (to_bits 8 a)) in E.
    apply app_inj_1 in E as [E _]; [exact E|by rewrite !length_app, !length_to_bits].
  - apply Forall_cons in Hd as [Ha [Hb _]%Forall_cons]. set (chunk := Z.lor (Z.shiftl a 16) (Z.shiftl b 8)).
    exists [Z.land (Z.shiftr chunk 18) 0x3F; Z.land (Z.shiftr chunk 12) 0x3F; Z.land (Z.shiftr chunk 6) 0x3F],
      (repeat false 2).
    split_and!; [done|repeat (constructor; [apply land63_width|]); constructor| |split; [simpl; lia|by repeat constructor]].
    assert (to_bits 24 chunk = (to_bits 8 a ++ to_bits 8 b) ++ repeat false 8) as E.
    { replace chunk with (Z.lor chunk 0) by (by rewrite Z.lor_0_r). unfold chunk.
      rewrite chunk3_bits; [by rewrite <- app_assoc|done|done|by vm_compute]. }
    unfold bits_of. cbn [flat_map]. rewrite !app_nil_r.
    rewrite chunk_bits, (app_assoc (to_bits 6 _) (to_bits 6 _)), (app_assoc (_ ++ _) (to_bits 6 _)) in E.
    change (repeat false 8) with (repeat false 2 ++ repeat false 6) in E. rewrite (app_assoc _ (repeat false 2)) in E.
    apply app_inj_1 in E as [E _]; [by rewrite <- app_assoc in E|by rewrite !length_app, !length_to_bits].
  - apply Forall_cons in Hd as [Ha [Hb [Hc Hl]%Forall_cons]%Forall_cons].
    destruct (IH Hl) as (vs & r & Hvs & Hw & Hbits & Hr).
    set (chunk := Z.lor (Z.lor (Z.shiftl a 16) (Z.shiftl b 8)) c).
    exists (Z.land (Z.shiftr chunk 18) 0x3F :: Z.land (Z.shiftr chunk 12) 0x3F ::
            Z.land (Z.shiftr chunk 6) 0x3F :: Z.land chunk 0x3F :: vs), r.
    split_and!; [cbn [base64url_encode map]; by rewrite Hvs| | |done].
    + repeat (constructor; [first [apply land63_width|apply land63_width0]|]). done.
    + pose proof (chunk3_bits a b c Ha Hb Hc) as E. fold chunk in E. rewrite chunk_bits in E.
      apply (f_equal (fun l => l ++ bits_of 6 vs)) in E. rewrite Hbits in E at 2.
      unfold bits_of in *. cbn [flat_map]. rewrite <- !app_assoc in E. rewrite <- !app_assoc. exact E.
Qed.

(** The decoding loop reads the groups back as bytes. *)
Lemma b64_loop_bits vs n buffer out :
  Forall (in_width 6) vs -> (n < 8)%nat ->
  exists out' r, b64_loop (map b64_char vs) buffer (Z.of_nat n) out = Ok (out ++ out') /\
    Forall byte_val out' /\ (length r < 8)%nat /\
    to_bits n buffer ++ bits_of 6 vs = bits_of 8 out' ++ r.
Proof.
  intros Hvs. revert n buffer out. induction Hvs as [|v vs Hv Hvs IH]; intros n buffer out Hn.
  - exists [], (to_bits n buffer). rewrite !app_nil_r. split_and!; [done|constructor|by rewrite length_to_bits|done].
  - destruct (decode_value_char v Hv) as [Hdec _]. cbn [map b64_loop]. rewrite Hdec.
    assert ((v <? 0) = false) as -> by (unfold in_width in Hv; apply Z.ltb_ge; lia).
    set (buffer' := Z.lor (wrap32 (Z.shiftl buffer 6)) v).
    assert (to_bits (n + 6) buffer' = to_bits n buffer ++ to_bits 6 v) as Hpush.
    { apply (to_bits_push32 wrap32); [apply testbit_wrap32|lia|done]. }
    unfold bits_of. cbn [flat_map]. rewrite app_assoc, <- Hpush. rewrite Z.geb_leb.
    destruct (Z.leb_spec 8 (Z.of_nat n + 6)).
    + assert ((n + 6)%nat = (8 + (n - 2))%nat) as Hsplit by lia.
      replace (Z.of_nat n + 6 - 8) with (Z.of_nat (n - 2)) by lia.
      destruct (IH (n - 2)%nat buffer' (out ++ [wrap8 (Z.land (Z.shiftr buffer' (Z.of_nat (n - 2))) 0xFF)]))
        as (out' & r & Hloop & Hb & Hr & Hbits); [lia|].
      pose proof (width_shiftr 8 buffer' (Z.of_nat (n - 2))) as Hw.
      assert (wrap8 (Z.land (Z.shiftr buffer' (Z.of_nat (n - 2))) 0xFF) =
              Z.land (Z.shiftr buffer' (Z.of_nat (n - 2))) (Z.ones (Z.of_nat 8))) as Eb.
      { unfold wrap8. rewrite Z.mod_small; [done|]. exact Hw. }
      rewrite Eb in *. eexists (_ :: out'), r.
      split_and!; [by rewrite Hloop, <- app_assoc|by constructor|done|].
      unfold bits_of. cbn [flat_map]. rewrite Hsplit, to_bits_take, <- !app_assoc. f_equal.
      exact Hbits.
    + replace (Z.of_nat n + 6) with (Z.of_nat (n + 6)) by lia.
      destruct (IH (n + 6)%nat buffer' out) as (out' & r & Hloop & Hb & Hr & Hbits); [lia|].
      exists out', r. split_and!; done.
Qed.

Lemma base64url_encode_length data vs r :
  bits_of 6 vs = bits_of 8 data ++ r -> pad_bits r -> Z.of_nat (length vs) mod 4 <> 1.
Proof.
  intros H [Hr _] E. apply (f_equal length) in H. rewrite length_app, !length_bits_of in H.
  pose proof (Z.div_mod (Z.of_nat (length vs)) 4). lia.
Qed.

Lemma base64url_round_trip data : Forall byte_val data -> base64url_decode (base64url_encode data) = Ok data.
Proof.
  intros Hd. destruct (base64url_encode_bits data Hd) as (vs & r & -> & Hvs & Hbits & Hr).
  unfold base64url_decode. rewrite bool_decide_eq_false_2.
  2: { intros [i Hi]. unfold find_char in Hi. apply fmap_Some in Hi as ([j c] & Hj & _).
       apply list_find_Some in Hj as (Hj & <- & _). apply list_lookup_fmap_Some in Hj as (v & E & Hv).
       rewrite Forall_lookup in Hvs. destruct (decode_value_char v (Hvs _ _ Hv)) as [_ Hne]. congruence. }
  rewrite length_map. destruct (Z.eqb_spec (Z.of_nat (length vs) mod 4) 1) as [E|_].
  { by destruct (base64url_encode_length _ _ _ Hbits Hr). }
  destruct (b64_loop_bits vs 0 0 [] Hvs ltac:(lia)) as (out & r' & Hloop & Hout & Hr' & Hb).
  change (Z.of_nat 0) with 0 in Hloop. rewrite Hloop. f_equal. cbn [app].
  cbn [to_bits app] in Hb. rewrite Hbits in Hb. symmetry.
  eapply (bits_of_prefix_inj 8); [lia|done|done| |exact Hr'|exact Hb]. destruct Hr. lia.
Qed.

(** Any bytes survive base64url: the encoder's text is accepted by the
    decoder (no padding, a legal length, only alphabet characters) and decodes
    to exactly the bytes encoded. *)
Theorem base64url_decode_encode data :
  Forall byte_val data -> base64url_decode (base64url_encode data) = Ok data.
Proof. apply base64url_round_trip. Qed.

(** The decoder is not injective: bits after the last whole byte are dropped
    unchecked, so two different texts decode to the same bytes. *)
Example base64url_trailing_bits_ignored :
  base64url_decode "QQ" = Ok [65] /\ base64url_decode "QR" = Ok [65] /\ base64url_encode [65] = "QQ".
Proof. repeat split; vm_compute; reflexivity. Qed.

(** ** base32 round trip *)

Definition b32_reads_back (v : Z) : bool :=
  (find_char (toupper (b32_char v)) kBase32Alphabet == Some (Z.to_nat v)) &&
  (find_char (toupper (tolower (b32_char v))) kBase32Alphabet == Some (Z.to_nat v)) &&
  negb ((b32_char v == "="%char) || (b32_char v == " "%char) || (b32_char v == "-"%char)).

Lemma b32_reads_back_all : forallb (fun i => b32_reads_back (Z.of_nat i)) (seq 0 (2 ^ 5)) = true.
Proof. vm_compute. reflexivity. Qed.

Lemma b32_char_value v :
  in_width 5 v ->
  find_char (toupper (b32_char v)) kBase32Alphabet = Some (Z.to_nat v) /\
  ((b32_char v == "="%char) || (b32_char v == " "%char) || (b32_char v == "-"%char)) = false.
Proof.
  intros Hv. pose proof (in_width_forallb 5 b32_reads_back v Hv b32_reads_back_all) as H.
  unfold b32_reads_back in H. apply andb_true_iff in H as [[H1 _]%andb_true_iff H2%negb_true_iff].
  split; [by apply bool_decide_eq_true in H1|exact H2].
Qed.

Lemma b32_emit_bits fuel n buffer out :
  (n < 5 * fuel)%nat ->
  exists vs m, b32_emit fuel buffer (Z.of_nat n) out = (Z.of_nat m, out ++ map b32_char vs) /\
    Forall (in_width 5) vs /\ (m < 5)%nat /\ to_bits n buffer = bits_of 5 vs ++ to_bits m buffer.
Proof.
  revert n out. induction fuel as [|fuel IH]; intros n out Hn; [lia|]. cbn [b32_emit]. rewrite Z.geb_leb.
  destruct (Z.leb_spec 5 (Z.of_nat n)).
  - replace (Z.of_nat n - 5) with (Z.of_nat (n - 5)) by lia.
    destruct (IH (n - 5)%nat (out ++ [b32_char (Z.land (Z.shiftr buffer (Z.of_nat (n - 5))) 0x1F)]))
      as (vs & m & -> & Hvs & Hm & Hb); [lia|].
    exists (Z.land (Z.shiftr buffer (Z.of_nat (n - 5))) 0x1F :: vs), m.
    split_and!; [by rewrite <- app_assoc|constructor; [apply (width_shiftr 5)|done]|done|].
    unfold bits_of. cbn [flat_map]. rewrite <- app_assoc. fold (bits_of 5 vs). rewrite <- Hb.
    replace n with (5 + (n - 5))%nat at 1 by lia. apply to_bits_take.
  - exists [], n. split_and!; [by rewrite app_nil_r|constructor|lia|done].
Qed.

Lemma b32_encode_loop_bits data n buffer out :
  Forall byte_val data -> (n < 5)%nat ->
  exists vs r, b32_encode_loop data buffer (Z.of_nat n) out = out ++ map b32_char vs /\
    Forall (in_width 5) vs /\ bits_of 5 vs = to_bits n buffer ++ bits_of 8 data ++ r /\ (length r < 5)%nat.
Proof.
  intros Hd. revert n buffer out. induction Hd as [|b data Hb Hd IH]; intros n buffer out Hn.
  - cbn [b32_encode_loop]. rewrite Z.gtb_ltb. destruct (Z.ltb_spec 0 (Z.of_nat n)).
    + set (v := Z.land (swrap32 (Z.shiftl buffer (5 - Z.of_nat n))) 0x1F).
      exists [v], (to_bits (5 - n) 0). split_and!; [done| | |rewrite length_to_bits; lia].
      * apply Forall_singleton. unfold v. rewrite <- (Z.shiftr_0_r (swrap32 _)). apply (width_shiftr 5).
      * unfold bits_of. cbn [flat_map app]. rewrite app_nil_r. unfold v.
        change 0x1F with (Z.ones (Z.of_nat 5)). rewrite to_bits_land.
        rewrite <- (Z.lor_0_r (swrap32 _)).
        replace 5%nat with (n + (5 - n))%nat at 1 by lia.
        replace (5 - Z.of_nat n) with (Z.of_nat (5 - n)) by lia.
        apply (to_bits_push32 swrap32); [apply testbit_swrap32|lia|].
        split; [lia|]. apply Z.pow_pos_nonneg; lia.
    + assert (n = 0%nat) as -> by lia. exists [], []. cbn. rewrite app_nil_r.
      split_and!; [done|constructor|done|lia].
  - cbn [b32_encode_loop]. set (buffer' := Z.lor (swrap32 (Z.shiftl buffer 8)) b).
    assert (to_bits (n + 8) buffer' = to_bits n buffer ++ to_bits 8 b) as Hpush.
    { apply (to_bits_push32 swrap32); [apply testbit_swrap32|lia|done]. }
    replace (Z.of_nat n + 8) with (Z.of_nat (n + 8)) by lia.
    destruct (b32_emit_bits 3 (n + 8) buffer' out) as (vs1 & m & -> & Hv1 & Hm & Hb1); [lia|].
    destruct (IH m buffer' (out ++ map b32_char vs1) Hm) as (vs2 & r & -> & Hv2 & Hb2 & Hr).
    exists (vs1 ++ vs2), r. split_and!; [by rewrite map_app, app_assoc|by apply Forall_app| |done].
    rewrite bits_of_app, Hb2, (app_assoc (bits_of 5 vs1)), <- Hb1, Hpush.
    unfold bits_of at 2. cbn [flat_map]. by rewrite <- !app_assoc.
Qed.

Lemma b32_decode_loop_bits vs n buffer out :
  Forall (in_width 5) vs -> (n < 8)%nat ->
  exists out' r, b32_decode_loop (map b32_char vs) buffer (Z.of_nat n) out = Ok (out ++ out') /\
    Forall byte_val out' /\ (length r < 8)%nat /\
    to_bits n buffer ++ bits_of 5 vs = bits_of 8 out' ++ r.
Proof.
  intros Hvs. revert n buffer out. induction Hvs as [|v vs Hv Hvs IH]; intros n buffer out Hn.
  - exists [], (to_bits n buffer). rewrite !app_nil_r. split_and!; [done|constructor|by rewrite length_to_bits|done].
  - destruct (b32_char_value v Hv) as [Hfind Hskip]. cbn [map b32_decode_loop]. rewrite Hskip, Hfind.
    rewrite Z2Nat.id by (destruct Hv; lia).
    set (buffer' := Z.lor (swrap32 (Z.shiftl buffer 5)) v).
    assert (to_bits (n + 5) buffer' = to_bits n buffer ++ to_bits 5 v) as Hpush.
    { apply (to_bits_push32 swrap32); [apply testbit_swrap32|lia|done]. }
    unfold bits_of. cbn [flat_map]. rewrite app_assoc, <- Hpush. rewrite Z.geb_leb.
    destruct (Z.leb_spec 8 (Z.of_nat n + 5)).
    + assert ((n + 5)%nat = (8 + (n - 3))%nat) as Hsplit by lia.
      replace (Z.of_nat n + 5 - 8) with (Z.of_nat (n - 3)) by lia.
      destruct (IH (n - 3)%nat buffer' (out ++ [wrap8 (Z.land (Z.shiftr buffer' (Z.of_nat (n - 3))) 0xFF)]))
        as (out' & r & Hloop & Hb & Hr & Hbits); [lia|].
      pose proof (width_shiftr 8 buffer' (Z.of_nat (n - 3))) as Hw.
      assert (wrap8 (Z.land (Z.shiftr buffer' (Z.of_nat (n - 3))) 0xFF) =
              Z.land (Z.shiftr buffer' (Z.of_nat (n - 3))) (Z.ones (Z.of_nat 8))) as Eb.
      { unfold wrap8. rewrite Z.mod_small; [done|]. exact Hw. }
      rewrite Eb in *. eexists (_ :: out'), r.
      split_and!; [by rewrite Hloop, <- app_assoc|by constructor|done|].
      unfold bits_of. cbn [flat_map]. rewrite Hsplit, to_bits_take, <- !app_assoc. f_equal.
      exact Hbits.
    + replace (Z.of_nat n + 5) with (Z.of_nat (n + 5)) by lia.
      destruct (IH (n + 5)%nat buffer' out) as (out' & r & Hloop & Hb & Hr & Hbits); [lia|].
      exists out', r. split_and!; done.
Qed.

Lemma base32_round_trip data : Forall byte_val data -> base32_decode (base32_encode data) = Ok data.
Proof.
  intros Hd. unfold base32_encode, base32_decode.
  destruct (b32_encode_loop_bits data 0 0 [] Hd ltac:(lia)) as (vs & r & E & Hvs & Hbits & Hr).
  change (Z.of_nat 0) with 0 in E. rewrite E. cbn [app].
  destruct (b32_decode_loop_bits vs 0 0 [] Hvs ltac:(lia)) as (out & r' & Hloop & Hout & Hr' & Hb).
  change (Z.of_nat 0) with 0 in Hloop. rewrite Hloop. f_equal. cbn [app].
  cbn [to_bits app] in Hb, Hbits. rewrite Hbits in Hb. symmetry.
  eapply (bits_of_prefix_inj 8); [lia|done|done| |exact Hr'|exact Hb]. lia.
Qed.

(** ** Hexadecimal round trip *)

Definition hex_reads_back (b : Z) : bool :=
  stoi16 [hex_char (Z.shiftr b 4); hex_char (Z.land b 0x0F)] == Ok b.

Lemma hex_reads_back_all : forallb (fun i => hex_reads_back (Z.of_nat i)) (seq 0 (2 ^ 8)) = true.
Proof. vm_compute. reflexivity. Qed.

Lemma hex_round_trip data : Forall byte_val data -> from_hex (to_hex data) = Ok data.
Proof.
  induction 1 as [|b data Hb Hd IH]; [done|].
  pose proof (in_width_forallb 8 hex_reads_back b Hb hex_reads_back_all) as H.
  unfold hex_reads_back in H. apply bool_decide_eq_true in H.
  change (to_hex (b :: data)) with
    (hex_char (Z.shiftr b 4) :: hex_char (Z.land b 0x0F) :: to_hex data).
  cbn [from_hex]. rewrite H, IH. cbn. unfold wrap8. by rewrite Z.mod_small.
Qed.

Lemma base64url_decode_encode_witness :
  Forall byte_val [0; 255; 16; 131] /\ base64url_decode (base64url_encode [0; 255; 16; 131]) = Ok [0; 255; 16; 131].
Proof.
  assert (Forall byte_val [0; 255; 16; 131]) as H
    by (repeat (apply Forall_cons; split; [split; vm_compute; [discriminate|reflexivity]|]); constructor).
  split; [exact H|]. apply (base64url_decode_encode _ H).
Defined.
