(* ===== verification/Totp.v ===== *)
(** * Totp: one-time codes

    Models the rest of [auth/totp.cpp]: HOTP with dynamic truncation, the code
    format, [verify_totp] with its drift window, secret generation and the
    provisioning URI. OpenSSL's [HMAC(EVP_sha1(), ...)] is the interface
    [HmacSha1] ([None] is its error return) and [RAND_bytes] an input. *)
From S2P Require Import Prelude Text Bits Codec.

Class HmacSha1 := { hmac_sha1 : list Z -> list Z -> option (list Z) }.

(** SHA-1 digests have 20 bytes. *)
Class HmacSha1Laws (Hmac : HmacSha1) := {
  hmac_sha1_digest key msg d : hmac_sha1 key msg = Some d -> length d = 20%nat /\ Forall byte_val d;
}.

Definition kDigits : nat := 6.
Definition kStepSeconds : Z := 30.
Definition kSecretBytes : nat := 20.

Section totp.
Context `{Hmac : HmacSha1}.

(** [for (int i = 7; i >= 0; --i) { counter_be[i] = counter & 0xFF; counter >>= 8; }] *)
Fixpoint counter_be (i : nat) (counter : Z) (acc : list Z) : list Z :=
  match i with
  | O => acc
  | S i' => counter_be i' (Z.shiftr counter 8) (Z.land counter 0xFF :: acc)
  end.

(** [digest[i]], an error outside the digest. *)
Definition digest_at (digest : list Z) (i : Z) : outcome Z :=
  match digest !! Z.to_nat i with
  | Some b => Ok b
  | None => Throw (LogicError "read past the digest")
  end.

Fixpoint pow10 (n : nat) : Z := match n with O => 1 | S n' => wrap32 (pow10 n' * 10) end.

Definition hotp (key : list Z) (counter : Z) : outcome Z :=
  match hmac_sha1 key (counter_be 8 counter []) with
  | None => Throw (RuntimeError "HMAC-SHA1 failed")
  | Some digest =>
      last_byte ← digest_at digest (Z.of_nat (length digest) - 1);
      let offset := Z.land last_byte 0x0F in
      b0 ← digest_at digest offset;
      b1 ← digest_at digest (offset + 1);
      b2 ← digest_at digest (offset + 2);
      b3 ← digest_at digest (offset + 3);
      let binary := Z.lor (Z.lor (Z.lor (wrap32 (Z.shiftl (Z.land b0 0x7F) 24))
                                        (wrap32 (Z.shiftl (Z.land b1 0xFF) 16)))
                                 (wrap32 (Z.shiftl (Z.land b2 0xFF) 8)))
                          (Z.land b3 0xFF) in
      mret (binary mod pow10 kDigits)
  end.

Definition format_code (value : Z) : str :=
  let out := to_dec value in
  if (length out <? kDigits)%nat then replicate (kDigits - length out) "0"%char ++ out else out.

Definition constant_time_equal (a b : str) : bool :=
  if negb (length a =? length b)%nat then false else a == b.

(** The drift loop; [matched_step] is the value returned. *)
Fixpoint try_drifts (key : list Z) (code : str) (counter : Z) (drifts : list Z) : outcome (option Z) :=
  match drifts with
  | [] => Ok None
  | drift :: drifts' =>
      let step := wrap64 (swrap64 counter + drift) in
      value ← hotp key step;
      if constant_time_equal (format_code value) code then mret (Some (swrap64 step))
      else try_drifts key code counter drifts'
  end.

Definition verify_totp (secret_base32 code : str) (unix_time_seconds : Z) : outcome (option Z) :=
  if negb (length code =? kDigits)%nat || negb (forallb isdigit code) then Ok None
  else match base32_decode secret_base32 with
       | Throw (InvalidArgument _) => Ok None
       | Throw e => Throw e
       | Ok [] => Ok None
       | Ok key => try_drifts key code (wrap64 (unix_time_seconds ÷ kStepSeconds)) [-1; 0; 1]
       end.

(** [RAND_bytes] filled the 20-byte buffer, or failed. *)
Definition generate_totp_secret_base32 (random : option (list Z)) : outcome str :=
  match random with
  | None => Throw (RuntimeError "RAND_bytes failed")
  | Some buf => Ok (base32_encode buf)
  end.

Definition isalnum (c : ascii) : bool :=
  let v := byte_of c in
  ((48 <=? v) && (v <=? 57)) || ((65 <=? v) && (v <=? 90)) || ((97 <=? v) && (v <=? 122)).

(** [snprintf(buf, 4, "%%%02X", c)] *)
Definition percent_byte (c : ascii) : str :=
  "%"%char :: map toupper [hex_char (Z.shiftr (byte_of c) 4); hex_char (Z.land (byte_of c) 0x0F)].

Definition encode (value : str) : str :=
  flat_map (fun c => if isalnum c || (c == "-"%char) || (c == "_"%char) || (c == "."%char)
                     then [c] else percent_byte c) value.

Definition totp_provisioning_uri (secret_base32 username issuer : str) : str :=
  lit "otpauth://totp/" ++ encode issuer ++ lit ":" ++ encode username ++
  lit "?secret=" ++ secret_base32 ++ lit "&issuer=" ++ encode issuer ++
  lit "&algorithm=SHA1&digits=6&period=30".

(** ** The reference: RFC 4226 *)

(** Dynamic truncation of a digest, as a number. *)
Definition truncate (digest : list Z) : Z :=
  let offset := (List.last digest 0 mod 16) in
  let b i := nth (Z.to_nat (offset + i)) digest 0 in
  (b 0 mod 128) * 2 ^ 24 + b 1 * 2 ^ 16 + b 2 * 2 ^ 8 + b 3.

(** The moving factor: eight octets, the most significant first. *)
Definition octets (counter : Z) : list Z := map (fun k => counter / 256 ^ k mod 256) [7; 6; 5; 4; 3; 2; 1; 0].

Definition rfc4226 (key : list Z) (counter : Z) : option Z :=
  (fun d => truncate d mod 1000000) <$> hmac_sha1 key (octets counter).

Example octets_of_counter : octets 0x0102030405060708 = [1; 2; 3; 4; 5; 6; 7; 8].
Proof. reflexivity. Qed.

(** A code stands for a value: six decimal digits, leading zeros kept. *)
Definition code_value (code : str) : Z := fst (scan_digits code 0).
Definition six_digits (code : str) : Prop := length code = 6%nat /\ forallb isdigit code = true.

(** ** Digit strings *)

Lemma isdigit_val c : isdigit c = true <-> is_Some (digit_val c).
Proof.
  unfold isdigit, digit_val. destruct (Z.leb_spec 48 (byte_of c)), (Z.leb_spec (byte_of c) 57),
    (Z.leb_spec 0 (byte_of c - 48)), (Z.leb_spec (byte_of c - 48) 9); simpl; split; try done; try lia;
    intros; try (by eexists); by destruct H3.
Qed.

Lemma digit_val_range c d : digit_val c = Some d -> 0 <= d <= 9 /\ byte_of c = 48 + d.
Proof. unfold digit_val. intros. case_match; simplify_eq; case_bool; lia. Qed.

Lemma scan_all s acc :
  forallb isdigit s = true ->
  exists v, scan_digits s acc = (acc * 10 ^ Z.of_nat (length s) + v, []) /\
            0 <= v < 10 ^ Z.of_nat (length s) /\ forall acc', scan_digits s acc' = (acc' * 10 ^ Z.of_nat (length s) + v, []).
Proof.
  revert acc. induction s as [|c s IH]; intros acc Hs.
  - exists 0. simpl. split_and!; [f_equal; lia|lia|lia|]. intros. f_equal. lia.
  - simpl in Hs. apply andb_true_iff in Hs as [[d Hd]%isdigit_val Hs].
    destruct (IH (acc * 10 + d) Hs) as (v & E & Hv & Hall).
    pose proof (digit_val_range c d Hd) as [Hr _].
    cbn [scan_digits length]. rewrite Hd. rewrite Nat2Z.inj_succ, Z.pow_succ_r by lia.
    exists (d * 10 ^ Z.of_nat (length s) + v). split_and!; [rewrite E; f_equal; ring|nia|nia|].
    intros acc'. rewrite Hall. f_equal. ring.
Qed.

Lemma code_value_inj a b :
  length a = length b -> forallb isdigit a = true -> forallb isdigit b = true ->
  code_value a = code_value b -> a = b.
Proof.
  unfold code_value. revert b. induction a as [|c a IH]; intros [|d b] Hl Ha Hb E; try done.
  simpl in Hl, Ha, Hb. apply andb_true_iff in Ha as [[x Hx]%isdigit_val Ha].
  apply andb_true_iff in Hb as [[y Hy]%isdigit_val Hb]. injection Hl as Hl.
  cbn [scan_digits] in E. rewrite Hx, Hy in E.
  destruct (scan_all a x Ha) as (v & _ & Hv & Ea). destruct (scan_all b y Hb) as (w & _ & Hw & Eb).
  rewrite Ea, Eb in E. simpl in E. rewrite Hl in *.
  pose proof (digit_val_range _ _ Hx). pose proof (digit_val_range _ _ Hy).
  assert (x = y /\ v = w) as [-> ->].
  { clear - E Hv Hw. generalize dependent (10 ^ Z.of_nat (length b)). intros N Hv Hw E.
    destruct (Z.lt_trichotomy x y) as [|[->|]]; [nia|lia|nia]. }
  f_equal; [apply byte_of_inj; lia|]. apply IH; [done..|]. by rewrite Ea, Eb.
Qed.

Lemma dec_go_digits fuel n acc :
  0 <= n -> forallb isdigit acc = true -> forallb isdigit (dec_go fuel n acc) = true.
Proof.
  revert n acc. induction fuel as [|fuel IH]; intros n acc Hn Ha; [done|]. cbn [dec_go].
  pose proof (Z.mod_pos_bound n 10 ltac:(lia)).
  assert (forallb isdigit (digit_char (n mod 10) :: acc) = true).
  { simpl. rewrite Ha, andb_true_r. apply isdigit_val. rewrite digit_val_char by lia. eauto. }
  destruct (n / 10 =? 0); [done|]. apply IH; [apply Z.div_pos; lia|done].
Qed.

Lemma dec_go_length fuel n acc k :
  0 <= n < 10 ^ Z.of_nat (S k) -> (length (dec_go fuel n acc) <= S k + length acc)%nat.
Proof.
  revert n acc k. induction fuel as [|fuel IH]; intros n acc k Hn; [simpl; lia|]. cbn [dec_go].
  destruct (Z.eqb_spec (n / 10) 0) as [|Hne]; [simpl; lia|].
  assert (10 <= n) by (destruct (Z.lt_ge_cases n 10); [rewrite Z.div_small in Hne; lia|lia]).
  destruct k as [|k]; [change (10 ^ Z.of_nat 1) with 10 in Hn; lia|].
  specialize (IH (n / 10) (digit_char (n mod 10) :: acc) k). simpl in IH. simpl.
  rewrite (Nat2Z.inj_succ (S k)), Z.pow_succ_r in Hn by lia.
  assert (0 <= n / 10 < 10 ^ Z.of_nat (S k)) by (split; [apply Z.div_pos; lia|apply Z.div_lt_upper_bound; lia]).
  specialize (IH H0). lia.
Qed.

Lemma scan_zeros n s : scan_digits (replicate n "0"%char ++ s) 0 = scan_digits s 0.
Proof. induction n as [|n IH]; [done|]. cbn [replicate app scan_digits]. exact IH. Qed.

Lemma format_code_spec v :
  0 <= v < 1000000 -> six_digits (format_code v) /\ code_value (format_code v) = v.
Proof.
  intros Hv. unfold format_code, to_dec, kDigits.
  replace (v <? 0) with false by (symmetry; apply Z.ltb_ge; lia).
  assert (length (dec_nat v) <= 6)%nat as Hl.
  { unfold dec_nat. etransitivity; [apply (dec_go_length _ v [] 5); simpl; lia|simpl; lia]. }
  assert (forallb isdigit (dec_nat v) = true) as Hd by (apply dec_go_digits; [lia|done]).
  assert (code_value (dec_nat v) = v) as Hval.
  { unfold code_value. pose proof (from_chars_dec v v [] ltac:(lia) eq_refl) as E.
    rewrite app_nil_r in E. unfold from_chars_u in E.
    destruct (dec_nat v) as [|c s]; [done|]. destruct (digit_val c); [|done].
    destruct (scan_digits (c :: s) 0) as [x r]. destruct (x <=? v); [|done]. by simplify_eq. }
  destruct (Nat.ltb_spec (length (dec_nat v)) 6) as [Hlt|Hge].
  - split; [split|].
    + rewrite length_app, length_replicate. lia.
    + rewrite forallb_app, Hd, andb_true_r. generalize (6 - length (dec_nat v))%nat. by intros n; induction n.
    + unfold code_value. by rewrite scan_zeros.
  - split; [split; [lia|done]|done].
Qed.

(** ** [hotp] computes RFC 4226 *)

Lemma counter_be_octets counter : counter_be 8 counter [] = octets counter.
Proof.
  cbn [counter_be]. unfold octets. cbn [map]. change 0xFF with (Z.ones 8).
  rewrite !Z.land_ones, !Z.shiftr_div_pow2, !Z.div_div by lia.
  change (256 ^ 0) with 1. rewrite Z.div_1_r. reflexivity.
Qed.

Lemma digest_at_ok digest i :
  0 <= i < Z.of_nat (length digest) -> digest_at digest i = Ok (nth (Z.to_nat i) digest 0).
Proof.
  intros Hi. unfold digest_at. destruct (lookup_lt_is_Some_2 digest (Z.to_nat i)) as [b Hb]; [lia|].
  by rewrite Hb, (nth_lookup_Some _ _ _ _ Hb).
Qed.

Lemma byte_land255 b : byte_val b -> Z.land b 0xFF = b.
Proof. intros [H1 H2]. change 0xFF with (Z.ones 8). rewrite Z.land_ones by lia. apply Z.mod_small. done. Qed.

Lemma assemble b0 b1 b2 b3 :
  byte_val b0 -> byte_val b1 -> byte_val b2 -> byte_val b3 ->
  Z.lor (Z.lor (Z.lor (wrap32 (Z.shiftl (Z.land b0 0x7F) 24)) (wrap32 (Z.shiftl (Z.land b1 0xFF) 16)))
               (wrap32 (Z.shiftl (Z.land b2 0xFF) 8))) (Z.land b3 0xFF)
  = (b0 mod 128) * 2 ^ 24 + b1 * 2 ^ 16 + b2 * 2 ^ 8 + b3.
Proof.
  intros H0 H1 H2 H3. rewrite !byte_land255 by done. change 0x7F with (Z.ones 7).
  rewrite Z.land_ones by lia. unfold byte_val, in_width in *. change (2 ^ Z.of_nat 8) with 256 in *.
  pose proof (Z.mod_pos_bound b0 128 ltac:(lia)). change (2 ^ 7) with 128 in *.
  rewrite assemble32; [done|..]; unfold in_width; change (2 ^ Z.of_nat 8) with 256; lia.
Qed.

Context `{Laws : !HmacSha1Laws Hmac}.

Lemma hotp_rfc4226 key counter :
  hotp key counter = match rfc4226 key counter with
                     | Some v => Ok v
                     | None => Throw (RuntimeError "HMAC-SHA1 failed")
                     end.
Proof.
  unfold hotp, rfc4226. rewrite counter_be_octets. destruct (hmac_sha1 _ _) as [d|] eqn:E; simpl; [|done].
  destruct (hmac_sha1_digest _ _ _ E) as [Hlen Hb].
  assert (forall i, (i < 20)%nat -> byte_val (nth i d 0)) as Hbyte.
  { intros i Hi. rewrite Forall_forall in Hb. apply Hb, list_elem_of_In, nth_In. lia. }
  rewrite digest_at_ok by lia. unfold mbind, outcome_bind.
  change 0x0F with (Z.ones 4). rewrite Z.land_ones by lia.
  set (o := nth _ d 0 mod 2 ^ 4). assert (0 <= o < 16) by apply Z.mod_pos_bound, eq_refl.
  rewrite !digest_at_ok by lia. rewrite assemble by (apply Hbyte; lia). f_equal.
  change (pow10 kDigits) with 1000000. f_equal. unfold truncate.
  assert (List.last d 0 mod 16 = o) as ->.
  { unfold o. rewrite Hlen. change (Z.to_nat (Z.of_nat 20 - 1)) with 19%nat. change (2 ^ 4) with 16. f_equal.
    do 20 (destruct d as [|? d]; [done|]). destruct d; done. }
  by rewrite !Z.add_0_r.
Qed.

Lemma rfc4226_range key counter v : rfc4226 key counter = Some v -> 0 <= v < 1000000.
Proof.
  unfold rfc4226. intros (d & _ & ->)%fmap_Some. apply Z.mod_pos_bound. lia.
Qed.

(** A code is accepted for a step exactly when it spells that step's value. *)
Lemma code_matches key step code v :
  six_digits code -> rfc4226 key step = Some v ->
  constant_time_equal (format_code v) code = bool_decide (code_value code = v).
Proof.
  intros [Hl Hd] Hv%rfc4226_range. destruct (format_code_spec v Hv) as [[Hl' Hd'] Hval].
  unfold constant_time_equal. rewrite Hl, Hl'. simpl. apply bool_decide_ext. split; [by intros <-|].
  intros E. apply code_value_inj; [lia|done|done|congruence].
Qed.

(** The steps a code may belong to at [now]. *)
Definition in_window (now t : Z) : Prop := now / 30 - 1 <= t <= now / 30 + 1.
Definition accepts_step (key : list Z) (code : str) (t : Z) : Prop :=
  rfc4226 key (wrap64 t) = Some (code_value code).

Lemma wrap64_swrap64 z : wrap64 (swrap64 z) = wrap64 z.
Proof.
  unfold wrap64, swrap64, swrap. rewrite Zminus_mod, Z.mod_mod, <- Zminus_mod by lia. f_equal. lia.
Qed.

Lemma swrap64_wrap64 z : swrap64 (wrap64 z) = swrap64 z.
Proof. unfold wrap64, swrap64, swrap. rewrite Zplus_mod_idemp_l. done. Qed.

Lemma try_drifts_spec key code c drifts :
  six_digits code -> (forall m, is_Some (hmac_sha1 key m)) ->
  0 <= c <= 2 ^ 62 -> Forall (fun d => -1 <= d <= 1) drifts ->
  (exists pre d suf, drifts = pre ++ d :: suf /\ try_drifts key code c drifts = Ok (Some (c + d)) /\
     accepts_step key code (c + d) /\ Forall (fun d' => ~ accepts_step key code (c + d')) pre) \/
  (try_drifts key code c drifts = Ok None /\ Forall (fun d' => ~ accepts_step key code (c + d')) drifts).
Proof.
  intros Hcode Hhm Hc. induction 1 as [|d drifts Hd Hds IH]; [right; by split|].
  cbn [try_drifts]. rewrite (swrap64_small c) by (unfold INT64_MIN, INT64_MAX; lia).
  rewrite hotp_rfc4226. destruct (rfc4226 key (wrap64 (c + d))) as [v|] eqn:Ev.
  2: { unfold rfc4226 in Ev. apply fmap_None in Ev. destruct (Hhm (octets (wrap64 (c + d)))). congruence. }
  unfold mbind, outcome_bind. rewrite (code_matches key _ code v Hcode Ev). case_bool_decide as E.
  - left. exists [], d, drifts. split_and!; [done| |unfold accepts_step; by rewrite Ev, E|constructor].
    rewrite swrap64_wrap64, swrap64_small by (unfold INT64_MIN, INT64_MAX; lia). done.
  - assert (~ accepts_step key code (c + d)) as Hn by (unfold accepts_step; rewrite Ev; intros [= ?]; congruence).
    destruct IH as [(pre & d' & suf & -> & Hr & Ha & Hp)|[Hr Hp]].
    + left. exists (d :: pre), d', suf. split_and!; [done..|]. by constructor.
    + right. split; [done|]. by constructor.
Qed.

Lemma verify_totp_decides secret key code now :
  base32_decode secret = Ok key -> key <> [] -> (forall m, is_Some (hmac_sha1 key m)) ->
  0 <= now <= 2 ^ 62 ->
  exists r, verify_totp secret code now = Ok r /\
    match r with
    | Some t => six_digits code /\ in_window now t /\ accepts_step key code t /\
                forall t', in_window now t' -> t' < t -> ~ accepts_step key code t'
    | None => six_digits code -> forall t, in_window now t -> ~ accepts_step key code t
    end.
Proof.
  intros Hkey Hne Hhm Hnow. unfold verify_totp.
  destruct (negb (length code =? kDigits)%nat || negb (forallb isdigit code)) eqn:Hshape.
  { exists None. split; [done|]. intros [Hl Hd]. unfold kDigits in Hshape. by rewrite Hl, Hd in Hshape. }
  apply orb_false_iff in Hshape as [Hl%negb_false_iff%Nat.eqb_eq Hd%negb_false_iff].
  assert (six_digits code) as Hcode by done. rewrite Hkey.
  destruct key as [|k0 key]; [done|]. set (key' := k0 :: key) in *.
  assert (wrap64 (now ÷ kStepSeconds) = now / 30) as ->.
  { rewrite Z.quot_div_nonneg by (unfold kStepSeconds; lia). unfold wrap64. apply Z.mod_small.
    unfold kStepSeconds. pose proof (Z.div_pos now 30). pose proof (Z.div_le_upper_bound now 30 now). lia. }
  assert (0 <= now / 30 <= 2 ^ 62) as Hc.
  { split; [apply Z.div_pos; lia|]. etransitivity; [apply Z.div_le_upper_bound with (q := now)|]; lia. }
  destruct (try_drifts_spec key' code (now / 30) [-1; 0; 1] Hcode Hhm Hc) as
    [(pre & d & suf & E & -> & Ha & Hp)|[-> Hp]]; [repeat constructor; lia| |].
  - eexists. split; [done|]. split_and!; [done| |done|].
    + assert (d ∈ [-1; 0; 1]) as Hin by (rewrite E; set_solver). unfold in_window. set_solver by lia.
    + intros t' Ht' Hlt Ha'. rewrite Forall_forall in Hp. apply (Hp (t' - now / 30)).
      * unfold in_window in Ht'.
        destruct pre as [|p0 [|p1 [|p2 pre]]]; simplify_eq/=;
          [lia|replace (t' - now / 30) with (-1) by lia; set_solver| |by destruct pre].
        assert (t' - now / 30 = -1 \/ t' - now / 30 = 0) as [-> | ->] by lia; set_solver.
      * by replace (now / 30 + (t' - now / 30)) with t' by lia.
  - exists None. split; [done|]. intros _ t Ht Ha. rewrite Forall_forall in Hp.
    apply (Hp (t - now / 30)); [|by replace (now / 30 + (t - now / 30)) with t by lia].
    unfold in_window in Ht.
    assert (t - now / 30 = -1 \/ t - now / 30 = 0 \/ t - now / 30 = 1) as [-> | [-> | ->]] by lia; set_solver.
Qed.

(** C22: [verify_totp] accepts a code exactly when it is six decimal digits
    that spell the RFC 4226 value of the secret's key at the current 30-second
    step, the one before or the one after; it reports the earliest such step,
    and never fails or reads outside the digest. *)
Theorem verify_totp_spec secret key code now :
  base32_decode secret = Ok key -> key <> [] -> (forall m, is_Some (hmac_sha1 key m)) ->
  0 <= now <= 2 ^ 62 ->
  exists r, verify_totp secret code now = Ok r /\
    match r with
    | Some t => six_digits code /\ in_window now t /\ accepts_step key code t /\
                forall t', in_window now t' -> t' < t -> ~ accepts_step key code t'
    | None => six_digits code -> forall t, in_window now t -> ~ accepts_step key code t
    end.
Proof. apply verify_totp_decides. Qed.

(** A code an authenticator shows is accepted: for a secret issued by
    [generate_totp_secret_base32], the six-digit code of the authenticator's
    current step passes at the server as long as the two clocks' steps differ
    by at most one, and the reported step is inside the window. *)
Theorem issued_secret_accepts buf secret app_now now v :
  length buf = kSecretBytes -> Forall byte_val buf ->
  generate_totp_secret_base32 (Some buf) = Ok secret ->
  (forall m, is_Some (hmac_sha1 buf m)) ->
  0 <= now <= 2 ^ 62 -> 0 <= app_now <= 2 ^ 62 -> in_window now (app_now / 30) ->
  hotp buf (wrap64 (app_now / 30)) = Ok v ->
  exists t, verify_totp secret (format_code v) now = Ok (Some t) /\ in_window now t.
Proof.
  intros Hlen Hbytes [= <-] Hhm Hnow Happ Hwin Hhotp.
  assert (buf <> []) as Hne by (by intros ->).
  rewrite hotp_rfc4226 in Hhotp. destruct (rfc4226 buf _) as [v'|] eqn:Ev; [|done]. simplify_eq.
  destruct (format_code_spec v (rfc4226_range _ _ _ Ev)) as [Hcode Hval].
  destruct (verify_totp_decides _ buf (format_code v) now (base32_round_trip buf Hbytes) Hne Hhm Hnow)
    as ([t|] & Hr & Hspec).
  - exists t. by destruct Hspec as (_ & Ht & _).
  - destruct (Hspec Hcode (app_now / 30) Hwin). unfold accepts_step. by rewrite Hval.
Qed.

(** Text that is not base32 is never accepted. *)
Lemma bad_secret_rejected secret code now e :
  base32_decode secret = Throw (InvalidArgument e) -> verify_totp secret code now = Ok None.
Proof. intros E. unfold verify_totp. rewrite E. by destruct (_ || _). Qed.

End totp.

(** The provisioning URI's variable parts hold no reserved character. *)
Definition uri_safe (c : ascii) : bool :=
  isalnum c || (c == "-"%char) || (c == "_"%char) || (c == "."%char) || (c == "%"%char).

Lemma encode_safe value : forallb uri_safe (encode value) = true.
Proof.
  unfold encode. rewrite forallb_forall. intros x Hx. apply in_flat_map in Hx as (c & _ & Hx).
  destruct (isalnum c || _ || _ || _) eqn:E.
  - destruct Hx as [->|[]]. unfold uri_safe. by rewrite E.
  - clear E. revert x Hx. apply forallb_forall. destruct c as [[] [] [] [] [] [] [] []]; vm_compute; reflexivity.
Qed.

(** ** Witnesses: a keyed checksum in place of HMAC-SHA1 *)

#[local] Instance toy_hmac : HmacSha1 := {
  hmac_sha1 key msg := Some (map (fun i => wrap8 (foldl Z.add (Z.of_nat i) (key ++ msg))) (seq 0 20));
}.

#[local] Instance toy_hmac_laws : HmacSha1Laws toy_hmac.
Proof.
  split. intros key msg d [= <-]. split; [done|].
  repeat (constructor; [apply Z.mod_pos_bound; done|]). constructor.
Qed.

Definition demo_secret : str := "ABCDEFGH".
Definition demo_key : list Z := [0; 68; 50; 20; 199].

(** The code of the step before the current one, and six digits that are no
    code. *)
Definition demo_totp : str := match hotp demo_key (1700000000 / 30 - 1) with Ok v => format_code v | Throw _ => [] end.

Lemma verify_totp_spec_witness :
  base32_decode demo_secret = Ok demo_key /\
  (verify_totp demo_secret demo_totp 1700000000 = Ok (Some (1700000000 / 30 - 1)) /\
   accepts_step demo_key demo_totp (1700000000 / 30 - 1)) /\
  (verify_totp demo_secret "123456" 1700000000 = Ok None /\ ~ accepts_step demo_key "123456" (1700000000 / 30)).
Proof.
  assert (base32_decode demo_secret = Ok demo_key) as E by (vm_compute; reflexivity).
  assert (forall m, is_Some (hmac_sha1 demo_key m)) as Hm by (intros m; eexists; reflexivity).
  assert (0 <= 1700000000 <= 2 ^ 62) as Hnow by (vm_compute; split; discriminate).
  assert (verify_totp demo_secret demo_totp 1700000000 = Ok (Some (1700000000 / 30 - 1))) as Hyes by (vm_compute; reflexivity).
  assert (verify_totp demo_secret "123456" 1700000000 = Ok None) as Hno by (vm_compute; reflexivity).
  split; [exact E|]. split; (split; [assumption|]).
  - destruct (verify_totp_spec demo_secret demo_key demo_totp 1700000000 E ltac:(discriminate) Hm Hnow) as (r & Hr & H).
    rewrite Hyes in Hr. injection Hr as <-. apply H.
  - destruct (verify_totp_spec demo_secret demo_key "123456" 1700000000 E ltac:(discriminate) Hm Hnow) as (r & Hr & H).
    rewrite Hno in Hr. injection Hr as <-. apply H; [split; vm_compute; reflexivity|]. vm_compute. split; discriminate.
Defined.

Definition demo_buf : list Z := map (fun i => Z.of_nat (i * 11)) (seq 1 20).

Lemma issued_secret_accepts_witness :
  exists secret v, generate_totp_secret_base32 (Some demo_buf) = Ok secret /\
    hotp demo_buf (wrap64 (1700000020 / 30)) = Ok v /\
    exists t, verify_totp secret (format_code v) 1699999999 = Ok (Some t) /\ in_window 1699999999 t.
Proof.
  eexists _, _. split; [reflexivity|]. split; [vm_compute; reflexivity|].
  eapply (issued_secret_accepts demo_buf _ 1700000020 1699999999).
  - reflexivity.
  - repeat (apply Forall_cons; split; [split; vm_compute; [discriminate|reflexivity]|]); constructor.
  - reflexivity.
  - intros m. eexists. reflexivity.
  - vm_compute. split; discriminate.
  - vm_compute. split; discriminate.
  - vm_compute. split; discriminate.
  - vm_compute. reflexivity.
Defined.
