(* ===== verification/Passwords.v ===== *)
(** * Passwords: password hashes and backup codes

    Models [auth/password_hash.cpp] (its hexadecimal text is in [Codec]) and
    [auth/backup_codes.cpp]. PBKDF2 is the interface [Pbkdf2], whose [None] is
    OpenSSL's error return; the bytes [RAND_bytes] delivers are arguments. *)
From S2P Require Import Prelude Text Bits Codec.

Class Pbkdf2 := { pbkdf2 : str -> list Z -> Z -> option (list Z) }.

(** The derived key fills the 32-byte buffer. *)
Class Pbkdf2Laws (Kdf : Pbkdf2) := {
  pbkdf2_key password salt iterations key :
    pbkdf2 password salt iterations = Some key -> length key = 32%nat /\ Forall byte_val key;
}.

Definition kIterations : Z := 210000.
Definition kSaltBytes : nat := 16.

Record PasswordHash := mkPasswordHash { salt_hex : str; hash_hex : str; iterations : Z }.

#[export] Instance PasswordHash_eq_dec : EqDecision PasswordHash.
Proof. solve_decision. Defined.

Section passwords.
Context `{Kdf : Pbkdf2}.

Definition derive (password : str) (salt : list Z) (iterations : Z) : outcome (list Z) :=
  match pbkdf2 password salt iterations with
  | Some key => Ok key
  | None => Throw (RuntimeError "PBKDF2 derivation failed")
  end.

Definition hash_password (random : option (list Z)) (password : str) : outcome PasswordHash :=
  match random with
  | None => Throw (RuntimeError "RAND_bytes failed")
  | Some salt =>
      key ← derive password salt kIterations;
      mret (mkPasswordHash (to_hex salt) (to_hex key) kIterations)
  end.

Definition verify_password (password : str) (stored : PasswordHash) : outcome bool :=
  salt ← from_hex (salt_hex stored);
  key ← derive password salt (if iterations stored >? 0 then iterations stored else kIterations);
  expected ← from_hex (hash_hex stored);
  if negb (length key =? length expected)%nat then mret false else mret (key == expected).

(** ** Backup codes *)

Record BackupCode := mkBackupCode { bc_hash : PasswordHash; used : bool }.

#[export] Instance BackupCode_eq_dec : EqDecision BackupCode.
Proof. solve_decision. Defined.

Definition kAlphabet : str := "23456789ABCDEFGHJKMNPQRSTUVWXYZ".
Definition kGroupLength : nat := 4.
Definition kCodeLength : nat := kGroupLength * 2 + 1.

(** [random i] is the result of the [i]-th one-byte [RAND_bytes] call. *)
Fixpoint random_code_group (random : nat -> option Z) (at_call : nat) (length : nat) : outcome str :=
  match length with
  | O => Ok []
  | S length' =>
      match random at_call with
      | None => Throw (RuntimeError "RAND_bytes failed")
      | Some byte =>
          out ← random_code_group random (S at_call) length';
          mret (nth (Z.to_nat (byte mod Z.of_nat (List.length kAlphabet))) kAlphabet nul :: out)
      end
  end.

Fixpoint generate_codes_from (random : nat -> option Z) (at_call : nat) (count : nat) : outcome (list str) :=
  match count with
  | O => Ok []
  | S count' =>
      a ← random_code_group random at_call kGroupLength;
      b ← random_code_group random (at_call + kGroupLength) kGroupLength;
      codes ← generate_codes_from random (at_call + 2 * kGroupLength) count';
      mret ((a ++ "-"%char :: b) :: codes)
  end.

Definition generate_backup_codes (random : nat -> option Z) (count : nat) : outcome (list str) :=
  generate_codes_from random 0 count.

(** [salts i] is the salt of the [i]-th [hash_password] call. *)
Fixpoint hash_codes_from (salts : nat -> option (list Z)) (i : nat) (codes : list str) : outcome (list BackupCode) :=
  match codes with
  | [] => Ok []
  | code :: codes' =>
      hash ← hash_password (salts i) code;
      out ← hash_codes_from salts (S i) codes';
      mret (mkBackupCode hash false :: out)
  end.

Definition hash_backup_codes (salts : nat -> option (list Z)) (codes : list str) : outcome (list BackupCode) :=
  hash_codes_from salts 0 codes.

Definition char_in_alphabet (c : ascii) : bool := bool_decide (is_Some (find_char c kAlphabet)).

Definition has_backup_code_shape (candidate : str) : bool :=
  if negb (length candidate =? kCodeLength)%nat || negb (nth kGroupLength candidate nul == "-"%char) then false
  else forallb (fun '(i, c) => (i =? kGroupLength)%nat || char_in_alphabet c) (imap pair candidate).

(** The scan: every unused code is verified, the first match is remembered. *)
Fixpoint match_loop (codes : list BackupCode) (i : nat) (candidate : str) (found : option nat) : outcome (option nat) :=
  match codes with
  | [] => Ok found
  | code :: codes' =>
      if used code then match_loop codes' (S i) candidate found
      else
        ok ← verify_password candidate (bc_hash code);
        match_loop codes' (S i) candidate
          (match found with Some j => Some j | None => if (ok : bool) then Some i else None end)
  end.

Definition mark_used (code : BackupCode) : BackupCode := mkBackupCode (bc_hash code) true.

(** [consume_backup_code]: the result, with the codes as modified in place. *)
Definition consume_backup_code (candidate : str) : M (list BackupCode) bool := fun codes =>
  if negb (has_backup_code_shape candidate) then (codes, Ok false)
  else match match_loop codes 0 candidate None with
       | Throw e => (codes, Throw e)
       | Ok None => (codes, Ok false)
       | Ok (Some i) => (alter mark_used i codes, Ok true)
       end.

(** ** Password verification *)

Context `{Laws : !Pbkdf2Laws Kdf}.

Lemma verify_hashed salt password h candidate :
  Forall byte_val salt -> hash_password (Some salt) password = Ok h ->
  verify_password candidate h =
    match pbkdf2 candidate salt kIterations with
    | Some key => Ok (bool_decide (pbkdf2 password salt kIterations = Some key))
    | None => Throw (RuntimeError "PBKDF2 derivation failed")
    end.
Proof.
  intros Hsalt Hh. unfold hash_password, derive in Hh.
  destruct (pbkdf2 password salt kIterations) as [expected|] eqn:He; [|done].
  destruct (pbkdf2_key _ _ _ _ He) as [Hlen Hexp]. injection Hh as <-.
  unfold verify_password, derive. cbn [salt_hex hash_hex iterations].
  rewrite !hex_round_trip by done. unfold mbind, outcome_bind, mret, outcome_ret.
  change (kIterations >? 0) with true. cbv iota.
  destruct (pbkdf2 candidate salt kIterations) as [key|] eqn:Hk; [|done].
  destruct (pbkdf2_key _ _ _ _ Hk) as [Hlen' _].
  rewrite Hlen, Hlen'. simpl. f_equal. apply bool_decide_ext.
  split; [by intros ->|by intros [= ->]].
Qed.

(** A stored hash accepts the password it was made from, and accepts any
    other text exactly when PBKDF2 derives the same 32-byte key from it under
    the stored salt; the hexadecimal text in between loses nothing. *)
Theorem verify_password_exact salt password h candidate key :
  Forall byte_val salt -> hash_password (Some salt) password = Ok h ->
  pbkdf2 candidate salt kIterations = Some key ->
  verify_password password h = Ok true /\
  (verify_password candidate h = Ok true <-> pbkdf2 password salt kIterations = Some key) /\
  (verify_password candidate h = Ok false <-> pbkdf2 password salt kIterations <> Some key).
Proof.
  intros Hsalt Hh Hk. rewrite !(verify_hashed salt password h) by done. rewrite Hk.
  assert (exists k, pbkdf2 password salt kIterations = Some k) as [k ->].
  { unfold hash_password, derive in Hh. destruct (pbkdf2 password salt kIterations); [eauto|done]. }
  cbv iota beta. split; [by rewrite bool_decide_eq_true_2|].
  split; (case_bool_decide as E; split; intros; congruence).
Qed.

(** ** Backup codes *)

Definition unused (codes : list BackupCode) : list BackupCode := filter (fun c => used c = false) codes.

(** The code at [i] is unused and verifies. *)
Definition usable (candidate : str) (codes : list BackupCode) (i : nat) : Prop :=
  exists c, codes !! i = Some c /\ used c = false /\ verify_password candidate (bc_hash c) = Ok true.

Lemma match_loop_spec candidate codes i found r :
  match_loop codes i candidate found = Ok r ->
  match found with
  | Some j => r = Some j
  | None => match r with
            | Some k => exists n, k = (i + n)%nat /\ usable candidate codes n /\
                                  forall m, (m < n)%nat -> ~ usable candidate codes m
            | None => forall m, ~ usable candidate codes m
            end
  end.
Proof.
  revert i found. induction codes as [|c codes IH]; intros i found Hr; cbn [match_loop] in Hr.
  - simplify_eq. destruct r; [done|]. intros m (c & Hc & _). done.
  - assert (forall n, usable candidate (c :: codes) (S n) <-> usable candidate codes n) as HS by done.
    destruct (used c) eqn:Hu.
    + apply IH in Hr. destruct found; [done|].
      assert (~ usable candidate (c :: codes) 0) as H0 by (intros (? & [= <-] & ? & _); congruence).
      destruct r as [k|].
      * destruct Hr as (n & -> & Hn & Hmin). exists (S n). split_and!; [lia|by apply HS|].
        intros [|m] Hm; [done|]. rewrite HS. apply Hmin. lia.
      * intros [|m]; [done|]. rewrite HS. apply Hr.
    + destruct (verify_password candidate (bc_hash c)) as [ok|] eqn:Hv; [|done].
      unfold mbind, outcome_bind in Hr. apply IH in Hr. destruct found; [done|]. destruct ok.
      * subst r. exists 0%nat. split_and!; [lia|by exists c|lia].
      * assert (~ usable candidate (c :: codes) 0) as H0 by (intros (? & [= <-] & ? & ?); congruence).
        destruct r as [k|].
        -- destruct Hr as (n & -> & Hn & Hmin). exists (S n). split_and!; [lia|by apply HS|].
           intros [|m] Hm; [done|]. rewrite HS. apply Hmin. lia.
        -- intros [|m]; [done|]. rewrite HS. apply Hr.
Qed.

Lemma alter_unused codes i c :
  codes !! i = Some c -> used c = false ->
  (length (unused codes) = S (length (unused (alter mark_used i codes))))%nat.
Proof.
  revert i. induction codes as [|d codes IH]; intros [|i] Hi Hu; try done.
  - simpl in Hi. simplify_eq. unfold unused. rewrite filter_cons_True by done.
    change (alter mark_used 0%nat (c :: codes)) with (mark_used c :: codes). by rewrite filter_cons_False.
  - specialize (IH i Hi Hu). unfold unused in *. change (alter mark_used (S i) (d :: codes)) with
      (d :: alter mark_used i codes). rewrite !filter_cons. destruct (decide _); simpl; lia.
Qed.

(** The same count, of the codes that satisfy [p]. *)
Lemma alter_unused_filter (p : BackupCode -> bool) codes i c :
  codes !! i = Some c -> used c = false ->
  length (filter (fun d => p d = true) (unused codes)) =
  ((if p c then 1 else 0) + length (filter (fun d => p d = true) (unused (alter mark_used i codes))))%nat.
Proof.
  revert i. induction codes as [|d codes IH]; intros [|i] Hi Hu; try done.
  - simpl in Hi. simplify_eq. unfold unused. rewrite filter_cons_True by done.
    change (alter mark_used 0%nat (c :: codes)) with (mark_used c :: codes). rewrite (filter_cons_False _ (mark_used c)) by done.
    rewrite filter_cons. by destruct (p c).
  - specialize (IH i Hi Hu). unfold unused in *. change (alter mark_used (S i) (d :: codes)) with
      (d :: alter mark_used i codes). rewrite (filter_cons _ d codes), (filter_cons _ d (alter _ _ _)).
    destruct (decide (used d = false)); [|exact IH]. rewrite !filter_cons. destruct (decide (p d = true)); cbn; lia.
Qed.

(** A call accepts exactly by using up the first unused matching code;
    otherwise it changes nothing. *)
Lemma consume_backup_code_cases candidate codes codes' r :
  consume_backup_code candidate codes = (codes', r) ->
  match r with
  | Ok true => exists i, usable candidate codes i /\ (forall j, (j < i)%nat -> ~ usable candidate codes j) /\
                         codes' = alter mark_used i codes /\
                         length (unused codes) = S (length (unused codes'))
  | Ok false => codes' = codes /\
                (has_backup_code_shape candidate = true -> forall i, ~ usable candidate codes i)
  | Throw _ => codes' = codes
  end.
Proof.
  unfold consume_backup_code. destruct (has_backup_code_shape candidate) eqn:Hs; simpl.
  2: { intros [= <- <-]. done. }
  destruct (match_loop codes 0 candidate None) as [[i|]|] eqn:Hm; intros [= <- <-]; [| |done].
  - apply match_loop_spec in Hm as (n & -> & Hn & Hmin). exists n. simpl. split_and!; [done|done|done|].
    destruct Hn as (c & Hc & Hu & _). by eapply alter_unused.
  - apply match_loop_spec in Hm. by split.
Qed.

(** Issued codes have the shape that the check accepts. *)
Lemma alphabet_code_shape a b :
  length a = kGroupLength -> length b = kGroupLength ->
  Forall (fun c => c ∈ kAlphabet) a -> Forall (fun c => c ∈ kAlphabet) b ->
  has_backup_code_shape (a ++ "-"%char :: b) = true.
Proof.
  intros Ha Hb Fa Fb.
  assert (forall c, c ∈ kAlphabet -> char_in_alphabet c = true) as Hin.
  { intros c Hc. unfold char_in_alphabet, find_char. apply bool_decide_eq_true.
    apply fmap_is_Some. by apply list_find_elem_of with c. }
  do 4 (destruct a as [|? a]; [done|]). destruct a; [|done].
  do 4 (destruct b as [|? b]; [done|]). destruct b; [|done].
  repeat match goal with H : Forall _ (_ :: _) |- _ => apply Forall_cons in H as [? H] end.
  unfold has_backup_code_shape. cbn. by rewrite !Hin by done.
Qed.

Lemma alphabet_elem byte : nth (Z.to_nat (byte mod Z.of_nat (length kAlphabet))) kAlphabet nul ∈ kAlphabet.
Proof.
  apply list_elem_of_In, nth_In. pose proof (Z.mod_pos_bound byte (Z.of_nat (length kAlphabet))).
  change (length kAlphabet) with 31%nat in *. lia.
Qed.

Lemma random_code_group_ok random i n s :
  random_code_group random i n = Ok s -> length s = n /\ Forall (fun c => c ∈ kAlphabet) s.
Proof.
  revert i s. induction n as [|n IH]; intros i s Hs; cbn [random_code_group] in Hs; [simplify_eq; split; [done|constructor]|].
  destruct (random i) as [byte|]; [|done].
  destruct (random_code_group random (S i) n) as [t|] eqn:Ht; [|done].
  unfold mbind, outcome_bind, mret, outcome_ret in Hs. injection Hs as <-.
  destruct (IH _ _ Ht) as [Hl Hf]. split; [cbn [length]; by rewrite Hl|].
  constructor; [apply alphabet_elem|done].
Qed.

Lemma generate_codes_shape random i n codes :
  generate_codes_from random i n = Ok codes ->
  length codes = n /\ Forall (fun c => has_backup_code_shape c = true) codes.
Proof.
  revert i codes. induction n as [|n IH]; intros i codes Hc; cbn [generate_codes_from] in Hc; [simplify_eq; split; [done|constructor]|].
  unfold mbind, outcome_bind, mret, outcome_ret in Hc.
  destruct (random_code_group random i kGroupLength) as [a|] eqn:Ha; [|done].
  destruct (random_code_group random (i + kGroupLength) kGroupLength) as [b|] eqn:Hb; [|done].
  destruct (generate_codes_from _ _ n) as [cs|] eqn:Hcs; [|done]. injection Hc as <-.
  apply random_code_group_ok in Ha as [? ?], Hb as [? ?]. apply IH in Hcs as [? ?].
  split; [simpl; lia|]. constructor; [by apply alphabet_code_shape|done].
Qed.

(** Fresh codes: as many as texts, all unused, each made from its text. *)
Lemma hash_codes_ok salts i codes out :
  hash_codes_from salts i codes = Ok out ->
  length out = length codes /\ Forall (fun c => used c = false) out /\
  forall j code, codes !! j = Some code -> exists c, out !! j = Some c /\
    hash_password (salts (i + j)%nat) code = Ok (bc_hash c).
Proof.
  revert i out. induction codes as [|code codes IH]; intros i out Ho; simpl in Ho.
  - simplify_eq. split_and!; [done|constructor|done].
  - unfold mbind, outcome_bind, mret, outcome_ret in Ho.
    destruct (hash_password (salts i) code) as [h|] eqn:Hh; [|done].
    destruct (hash_codes_from salts (S i) codes) as [t|] eqn:Ht; [|done]. injection Ho as <-.
    destruct (IH _ _ Ht) as (Hl & Hu & Hj). split_and!; [simpl; lia|by constructor|].
    intros [|j] c Hc; simpl in Hc.
    + simplify_eq. exists (mkBackupCode h false). by rewrite Nat.add_0_r.
    + destruct (Hj j c Hc) as (d & Hd & Hp). exists d. split; [done|]. by rewrite <- Nat.add_succ_comm.
Qed.

End passwords.

(** ** A concrete key derivation, for witnesses *)

Definition toy_kdf : Pbkdf2 := {|
  pbkdf2 password salt iterations :=
    Some (map (fun i => wrap8 (foldl Z.add (iterations + Z.of_nat i) (map byte_of password ++ salt))) (seq 0 32))
|}.

#[export] Instance toy_kdf_laws : Pbkdf2Laws toy_kdf.
Proof.
  split. intros password salt iterations key [= <-]. split; [done|].
  repeat (constructor; [apply Z.mod_pos_bound; done|]). constructor.
Qed.

Definition demo_salt : list Z := map Z.of_nat (seq 1 16).

Lemma verify_password_exact_witness :
  exists h key, hash_password (Kdf := toy_kdf) (Some demo_salt) "open sesame" = Ok h /\
    pbkdf2 (Pbkdf2 := toy_kdf) "guess" demo_salt kIterations = Some key /\
    verify_password (Kdf := toy_kdf) "open sesame" h = Ok true /\
    (verify_password (Kdf := toy_kdf) "guess" h = Ok true <->
       pbkdf2 (Pbkdf2 := toy_kdf) "open sesame" demo_salt kIterations = Some key) /\
    (verify_password (Kdf := toy_kdf) "guess" h = Ok false <->
       pbkdf2 (Pbkdf2 := toy_kdf) "open sesame" demo_salt kIterations <> Some key).
Proof.
  eexists _, _. split; [reflexivity|]. split; [reflexivity|].
  eapply (verify_password_exact (Kdf := toy_kdf) demo_salt).
  - repeat (apply Forall_cons; split; [split; vm_compute; [discriminate|reflexivity]|]); constructor.
  - reflexivity.
  - reflexivity.
Defined.
