(* ===== verification/Users.v ===== *)
(** * Users: the store of admin accounts

    Models [auth/user_store.cpp], operation by operation, each under the
    store's lock. Randomness, the clock and the result of writing the file
    are arguments of the operations; [file_] is the list of accounts the last
    successful write left on disk, times truncated to seconds; [YamlUsers]
    has the document and shows that loading it gives this list. *)
From S2P Require Import Prelude Text Bits Codec Passwords.

Record WebAuthnCredential := mkCredential {
  id_b64url : str;
  cred_label : str;
  cose_public_key : list Z;
  sign_count : Z;
  cred_created_at : time_point;
}.

Record UserRecord := mkUser {
  username : str;
  u_salt_hex : str;
  u_hash_hex : str;
  u_iterations : Z;
  created_at : time_point;
  totp : option str;
  backup_codes : list BackupCode;
  webauthn_credentials : list WebAuthnCredential;
  webauthn_user_handle_b64 : option str;
}.

Record UserStore := mkUserStore {
  users_ : list UserRecord;
  last_totp_step_ : gmap str Z;
  file_ : option (list UserRecord);
}.

#[export] Instance WebAuthnCredential_eq_dec : EqDecision WebAuthnCredential.
Proof. solve_decision. Defined.
#[export] Instance UserRecord_eq_dec : EqDecision UserRecord.
Proof. solve_decision. Defined.

Definition users_init : UserStore := mkUserStore [] ∅ None.
Definition with_users (us : list UserRecord) (s : UserStore) : UserStore :=
  mkUserStore us (last_totp_step_ s) (file_ s).
Definition set_user_totp (t : option str) (u : UserRecord) : UserRecord :=
  mkUser (username u) (u_salt_hex u) (u_hash_hex u) (u_iterations u) (created_at u) t
    (backup_codes u) (webauthn_credentials u) (webauthn_user_handle_b64 u).
Definition set_user_codes (c : list BackupCode) (u : UserRecord) : UserRecord :=
  mkUser (username u) (u_salt_hex u) (u_hash_hex u) (u_iterations u) (created_at u) (totp u)
    c (webauthn_credentials u) (webauthn_user_handle_b64 u).
Definition set_user_credentials (c : list WebAuthnCredential) (u : UserRecord) : UserRecord :=
  mkUser (username u) (u_salt_hex u) (u_hash_hex u) (u_iterations u) (created_at u) (totp u)
    (backup_codes u) c (webauthn_user_handle_b64 u).
Definition set_user_handle (h : option str) (u : UserRecord) : UserRecord :=
  mkUser (username u) (u_salt_hex u) (u_hash_hex u) (u_iterations u) (created_at u) (totp u)
    (backup_codes u) (webauthn_credentials u) h.
Definition set_sign_count (n : Z) (c : WebAuthnCredential) : WebAuthnCredential :=
  mkCredential (id_b64url c) (cred_label c) (cose_public_key c) n (cred_created_at c).

(** [duration_cast<seconds>] truncates towards zero. *)
Definition whole_seconds (t : time_point) : time_point := (t ÷ ns_per_s) * ns_per_s.
Definition on_disk (u : UserRecord) : UserRecord :=
  mkUser (username u) (u_salt_hex u) (u_hash_hex u) (u_iterations u) (whole_seconds (created_at u)) (totp u)
    (backup_codes u)
    (map (fun c => mkCredential (id_b64url c) (cred_label c) (cose_public_key c) (sign_count c)
                     (whole_seconds (cred_created_at c))) (webauthn_credentials u))
    (webauthn_user_handle_b64 u).

(** [find_if] over the accounts: an iterator is an index. *)
Definition find_user (name : str) (us : list UserRecord) : option nat :=
  fst <$> list_find (fun u => username u = name) us.
Definition find_credential (id : str) (cs : list WebAuthnCredential) : option nat :=
  fst <$> list_find (fun c => id_b64url c = id) cs.

Definition load : M UserStore unit := fun s =>
  (with_users (match file_ s with Some us => us | None => [] end) s, Ok tt).

Definition empty (s : UserStore) : bool := users_ s == [].

Definition find (name : str) (s : UserStore) : option UserRecord :=
  match find_user name (users_ s) with Some i => users_ s !! i | None => None end.

Definition save_locked (written : outcome unit) : M UserStore unit := fun s =>
  match written with
  | Ok _ => (mkUserStore (users_ s) (last_totp_step_ s) (Some (map on_disk (users_ s))), Ok tt)
  | Throw e => (s, Throw e)
  end.

Definition validate_new_credentials (name password : str) : outcome unit :=
  match name with
  | [] => Throw (InvalidArgument "username must not be empty")
  | _ => if (length password <? 8)%nat then Throw (InvalidArgument "password must be at least 8 characters")
         else Ok tt
  end.

Section users.
Context `{Kdf : Pbkdf2}.

Definition add_user_locked (salt : option (list Z)) (now : time_point) (written : outcome unit)
    (name password : str) : M UserStore unit := fun s =>
  if existsb (fun u => username u == name) (users_ s) then (s, Throw (InvalidArgument "username already exists"))
  else match hash_password salt password with
       | Throw e => (s, Throw e)
       | Ok hashed =>
           let user := mkUser name (salt_hex hashed) (hash_hex hashed) (iterations hashed) now None [] [] None in
           save_locked written (with_users (users_ s ++ [user]) s)
       end.

Definition create salt now written (name password : str) : M UserStore unit :=
  _ ← liftM (validate_new_credentials name password);
  add_user_locked salt now written name password.

Definition create_if_empty salt now written (name password : str) : M UserStore bool :=
  _ ← liftM (validate_new_credentials name password);
  s ← getM;
  if negb (empty s) then mret false
  else (_ ← add_user_locked salt now written name password; mret true).

Definition remove (written : outcome unit) (name : str) : M UserStore bool := fun s =>
  match find_user name (users_ s) with
  | None => (s, Ok false)
  | Some i =>
      if (length (users_ s) =? 1)%nat then
        (s, Throw (InvalidArgument "cannot remove the last remaining admin user"))
      else (_ ← save_locked written; mret true) (with_users (delete i (users_ s)) s)
  end.

Definition has_second_factor (name : str) (s : UserStore) : bool :=
  match find name s with
  | None => false
  | Some u => bool_decide (is_Some (totp u)) || negb (webauthn_credentials u == [])
  end.

Definition user_not_found : exn := InvalidArgument "user not found".

(** The secret is in place before the codes are hashed. *)
Definition set_totp (salts : nat -> option (list Z)) (written : outcome unit)
    (name secret : str) (plaintexts : list str) : M UserStore unit := fun s =>
  match find_user name (users_ s) with
  | None => (s, Throw user_not_found)
  | Some i =>
      let s1 := with_users (alter (set_user_totp (Some secret)) i (users_ s)) s in
      match hash_backup_codes salts plaintexts with
      | Throw e => (s1, Throw e)
      | Ok codes => save_locked written (with_users (alter (set_user_codes codes) i (users_ s1)) s1)
      end
  end.

Definition clear_totp (written : outcome unit) (name : str) : M UserStore unit := fun s =>
  match find_user name (users_ s) with
  | None => (s, Throw user_not_found)
  | Some i => save_locked written
                (with_users (alter (fun u => set_user_codes [] (set_user_totp None u)) i (users_ s)) s)
  end.

Definition regenerate_backup_codes (random : nat -> option Z) (salts : nat -> option (list Z))
    (written : outcome unit) (name : str) : M UserStore (list str) := fun s =>
  match find_user name (users_ s) with
  | None => (s, Throw user_not_found)
  | Some i =>
      match users_ s !! i ≫= totp with
      | None => (s, Throw (InvalidArgument "TOTP is not enabled for this user"))
      | Some _ =>
          match generate_backup_codes random 10 with
          | Throw e => (s, Throw e)
          | Ok plaintext =>
              match hash_backup_codes salts plaintext with
              | Throw e => (s, Throw e)
              | Ok codes => (_ ← save_locked written; mret plaintext)
                              (with_users (alter (set_user_codes codes) i (users_ s)) s)
              end
          end
      end
  end.

Definition consume_user_backup_code (written : outcome unit) (name candidate : str) : M UserStore bool := fun s =>
  match find_user name (users_ s) with
  | None => (s, Ok false)
  | Some i =>
      match users_ s !! i with
      | None => (s, Ok false)
      | Some u =>
          let '(codes, r) := consume_backup_code candidate (backup_codes u) in
          let s1 := with_users (alter (set_user_codes codes) i (users_ s)) s in
          match r with
          | Throw e => (s1, Throw e)
          | Ok false => (s1, Ok false)
          | Ok true => (_ ← save_locked written; mret true) s1
          end
      end
  end.

Definition consume_totp_step (name : str) (step : Z) : M UserStore bool := fun s =>
  let accept := (mkUserStore (users_ s) (<[name := step]> (last_totp_step_ s)) (file_ s), Ok true) in
  match last_totp_step_ s !! name with
  | Some last => if step <=? last then (s, Ok false) else accept
  | None => accept
  end.

Definition webauthn_user_handle (random : option (list Z)) (written : outcome unit) (name : str)
    : M UserStore str := fun s =>
  match find_user name (users_ s) with
  | None => (s, Throw user_not_found)
  | Some i =>
      match users_ s !! i ≫= webauthn_user_handle_b64 with
      | Some handle => (s, Ok handle)
      | None =>
          match random with
          | None => (s, Throw (RuntimeError "RAND_bytes failed"))
          | Some bytes =>
              (_ ← save_locked written; mret (base64url_encode bytes))
                (with_users (alter (set_user_handle (Some (base64url_encode bytes))) i (users_ s)) s)
          end
      end
  end.

Definition add_webauthn_credential (written : outcome unit) (name : str) (credential : WebAuthnCredential)
    : M UserStore unit := fun s =>
  match find_user name (users_ s) with
  | None => (s, Throw user_not_found)
  | Some i => save_locked written
      (with_users (alter (fun u => set_user_credentials (webauthn_credentials u ++ [credential]) u) i (users_ s)) s)
  end.

(** The credential lookup of the next two operations. *)
Definition locate (name id : str) (s : UserStore) : option (nat * nat) :=
  match find_user name (users_ s) with
  | None => None
  | Some i => match users_ s !! i ≫= (fun u => find_credential id (webauthn_credentials u)) with
              | Some j => Some (i, j)
              | None => None
              end
  end.

Definition remove_webauthn_credential (written : outcome unit) (name id : str) : M UserStore bool := fun s =>
  match locate name id s with
  | None => (s, Ok false)
  | Some (i, j) => (_ ← save_locked written; mret true)
      (with_users (alter (fun u => set_user_credentials (delete j (webauthn_credentials u)) u) i (users_ s)) s)
  end.

Definition update_webauthn_sign_count (written : outcome unit) (name id : str) (n : Z) : M UserStore unit := fun s =>
  match locate name id s with
  | None => (s, Ok tt)
  | Some (i, j) => save_locked written
      (with_users (alter (fun u => set_user_credentials (alter (set_sign_count n) j (webauthn_credentials u)) u)
                     i (users_ s)) s)
  end.

Definition find_by_credential_id (id : str) (s : UserStore) : option UserRecord :=
  snd <$> list_find (fun u => is_Some (find_credential id (webauthn_credentials u))) (users_ s).

(** ** Calls *)

Inductive call :=
  | CCreate (salt : option (list Z)) (now : time_point) (written : outcome unit) (name password : str)
  | CCreateIfEmpty (salt : option (list Z)) (now : time_point) (written : outcome unit) (name password : str)
  | CRemove (written : outcome unit) (name : str)
  | CSetTotp (salts : nat -> option (list Z)) (written : outcome unit) (name secret : str) (codes : list str)
  | CClearTotp (written : outcome unit) (name : str)
  | CRegenerate (random : nat -> option Z) (salts : nat -> option (list Z)) (written : outcome unit) (name : str)
  | CConsumeCode (written : outcome unit) (name candidate : str)
  | CConsumeStep (name : str) (step : Z)
  | CHandle (random : option (list Z)) (written : outcome unit) (name : str)
  | CAddCredential (written : outcome unit) (name : str) (credential : WebAuthnCredential)
  | CRemoveCredential (written : outcome unit) (name id : str)
  | CSignCount (written : outcome unit) (name id : str) (n : Z).

Inductive reply :=
  | RUnit
  | RBool (b : bool)
  | RCodes (codes : list str)
  | RHandle (handle : str).

Definition reply_of {A} (f : A -> reply) (m : M UserStore A) : M UserStore reply :=
  a ← m; mret (f a).

Definition run (c : call) : M UserStore reply :=
  match c with
  | CCreate salt now w name pw => reply_of (fun _ => RUnit) (create salt now w name pw)
  | CCreateIfEmpty salt now w name pw => reply_of RBool (create_if_empty salt now w name pw)
  | CRemove w name => reply_of RBool (remove w name)
  | CSetTotp salts w name secret codes => reply_of (fun _ => RUnit) (set_totp salts w name secret codes)
  | CClearTotp w name => reply_of (fun _ => RUnit) (clear_totp w name)
  | CRegenerate random salts w name => reply_of RCodes (regenerate_backup_codes random salts w name)
  | CConsumeCode w name cand => reply_of RBool (consume_user_backup_code w name cand)
  | CConsumeStep name step => reply_of RBool (consume_totp_step name step)
  | CHandle random w name => reply_of RHandle (webauthn_user_handle random w name)
  | CAddCredential w name cred => reply_of (fun _ => RUnit) (add_webauthn_credential w name cred)
  | CRemoveCredential w name id => reply_of RBool (remove_webauthn_credential w name id)
  | CSignCount w name id n => reply_of (fun _ => RUnit) (update_webauthn_sign_count w name id n)
  end.

(** The replies to a sequence of calls, and the store they leave. *)
Fixpoint run_all (cs : list call) (s : UserStore) : UserStore * list (call * outcome reply) :=
  match cs with
  | [] => (s, [])
  | c :: cs' =>
      let '(s1, r) := run c s in
      let '(s2, rs) := run_all cs' s1 in
      (s2, (c, r) :: rs)
  end.

(** ** What a call does to the accounts *)

(** Three ways to change the list, none of which renames an account. *)
Inductive edit : list UserRecord -> list UserRecord -> Prop :=
  | edit_none us : edit us us
  | edit_add us u : username u ∉ map username us -> username u <> [] -> edit us (us ++ [u])
  | edit_delete us i : (i < length us)%nat -> length us <> 1%nat -> edit us (delete i us)
  | edit_alter us i f : (forall u, username (f u) = username u) -> edit us (alter f i us).

(** A call that reports success without touching the accounts leaves the file
    alone, and one that changed them has written them; a call refused with
    [invalid_argument] changes nothing. *)
Definition saved (s s' : UserStore) (ok : bool) : Prop :=
  ok = true -> (users_ s' = users_ s /\ file_ s' = file_ s) \/ file_ s' = Some (map on_disk (users_ s')).

Definition write_error (written : outcome unit) : Prop :=
  match written with Throw (InvalidArgument _) => False | _ => True end.

Definition written_by (c : call) : outcome unit :=
  match c with
  | CCreate _ _ w _ _ | CCreateIfEmpty _ _ w _ _ | CRemove w _ | CSetTotp _ w _ _ _ | CClearTotp w _
  | CRegenerate _ _ w _ | CConsumeCode w _ _ | CHandle _ w _ | CAddCredential w _ _
  | CRemoveCredential w _ _ | CSignCount w _ _ _ => w
  | CConsumeStep _ _ => Ok tt
  end.

Lemma find_user_lookup name us i :
  find_user name us = Some i -> exists u, us !! i = Some u /\ username u = name.
Proof.
  unfold find_user. intros ([j u] & Hf & ->)%fmap_Some. apply list_find_Some in Hf as (? & ? & _). eauto.
Qed.

Lemma saved_change s us w s' r :
  save_locked w (with_users us s) = (s', r) ->
  users_ s' = us /\ last_totp_step_ s' = last_totp_step_ s /\ saved s s' (is_ok r) /\
  (match r with Ok _ => True | Throw e => w = Throw e end).
Proof.
  unfold save_locked. destruct w as [[]|e]; intros [= <- <-]; simpl; split_and!; try done.
  intros _. by right.
Qed.

Lemma saved_then {A} s us w (a : A) s' r :
  (_ ← save_locked w; mret a) (with_users us s) = (s', r) ->
  users_ s' = us /\ last_totp_step_ s' = last_totp_step_ s /\ saved s s' (is_ok r) /\
  (match r with Ok x => x = a | Throw e => w = Throw e end).
Proof.
  unfold mbind, M_bind. destruct (save_locked w (with_users us s)) as [s1 r1] eqn:E.
  apply saved_change in E as (? & ? & ? & ?).
  destruct r1 as [[]|e]; intros [= <- <-]; done.
Qed.

Lemma hash_password_error salt pw e : hash_password salt pw = Throw e -> exists m, e = RuntimeError m.
Proof. unfold hash_password, derive. destruct salt; [|naive_solver]. destruct (pbkdf2 _ _ _); naive_solver. Qed.

Lemma hash_codes_error salts i codes e : hash_codes_from salts i codes = Throw e -> exists m, e = RuntimeError m.
Proof.
  revert i. induction codes as [|code codes IH]; intros i; cbn [hash_codes_from]; [done|].
  unfold mbind, outcome_bind, mret, outcome_ret. destruct (hash_password (salts i) code) eqn:Eh.
  - specialize (IH (S i)). destruct (hash_codes_from salts (S i) codes); naive_solver.
  - intros [= <-]. by eapply hash_password_error.
Qed.

Lemma alter_same {A} (f : A -> A) i (l : list A) : (forall x, l !! i = Some x -> f x = x) -> alter f i l = l.
Proof.
  revert i. induction l as [|x l IH]; intros [|i] Hf; [done..| |].
  - change (alter f 0%nat (x :: l)) with (f x :: l). by rewrite Hf.
  - change (alter f (S i) (x :: l)) with (x :: alter f i l). by rewrite IH.
Qed.

(** The summary of one call. *)
Definition call_ok {A} (w : outcome unit) (s s' : UserStore) (r : outcome A) : Prop :=
  edit (users_ s) (users_ s') /\ saved s s' (is_ok r) /\
  (forall m, r = Throw (InvalidArgument m) -> write_error w -> s' = s) /\
  last_totp_step_ s' = last_totp_step_ s.

Lemma call_ok_same {A} w s (r : outcome A) : call_ok w s s r.
Proof. split_and!; [constructor|by left|done|done]. Qed.

Lemma call_ok_saved w s us s' r :
  edit (users_ s) us -> save_locked w (with_users us s) = (s', r) -> call_ok w s s' r.
Proof.
  intros He Hs. apply saved_change in Hs as (Hu & Hl & Hs & Hr). subst us. split_and!; [done|done| |done].
  intros m -> Hw. by rewrite Hr in Hw.
Qed.

Lemma call_ok_saved_then {A} w s us (a : A) s' r :
  edit (users_ s) us -> (_ ← save_locked w; mret a) (with_users us s) = (s', r) -> call_ok w s s' r.
Proof.
  intros He Hs. apply saved_then in Hs as (Hu & Hl & Hs & Hr). subst us. split_and!; [done|done| |done].
  intros m -> Hw. by rewrite Hr in Hw.
Qed.

Lemma call_ok_reply {A} w s s' r' (f : A -> reply) (m : M UserStore A) :
  (forall t r, m s = (t, r) -> call_ok w s t r) -> reply_of f m s = (s', r') -> call_ok w s s' r'.
Proof.
  intros Hm. unfold reply_of, mbind, M_bind, mret, M_ret. destruct (m s) as [t r] eqn:E.
  specialize (Hm t r eq_refl). destruct Hm as (H1 & H2 & H3 & H4).
  destruct r; intros [= <- <-]; (split_and!; [done|done| |done]); intros msg [= ->] Hw; by eapply H3.
Qed.

Lemma existsb_username name us :
  existsb (fun u => username u == name) us = false -> name ∉ map username us.
Proof.
  intros H Hin%list_elem_of_In%in_map_iff. destruct Hin as (u & <- & Hu).
  enough (existsb (fun u' => username u' == username u) us = true) by congruence.
  apply existsb_exists. exists u. split; [done|]. by apply bool_decide_eq_true.
Qed.

Lemma add_user_ok salt now w name pw s s' r :
  name <> [] -> add_user_locked salt now w name pw s = (s', r) -> call_ok w s s' r.
Proof.
  intros Hn. unfold add_user_locked. destruct (existsb _ _) eqn:He; [intros [= <- <-]; apply call_ok_same|].
  destruct (hash_password salt pw) as [h|e] eqn:Hh; [|intros [= <- <-]; apply call_ok_same].
  apply call_ok_saved. constructor; [by apply existsb_username|done].
Qed.

Ltac refused := intros [= <- <-]; apply call_ok_same.

Lemma create_ok salt now w name pw s s' r : create salt now w name pw s = (s', r) -> call_ok w s s' r.
Proof.
  unfold create, mbind, M_bind, liftM, validate_new_credentials. destruct name as [|c name]; [refused|].
  destruct (_ <? _)%nat; [refused|]. by apply add_user_ok.
Qed.

Lemma create_if_empty_ok salt now w name pw s s' r :
  create_if_empty salt now w name pw s = (s', r) -> call_ok w s s' r.
Proof.
  unfold create_if_empty, mbind, M_bind, liftM, getM, validate_new_credentials. destruct name as [|c name]; [refused|].
  destruct (_ <? _)%nat; [refused|]. destruct (negb (empty s)); [refused|].
  destruct (add_user_locked _ _ _ _ _ s) as [t1 r1] eqn:Ea.
  apply add_user_ok in Ea as (H1 & H2 & H3 & H4); [|done].
  destruct r1; intros [= <- <-]; (split_and!; [done|done| |done]); intros m [= ->] Hw; by eapply H3.
Qed.

Lemma remove_ok w name s s' r : remove w name s = (s', r) -> call_ok w s s' r.
Proof.
  unfold remove. destruct (find_user name (users_ s)) as [i|] eqn:Hf; [|refused].
  destruct (Nat.eqb_spec (length (users_ s)) 1); [refused|].
  apply call_ok_saved_then. apply find_user_lookup in Hf as (u & Hu & _).
  constructor; [by eapply lookup_lt_Some|done].
Qed.

Lemma set_totp_ok salts w name secret codes s s' r :
  set_totp salts w name secret codes s = (s', r) -> call_ok w s s' r.
Proof.
  unfold set_totp. destruct (find_user name (users_ s)) as [i|]; [|refused].
  destruct (hash_backup_codes salts codes) as [cs|e] eqn:Hh.
  - cbn [users_ with_users]. rewrite list_alter_alter_eq. intros Hs.
    eapply (call_ok_saved _ s); [|exact Hs]. by constructor.
  - intros [= <- <-]. split_and!; [by constructor|done| |done]. intros m [= ->].
    by apply hash_codes_error in Hh as (? & ?).
Qed.

(** Writing back the codes a failed attempt left unchanged. *)
Lemma put_back s i u codes :
  users_ s !! i = Some u -> codes = backup_codes u -> with_users (alter (set_user_codes codes) i (users_ s)) s = s.
Proof.
  intros Hu ->. unfold with_users. destruct s as [us steps f]. simpl in *. f_equal.
  apply alter_same. intros v Hv. rewrite Hu in Hv. injection Hv as <-. by destruct u.
Qed.

Lemma consume_user_ok w name candidate s s' r :
  consume_user_backup_code w name candidate s = (s', r) -> call_ok w s s' r.
Proof.
  unfold consume_user_backup_code. destruct (find_user name (users_ s)) as [i|]; [|refused].
  destruct (users_ s !! i) as [u|] eqn:Hu; [|refused].
  destruct (consume_backup_code candidate (backup_codes u)) as [codes r2] eqn:Hc.
  apply consume_backup_code_cases in Hc. destruct r2 as [[]|e].
  - apply call_ok_saved_then. by constructor.
  - destruct Hc as [Hc _]. rewrite (put_back s i u) by done. refused.
  - rewrite (put_back s i u) by done. refused.
Qed.

Definition is_step (c : call) : bool := if c is CConsumeStep _ _ then true else false.

Lemma run_call_ok c s s' r : is_step c = false -> run c s = (s', r) -> call_ok (written_by c) s s' r.
Proof.
  intros Hc. destruct c; try discriminate Hc; clear Hc; cbn [run written_by]; apply call_ok_reply; intros t r';
    [apply create_ok|apply create_if_empty_ok|apply remove_ok|apply set_totp_ok| | |apply consume_user_ok|..].
  - unfold clear_totp. destruct (find_user name (users_ s)) as [i|]; [|refused].
    apply call_ok_saved. by constructor.
  - unfold regenerate_backup_codes. destruct (find_user name (users_ s)) as [i|]; [|refused].
    destruct (_ ≫= _); [|refused]. destruct (generate_backup_codes _ _); [|refused].
    destruct (hash_backup_codes _ _); [|refused]. apply call_ok_saved_then. by constructor.
  - unfold webauthn_user_handle. destruct (find_user name (users_ s)) as [i|]; [|refused].
    destruct (_ ≫= _); [refused|]. destruct random; [|refused]. apply call_ok_saved_then. by constructor.
  - unfold add_webauthn_credential. destruct (find_user name (users_ s)) as [i|]; [|refused].
    apply call_ok_saved. by constructor.
  - unfold remove_webauthn_credential. destruct (locate name id s) as [[i j]|]; [|refused].
    apply call_ok_saved_then. by constructor.
  - unfold update_webauthn_sign_count. destruct (locate name id s) as [[i j]|]; [|refused].
    apply call_ok_saved. by constructor.
Qed.

(** A step is accepted when it is newer than the last one of that name. *)
Lemma run_step_cases name step s :
  exists b, (run (CConsumeStep name step) s).2 = Ok (RBool b) /\
    (b = true <-> forall last, last_totp_step_ s !! name = Some last -> last < step) /\
    (run (CConsumeStep name step) s).1 =
      mkUserStore (users_ s) (if b then <[name := step]> (last_totp_step_ s) else last_totp_step_ s) (file_ s).
Proof.
  cbn [run]. unfold reply_of, mbind, M_bind, consume_totp_step, mret, M_ret.
  destruct (last_totp_step_ s !! name) as [last|]; [destruct (Z.leb_spec step last)|].
  - exists false. split_and!; [done| |by destruct s]. split; [done|]. intros Hl. specialize (Hl last eq_refl). lia.
  - exists true. split_and!; [done| |done]. split; [|done]. intros _ ? [= <-]. lia.
  - exists true. split_and!; [done| |done]. split; [|done]. by intros _ ? ?.
Qed.

(** ** Sequences of calls *)

Definition accounts_ok (us : list UserRecord) : Prop :=
  NoDup (map username us) /\ Forall (fun n => n <> []) (map username us).

Lemma map_alter_same {A B} (g : A -> B) f i (l : list A) : (forall x, g (f x) = g x) -> map g (alter f i l) = map g l.
Proof.
  intros Hf. revert i. induction l as [|x l IH]; intros [|i]; [done..| |].
  - change (alter f 0%nat (x :: l)) with (f x :: l). simpl. by rewrite Hf.
  - change (alter f (S i) (x :: l)) with (x :: alter f i l). simpl. by rewrite IH.
Qed.

Lemma edit_accounts_ok us us' :
  edit us us' -> accounts_ok us -> accounts_ok us' /\ (us <> [] -> us' <> []).
Proof.
  intros [|? u Hu Hn|? i Hi Hl|? i f Hf] [Hd Hne].
  - done.
  - split; [split|by destruct us0].
    + rewrite map_app. apply NoDup_app. split_and!; [done| |apply NoDup_singleton].
      intros x Hx Hx'%list_elem_of_singleton. by subst x.
    + rewrite map_app. apply Forall_app. by split; [|apply Forall_singleton].
  - split; [split|].
    + eapply sublist_NoDup; [exact Hd|]. apply (fmap_sublist username), sublist_delete.
    + rewrite Forall_forall in *. intros x Hx. apply Hne.
      eapply elem_of_submseteq; [exact Hx|]. apply sublist_submseteq, (fmap_sublist username), sublist_delete.
    + intros _ E. apply (f_equal length) in E. rewrite length_delete in E; [simpl in E; lia|].
      by apply lookup_lt_is_Some_2.
  - unfold accounts_ok. rewrite !map_alter_same by done. split; [done|]. intros Hus E.
    apply (f_equal length) in E. rewrite length_alter in E. by destruct us0.
Qed.

Lemma run_all_cons c cs s :
  run_all (c :: cs) s =
    let s1 := (run c s).1 in ((run_all cs s1).1, (c, (run c s).2) :: (run_all cs s1).2).
Proof. simpl. destruct (run c s) as [s1 r]. simpl. by destruct (run_all cs s1). Qed.

Lemma run_edit c s : edit (users_ s) (users_ (run c s).1).
Proof.
  destruct (is_step c) eqn:Hc.
  - destruct c; try done. destruct (run_step_cases name step s) as (b & _ & _ & ->). constructor.
  - destruct (run c s) as [s' r] eqn:E. by apply run_call_ok in E as [? _].
Qed.

Lemma run_all_accounts_ok cs s :
  accounts_ok (users_ s) ->
  accounts_ok (users_ (run_all cs s).1) /\ (users_ s <> [] -> users_ (run_all cs s).1 <> []).
Proof.
  revert s. induction cs as [|c cs IH]; intros s Hs; [done|]. rewrite run_all_cons. simpl.
  destruct (edit_accounts_ok _ _ (run_edit c s) Hs) as [H1 H2].
  destruct (IH _ H1) as [H3 H4]. split; [done|]. intros ?. by apply H4, H2.
Qed.

(** Whatever sequence of account operations runs, with whatever failures
    of the disk, the random source or the key derivation, account names stay
    non-empty and unique, and a store that has an account never ends up with
    none: nobody can remove the last admin. *)
Theorem users_never_lock_out cs s :
  accounts_ok (users_ s) ->
  accounts_ok (users_ (run_all cs s).1) /\ (users_ s <> [] -> users_ (run_all cs s).1 <> []).
Proof. apply run_all_accounts_ok. Qed.

(** *** First-run setup *)

Definition setup_succeeded (e : call * outcome reply) : bool :=
  match e with
  | (CCreateIfEmpty _ _ _ _ _, Ok (RBool true)) => true
  | _ => false
  end.

Lemma setup_needs_empty c s :
  setup_succeeded (c, (run c s).2) = true -> users_ s = [] /\ users_ (run c s).1 <> [].
Proof.
  destruct c; try done. cbn [run]. unfold reply_of, create_if_empty, mbind, M_bind, liftM, getM.
  destruct (validate_new_credentials name password); [|done]. unfold empty, mret, M_ret.
  destruct (bool_decide_reflect (users_ s = [])) as [He|]; [|done]. simpl.
  unfold add_user_locked. destruct (existsb _ _); [done|]. destruct (hash_password salt password); [|done].
  destruct (save_locked _ _) as [s1 r1] eqn:Hs. apply saved_change in Hs as (Hu & _).
  destruct r1; [|done]. intros _. split; [done|]. simpl. rewrite Hu. by destruct (users_ s).
Qed.

(** The unauthenticated first-run setup creates at most one admin ever:
    among all calls of any interleaving at most one [create_if_empty]
    succeeds, and none does once an account exists. *)
Theorem create_if_empty_once cs s :
  accounts_ok (users_ s) ->
  (length (filter (fun e => setup_succeeded e = true) (run_all cs s).2) <= 1)%nat /\
  (users_ s <> [] -> filter (fun e => setup_succeeded e = true) (run_all cs s).2 = []).
Proof.
  revert s. induction cs as [|c cs IH]; intros s Hs; [by split; [simpl; lia|]|].
  rewrite run_all_cons. cbn [snd]. destruct (edit_accounts_ok _ _ (run_edit c s) Hs) as [H1 H2].
  destruct (IH _ H1) as [H3 H4]. rewrite filter_cons. destruct (decide _) as [E|E].
  - apply setup_needs_empty in E as [E1 E2]. cbn [snd length]. rewrite H4 by done. simpl. split; [lia|done].
  - split; [done|]. intros Hne. by apply H4, H2.
Qed.
(** *** The file *)

Definition in_sync (s : UserStore) : Prop := file_ s = Some (map on_disk (users_ s)).

(** The call succeeded, or was refused as invalid. *)
Definition settled (e : call * outcome reply) : Prop :=
  write_error (written_by e.1) /\ (is_ok e.2 = true \/ exists m, e.2 = Throw (InvalidArgument m)).

(** Every acknowledged change is on disk: while calls either succeed or
    are refused as invalid, the file holds exactly the accounts in memory
    (times in whole seconds), so a restart loads them all. *)
Theorem acknowledged_changes_saved cs s :
  in_sync s -> Forall settled (run_all cs s).2 ->
  in_sync (run_all cs s).1 /\ users_ (load (run_all cs s).1).1 = map on_disk (users_ (run_all cs s).1).
Proof.
  intros Hs Hall. assert (in_sync (run_all cs s).1) as Hsync.
  { revert s Hs Hall. induction cs as [|c cs IH]; intros s Hs Hall; [done|].
    rewrite run_all_cons in *. cbn [fst snd] in *. apply Forall_cons in Hall as [[Hw Hr] Hall].
    apply IH; [|done]. destruct (is_step c) eqn:Hc.
    { destruct c; try done. by destruct (run_step_cases name step s) as (b & _ & _ & ->). }
    destruct (run c s) as [s1 r] eqn:E. apply run_call_ok in E as (_ & Hsv & Hinv & _); [|done].
    cbn [fst snd] in *. destruct Hr as [Hr|[m Hr]].
    - destruct (Hsv Hr) as [[Hu Hf]|Hf]; [|done]. unfold in_sync. by rewrite Hu, Hf.
    - by rewrite (Hinv m Hr Hw). }
  split; [done|]. unfold load. simpl. by rewrite Hsync.
Qed.

(** *** One-time codes are accepted once *)

Definition accepted_step (name : str) (e : call * outcome reply) : option Z :=
  match e with
  | (CConsumeStep name' step, Ok (RBool true)) => if name' == name then Some step else None
  | _ => None
  end.

Lemma run_keeps_steps c s : is_step c = false -> last_totp_step_ (run c s).1 = last_totp_step_ s.
Proof. intros Hc. destruct (run c s) as [s' r] eqn:E. by apply run_call_ok in E as (_ & _ & _ & ?). Qed.

(** Acceptance for [name] records the step, which is above the last one. *)
Lemma run_accepted_step c s name :
  match accepted_step name (c, (run c s).2) with
  | Some step => last_totp_step_ (run c s).1 !! name = Some step /\
                 forall last, last_totp_step_ s !! name = Some last -> last < step
  | None => last_totp_step_ (run c s).1 !! name = last_totp_step_ s !! name
  end.
Proof.
  destruct (is_step c) eqn:Hc.
  2: { assert (accepted_step name (c, (run c s).2) = None) as -> by (by destruct c). by rewrite run_keeps_steps. }
  destruct c as [| | | | | | |name' step| | | |]; try done.
  destruct (run_step_cases name' step s) as (b & Hr & Hb & Hs). rewrite Hr, Hs. cbn [accepted_step last_totp_step_].
  destruct b; [|done]. case_bool_decide as En.
  - subst name'. rewrite lookup_insert_eq. split; [done|]. by apply Hb.
  - by rewrite lookup_insert_ne.
Qed.

(** TOTP codes cannot be replayed: over any sequence of calls the steps
    accepted for an account name strictly increase, so no step is accepted
    twice, and none at or before one accepted earlier. *)
Theorem totp_steps_increase cs s name :
  StronglySorted Z.lt (omap (accepted_step name) (run_all cs s).2) /\
  forall last step, last_totp_step_ s !! name = Some last ->
                    step ∈ omap (accepted_step name) (run_all cs s).2 -> last < step.
Proof.
  revert s. induction cs as [|c cs IH]; intros s; [split; [constructor|by intros ? ? _ ?%not_elem_of_nil]|].
  rewrite run_all_cons. cbn [snd omap list_omap]. destruct (IH (run c s).1) as [Hs Hl].
  pose proof (run_accepted_step c s name) as Ha. destruct (accepted_step name _) as [step|].
  - destruct Ha as [Ha Hb]. assert (Forall (Z.lt step) (omap (accepted_step name) (run_all cs (run c s).1).2)).
    { apply Forall_forall. intros x Hx. by apply (Hl step). }
    split; [by constructor|]. intros last x Hlast Hx. apply elem_of_cons in Hx as [->|Hx]; [by apply Hb|].
    specialize (Hb _ Hlast). specialize (Hl _ _ Ha Hx). lia.
  - rewrite Ha in Hl. by split.
Qed.
(** *** Backup codes are used once *)

(** Accounts called [name] hold at most [n] unused codes that satisfy [p]. *)
Definition held_at_most (p : BackupCode -> bool) (name : str) (n : nat) (us : list UserRecord) : Prop :=
  forall i u, us !! i = Some u -> username u = name ->
    (length (filter (fun c => p c = true) (unused (backup_codes u))) <= n)%nat.

(** Those that a text opens. *)
Definition opens (candidate : str) (c : BackupCode) : bool :=
  bool_decide (verify_password candidate (bc_hash c) = Ok true).

Definition refills (name : str) (c : call) : bool :=
  match c with
  | CSetTotp _ _ name' _ _ | CRegenerate _ _ _ name' => name' == name
  | _ => false
  end.

(** A text out of [texts] was accepted as a code of the account. *)
Definition code_accepted (texts : str -> bool) (name : str) (e : call * outcome reply) : bool :=
  match e with
  | (CConsumeCode _ name' candidate, Ok (RBool true)) => (name' == name) && texts candidate
  | _ => false
  end.

Section spending.
Context (texts : str -> bool) (p : BackupCode -> bool).
Context (texts_open : forall candidate c, texts candidate = true -> opens candidate c = true -> p c = true).
#[local] Abbreviation unused_at_most := (held_at_most p).

Lemma unused_alter name n us i f :
  (forall u, us !! i = Some u -> username (f u) = username u /\
             (username u = name -> length (filter (fun c => p c = true) (unused (backup_codes (f u)))) <=
                                   length (filter (fun c => p c = true) (unused (backup_codes u))))%nat) ->
  unused_at_most name n us -> unused_at_most name n (alter f i us).
Proof.
  intros Hf Hn j u Hj Hu. destruct (decide (i = j)) as [->|Hij].
  - rewrite list_lookup_alter_eq in Hj. apply fmap_Some in Hj as (v & Hv & ->).
    destruct (Hf v Hv) as [Hname Hle]. rewrite Hname in Hu. etransitivity; [by apply Hle|]. by eapply Hn.
  - rewrite list_lookup_alter_ne in Hj by done. by eapply Hn.
Qed.

Lemma unused_delete name n us i : unused_at_most name n us -> unused_at_most name n (delete i us).
Proof.
  intros Hn j u Hj Hu. destruct (decide (j < i)%nat).
  - rewrite list_lookup_delete_lt in Hj by done. by eapply Hn.
  - rewrite list_lookup_delete_ge in Hj by lia. by eapply Hn.
Qed.

Lemma unused_app name n us u :
  backup_codes u = [] -> unused_at_most name n us -> unused_at_most name n (us ++ [u]).
Proof.
  intros Hu Hn j v Hj Hv. apply lookup_app_Some in Hj as [Hj|[_ Hj]]; [by eapply Hn|].
  apply list_lookup_singleton_Some in Hj as [_ <-]. rewrite Hu. unfold unused. simpl. lia.
Qed.

Lemma unique_name us i j u v :
  NoDup (map username us) -> us !! i = Some u -> us !! j = Some v -> username u = username v -> i = j.
Proof.
  intros Hd Hi Hj E. eapply (NoDup_lookup (map username us) i j (username u)); [done| |].
  - by rewrite (list_lookup_fmap username), Hi.
  - by rewrite (list_lookup_fmap username), Hj, E.
Qed.

(** One attempt with a backup code. *)
Lemma consume_user_unused w name' candidate s s' r name n :
  NoDup (map username (users_ s)) -> unused_at_most name n (users_ s) ->
  consume_user_backup_code w name' candidate s = (s', r) ->
  if code_accepted texts name (CConsumeCode w name' candidate, (r ≫= fun b => Ok (RBool b)))
  then (1 <= n)%nat /\ unused_at_most name (n - 1) (users_ s') else unused_at_most name n (users_ s').
Proof.
  intros Hd Hn. unfold consume_user_backup_code.
  destruct (find_user name' (users_ s)) as [i|] eqn:Hf; [|by intros [= <- <-]].
  apply find_user_lookup in Hf as (u & Hu & Hname). rewrite Hu.
  destruct (consume_backup_code candidate (backup_codes u)) as [codes r2] eqn:Hc.
  apply consume_backup_code_cases in Hc. destruct r2 as [[]|e].
  2: { destruct Hc as [Hc _]. rewrite (put_back s i u) by done. by intros [= <- <-]. }
  2: { rewrite (put_back s i u) by done. by intros [= <- <-]. }
  destruct Hc as (k & (c & Hk & Hunused & Hv) & _ & -> & _). intros Hs. apply saved_then in Hs as (Hus & _ & _ & Hr).
  pose proof (alter_unused_filter p _ _ _ Hk Hunused) as Hlen.
  assert (unused_at_most name n (users_ s')) as Hkeep.
  { rewrite Hus. apply unused_alter; [|done]. intros v Hv'. rewrite Hu in Hv'. injection Hv' as <-.
    split; [done|]. cbn [backup_codes set_user_codes]. lia. }
  destruct r as [b|e]; [subst b|done]. cbn [mbind outcome_bind code_accepted].
  case_bool_decide as En; [|done]. destruct (texts candidate) eqn:Ht; cbn [andb]; [|done]. subst name.
  rewrite (texts_open candidate c Ht) in Hlen by (by apply bool_decide_eq_true).
  pose proof (Hn i u Hu Hname). split; [lia|]. rewrite Hus. intros j v Hj Hv'.
  destruct (decide (i = j)) as [->|Hij].
  - rewrite list_lookup_alter_eq, Hu in Hj. injection Hj as <-. cbn [backup_codes set_user_codes]. lia.
  - rewrite list_lookup_alter_ne in Hj by done. destruct Hij.
    eapply (unique_name (users_ s)); [done|done|exact Hj|]. by rewrite Hname, Hv'.
Qed.

Lemma reply_of_inv {A} (f : A -> reply) (m : M UserStore A) s s' r' :
  reply_of f m s = (s', r') -> exists r, m s = (s', r) /\ r' = (r ≫= fun a => Ok (f a)).
Proof.
  unfold reply_of, mbind, M_bind, mret, M_ret. destruct (m s) as [t r] eqn:E.
  destruct r; intros [= <- <-]; eauto.
Qed.
Lemma add_user_shape salt now w name pw s s' r :
  add_user_locked salt now w name pw s = (s', r) ->
  users_ s' = users_ s \/ exists u, users_ s' = users_ s ++ [u] /\ backup_codes u = [].
Proof.
  unfold add_user_locked. destruct (existsb _ _); [intros [= <- <-]; by left|].
  destruct (hash_password salt pw) as [h|]; [|intros [= <- <-]; by left].
  intros Hs. apply saved_change in Hs as (-> & _). right. by eexists.
Qed.

Ltac unchanged := let E := fresh in intros E; injection E as <- _; done.

Lemma unused_saved {A} w (a : A) us s s' r name n :
  unused_at_most name n us -> (_ ← save_locked w; mret a) (with_users us s) = (s', r) ->
  unused_at_most name n (users_ s').
Proof. intros Hn Hs. by apply saved_then in Hs as (-> & _). Qed.

Lemma unused_saved0 w us s s' r name n :
  unused_at_most name n us -> save_locked w (with_users us s) = (s', r) -> unused_at_most name n (users_ s').
Proof. intros Hn Hs. by apply saved_change in Hs as (-> & _). Qed.

Lemma create_unused c s name n :
  match c with CCreate _ _ _ _ _ | CCreateIfEmpty _ _ _ _ _ => True | _ => False end ->
  unused_at_most name n (users_ s) -> unused_at_most name n (users_ (run c s).1).
Proof.
  intros Hc Hn.
  assert (forall salt now w name' pw s' r, add_user_locked salt now w name' pw s = (s', r) ->
            unused_at_most name n (users_ s')) as Hadd.
  { intros salt now w name' pw s' r [->|(u & -> & Hu)]%add_user_shape; [done|by apply unused_app]. }
  destruct (run c s) as [s' r'] eqn:E. destruct c; try done; cbn [run] in E;
    apply reply_of_inv in E as (r & E & _); revert E;
    unfold create, create_if_empty, mbind, M_bind, liftM, getM, mret, M_ret;
    (destruct (validate_new_credentials _ _); [|unchanged]).
  - by apply Hadd.
  - destruct (negb (empty s)); [unchanged|]. destruct (add_user_locked _ _ _ _ _ s) as [t q] eqn:Ea.
    apply Hadd in Ea. destruct q; intros [= <- _]; done.
Qed.

(** The alterations that the remaining calls make. *)
Lemma other_account_unused name name' i us f n :
  find_user name' us = Some i -> name' <> name -> (forall u, username (f u) = username u) ->
  unused_at_most name n us -> unused_at_most name n (alter f i us).
Proof.
  intros (v & Hv & <-)%find_user_lookup Hne Hf. apply unused_alter. intros u Hu.
  rewrite Hv in Hu. injection Hu as <-. split; [done|]. done.
Qed.

Lemma edit_unused c s name n :
  match c with
  | CCreate _ _ _ _ _ | CCreateIfEmpty _ _ _ _ _ | CConsumeCode _ _ _ | CConsumeStep _ _ => False
  | _ => True
  end ->
  refills name c = false -> unused_at_most name n (users_ s) -> unused_at_most name n (users_ (run c s).1).
Proof.
  intros Hc Href Hn. destruct (run c s) as [s' r'] eqn:E.
  destruct c as [| |w name'|salts w name' secret codes|w name'|rnd salts w name'| | |rnd w name'|w name' cred|w name' id|w name' id k];
    try done; cbn [run refills fst] in *; apply reply_of_inv in E as (r & E & _); revert E.
  - unfold remove. destruct (find_user name' _) as [i|]; [|unchanged]. destruct (_ =? 1)%nat; [unchanged|].
    apply unused_saved. by apply unused_delete.
  - apply bool_decide_eq_false in Href. unfold set_totp. destruct (find_user name' _) as [i|] eqn:Hf; [|unchanged].
    destruct (hash_backup_codes salts codes).
    + cbn [users_ with_users]. rewrite list_alter_alter_eq. intros Hs. eapply unused_saved0; [|exact Hs].
      by eapply other_account_unused.
    + intros Hs. injection Hs as <- _. by eapply other_account_unused.
  - unfold clear_totp. destruct (find_user name' _) as [i|]; [|unchanged].
    apply unused_saved0. apply unused_alter; [|done]. intros u _. split; [done|]. simpl. lia.
  - apply bool_decide_eq_false in Href. unfold regenerate_backup_codes.
    destruct (find_user name' _) as [i|] eqn:Hf; [|unchanged].
    destruct (_ ≫= _); [|unchanged]. destruct (generate_backup_codes _ _); [|unchanged].
    destruct (hash_backup_codes _ _); [|unchanged]. apply unused_saved. by eapply other_account_unused.
  - unfold webauthn_user_handle. destruct (find_user name' _) as [i|]; [|unchanged].
    destruct (_ ≫= _); [unchanged|]. destruct rnd; [|unchanged]. apply unused_saved. by apply unused_alter.
  - unfold add_webauthn_credential. destruct (find_user name' _) as [i|]; [|unchanged].
    apply unused_saved0. by apply unused_alter.
  - unfold remove_webauthn_credential. destruct (locate name' id s) as [[i j]|]; [|unchanged].
    apply unused_saved. by apply unused_alter.
  - unfold update_webauthn_sign_count. destruct (locate name' id s) as [[i j]|]; [|unchanged].
    apply unused_saved0. by apply unused_alter.
Qed.

Lemma run_unused c s name n :
  accounts_ok (users_ s) -> refills name c = false -> unused_at_most name n (users_ s) ->
  if code_accepted texts name (c, (run c s).2)
  then (1 <= n)%nat /\ unused_at_most name (n - 1) (users_ (run c s).1)
  else unused_at_most name n (users_ (run c s).1).
Proof.
  intros [Hd _] Href Hn. destruct c as [| | | | | |w name' cand|name' step| | | |] eqn:Ec; rewrite <- Ec in *.
  7: { subst c. destruct (run (CConsumeCode w name' cand) s) as [s' r'] eqn:E.
       cbn [run] in E. apply reply_of_inv in E as (r & E & ->). by eapply consume_user_unused. }
  7: { subst c. destruct (run_step_cases name' step s) as (b & _ & _ & ->). done. }
  1-2: by subst c; apply create_unused.
  all: subst c; by apply edit_unused.
Qed.

Lemma run_all_unused cs s name n :
  accounts_ok (users_ s) -> Forall (fun c => refills name c = false) cs -> unused_at_most name n (users_ s) ->
  let accepted := length (filter (fun e => code_accepted texts name e = true) (run_all cs s).2) in
  (accepted <= n)%nat /\ unused_at_most name (n - accepted) (users_ (run_all cs s).1).
Proof.
  revert s n. induction cs as [|c cs IH]; intros s n Hs Href Hn.
  { simpl. split; [lia|]. by rewrite Nat.sub_0_r. }
  rewrite run_all_cons. cbn [fst snd]. apply Forall_cons in Href as [Hc Href].
  destruct (edit_accounts_ok _ _ (run_edit c s) Hs) as [H1 _].
  pose proof (run_unused c s name n Hs Hc Hn) as Hrun. rewrite filter_cons.
  destruct (code_accepted texts name (c, (run c s).2)).
  - destruct Hrun as [Hge Hrun]. destruct (IH _ _ H1 Href Hrun) as [Hle Hun].
    destruct (decide _); [|done]. simpl in *. split; [lia|].
    intros i u Hi Hu. specialize (Hun i u Hi Hu). lia.
  - destruct (decide _); [done|]. by apply IH.
Qed.
End spending.

(** C23: backup codes are single-use: until a new set is issued for the
    account, over any sequence of calls, including attempts whose write to
    disk fails, a text is accepted at most once for each unused code that it
    opens - at most once when it opens one code, and never again after that -
    and the texts accepted never outnumber the unused codes the account had. *)
Theorem backup_codes_used_once cs s name candidate n m :
  accounts_ok (users_ s) -> Forall (fun c => refills name c = false) cs ->
  held_at_most (opens candidate) name n (users_ s) -> held_at_most (fun _ => true) name m (users_ s) ->
  let accepted texts := length (filter (fun e => code_accepted texts name e = true) (run_all cs s).2) in
  let after := users_ (run_all cs s).1 in
  (accepted (fun text => text == candidate) <= n)%nat /\
  held_at_most (opens candidate) name (n - accepted (fun text => text == candidate)) after /\
  (accepted (fun _ => true) <= m)%nat /\ held_at_most (fun _ => true) name (m - accepted (fun _ => true)) after.
Proof.
  intros Hs Hcs Hn Hm accepted after. rewrite assoc by apply _. split.
  - apply run_all_unused; [|done..]. by intros text c ->%bool_decide_eq_true.
  - by apply run_all_unused.
Qed.

End users.

(** ** Witnesses *)

Definition demo_code : str := "ABCD-2345".
Definition demo_setup : list call :=
  [CCreateIfEmpty (Some demo_salt) 5 (Ok tt) "admin" "correct horse";
   CCreateIfEmpty (Some demo_salt) 6 (Ok tt) "mallory" "let me in!!";
   CSetTotp (fun _ => Some demo_salt) (Ok tt) "admin" "ABCDEFGH" [demo_code]].
Definition demo_store : UserStore := (run_all (Kdf := toy_kdf) demo_setup users_init).1.
Definition demo_attack : list call :=
  [CRemove (Ok tt) "admin"; CConsumeCode (Ok tt) "admin" demo_code; CConsumeCode (Ok tt) "admin" demo_code;
   CConsumeStep "admin" 7; CConsumeStep "admin" 7; CConsumeStep "admin" 8].

Lemma init_ok : accounts_ok (users_ users_init).
Proof. split; constructor. Qed.

Lemma demo_ok : accounts_ok (users_ demo_store).
Proof. apply (run_all_accounts_ok (Kdf := toy_kdf) demo_setup users_init init_ok). Qed.

(** What happened: the second setup and the last removal are refused, the code
    and the step are accepted once. *)
Example demo_replies :
  map snd (run_all (Kdf := toy_kdf) demo_setup users_init).2 = [Ok (RBool true); Ok (RBool false); Ok RUnit] /\
  map snd (run_all (Kdf := toy_kdf) demo_attack demo_store).2 =
    [Throw (InvalidArgument "cannot remove the last remaining admin user");
     Ok (RBool true); Ok (RBool false); Ok (RBool true); Ok (RBool false); Ok (RBool true)].
Proof. split; vm_compute; reflexivity. Qed.

Lemma users_never_lock_out_witness :
  accounts_ok (users_ demo_store) /\ users_ demo_store <> [] /\
  users_ (run_all (Kdf := toy_kdf) demo_attack demo_store).1 <> [].
Proof.
  split; [exact demo_ok|]. split; [vm_compute; discriminate|].
  apply (users_never_lock_out (Kdf := toy_kdf) demo_attack demo_store demo_ok). vm_compute. discriminate.
Defined.

Lemma create_if_empty_once_witness :
  accounts_ok (users_ users_init) /\
  (length (filter (fun e => setup_succeeded e = true) (run_all (Kdf := toy_kdf) demo_setup users_init).2) <= 1)%nat.
Proof. split; [exact init_ok|]. apply (create_if_empty_once (Kdf := toy_kdf) demo_setup users_init init_ok). Defined.

Lemma acknowledged_changes_saved_witness :
  in_sync demo_store /\ in_sync (run_all (Kdf := toy_kdf) demo_attack demo_store).1.
Proof.
  assert (in_sync demo_store) as Hs by (vm_compute; reflexivity). split; [exact Hs|].
  apply (acknowledged_changes_saved (Kdf := toy_kdf) demo_attack demo_store Hs).
  repeat (apply Forall_cons; split;
          [split; [exact I|first [left; vm_compute; reflexivity | right; eexists; vm_compute; reflexivity]]|]).
  apply Forall_nil_2.
Defined.

(** The account has one code. *)
Lemma demo_held p : held_at_most p "admin" 1 (users_ demo_store).
Proof.
  intros [|i] u Hu _; [|vm_compute in Hu; destruct i; discriminate Hu].
  vm_compute in Hu. injection Hu as <-. etransitivity; [apply length_filter|vm_compute; lia].
Qed.

Lemma backup_codes_used_once_witness :
  let accepted := length (filter (fun e => code_accepted (fun text => text == demo_code) "admin" e = true)
                            (run_all (Kdf := toy_kdf) demo_attack demo_store).2) in
  existsb (opens (Kdf := toy_kdf) demo_code) (users_ demo_store ≫= backup_codes) = true /\
  accepted = 1%nat /\ (accepted <= 1)%nat /\
  held_at_most (opens (Kdf := toy_kdf) demo_code) "admin" (1 - accepted) (users_ (run_all (Kdf := toy_kdf) demo_attack demo_store).1).
Proof.
  intros accepted. split; [vm_compute; reflexivity|]. split; [vm_compute; reflexivity|].
  assert (Forall (fun c => refills "admin" c = false) demo_attack) as Href
    by (repeat (apply Forall_cons; split; [reflexivity|]); apply Forall_nil_2).
  destruct (backup_codes_used_once (Kdf := toy_kdf) demo_attack demo_store "admin" demo_code 1 1 demo_ok Href
    (demo_held _) (demo_held _)) as (H1 & H2 & _).
  exact (conj H1 H2).
Defined.
