(* ===== verification/Tokens.v ===== *)
(** * Tokens: sessions, pending logins and WebAuthn challenges

    Models [auth/session_store.cpp], [auth/pending_mfa_store.cpp],
    [auth/pending_totp_store.cpp] and [auth/webauthn/challenge_store.cpp], one
    Module each. Every operation runs under its store's lock; the system clock
    and the random bytes are arguments. *)
From S2P Require Import Prelude Text Bits Codec.

(** [random_token_hex]: 32 random bytes in hexadecimal (two stores have a
    copy of this function). *)
Definition random_token_hex (random : option (list Z)) : outcome str :=
  match random with
  | None => Throw (RuntimeError "RAND_bytes failed")
  | Some buf => Ok (to_hex buf)
  end.

(** Different random bytes give different tokens. *)
Lemma random_token_inj a b t :
  Forall byte_val a -> Forall byte_val b ->
  random_token_hex (Some a) = Ok t -> random_token_hex (Some b) = Ok t -> a = b.
Proof.
  intros Ha Hb [= <-] [= E]. apply (f_equal from_hex) in E. rewrite !hex_round_trip in E by done. congruence.
Qed.

(** ** Maps with expiry

    What the three token maps share: entries carry an expiry time, a lookup
    refuses an expired entry, an insertion may first sweep expired ones. *)
Section expiring.
Context {V : Type} (expires : V -> time_point).

Definition live (now : time_point) (m : gmap str V) (k : str) : option V :=
  match m !! k with
  | Some v => if now >? expires v then None else Some v
  | None => None
  end.

Definition sweep (now : time_point) (m : gmap str V) : gmap str V :=
  filter (fun kv => ~ now > expires kv.2) m.

Lemma live_sweep now now' m k : now <= now' -> live now' (sweep now m) k = live now' m k.
Proof.
  intros Hle. unfold live, sweep. rewrite map_lookup_filter. destruct (m !! k) as [v|]; simpl; [|done].
  case_guard; simpl; [done|]. destruct (Z.gtb_spec now' (expires v)); [done|lia].
Qed.

(** Two maps that no lookup from [now] on tells apart. *)
Definition same_live (now : time_point) (m m' : gmap str V) : Prop :=
  forall now' k, now <= now' -> live now' m k = live now' m' k.

Lemma same_live_later now now' m m' : now <= now' -> same_live now m m' -> same_live now' m m'.
Proof. intros Hle H t k Ht. apply H. lia. Qed.

Lemma same_live_insert now m m' k v : same_live now m m' -> same_live now (<[k := v]> m) (<[k := v]> m').
Proof.
  intros H t k' Ht. unfold live. destruct (decide (k = k')) as [->|Hne]; [by rewrite !lookup_insert_eq|].
  rewrite !lookup_insert_ne by done. by apply H.
Qed.

Lemma same_live_delete now m m' k : same_live now m m' -> same_live now (delete k m) (delete k m').
Proof.
  intros H t k' Ht. unfold live. destruct (decide (k = k')) as [->|Hne]; [by rewrite !lookup_delete_eq|].
  rewrite !lookup_delete_ne by done. by apply H.
Qed.

Lemma same_live_sweep now m m' : same_live now m m' -> same_live now (sweep now m) m'.
Proof. intros H t k Ht. rewrite live_sweep by done. by apply H. Qed.

Lemma same_live_alter now m m' f k :
  (forall v, expires (f v) = expires v) -> same_live now m m' -> same_live now (alter f k m) (alter f k m').
Proof.
  intros Hf H t k' Ht. specialize (H t k' Ht). unfold live in *.
  destruct (decide (k = k')) as [->|Hne].
  - rewrite !lookup_alter_eq. destruct (m !! k') as [v|], (m' !! k') as [v'|]; cbn [fmap option_fmap option_map] in *;
      rewrite ?(Hf v), ?(Hf v'); repeat destruct (t >? _); congruence.
  - by rewrite !lookup_alter_ne.
Qed.

Lemma sweep_keeps_recent now m : forall k v, sweep now m !! k = Some v -> now <= expires v.
Proof. intros k v Hv. apply map_lookup_filter_Some in Hv as [_ Hv]. simpl in Hv. lia. Qed.
End expiring.

(** ** [SessionStore] *)
Module Sessions.

Record SessionInfo := mkInfo { info_username : str; info_needs_mfa_setup : bool }.
Record Session := mkSession { sess_username : str; needs_mfa_setup : bool; expires_at : time_point }.

Abbreviation SessionStore := (gmap str Session) (only parsing).

Definition create (random : option (list Z)) (now ttl_hours : Z) (username : str) (needs_setup : bool)
    : M SessionStore str := fun sessions_ =>
  match random_token_hex random with
  | Throw e => (sessions_, Throw e)
  | Ok token =>
      (<[token := mkSession username needs_setup (tp_add now (ttl_hours * ns_per_hour))]>
         (sweep expires_at now sessions_), Ok token)
  end.

Definition validate (now : time_point) (token : str) (sessions_ : SessionStore) : option SessionInfo :=
  match sessions_ !! token with
  | None => None
  | Some s => if now >? expires_at s then None else Some (mkInfo (sess_username s) (needs_mfa_setup s))
  end.

Definition invalidate (token : str) (sessions_ : SessionStore) : SessionStore := delete token sessions_.

Definition satisfied (s : Session) : Session := mkSession (sess_username s) false (expires_at s).

Definition mark_mfa_satisfied (token : str) (sessions_ : SessionStore) : SessionStore :=
  alter satisfied token sessions_.

Definition size (sessions_ : SessionStore) : nat := base.size sessions_.

Inductive event :=
  | ECreate (random : option (list Z)) (now ttl_hours : Z) (username : str) (needs_setup : bool)
  | EInvalidate (token : str)
  | EMark (token : str).

Definition step (e : event) (st : SessionStore) : SessionStore :=
  match e with
  | ECreate random now ttl username needs => (create random now ttl username needs st).1
  | EInvalidate token => invalidate token st
  | EMark token => mark_mfa_satisfied token st
  end.

(** The specification: a token's session is what the last [create] that
    returned it stored, unless it was logged out since, with the flag cleared
    by any [mark_mfa_satisfied] since; nothing is ever swept. *)
Definition spec_step (token : str) (e : event) (cur : option Session) : option Session :=
  match e with
  | ECreate random now ttl username needs =>
      if random_token_hex random == Ok token
      then Some (mkSession username needs (tp_add now (ttl * ns_per_hour))) else cur
  | EInvalidate token' => if token' == token then None else cur
  | EMark token' => if token' == token then satisfied <$> cur else cur
  end.

Definition spec_session (token : str) (es : list event) : option Session :=
  foldl (fun cur e => spec_step token e cur) None es.

(** Times at which the sweeping operation ran. *)
Definition event_times (es : list event) : list Z :=
  omap (fun e => match e with ECreate _ now _ _ _ => Some now | _ => None end) es.

Definition never_swept (es : list event) : SessionStore :=
  foldl (fun st e => match e with
                     | ECreate random now ttl u needs =>
                         match random_token_hex random with
                         | Ok token => <[token := mkSession u needs (tp_add now (ttl * ns_per_hour))]> st
                         | Throw _ => st
                         end
                     | EInvalidate token => invalidate token st
                     | EMark token => mark_mfa_satisfied token st
                     end) ∅ es.

Lemma never_swept_spec es token : never_swept es !! token = spec_session token es.
Proof.
  induction es as [|e es IH] using rev_ind; [done|].
  unfold never_swept, spec_session in *. rewrite !foldl_app. cbn [foldl]. rewrite <- IH.
  destruct e as [random now ttl u needs|token'|token']; cbn [spec_step].
  - destruct (random_token_hex random) as [tok|e]; [|by rewrite bool_decide_eq_false_2].
    case_bool_decide as E; [injection E as ->; by rewrite lookup_insert_eq|]. rewrite lookup_insert_ne; congruence.
  - unfold invalidate. case_bool_decide as E; [subst; by rewrite lookup_delete_eq|]. by rewrite lookup_delete_ne.
  - unfold mark_mfa_satisfied. case_bool_decide as E; [subst; by rewrite lookup_alter_eq|]. by rewrite lookup_alter_ne.
Qed.

Lemma run_same_live es now :
  StronglySorted Z.le (event_times es) -> Forall (fun t => t <= now) (event_times es) ->
  same_live expires_at now (foldl (fun st e => step e st) ∅ es) (never_swept es).
Proof.
  revert now. induction es as [|e es IH] using rev_ind; intros now Hs Hf; [done|].
  unfold event_times in Hs, Hf. rewrite omap_app in Hs, Hf.
  unfold never_swept. rewrite !foldl_app. cbn [foldl]. fold (never_swept es).
  apply Forall_app in Hf as [Hf1 Hf2]. pose proof (StronglySorted_app_1_l _ _ _ Hs) as Hs1.
  destruct e as [random t ttl u needs|token|token]; cbn [step].
  - simpl in Hf2. apply Forall_inv in Hf2.
    assert (Forall (fun x => x <= t) (event_times es)) as Ht.
    { apply Forall_forall. intros x Hx. eapply (StronglySorted_app_1_elem_of Z.le); [exact Hs|done|]. simpl. set_solver. }
    unfold create. destruct (random_token_hex random) as [tok|]; simpl; [|by apply IH].
    apply same_live_insert. apply (same_live_later _ t); [exact Hf2|]. apply same_live_sweep. by apply IH.
  - apply same_live_delete. by apply IH.
  - apply same_live_alter; [done|]. by apply IH.
Qed.

(** C24: a session token is valid exactly while it should be: after any
    operations in clock order, [validate] accepts a token if and only if a
    [create] returned it, it was not logged out since and its lifetime has
    not run out; it reports that login's user, and the pending-enrolment flag
    as last set. The sweeping of expired sessions is invisible. *)
Theorem validate_exact es now token :
  StronglySorted Z.le (event_times es) -> Forall (fun t => t <= now) (event_times es) ->
  validate now token (foldl (fun st e => step e st) ∅ es) =
  match spec_session token es with
  | Some s => if now >? expires_at s then None else Some (mkInfo (sess_username s) (needs_mfa_setup s))
  | None => None
  end.
Proof.
  intros Hs Hf. pose proof (run_same_live es now Hs Hf now token ltac:(lia)) as H.
  unfold live in H. rewrite never_swept_spec in H. unfold validate.
  destruct (_ !! token) as [s|], (spec_session token es) as [s'|]; try done.
  - repeat destruct (now >? _); try done. by injection H as ->.
  - by destruct (now >? expires_at s).
  - by destruct (now >? expires_at s').
Qed.

Definition demo_bytes : list Z := map Z.of_nat (seq 1 32).
Definition demo_token : str := to_hex demo_bytes.
Definition demo_events : list event :=
  [ECreate (Some demo_bytes) 1000 12 "admin" true; EMark demo_token; ECreate (Some [7]) 2000 12 "eve" false;
   EInvalidate (to_hex [7])].

Lemma validate_exact_witness :
  sorted_le (event_times demo_events) = true /\
  validate 3000 demo_token (foldl (fun st e => step e st) ∅ demo_events) = Some (mkInfo "admin" false).
Proof.
  split; [reflexivity|]. etransitivity; [apply (validate_exact demo_events 3000 demo_token)|].
  - apply sorted_le_sound. reflexivity.
  - repeat (apply Forall_cons; split; [lia|]). apply Forall_nil_2.
  - vm_compute. reflexivity.
Defined.

End Sessions.

(** ** [PendingMfaStore] *)
Module Mfa.

Record Entry := mkEntry { mfa_username : str; expires_at : time_point }.
Abbreviation PendingMfaStore := (gmap str Entry) (only parsing).

Definition create (random : option (list Z)) (now ttl_minutes : Z) (username : str)
    : M PendingMfaStore str := fun pending_ =>
  match random_token_hex random with
  | Throw e => (pending_, Throw e)
  | Ok token => (<[token := mkEntry username (tp_add now (ttl_minutes * ns_per_min))]>
                   (sweep expires_at now pending_), Ok token)
  end.

Definition validate (now : time_point) (token : str) (pending_ : PendingMfaStore) : option str :=
  match pending_ !! token with
  | None => None
  | Some e => if now >? expires_at e then None else Some (mfa_username e)
  end.

Definition invalidate (token : str) (pending_ : PendingMfaStore) : PendingMfaStore := delete token pending_.

Definition size (pending_ : PendingMfaStore) : nat := base.size pending_.

(** A token is honoured until its expiry, by its own login only. *)
Lemma create_validate random now ttl user st st' token :
  create random now ttl user st = (st', Ok token) ->
  forall now', validate now' token st' =
    if now' >? tp_add now (ttl * ns_per_min) then None else Some user.
Proof.
  unfold create. destruct (random_token_hex random) as [t|]; intros [= <- <-] now'.
  unfold validate. by rewrite lookup_insert_eq.
Qed.

Lemma create_other random now ttl user st st' token other now' :
  create random now ttl user st = (st', Ok token) -> other <> token -> now <= now' ->
  validate now' other st' = validate now' other st.
Proof.
  unfold create. destruct (random_token_hex random) as [t|]; intros [= <- <-] Hne Hle.
  pose proof (live_sweep expires_at now now' st other Hle) as H. unfold live in H.
  unfold validate. rewrite lookup_insert_ne by done.
  destruct (sweep expires_at now st !! other), (st !! other); try done;
    repeat destruct (now' >? _); congruence.
Qed.

Lemma invalidate_gone token st now : validate now token (invalidate token st) = None.
Proof. unfold validate, invalidate. by rewrite lookup_delete_eq. Qed.

End Mfa.

(** ** [PendingTotpStore] *)
Module PendingTotp.

Record Entry := mkEntry { secret_base32 : str; expires_at : time_point }.
Abbreviation PendingTotpStore := (gmap str Entry) (only parsing).

Definition start (now ttl_minutes : Z) (username secret : str) (pending_ : PendingTotpStore) : PendingTotpStore :=
  <[username := mkEntry secret (tp_add now (ttl_minutes * ns_per_min))]> pending_.

Definition secret_for (now : time_point) (username : str) (pending_ : PendingTotpStore) : option str :=
  match pending_ !! username with
  | None => None
  | Some e => if now >? expires_at e then None else Some (secret_base32 e)
  end.

Definition clear (username : str) (pending_ : PendingTotpStore) : PendingTotpStore := delete username pending_.

(** Only the newest enrolment of an account is pending, until its expiry. *)
Lemma secret_for_start now ttl user secret st now' user' :
  secret_for now' user' (start now ttl user secret st) =
  if user' == user then (if now' >? tp_add now (ttl * ns_per_min) then None else Some secret)
  else secret_for now' user' st.
Proof.
  unfold secret_for, start. case_bool_decide as E.
  - subst. by rewrite lookup_insert_eq.
  - by rewrite lookup_insert_ne.
Qed.

Lemma secret_for_clear user st now : secret_for now user (clear user st) = None.
Proof. unfold secret_for, clear. by rewrite lookup_delete_eq. Qed.

End PendingTotp.

(** ** [ChallengeStore] *)
Module Challenges.

Record Entry := mkEntry { challenge : list Z; expires_at : time_point }.
Record Stamp := mkStamp { key : str; stamp_expires_at : time_point }.
Record ChallengeStore := mkStore { entries_ : gmap str Entry; order_ : list Stamp }.

Definition kMaxEntries : Z := 10000.
Definition challenges_init : ChallengeStore := mkStore ∅ [].

(** [it != end && it->second.expires_at == oldest.expires_at] *)
Definition erase_stamped (oldest : Stamp) (entries : gmap str Entry) : gmap str Entry :=
  match entries !! key oldest with
  | Some e => if expires_at e =? stamp_expires_at oldest then delete (key oldest) entries else entries
  | None => entries
  end.

(** The [while] loop of [start]; each round pops the front stamp. *)
Fixpoint evict (now : time_point) (order : list Stamp) (entries : gmap str Entry) : ChallengeStore :=
  match order with
  | [] => mkStore entries []
  | oldest :: order' =>
      if (Z.of_nat (length order) >? kMaxEntries) || (stamp_expires_at oldest <=? now)
      then evict now order' (erase_stamped oldest entries)
      else mkStore entries order
  end.

Definition start (now ttl_minutes : Z) (k : str) (c : list Z) (st : ChallengeStore) : ChallengeStore :=
  let expires := tp_add now (ttl_minutes * ns_per_min) in
  evict now (order_ st ++ [mkStamp k expires]) (<[k := mkEntry c expires]> (entries_ st)).

Definition consume (now : time_point) (k : str) (st : ChallengeStore) : ChallengeStore * option (list Z) :=
  match entries_ st !! k with
  | None => (st, None)
  | Some entry =>
      (mkStore (delete k (entries_ st)) (order_ st), if now >? expires_at entry then None else Some (challenge entry))
  end.

Definition size (st : ChallengeStore) : nat := base.size (entries_ st).

Inductive event :=
  | EStart (now ttl_minutes : Z) (k : str) (c : list Z)
  | EConsume (now : Z) (k : str).

(** The results of the [consume] calls of a sequence of operations, and the
    store it leaves. *)
Fixpoint run (es : list event) (st : ChallengeStore) : ChallengeStore * list (str * option (list Z)) :=
  match es with
  | [] => (st, [])
  | EStart now ttl k c :: es' => run es' (start now ttl k c st)
  | EConsume now k :: es' =>
      let '(st1, r) := consume now k st in
      let '(st2, rs) := run es' st1 in (st2, (k, r) :: rs)
  end.

(** *** The store is bounded *)

(** Every entry has its stamp queued. *)
Definition stamped (st : ChallengeStore) : Prop :=
  forall k e, entries_ st !! k = Some e -> mkStamp k (expires_at e) ∈ order_ st.

Definition bounded (st : ChallengeStore) : Prop :=
  stamped st /\ Z.of_nat (length (order_ st)) <= kMaxEntries.

Lemma erase_stamped_sub oldest m k e : erase_stamped oldest m !! k = Some e -> m !! k = Some e.
Proof.
  unfold erase_stamped. destruct (m !! key oldest) as [e'|] eqn:E; [|done].
  destruct (_ =? _); [|done]. by intros [_ ?]%lookup_delete_Some.
Qed.

Lemma erase_stamped_spares oldest m k e :
  m !! k = Some e -> oldest <> mkStamp k (expires_at e) -> erase_stamped oldest m !! k = Some e.
Proof.
  intros Hk Hne. unfold erase_stamped. destruct (m !! key oldest) as [e'|] eqn:E; [|done].
  destruct (Z.eqb_spec (expires_at e') (stamp_expires_at oldest)) as [Ex|]; [|done].
  rewrite lookup_delete_ne; [done|]. intros Hkey. apply Hne.
  rewrite Hkey in E. rewrite E in Hk. injection Hk as ->. destruct oldest. simpl in *. by subst.
Qed.

Lemma erase_stamped_erases oldest m e :
  erase_stamped oldest m !! key oldest = Some e -> expires_at e <> stamp_expires_at oldest.
Proof.
  unfold erase_stamped. destruct (m !! key oldest) as [e'|] eqn:E; [|by rewrite E].
  destruct (Z.eqb_spec (expires_at e') (stamp_expires_at oldest)); [by rewrite lookup_delete_eq|].
  rewrite E. by intros [= <-].
Qed.

Lemma evict_bounded now order m :
  (forall k e, m !! k = Some e -> mkStamp k (expires_at e) ∈ order) -> bounded (evict now order m).
Proof.
  revert m. induction order as [|oldest order IH]; intros m Hm; cbn [evict].
  - split; [done|]. simpl. unfold kMaxEntries. lia.
  - destruct ((Z.of_nat (length (oldest :: order)) >? kMaxEntries) || (stamp_expires_at oldest <=? now)) eqn:Ec.
    + apply IH. intros k e He. pose proof (Hm k e (erase_stamped_sub _ _ _ _ He)) as Hin.
      apply elem_of_cons in Hin as [Hin|Hin]; [|done]. subst oldest.
      by apply erase_stamped_erases in He.
    + split; [done|]. apply orb_false_iff in Ec as [Ec _]. cbn [order_]. lia.
Qed.

Lemma start_bounded now ttl k c st : bounded st -> bounded (start now ttl k c st).
Proof.
  intros [Hst _]. apply evict_bounded. intros k' e He. apply elem_of_snoc.
  destruct (decide (k = k')) as [->|Hne].
  - rewrite lookup_insert_eq in He. injection He as <-. by right.
  - rewrite lookup_insert_ne in He by done. left. by apply Hst.
Qed.

Lemma consume_bounded now k st : bounded st -> bounded (consume now k st).1.
Proof.
  intros [Hst Hlen]. unfold consume. destruct (entries_ st !! k); [|by split]. split; [|done].
  intros k2 e2. cbn [fst entries_ order_]. intros [_ He]%lookup_delete_Some. by apply Hst.
Qed.

Lemma run_bounded es st : bounded st -> bounded (run es st).1.
Proof.
  revert st. induction es as [|[now ttl k c|now k] es IH]; intros st Hst; [done| |]; cbn [run].
  - by apply IH, start_bounded.
  - pose proof (consume_bounded now k st Hst). destruct (consume now k st) as [st1 r].
    specialize (IH st1). destruct (run es st1). by apply IH.
Qed.

Lemma bounded_size st : bounded st -> Z.of_nat (size st) <= kMaxEntries.
Proof.
  intros [Hst Hlen]. pose proof (dom_size_le (entries_ st) (map key (order_ st))) as H.
  rewrite length_map in H. unfold size. etransitivity; [|exact Hlen]. apply inj_le, H.
  intros k e He. apply list_elem_of_fmap. eexists. split; [|by apply Hst]. done.
Qed.

(** *** A challenge is used once *)

Definition started (k : str) (e : event) : bool := if e is EStart _ _ k' _ then k' == k else false.
Definition succeeded (k : str) (r : str * option (list Z)) : bool := (r.1 == k) && bool_decide (is_Some r.2).

Lemma succeeded_other k k' r : k' <> k -> succeeded k (k', r) = false.
Proof. intros Hne. unfold succeeded. simpl. by rewrite bool_decide_eq_false_2. Qed.

Lemma succeeded_none k k' : succeeded k (k', None) = false.
Proof. unfold succeeded. simpl. by rewrite andb_false_r. Qed.

Lemma evict_sub now order m k e : entries_ (evict now order m) !! k = Some e -> m !! k = Some e.
Proof.
  revert m. induction order as [|oldest order IH]; intros m; cbn [evict]; [done|].
  destruct (_ || _); [|done]. intros He%IH. by eapply erase_stamped_sub.
Qed.

Lemma run_successes k es st :
  (length (filter (fun r => succeeded k r = true) (run es st).2) <=
   length (filter (fun e => started k e = true) es) + (if entries_ st !! k is Some _ then 1 else 0))%nat.
Proof.
  revert st. induction es as [|[now ttl k' c|now k'] es IH]; intros st; [simpl; lia| |]; cbn [run].
  - specialize (IH (start now ttl k' c st)). rewrite filter_cons. cbn [started].
    case_bool_decide as E; destruct (decide _) as [Et|Et]; try done; cbn [length].
    + destruct (entries_ (start now ttl k' c st) !! k); lia.
    + destruct (entries_ (start now ttl k' c st) !! k) eqn:Es; [|lia]. apply evict_sub in Es.
      rewrite lookup_insert_ne in Es by done. rewrite Es. lia.
  - rewrite filter_cons. destruct (decide (started k (EConsume now k') = true)); [done|].
    unfold consume. destruct (entries_ st !! k') as [e|] eqn:Ek.
    + specialize (IH (mkStore (delete k' (entries_ st)) (order_ st))). destruct (run es _) as [st2 rs].
      cbn [snd entries_] in *. rewrite filter_cons. destruct (decide (k' = k)) as [->|Hne].
      * rewrite lookup_delete_eq in IH. rewrite Ek. destruct (decide _); cbn [length]; lia.
      * rewrite lookup_delete_ne in IH by done. rewrite succeeded_other by done.
        destruct (decide _); [done|]. lia.
    + specialize (IH st). destruct (run es st) as [st2 rs]. cbn [snd] in *.
      rewrite filter_cons, succeeded_none. destruct (decide _); [done|]. lia.
Qed.

(** WebAuthn challenges are single-use and bounded: from an empty store,
    over any operations at any times, a key's challenge is handed out at most
    as often as one was started for it, and however fast challenges are
    requested the store never holds more than 10,000 entries or queue stamps. *)
Theorem challenges_single_use_bounded es k :
  let st := (run es challenges_init).1 in
  (length (filter (fun r => succeeded k r = true) (run es challenges_init).2) <=
   length (filter (fun e => started k e = true) es))%nat /\
  Z.of_nat (size st) <= kMaxEntries /\ Z.of_nat (length (order_ st)) <= kMaxEntries.
Proof.
  intros st. assert (bounded st) as Hb.
  { apply run_bounded. split; [by intros ? ? ?|]. simpl. unfold kMaxEntries. lia. }
  split_and!; [|by apply bounded_size|by destruct Hb].
  pose proof (run_successes k es challenges_init) as H. simpl in H. by rewrite lookup_empty, Nat.add_0_r in H.
Qed.

(** *** A challenge is there when the browser answers *)

(** The challenge is stored, and its stamp is queued with [suf] behind it. *)
Definition kept (k : str) (c : list Z) (exp : time_point) (suf : list Stamp) (st : ChallengeStore) : Prop :=
  entries_ st !! k = Some (mkEntry c exp) /\
  exists pre, order_ st = pre ++ mkStamp k exp :: suf /\ mkStamp k exp ∉ pre.

Lemma evict_kept now k c exp pre suf m :
  m !! k = Some (mkEntry c exp) -> mkStamp k exp ∉ pre -> now < exp ->
  Z.of_nat (S (length suf)) <= kMaxEntries ->
  kept k c exp suf (evict now (pre ++ mkStamp k exp :: suf) m).
Proof.
  intros Hm Hpre Hnow Hlen. revert m Hm. induction pre as [|oldest pre IH]; intros m Hm; cbn [app evict].
  - replace (_ || _) with false; [split; [done|]; by exists []|].
    symmetry. apply orb_false_iff. rewrite Z.gtb_ltb. split; [apply Z.ltb_ge|apply Z.leb_gt]; [exact Hlen|exact Hnow].
  - apply not_elem_of_cons in Hpre as [Hne Hpre]. destruct (_ || _).
    + apply IH; [done|]. by apply erase_stamped_spares.
    + split; [done|]. exists (oldest :: pre). split; [done|]. by apply not_elem_of_cons.
Qed.

(** Operations of other logins, at times before the expiry. *)
Definition elsewhere (k : str) (exp : time_point) (e : event) : Prop :=
  match e with
  | EStart now _ k' _ => k' <> k /\ now < exp
  | EConsume _ k' => k' <> k
  end.

Definition is_start (e : event) : bool := if e is EStart _ _ _ _ then true else false.

Lemma run_kept k c exp es suf st :
  Forall (elsewhere k exp) es -> kept k c exp suf st ->
  Z.of_nat (S (length suf + length (filter (fun e => is_start e = true) es))) <= kMaxEntries ->
  exists suf', kept k c exp suf' (run es st).1.
Proof.
  intros He. revert suf st. induction He as [|e es He Hes IH]; intros suf st Hk Hlen; [by exists suf|].
  rewrite filter_cons in Hlen. destruct e as [now ttl k' c'|now k']; cbn [run is_start] in *.
  - destruct (decide _); [|done]. cbn [length] in Hlen. destruct He as [Hne Hlt], Hk as (Hm & pre & Ho & Hpre).
    apply (IH (suf ++ [mkStamp k' (tp_add now (ttl * ns_per_min))])); [|rewrite length_app; cbn [length]; lia].
    unfold start. rewrite Ho, <- app_assoc. cbn [app]. apply evict_kept; [by rewrite lookup_insert_ne|done|done|].
    rewrite length_app. cbn [length]. lia.
  - destruct (decide _) as [Ed|_]; [discriminate Ed|]. specialize (IH suf (consume now k' st).1).
    destruct (consume now k' st) as [st1 r] eqn:Ec. cbn [fst] in IH.
    assert (kept k c exp suf st1) as Hk1.
    { destruct Hk as [Hm Ho]. unfold consume in Ec. destruct (entries_ st !! k'); [|by simplify_eq].
      injection Ec as <- _. split; [|done]. cbn [entries_]. by rewrite lookup_delete_ne. }
    destruct (run es st1) as [st2 rs]. by apply IH.
Qed.

(** A login ceremony is not disturbed by others: the challenge started for
    a key is returned to the first [consume] of that key up to and including
    its expiry, provided fewer than 10,000 ceremonies are started meanwhile,
    whatever else the store is asked to do. *)
Theorem challenge_survives st now ttl k c es now' :
  let exp := tp_add now (ttl * ns_per_min) in
  now < exp -> mkStamp k exp ∉ order_ st -> Forall (elsewhere k exp) es ->
  Z.of_nat (S (length (filter (fun e => is_start e = true) es))) <= kMaxEntries -> now' <= exp ->
  (consume now' k (run es (start now ttl k c st)).1).2 = Some c.
Proof.
  intros exp Hexp Hfresh Hes Hlen Hnow.
  destruct (run_kept k c exp es [] (start now ttl k c st) Hes) as (suf & Hm & _); [|exact Hlen|].
  - unfold start. apply evict_kept; [by rewrite lookup_insert_eq|done|done|]. simpl. unfold kMaxEntries. lia.
  - unfold consume. rewrite Hm. cbn [expires_at challenge snd]. destruct (Z.gtb_spec now' exp); [lia|done].
Qed.

Definition demo_events : list event := [EStart 200 2 "mallory" [9]; EConsume 300 "mallory"; EConsume 400 "bob"].

Lemma challenge_survives_witness :
  let exp := tp_add 100 (2 * ns_per_min) in
  100 < exp /\ Forall (elsewhere "alice" exp) demo_events /\
  (consume exp "alice" (run demo_events (start 100 2 "alice" [1; 2; 3] challenges_init)).1).2 = Some [1; 2; 3].
Proof.
  intros exp. assert (100 < exp) as H1 by (vm_compute; reflexivity).
  assert (Forall (elsewhere "alice" exp) demo_events) as H2.
  { repeat (apply Forall_cons; split; [first [split; [discriminate|vm_compute; reflexivity]|discriminate]|]).
    apply Forall_nil_2. }
  split; [exact H1|]. split; [exact H2|].
  apply (challenge_survives challenges_init 100 2 "alice" [1; 2; 3] demo_events exp H1).
  - apply not_elem_of_nil.
  - exact H2.
  - vm_compute. discriminate.
  - apply Z.le_refl.
Defined.

End Challenges.
