(* ===== verification/BlacklistOps.v ===== *)
(** * BlacklistOps: editing the blacklist and the whitelist

    Models [config/blacklist_ops.cpp]: the category names, adding, removing,
    clearing and importing entries of every list. The functions mutate a
    configuration and may throw: they are transformers of [RuntimeConfig].
    Boost's address parser is the interface [AsioIp] of [Net]. *)
From S2P Require Import Prelude Text Net Config Checks.

Inductive BlacklistCategory :=
  | Ips | Routes | Countries | Isps | UserAgents | Referrers | BodyPatterns | FakeRoutes.

#[export] Instance BlacklistCategory_eq_dec : EqDecision BlacklistCategory.
Proof. solve_decision. Defined.

Definition parse_blacklist_category (name : str) : option BlacklistCategory :=
  if name == lit "ips" then Some Ips
  else if name == lit "routes" then Some Routes
  else if name == lit "countries" then Some Countries
  else if name == lit "isps" then Some Isps
  else if name == lit "user_agents" then Some UserAgents
  else if name == lit "referrers" then Some Referrers
  else if name == lit "body_patterns" then Some BodyPatterns
  else if name == lit "fake_routes" then Some FakeRoutes
  else None.

Definition blacklist_category_name (category : BlacklistCategory) : str :=
  match category with
  | Ips => "ips" | Routes => "routes" | Countries => "countries" | Isps => "isps"
  | UserAgents => "user_agents" | Referrers => "referrers" | BodyPatterns => "body_patterns"
  | FakeRoutes => "fake_routes"
  end.

(** [list_for] returns a reference: reading and writing through it. *)
Definition list_for (config : RuntimeConfig) (category : BlacklistCategory) : outcome (list BlacklistEntry) :=
  match category with
  | Routes => Ok (routes (blacklist config))
  | Countries => Ok (countries (blacklist config))
  | Isps => Ok (isps (blacklist config))
  | UserAgents => Ok (user_agents (blacklist config))
  | Referrers => Ok (referrers (blacklist config))
  | BodyPatterns => Ok (body_patterns (blacklist config))
  | FakeRoutes => Ok (fake_routes (blacklist config))
  | Ips => Throw (LogicError "list_for called with Ips category")
  end.

Definition set_list_for (category : BlacklistCategory) (v : list BlacklistEntry) (config : RuntimeConfig)
    : RuntimeConfig :=
  let set := match category with
             | Routes => set_routes v | Countries => set_countries v | Isps => set_isps v
             | UserAgents => set_user_agents v | Referrers => set_referrers v
             | BodyPatterns => set_body_patterns v | FakeRoutes => set_fake_routes v
             | Ips => fun b => b
             end in
  set_blacklist (set (blacklist config)) config.

(** [list.push_back] unless some element has the value. *)
Definition push_unique (now : time_point) (value created_by source : str) (l : list BlacklistEntry)
    : list BlacklistEntry :=
  if existsb (fun e => Config.value e == value) l then l else l ++ [mkEntry value now created_by source].

Definition erase_value (value : str) (l : list BlacklistEntry) : list BlacklistEntry :=
  filter (fun e => Config.value e <> value) l.

Definition set_source (s : str) (r : CidrRange) : CidrRange :=
  mkCidrRange (cidr_prefix r) (cidr_prefix_len r) (cidr_text r) (cidr_created_at r) s.

Section blacklist_ops.
Context `{Asio : AsioIp}.

Definition add_ip_to (now : time_point) (exact_list : list BlacklistEntry) (cidr_list : list CidrRange)
    (value created_by source : str) : outcome (list BlacklistEntry * list CidrRange) :=
  if bool_decide (is_Some (find_char "/" value)) then
    match parse_cidr now value with
    | None => Throw (InvalidArgument ("not a valid CIDR range: " ++ value))
    | Some range =>
        let range := set_source source range in
        if existsb (fun r => cidr_text r == cidr_text range) cidr_list then Ok (exact_list, cidr_list)
        else Ok (exact_list, cidr_list ++ [range])
    end
  else match make_address value with
       | None => Throw (InvalidArgument ("not a valid IP address: " ++ value))
       | Some _ => Ok (push_unique now value created_by source exact_list, cidr_list)
       end.

Definition remove_ip_from (exact_list : list BlacklistEntry) (cidr_list : list CidrRange) (value : str)
    : list BlacklistEntry * list CidrRange :=
  (erase_value value exact_list, filter (fun r => cidr_text r <> value) cidr_list).

Definition set_blacklist_ips (p : list BlacklistEntry * list CidrRange) (config : RuntimeConfig) : RuntimeConfig :=
  set_blacklist (set_ip_cidrs p.2 (set_ip_exact p.1 (blacklist config))) config.
Definition set_whitelist_ips (p : list BlacklistEntry * list CidrRange) (config : RuntimeConfig) : RuntimeConfig :=
  set_whitelist (set_wl_ip_cidrs p.2 (set_wl_ip_exact p.1 (whitelist config))) config.

Definition add_ip (now : time_point) (value created_by source : str) : M RuntimeConfig unit := fun config =>
  match add_ip_to now (ip_exact (blacklist config)) (ip_cidrs (blacklist config)) value created_by source with
  | Ok p => (set_blacklist_ips p config, Ok tt)
  | Throw e => (config, Throw e)
  end.

Definition remove_ip (value : str) (config : RuntimeConfig) : RuntimeConfig :=
  set_blacklist_ips (remove_ip_from (ip_exact (blacklist config)) (ip_cidrs (blacklist config)) value) config.

Definition empty_value : exn := InvalidArgument "value must not be empty".

Definition add_blacklist_entry (now : time_point) (category : BlacklistCategory) (value created_by source : str)
    : M RuntimeConfig unit := fun config =>
  match value with
  | [] => (config, Throw empty_value)
  | front :: _ =>
      if category == Ips then add_ip now value created_by source config
      else if (category == FakeRoutes) && (front != "/"%char) then
        (config, Throw (InvalidArgument "fake route must start with '/'"))
      else match list_for config category with
           | Throw e => (config, Throw e)
           | Ok list => (set_list_for category (push_unique now value created_by source list) config, Ok tt)
           end
  end.

Definition remove_blacklist_entry (category : BlacklistCategory) (value : str) : M RuntimeConfig unit := fun config =>
  if category == Ips then (remove_ip value config, Ok tt)
  else match list_for config category with
       | Throw e => (config, Throw e)
       | Ok list => (set_list_for category (erase_value value list) config, Ok tt)
       end.

Definition clear_blacklist_category (category : BlacklistCategory) : M RuntimeConfig unit := fun config =>
  if category == Ips then (set_blacklist_ips ([], []) config, Ok tt)
  else match list_for config category with
       | Throw e => (config, Throw e)
       | Ok _ => (set_list_for category [] config, Ok tt)
       end.

(** The lines the loop visits: from [pos] to the next newline, until [pos]
    passes the end; fuel: every round consumes a character or is the last. *)
Fixpoint list_lines (fuel : nat) (text : str) : list str :=
  match fuel with
  | O => []
  | S fuel' => match find_char nl text with
               | None => [text]
               | Some newline => take newline text :: list_lines fuel' (drop (S newline) text)
               end
  end.

Definition skip_line (line : str) : bool :=
  match line with [] => true | c :: _ => c == "#"%char end.

(** The lines [on_line] is called with. *)
Definition each_list_line (text : str) : list str :=
  filter (fun line => skip_line line = false) (map (trim_by isspace) (list_lines (S (length text)) text)).

Record ImportResult := mkImport { added : Z; skipped : Z }.

(** The import loop: [invalid_argument] is counted, anything else escapes. *)
Fixpoint import_lines (add : nat -> str -> M RuntimeConfig unit) (i : nat) (lines : list str) (result : ImportResult)
    : M RuntimeConfig ImportResult := fun config =>
  match lines with
  | [] => (config, Ok result)
  | line :: lines' =>
      match add i line config with
      | (config', Ok _) => import_lines add (S i) lines' (mkImport (added result + 1) (skipped result)) config'
      | (config', Throw (InvalidArgument _)) =>
          import_lines add (S i) lines' (mkImport (added result) (skipped result + 1)) config'
      | (config', Throw e) => (config', Throw e)
      end
  end.

(** [clock i] is the time at which the [i]-th line is added. *)
Definition import_blacklist_entries (clock : nat -> time_point) (category : BlacklistCategory)
    (text created_by : str) : M RuntimeConfig ImportResult :=
  import_lines (fun i line => add_blacklist_entry (clock i) category line created_by "list") 0
    (each_list_line text) (mkImport 0 0).

Definition add_whitelist_entry (now : time_point) (value created_by source : str) : M RuntimeConfig unit := fun config =>
  match value with
  | [] => (config, Throw empty_value)
  | _ => match add_ip_to now (wl_ip_exact (whitelist config)) (wl_ip_cidrs (whitelist config)) value created_by source with
         | Ok p => (set_whitelist_ips p config, Ok tt)
         | Throw e => (config, Throw e)
         end
  end.

Definition remove_whitelist_entry (value : str) (config : RuntimeConfig) : RuntimeConfig :=
  set_whitelist_ips (remove_ip_from (wl_ip_exact (whitelist config)) (wl_ip_cidrs (whitelist config)) value) config.

Definition clear_whitelist (config : RuntimeConfig) : RuntimeConfig := set_whitelist_ips ([], []) config.

Definition import_whitelist_entries (clock : nat -> time_point) (text created_by : str)
    : M RuntimeConfig ImportResult :=
  import_lines (fun i line => add_whitelist_entry (clock i) line created_by "list") 0
    (each_list_line text) (mkImport 0 0).

Definition add_whitelist_route_entry (now : time_point) (value created_by source : str)
    : M RuntimeConfig unit := fun config =>
  match value with
  | [] => (config, Throw empty_value)
  | _ => (set_whitelist (set_wl_routes (push_unique now value created_by source (wl_routes (whitelist config)))
            (whitelist config)) config, Ok tt)
  end.

Definition remove_whitelist_route_entry (value : str) (config : RuntimeConfig) : RuntimeConfig :=
  set_whitelist (set_wl_routes (erase_value value (wl_routes (whitelist config))) (whitelist config)) config.

Definition clear_whitelist_routes (config : RuntimeConfig) : RuntimeConfig :=
  set_whitelist (set_wl_routes [] (whitelist config)) config.

Definition import_whitelist_route_entries (clock : nat -> time_point) (text created_by : str)
    : M RuntimeConfig ImportResult :=
  import_lines (fun i line => add_whitelist_route_entry (clock i) line created_by "list") 0
    (each_list_line text) (mkImport 0 0).

(** ** The lists as sets of texts

    Every list is one [listing]; its abstract value is the set of the texts
    on it. *)

Inductive listing := LBlack (category : BlacklistCategory) | LWhiteIps | LWhiteRoutes.

#[local] Instance listing_eq_dec : EqDecision listing.
Proof. solve_decision. Defined.

Definition ip_texts (p : list BlacklistEntry * list CidrRange) : list str :=
  map Config.value p.1 ++ map cidr_text p.2.

Definition black_ips (c : RuntimeConfig) := (ip_exact (blacklist c), ip_cidrs (blacklist c)).
Definition white_ips (c : RuntimeConfig) := (wl_ip_exact (whitelist c), wl_ip_cidrs (whitelist c)).

Definition texts_of (l : listing) (c : RuntimeConfig) : list str :=
  match l with
  | LBlack Ips => ip_texts (black_ips c)
  | LBlack category => match list_for c category with Ok es => map Config.value es | Throw _ => [] end
  | LWhiteIps => ip_texts (white_ips c)
  | LWhiteRoutes => map Config.value (wl_routes (whitelist c))
  end.

Definition has_slash (v : str) : bool := bool_decide (is_Some (find_char "/" v)).

Definition valid_ip_text (v : str) : bool :=
  if has_slash v then bool_decide (is_Some (parse_cidr 0 v)) else bool_decide (is_Some (make_address v)).

(** What a list accepts. *)
Definition valid (l : listing) (v : str) : bool :=
  match v with
  | [] => false
  | front :: _ => match l with
                  | LBlack Ips | LWhiteIps => valid_ip_text v
                  | LBlack FakeRoutes => front == "/"%char
                  | _ => true
                  end
  end.

(** The addresses an IP text stands for. *)
Definition denotes (v : str) (a : address) : bool :=
  if has_slash v then match parse_cidr 0 v with Some r => address_in_cidr a r | None => false end
  else v == to_string a.

Definition op_add (l : listing) (now : time_point) (v created_by source : str) : M RuntimeConfig unit :=
  match l with
  | LBlack category => add_blacklist_entry now category v created_by source
  | LWhiteIps => add_whitelist_entry now v created_by source
  | LWhiteRoutes => add_whitelist_route_entry now v created_by source
  end.

Definition op_remove (l : listing) (v : str) (c : RuntimeConfig) : RuntimeConfig :=
  match l with
  | LBlack category => (remove_blacklist_entry category v c).1
  | LWhiteIps => remove_whitelist_entry v c
  | LWhiteRoutes => remove_whitelist_route_entry v c
  end.

Definition op_clear (l : listing) (c : RuntimeConfig) : RuntimeConfig :=
  match l with
  | LBlack category => (clear_blacklist_category category c).1
  | LWhiteIps => clear_whitelist c
  | LWhiteRoutes => clear_whitelist_routes c
  end.

Definition op_import (l : listing) (clock : nat -> time_point) (text created_by : str)
    : M RuntimeConfig ImportResult :=
  match l with
  | LBlack category => import_blacklist_entries clock category text created_by
  | LWhiteIps => import_whitelist_entries clock text created_by
  | LWhiteRoutes => import_whitelist_route_entries clock text created_by
  end.

(** A range on a list is what its text parses to. *)
Definition range_from_text (r : CidrRange) : Prop :=
  has_slash (cidr_text r) = true /\
  exists r0, parse_cidr 0 (cidr_text r) = Some r0 /\ cidr_prefix r = cidr_prefix r0 /\
             cidr_prefix_len r = cidr_prefix_len r0.

Definition ips_ok (p : list BlacklistEntry * list CidrRange) : Prop :=
  Forall (fun e => has_slash (Config.value e) = false) p.1 /\ Forall range_from_text p.2.

Definition lists_ok (c : RuntimeConfig) : Prop :=
  ips_ok (black_ips c) /\ ips_ok (white_ips c) /\
  forall l, NoDup (texts_of l c) /\ Forall (fun v => valid l v = true) (texts_of l c).

Lemma lists_ok_default : lists_ok default_config.
Proof. split_and!; [by split|by split|]. intros [[]| |]; split; constructor. Qed.

Lemma parse_cidr_now now v :
  parse_cidr now v = (fun r => make_cidr (cidr_prefix r) (cidr_prefix_len r) (cidr_text r) now) <$> parse_cidr 0 v.
Proof. unfold parse_cidr. repeat case_match; done. Qed.

Lemma elem_of_values (l : list BlacklistEntry) v :
  existsb (fun e => Config.value e == v) l = true <-> v ∈ map Config.value l.
Proof.
  rewrite existsb_exists, list_elem_of_In, in_map_iff. split; intros (e & H1 & H2); exists e; case_bool; split; try done.
  by apply bool_decide_eq_true.
Qed.

Lemma elem_of_cidr_texts (l : list CidrRange) v :
  existsb (fun r => cidr_text r == v) l = true <-> v ∈ map cidr_text l.
Proof.
  rewrite existsb_exists, list_elem_of_In, in_map_iff. split; intros (e & H1 & H2); exists e; case_bool; split; try done.
  by apply bool_decide_eq_true.
Qed.

(** [push_unique] and [erase_value] on the texts. *)
Lemma push_unique_texts now v by_ src l :
  map Config.value (push_unique now v by_ src l) =
  if existsb (fun e => Config.value e == v) l then map Config.value l else map Config.value l ++ [v].
Proof. unfold push_unique. destruct (existsb _ l); [done|]. by rewrite map_app. Qed.

Lemma map_filter_value {A} (f : A -> str) v (l : list A) :
  map f (filter (fun e => f e <> v) l) = filter (fun t => t <> v) (map f l).
Proof.
  induction l as [|x l IH]; [done|]. cbn [map]. rewrite !filter_cons.
  repeat destruct (decide _); try done. cbn [map]. by rewrite IH.
Qed.

(** The abstract effect of adding and of removing. *)
Definition added_to (v : str) (old new : list str) : Prop :=
  (NoDup old -> NoDup new) /\ forall t, t ∈ new <-> t = v \/ t ∈ old.
Definition removed_from (v : str) (old new : list str) : Prop :=
  (NoDup old -> NoDup new) /\ forall t, t ∈ new <-> t <> v /\ t ∈ old.

Lemma push_unique_added now v by_ src l :
  added_to v (map Config.value l) (map Config.value (push_unique now v by_ src l)).
Proof.
  rewrite push_unique_texts. destruct (existsb _ l) eqn:E.
  - apply elem_of_values in E. split; [done|]. intros t. split; [by right|]. by intros [->|].
  - assert (v ∉ map Config.value l) as Hv by (rewrite <- elem_of_values; congruence).
    split; [|intros t; rewrite elem_of_snoc; tauto]. intros Hd. apply NoDup_app. split_and!; [done| |apply NoDup_singleton].
    intros t Ht ->%list_elem_of_singleton. done.
Qed.

Lemma filter_removed v (l : list str) : removed_from v l (filter (fun t => t <> v) l).
Proof. split; [intros; by apply NoDup_filter|]. intros t. by rewrite list_elem_of_filter. Qed.

Lemma added_app_l v old new (k : list str) : added_to v old new -> v ∉ k -> added_to v (old ++ k) (new ++ k).
Proof.
  intros [Hd Hm] Hv. split.
  - intros (H1 & H2 & H3)%NoDup_app. apply NoDup_app. split_and!; [by apply Hd| |done].
    intros t [->|Ht]%Hm; [done|by apply H2].
  - intros t. rewrite !elem_of_app, Hm. tauto.
Qed.

Lemma added_app_r v old new (k : list str) : added_to v old new -> v ∉ k -> added_to v (k ++ old) (k ++ new).
Proof.
  intros [Hd Hm] Hv. split.
  - intros (H1 & H2 & H3)%NoDup_app. apply NoDup_app. split_and!; [done| |by apply Hd].
    intros t Ht [->|Hn]%Hm; [done|by apply (H2 t)].
  - intros t. rewrite !elem_of_app, Hm. tauto.
Qed.

Lemma cidr_texts_slash cidrs v : Forall range_from_text cidrs -> v ∈ map cidr_text cidrs -> has_slash v = true.
Proof.
  rewrite Forall_forall. intros Hr (r & <- & Hin)%list_elem_of_In%in_map_iff.
  by destruct (Hr r) as [? _]; [apply list_elem_of_In|].
Qed.

Lemma exact_no_slash exact v :
  Forall (fun e => has_slash (Config.value e) = false) exact -> v ∈ map Config.value exact -> has_slash v = false.
Proof.
  rewrite Forall_forall. intros Hr (e & <- & Hin)%list_elem_of_In%in_map_iff. by apply Hr, list_elem_of_In.
Qed.

Lemma add_ip_to_spec now p v by_ src :
  ips_ok p ->
  match add_ip_to now p.1 p.2 v by_ src with
  | Ok p' => valid_ip_text v = true /\ ips_ok p' /\ added_to v (ip_texts p) (ip_texts p')
  | Throw e => valid_ip_text v = false /\ exists m, e = InvalidArgument m
  end.
Proof.
  destruct p as [exact cidrs]. intros [He Hc]. cbn [fst snd] in *. unfold add_ip_to, valid_ip_text.
  fold (has_slash v). destruct (has_slash v) eqn:Hs.
  - rewrite parse_cidr_now. destruct (parse_cidr 0 v) as [r|] eqn:Hr; cbn [fmap option_fmap option_map]; [|eauto].
    assert (cidr_text r = v) as Hv.
    { unfold parse_cidr in Hr. repeat case_match; simplify_eq; done. }
    cbn [cidr_text set_source make_cidr]. rewrite Hv. rewrite bool_decide_eq_true_2 by eauto.
    assert (v ∉ map Config.value exact) as Hx by (intros Hin%(exact_no_slash _ _ He); congruence).
    destruct (existsb _ cidrs) eqn:Ein.
    + apply elem_of_cidr_texts in Ein. split_and!; [done|done|]. apply added_app_r; [|done].
      split; [done|]. intros t. split; [by right|]. by intros [->|].
    + split_and!; [done| |].
      * split; [done|]. cbn [snd]. apply Forall_app. split; [done|]. apply Forall_singleton.
        split; [done|]. cbn. eauto.
      * apply added_app_r; [|done]. cbn [snd]. rewrite map_app. cbn.
        assert (v ∉ map cidr_text cidrs) as Hn by (rewrite <- elem_of_cidr_texts; congruence).
        split; [|intros t; rewrite elem_of_snoc; tauto]. intros Hd. apply NoDup_app.
        split_and!; [done| |apply NoDup_singleton]. intros t Ht ->%list_elem_of_singleton. done.
  - destruct (make_address v) as [x|] eqn:Hm; [|eauto]. rewrite bool_decide_eq_true_2 by eauto.
    split_and!; [done| |].
    + split; [|done]. cbn [fst]. unfold push_unique. destruct (existsb _ exact); [done|].
      apply Forall_app. split; [done|]. by apply Forall_singleton.
    + apply added_app_l; [apply push_unique_added|]. intros Hin%(cidr_texts_slash _ _ Hc). congruence.
Qed.

Lemma remove_ip_from_spec p v :
  ips_ok p -> ips_ok (remove_ip_from p.1 p.2 v) /\ removed_from v (ip_texts p) (ip_texts (remove_ip_from p.1 p.2 v)).
Proof.
  destruct p as [exact cidrs]. intros [He Hc]. split.
  - split; by apply Forall_filter_le.
  - unfold ip_texts, remove_ip_from, erase_value. cbn [fst snd]. rewrite !map_filter_value, <- filter_app.
    apply filter_removed.
Qed.

(** ** The operations *)

Lemma frame_add l l' now v by_ src c : l' <> l -> texts_of l' (op_add l now v by_ src c).1 = texts_of l' c.
Proof.
  intros Hne. destruct l as [category| |]; cbn [op_add].
  - unfold add_blacklist_entry. destruct v as [|front v]; [done|]. case_bool_decide as Ei.
    + subst. unfold add_ip. destruct (add_ip_to _ _ _ _ _ _); [|done].
      by destruct l' as [[]| |].
    + destruct (_ && _); [done|].
      destruct category; try done; cbn [list_for]; by destruct l' as [[]| |].
  - unfold add_whitelist_entry. destruct v; [done|]. destruct (add_ip_to _ _ _ _ _ _); [|done].
    by destruct l' as [[]| |].
  - unfold add_whitelist_route_entry. destruct v; [done|]. by destruct l' as [[]| |].
Qed.

Lemma frame_remove l l' v c : l' <> l -> texts_of l' (op_remove l v c) = texts_of l' c.
Proof. intros Hne. destruct l as [[]| |], l' as [[]| |]; done. Qed.

Lemma frame_clear l l' c : l' <> l -> texts_of l' (op_clear l c) = texts_of l' c.
Proof. intros Hne. destruct l as [[]| |], l' as [[]| |]; done. Qed.

(** Adding: the text joins the list, or the call is refused. *)
Lemma add_effect l now v by_ src c c' r :
  lists_ok c -> op_add l now v by_ src c = (c', r) ->
  if valid l v
  then r = Ok tt /\ added_to v (texts_of l c) (texts_of l c') /\ ips_ok (black_ips c') /\ ips_ok (white_ips c')
  else c' = c /\ exists m, r = Throw (InvalidArgument m).
Proof.
  intros (Hb & Hw & _). destruct v as [|front v].
  { destruct l; intros [= <- <-]; simpl; eauto. }
  destruct l as [category| |]; cbn [op_add valid].
  - unfold add_blacklist_entry. case_bool_decide as Ei.
    + subst category. unfold add_ip. pose proof (add_ip_to_spec now (black_ips c) (front :: v) by_ src Hb) as Hspec.
      cbn [black_ips fst snd] in Hspec. destruct (add_ip_to _ _ _ _ _ _) as [p|e]; intros [= <- <-].
      * destruct Hspec as (-> & Hp & Ha). split_and!; try done; by destruct p.
      * destruct Hspec as (-> & m & ->). eauto.
    + destruct category; try done; cbn [list_for bool_decide andb]; try
        (intros [= <- <-]; split_and!; try done; apply push_unique_added).
      rewrite (bool_decide_eq_true_2 (FakeRoutes = FakeRoutes)) by done. cbn [andb].
      destruct (front == "/"%char); cbn [negb]; intros [= <- <-]; [|eauto].
      split_and!; try done; apply push_unique_added.
  - unfold add_whitelist_entry. pose proof (add_ip_to_spec now (white_ips c) (front :: v) by_ src Hw) as Hspec.
    cbn [white_ips fst snd] in Hspec. destruct (add_ip_to _ _ _ _ _ _) as [p|e]; intros [= <- <-].
    + destruct Hspec as (-> & Hp & Ha). split_and!; try done; by destruct p.
    + destruct Hspec as (-> & m & ->). eauto.
  - unfold add_whitelist_route_entry. intros [= <- <-]. split_and!; try done; apply push_unique_added.
Qed.

Lemma add_lists_ok l now v by_ src c : lists_ok c -> lists_ok (op_add l now v by_ src c).1.
Proof.
  intros Hok. destruct (op_add l now v by_ src c) as [c' r] eqn:E.
  pose proof (add_effect l now v by_ src c c' r Hok E) as Heff. cbn [fst].
  destruct (valid l v) eqn:Hv; [|by destruct Heff as [-> _]].
  destruct Heff as (_ & [Hd Hm] & Hb & Hw), Hok as (_ & _ & Hl). split_and!; [done|done|]. intros l'.
  destruct (Hl l') as [Hd' Hf']. destruct (decide (l' = l)) as [->|Hne].
  - split; [by apply Hd|]. rewrite Forall_forall in *. intros t [->|Ht]%Hm; [done|by apply Hf'].
  - pose proof (frame_add l l' now v by_ src c Hne) as Hfr. rewrite E in Hfr. cbn [fst] in Hfr. by rewrite Hfr.
Qed.

Lemma erase_removed v l : removed_from v (map Config.value l) (map Config.value (erase_value v l)).
Proof. unfold erase_value. rewrite map_filter_value. apply filter_removed. Qed.

Lemma remove_effect l v c :
  lists_ok c ->
  removed_from v (texts_of l c) (texts_of l (op_remove l v c)) /\
  ips_ok (black_ips (op_remove l v c)) /\ ips_ok (white_ips (op_remove l v c)).
Proof.
  intros (Hb & Hw & _). destruct (remove_ip_from_spec _ v Hb), (remove_ip_from_spec _ v Hw).
  destruct l as [[]| |]; cbn; split_and!; try done; apply erase_removed.
Qed.

Lemma clear_effect l c :
  lists_ok c -> texts_of l (op_clear l c) = [] /\ ips_ok (black_ips (op_clear l c)) /\ ips_ok (white_ips (op_clear l c)).
Proof.
  intros (Hb & Hw & _). assert (ips_ok ([], [])) by by split.
  destruct l as [[]| |]; cbn; split_and!; done.
Qed.

Lemma remove_lists_ok l v c : lists_ok c -> lists_ok (op_remove l v c).
Proof.
  intros Hok. destruct (remove_effect l v c Hok) as ([Hd Hm] & Hb & Hw). destruct Hok as (_ & _ & Hl).
  split_and!; [done|done|]. intros l'. destruct (Hl l') as [Hd' Hf'].
  destruct (decide (l' = l)) as [->|Hne]; [|by rewrite frame_remove].
  split; [by apply Hd|]. rewrite Forall_forall in *. intros t [_ Ht]%Hm. by apply Hf'.
Qed.

Lemma clear_lists_ok l c : lists_ok c -> lists_ok (op_clear l c).
Proof.
  intros Hok. destruct (clear_effect l c Hok) as (He & Hb & Hw). destruct Hok as (_ & _ & Hl).
  split_and!; [done|done|]. intros l'.
  destruct (decide (l' = l)) as [->|Hne]; [|by rewrite frame_clear]. rewrite He. split; constructor.
Qed.

(** ** Imports *)

Definition count_valid (l : listing) (lines : list str) : Z :=
  Z.of_nat (length (filter (fun v => valid l v = true) lines)).

Lemma import_lines_effect l clock by_ i lines acc c :
  lists_ok c ->
  let m := import_lines (fun i line => op_add l (clock i) line by_ "list") i lines acc c in
  lists_ok m.1 /\
  m.2 = Ok (mkImport (added acc + count_valid l lines)
                     (skipped acc + (Z.of_nat (length lines) - count_valid l lines))) /\
  (forall v, v ∈ texts_of l m.1 <-> v ∈ texts_of l c \/ (valid l v = true /\ v ∈ lines)) /\
  (forall l', l' <> l -> texts_of l' m.1 = texts_of l' c).
Proof.
  revert i acc c. induction lines as [|line lines IH]; intros i acc c Hok.
  - cbn. split_and!; [done| | |done].
    + destruct acc. f_equal. unfold count_valid. cbn. f_equal; lia.
    + intros v. split; [by left|]. by intros [?|[_ ?%not_elem_of_nil]].
  - cbn [import_lines]. pose proof (add_effect l (clock i) line by_ "list" c) as Heff.
    pose proof (add_lists_ok l (clock i) line by_ "list" c Hok) as Hok'.
    pose proof (fun l' => frame_add l l' (clock i) line by_ "list" c) as Hfr.
    destruct (op_add l (clock i) line by_ "list" c) as [c' r]. cbn [fst] in *.
    specialize (Heff c' r Hok eq_refl). unfold count_valid. rewrite filter_cons.
    destruct (valid l line) eqn:Hv.
    + destruct Heff as (-> & [_ Hm] & _ & _). destruct (decide _); [|done].
      destruct (IH (S i) (mkImport (added acc + 1) (skipped acc)) c' Hok') as (H1 & H2 & H3 & H4).
      split_and!; [exact H1| | |intros l' Hne; by rewrite H4, Hfr].
      * rewrite H2. cbn [added skipped length]. unfold count_valid. do 2 f_equal; lia.
      * intros v. rewrite H3, Hm, elem_of_cons. naive_solver.
    + destruct Heff as (-> & m & ->). destruct (decide _); [done|].
      destruct (IH (S i) (mkImport (added acc) (skipped acc + 1)) c Hok) as (H1 & H2 & H3 & H4).
      split_and!; [exact H1| | |done].
      * rewrite H2. cbn [added skipped length]. unfold count_valid. do 2 f_equal; lia.
      * intros v. rewrite H3, elem_of_cons. naive_solver.
Qed.

Lemma op_import_lines l clock text by_ c :
  op_import l clock text by_ c =
  import_lines (fun i line => op_add l (clock i) line by_ "list") 0 (each_list_line text) (mkImport 0 0) c.
Proof. by destruct l. Qed.

(** ** Checks read the lists by what the texts stand for *)

Lemma first_hit_existsb {A} (p : A -> bool) (l : list A) rest :
  first_hit p (fun _ => true) rest l = existsb p l || rest.
Proof. induction l as [|x l IH]; [done|]. simpl. destruct (p x); [done|exact IH]. Qed.

Definition listed (p : list BlacklistEntry * list CidrRange) (a : address) : bool :=
  existsb (fun e => Config.value e == to_string a) p.1 || existsb (fun r => address_in_cidr a r) p.2.

Lemma same_range_same_addresses r r0 a :
  cidr_prefix r = cidr_prefix r0 -> cidr_prefix_len r = cidr_prefix_len r0 ->
  address_in_cidr a r = address_in_cidr a r0.
Proof. unfold address_in_cidr. by intros -> ->. Qed.

Lemma listed_denotes p a :
  ips_ok p -> listed p a = true <-> exists v, v ∈ ip_texts p /\ denotes v a = true.
Proof.
  destruct p as [exact cidrs]. intros [He Hc]. unfold listed, ip_texts, denotes. cbn [fst snd] in *.
  pose proof (proj1 (Forall_forall _ _) He) as He'. pose proof (proj1 (Forall_forall _ _) Hc) as Hc'.
  clear He Hc. rename He' into He, Hc' into Hc. rewrite orb_true_iff, !existsb_exists. split.
  - intros [(e & Hin & Hv)|(r & Hin & Hr)]; apply list_elem_of_In in Hin.
    + exists (Config.value e). rewrite (He e Hin). split; [|done]. apply elem_of_app. left.
      apply list_elem_of_fmap. eauto.
    + destruct (Hc r Hin) as (Hs & r0 & Hp & H1 & H2). exists (cidr_text r). rewrite Hs, Hp.
      split; [apply elem_of_app; right; apply list_elem_of_fmap; eauto|].
      by rewrite <- (same_range_same_addresses r r0).
  - intros (v & [Hv|Hv]%elem_of_app & Hd); apply list_elem_of_In, in_map_iff in Hv as (x & <- & Hin).
    + left. exists x. split; [done|]. by rewrite (He x) in Hd by by apply list_elem_of_In.
    + right. exists x. split; [done|]. destruct (Hc x) as (Hs & r0 & Hp & H1 & H2); [by apply list_elem_of_In|].
      rewrite Hs, Hp in Hd. by rewrite (same_range_same_addresses x r0).
Qed.

Lemma check_ip_listed c a : blocked (check_ip_blacklist (blacklist c) a) = listed (black_ips c) a.
Proof.
  unfold check_ip_blacklist, listed. cbn [black_ips fst snd].
  induction (ip_exact (blacklist c)) as [|e es IH]; cbn [first_hit existsb].
  - induction (ip_cidrs (blacklist c)) as [|r rs IH]; [done|]. cbn [first_hit existsb]. by destruct (address_in_cidr a r).
  - by destruct (Config.value e == to_string a).
Qed.

Lemma whitelisted_listed c a : is_ip_whitelisted (whitelist c) a = listed (white_ips c) a.
Proof. unfold is_ip_whitelisted, listed. by rewrite !first_hit_existsb, orb_false_r. Qed.

(** ** Sequences of operations *)

Inductive op :=
  | OAdd (l : listing) (now : time_point) (v created_by source : str)
  | ORemove (l : listing) (v : str)
  | OClear (l : listing)
  | OImport (l : listing) (clock : nat -> time_point) (text created_by : str).

Definition run_op (c : RuntimeConfig) (o : op) : RuntimeConfig :=
  match o with
  | OAdd l now v by_ src => (op_add l now v by_ src c).1
  | ORemove l v => op_remove l v c
  | OClear l => op_clear l c
  | OImport l clock text by_ => (op_import l clock text by_ c).1
  end.

(** The specification: a set of texts per list. *)
Definition spec_op (sets : listing -> gset str) (o : op) : listing -> gset str := fun l =>
  match o with
  | OAdd l' _ v _ _ => if bool_decide (l = l') && valid l v then {[v]} ∪ sets l else sets l
  | ORemove l' v => if bool_decide (l = l') then sets l ∖ {[v]} else sets l
  | OClear l' => if bool_decide (l = l') then ∅ else sets l
  | OImport l' _ text _ =>
      if bool_decide (l = l') then sets l ∪ list_to_set (filter (fun v => valid l v = true) (each_list_line text))
      else sets l
  end.

Lemma run_op_refines c o sets :
  lists_ok c -> (forall l v, v ∈ texts_of l c <-> v ∈ sets l) ->
  lists_ok (run_op c o) /\ forall l v, v ∈ texts_of l (run_op c o) <-> v ∈ spec_op sets o l.
Proof.
  intros Hok Hsets. destruct o as [l' now t by_ src|l' t|l'|l' clock text by_]; cbn [run_op spec_op].
  - split; [by apply add_lists_ok|]. intros l v. destruct (decide (l = l')) as [->|Hne].
    + rewrite bool_decide_eq_true_2 by done. destruct (op_add l' now t by_ src c) as [c' r] eqn:E.
      pose proof (add_effect _ _ _ _ _ _ _ _ Hok E) as Heff. cbn [fst andb]. destruct (valid l' t).
      * destruct Heff as (_ & [_ Hm] & _). rewrite Hm, Hsets. set_solver.
      * destruct Heff as [-> _]. apply Hsets.
    + rewrite bool_decide_eq_false_2, frame_add by done. apply Hsets.
  - split; [by apply remove_lists_ok|]. intros l v. destruct (decide (l = l')) as [->|Hne].
    + rewrite bool_decide_eq_true_2 by done. destruct (remove_effect l' t c Hok) as ([_ Hm] & _).
      rewrite Hm, Hsets. set_solver.
    + rewrite bool_decide_eq_false_2, frame_remove by done. apply Hsets.
  - split; [by apply clear_lists_ok|]. intros l v. destruct (decide (l = l')) as [->|Hne].
    + rewrite bool_decide_eq_true_2 by done. destruct (clear_effect l' c Hok) as (-> & _). set_solver.
    + rewrite bool_decide_eq_false_2, frame_clear by done. apply Hsets.
  - rewrite op_import_lines.
    destruct (import_lines_effect l' clock by_ 0 (each_list_line text) (mkImport 0 0) c Hok) as (H1 & _ & H3 & H4).
    split; [done|]. intros l v. destruct (decide (l = l')) as [->|Hne].
    + rewrite bool_decide_eq_true_2 by done. rewrite H3, Hsets, elem_of_union, elem_of_list_to_set, list_elem_of_filter. done.
    + rewrite bool_decide_eq_false_2, H4 by done. apply Hsets.
Qed.

(** C26: the lists behave as sets: after any sequence of additions, removals,
    clears and imports on a default configuration, each list holds each text
    of its specification set once and nothing else, invalid texts never enter,
    and no operation touches another list. The IP blacklist check then blocks,
    and the IP whitelist spares, exactly the addresses some listed text
    denotes: itself for an address, its network for a range. *)
Theorem lists_refine_sets os :
  let c := foldl run_op default_config os in
  let sets := foldl spec_op (fun _ => ∅) os in
  (forall l, NoDup (texts_of l c) /\ list_to_set (texts_of l c) = sets l /\
             forall v, v ∈ sets l -> valid l v = true) /\
  (forall a, blocked (check_ip_blacklist (blacklist c) a) = true <->
             exists v, v ∈ sets (LBlack Ips) /\ denotes v a = true) /\
  (forall a, is_ip_whitelisted (whitelist c) a = true <->
             exists v, v ∈ sets LWhiteIps /\ denotes v a = true).
Proof.
  intros c sets. assert (lists_ok c /\ forall l v, v ∈ texts_of l c <-> v ∈ sets l) as [Hok Hsets].
  { unfold c, sets. induction os as [|o os IH] using rev_ind.
    - split; [apply lists_ok_default|]. intros [[]| |] v; cbn; set_solver.
    - rewrite !foldl_app. cbn [foldl]. destruct IH as [H1 H2]. by apply run_op_refines. }
  destruct Hok as (Hb & Hw & Hl). split_and!.
  - intros l. destruct (Hl l) as [Hd Hf]. split_and!; [done| |].
    + apply set_eq. intros v. by rewrite elem_of_list_to_set.
    + intros v Hv. rewrite Forall_forall in Hf. by apply Hf, Hsets.
  - intros a. rewrite check_ip_listed, (listed_denotes _ _ Hb). by setoid_rewrite <- Hsets.
  - intros a. rewrite whitelisted_listed, (listed_denotes _ _ Hw). by setoid_rewrite <- Hsets.
Qed.

(** An address text is accepted in any spelling, but compared as text with the
    canonical one: another spelling denotes not even its own address. *)
Lemma non_canonical_denotes_nothing v a :
  valid (LBlack Ips) v = true -> has_slash v = false -> make_address v = Some a -> to_string a <> v ->
  denotes v a = false.
Proof. intros _ Hs _ Hne. unfold denotes. rewrite Hs. by rewrite bool_decide_eq_false_2 by congruence. Qed.

(** A bulk import never fails and never stops early: it reports how many
    of the meaningful lines (trimmed, neither blank nor a comment) were valid
    and how many were not, and afterwards the list holds every valid one
    beside what it held before. *)
Theorem import_counts l clock text by_ c :
  lists_ok c ->
  let lines := each_list_line text in
  (op_import l clock text by_ c).2 =
    Ok (mkImport (count_valid l lines) (Z.of_nat (length lines) - count_valid l lines)) /\
  forall v, v ∈ texts_of l (op_import l clock text by_ c).1 <->
            v ∈ texts_of l c \/ (valid l v = true /\ v ∈ lines).
Proof.
  intros Hok lines. rewrite op_import_lines.
  destruct (import_lines_effect l clock by_ 0 (each_list_line text) (mkImport 0 0) c Hok) as (_ & H2 & H3 & _).
  split; [|exact H3]. rewrite H2. done.
Qed.

End blacklist_ops.

Lemma category_name_round_trip category : parse_blacklist_category (blacklist_category_name category) = Some category.
Proof. by destruct category. Qed.

Definition demo_import : str := "10.0.0.0/8" ++ [cr; nl] ++ lit "# note" ++ [nl] ++ lit "999.1.1.1" ++ [nl; nl] ++ lit "  8.8.8.8".

Lemma import_counts_witness :
  lists_ok (Asio := text_asio) default_config /\
  each_list_line demo_import = [lit "10.0.0.0/8"; lit "999.1.1.1"; lit "8.8.8.8"] /\
  (op_import (Asio := text_asio) (LBlack Ips) (fun _ => 0) demo_import "admin" default_config).2 = Ok (mkImport 2 1).
Proof.
  split; [apply lists_ok_default|]. split; [vm_compute; reflexivity|].
  etransitivity; [apply (import_counts (Asio := text_asio) (LBlack Ips) (fun _ => 0) demo_import "admin" default_config)|].
  - apply lists_ok_default.
  - vm_compute. reflexivity.
Defined.
