(* ===== verification/Cbor.v ===== *)
(** * Cbor: the bounded CBOR reader and COSE keys

    Models [auth/webauthn/cbor_reader.cpp] and [auth/webauthn/cose_key.cpp].
    libcbor's decoder is the interface [LibCbor]: from bytes to a tree of
    items and the number of bytes read; the tree is data, as its accessors
    expose it. OpenSSL's key construction and verification are [Evp]. *)
From S2P Require Import Prelude Text Net Bits Codec.

(** ** libcbor's items *)

Inductive int_width := INT_8 | INT_16 | INT_32 | INT_64.

Inductive cbor_item :=
  | IUint (w : int_width) (v : Z)
  | INegint (w : int_width) (v : Z)
  | IBytes (definite : bool) (bytes : list Z)
  | IString (definite : bool) (text : str)
  | IArray (items : list cbor_item)
  | IMap (pairs : list (cbor_item * cbor_item))
  | IBool (b : bool)
  | INull
  | IUndef
  | IFloat
  | ITag.

(** [cbor_load] under the capped allocator: [None] is its error return. *)
Class LibCbor := { cbor_load : list Z -> option (cbor_item * nat) }.

(** It reads a non-empty prefix, and the item depends on that prefix only. *)
Class LibCborLaws (Lib : LibCbor) := {
  cbor_load_read data item n : cbor_load data = Some (item, n) -> (0 < n <= length data)%nat;
  cbor_load_prefix data item n : cbor_load data = Some (item, n) -> cbor_load (take n data) = Some (item, n);
}.

Definition kMaxCborBytes : nat := 4096.
Definition kMaxDepth : nat := 8.
Definition kMaxContainerElements : nat := 64.

Definition get_uint_any_width (w : int_width) (v : Z) : outcome Z :=
  match w with
  | INT_8 => Ok v
  | INT_16 => Ok v
  | INT_32 => Ok v
  | INT_64 => Ok v
  end.

(** The decoded value, one constructor per [CborValue::Kind]. *)
Inductive CborValue :=
  | VUint (uint_value : Z)
  | VNegint (uint_value : Z)
  | VBytes (bytes : list Z)
  | VText (text : str)
  | VArray (array : list CborValue)
  | VMap (map : list (CborValue * CborValue))
  | VBool (bool_value : bool)
  | VNull
  | VOther.

(** [convert]; the two conversions of a map entry are taken key first. *)
Fixpoint convert (item : cbor_item) (depth : nat) : outcome CborValue :=
  if (kMaxDepth <? depth)%nat then Throw (InvalidArgument "CBOR nesting too deep")
  else match item with
       | IUint w v => n ← get_uint_any_width w v; mret (VUint n)
       | INegint w v => n ← get_uint_any_width w v; mret (VNegint n)
       | IBytes definite bytes =>
           if negb definite then Throw (InvalidArgument "indefinite-length CBOR byte strings are not supported")
           else Ok (VBytes bytes)
       | IString definite text =>
           if negb definite then Throw (InvalidArgument "indefinite-length CBOR text strings are not supported")
           else Ok (VText text)
       | IArray items =>
           if (kMaxContainerElements <? length items)%nat then Throw (InvalidArgument "CBOR array too large")
           else l ← (fix go (l : list cbor_item) : outcome (list CborValue) :=
                       match l with
                       | [] => Ok []
                       | child :: l' => v ← convert child (S depth); vs ← go l'; mret (v :: vs)
                       end) items;
                mret (VArray l)
       | IMap pairs =>
           if (kMaxContainerElements <? length pairs)%nat then Throw (InvalidArgument "CBOR map too large")
           else l ← (fix go (l : list (cbor_item * cbor_item)) : outcome (list (CborValue * CborValue)) :=
                       match l with
                       | [] => Ok []
                       | (key, value) :: l' =>
                           k ← convert key (S depth); v ← convert value (S depth); vs ← go l'; mret ((k, v) :: vs)
                       end) pairs;
                mret (VMap l)
       | IBool b => Ok (VBool b)
       | INull | IUndef => Ok VNull
       | IFloat => Ok VOther
       | ITag => Ok VOther
       end.

Section cbor.
Context `{Lib : LibCbor}.

Definition parse_cbor_prefix (data : list Z) : outcome (CborValue * nat) :=
  if (data == []) || (kMaxCborBytes <? length data)%nat then
    Throw (InvalidArgument "CBOR input is empty or exceeds the size limit")
  else match cbor_load data with
       | None => Throw (InvalidArgument "malformed CBOR input")
       | Some (root, read) => v ← convert root 0; mret (v, read)
       end.

Definition parse_cbor (data : list Z) : outcome CborValue := p ← parse_cbor_prefix data; mret p.1.
End cbor.

Definition cbor_to_int64 (value : CborValue) : outcome Z :=
  match value with
  | VUint n => if n >? INT64_MAX then Throw (InvalidArgument "CBOR unsigned integer out of int64 range") else Ok n
  | VNegint n => if n >? INT64_MAX then Throw (InvalidArgument "CBOR negative integer out of int64 range") else Ok (-1 - n)
  | _ => Throw (InvalidArgument "CBOR value is not an integer")
  end.

(** The lookups return the value, [None] for [nullptr]. *)
Fixpoint find_int (entries : list (CborValue * CborValue)) (key : Z) : outcome (option CborValue) :=
  match entries with
  | [] => Ok None
  | (k, v) :: entries' =>
      match k with
      | VUint _ | VNegint _ => n ← cbor_to_int64 k; if n =? key then mret (Some v) else find_int entries' key
      | _ => find_int entries' key
      end
  end.

Definition cbor_map_find_int (m : CborValue) (key : Z) : outcome (option CborValue) :=
  match m with VMap entries => find_int entries key | _ => Ok None end.

Fixpoint find_text (entries : list (CborValue * CborValue)) (key : str) : option CborValue :=
  match entries with
  | [] => None
  | (k, v) :: entries' =>
      match k with VText t => if t == key then Some v else find_text entries' key | _ => find_text entries' key end
  end.

Definition cbor_map_find_text (m : CborValue) (key : str) : option CborValue :=
  match m with VMap entries => find_text entries key | _ => None end.

(** ** COSE keys *)

(** What OpenSSL's [fromdata] path ends with: a key, a rejected key, or a
    failure to set the computation up, with the text the source throws. *)
Inductive evp_result (K : Type) :=
  | EvpKey (k : K)
  | EvpRejected
  | EvpFailed (msg : str).
Arguments EvpKey {K}. Arguments EvpRejected {K}. Arguments EvpFailed {K}.

Class Evp := {
  pkey : Type;
  ec_p256_fromdata : list Z -> evp_result pkey;
  rsa_fromdata : Z -> Z -> evp_result pkey;
  digest_verify_sha256 : pkey -> list Z -> list Z -> bool;
}.

Inductive CoseAlgorithm := ES256 | RS256.

Definition kCoseKty : Z := 1.
Definition kCoseAlg : Z := 3.
Definition kCoseCrv : Z := -1.
Definition kCoseX : Z := -2.
Definition kCoseY : Z := -3.
Definition kCoseN : Z := -1.
Definition kCoseE : Z := -2.
Definition kKtyEc2 : Z := 2.
Definition kKtyRsa : Z := 3.
Definition kCrvP256 : Z := 1.
Definition kAlgEs256 : Z := -7.
Definition kAlgRs256 : Z := -257.
Definition kMaxRsaModulusBytes : nat := 512.
Definition kMaxRsaExponentBytes : nat := 4.

Definition require_bytes (m : CborValue) (key : Z) (field_name : str) : outcome (list Z) :=
  value ← cbor_map_find_int m key;
  match value with
  | Some (VBytes bytes) => Ok bytes
  | _ => Throw (InvalidArgument ("COSE key missing/invalid field: " ++ field_name))
  end.

Section cose.
Context `{E : Evp}.

Definition build_ec_p256_public_key (x y : list Z) : outcome pkey :=
  if negb (length x =? 32)%nat || negb (length y =? 32)%nat then
    Throw (InvalidArgument "COSE EC2 key: x/y must each be 32 bytes for P-256")
  else match ec_p256_fromdata (4 :: x ++ y) with
       | EvpKey k => Ok k
       | EvpRejected => Throw (InvalidArgument "COSE EC2 key: point is not a valid P-256 public key")
       | EvpFailed msg => Throw (RuntimeError msg)
       end.

Definition build_rsa_public_key (n e : list Z) : outcome pkey :=
  if (n == []) || (kMaxRsaModulusBytes <? length n)%nat || (e == []) || (kMaxRsaExponentBytes <? length e)%nat then
    Throw (InvalidArgument "COSE RSA key: modulus/exponent size out of range")
  else match rsa_fromdata (be_number n) (be_number e) with
       | EvpKey k => Ok k
       | EvpRejected => Throw (InvalidArgument "COSE RSA key: modulus/exponent is not a valid RSA public key")
       | EvpFailed msg => Throw (RuntimeError msg)
       end.

Definition parse_cose_public_key (cose_key : CborValue) : outcome (pkey * CoseAlgorithm) :=
  match cose_key with
  | VMap _ =>
      kty ← cbor_map_find_int cose_key kCoseKty;
      alg ← cbor_map_find_int cose_key kCoseAlg;
      match kty, alg with
      | Some kty, Some alg =>
          kty_value ← cbor_to_int64 kty;
          alg_value ← cbor_to_int64 alg;
          if (kty_value =? kKtyEc2) && (alg_value =? kAlgEs256) then
            crv ← cbor_map_find_int cose_key kCoseCrv;
            crv_ok ← match crv with Some c => n ← cbor_to_int64 c; mret (n =? kCrvP256) | None => Ok false end;
            if negb crv_ok then Throw (InvalidArgument "COSE EC2 key: only the P-256 curve is supported")
            else x ← require_bytes cose_key kCoseX "x";
                 y ← require_bytes cose_key kCoseY "y";
                 key ← build_ec_p256_public_key x y;
                 mret (key, ES256)
          else if (kty_value =? kKtyRsa) && (alg_value =? kAlgRs256) then
            n ← require_bytes cose_key kCoseN "n";
            e ← require_bytes cose_key kCoseE "e";
            key ← build_rsa_public_key n e;
            mret (key, RS256)
          else Throw (InvalidArgument ("unsupported COSE key type/algorithm combination (only ES256 " ++
                                       lit "P-256 and RS256 are supported)"))
      | _, _ => Throw (InvalidArgument "COSE key missing kty/alg")
      end
  | _ => Throw (InvalidArgument "COSE key is not a CBOR map")
  end.

Definition verify_cose_signature (public_key : pkey) (signed_data signature : list Z) : bool :=
  digest_verify_sha256 public_key signed_data signature.
End cose.

(** ** What [convert] accepts, and what it returns *)

(** The caps: nesting, container sizes, definite strings. *)
Fixpoint fits (depth : nat) (item : cbor_item) : bool :=
  (depth <=? kMaxDepth)%nat &&
  match item with
  | IBytes definite _ | IString definite _ => definite
  | IArray items => (length items <=? kMaxContainerElements)%nat && forallb (fits (S depth)) items
  | IMap pairs =>
      (length pairs <=? kMaxContainerElements)%nat &&
      forallb (fun p => match p with (k, v) => fits (S depth) k && fits (S depth) v end) pairs
  | _ => true
  end.

Fixpoint image (item : cbor_item) : CborValue :=
  match item with
  | IUint _ v => VUint v
  | INegint _ v => VNegint v
  | IBytes _ b => VBytes b
  | IString _ t => VText t
  | IArray items => VArray (map image items)
  | IMap pairs => VMap (map (fun p => match p with (k, v) => (image k, image v) end) pairs)
  | IBool b => VBool b
  | INull | IUndef => VNull
  | IFloat | ITag => VOther
  end.

Definition converts (item : cbor_item) (depth : nat) : Prop :=
  if fits depth item then convert item depth = Ok (image item)
  else exists m, convert item depth = Throw (InvalidArgument m).

Lemma get_uint_width w v : get_uint_any_width w v = Ok v.
Proof. by destruct w. Qed.

Lemma convert_array items depth :
  (forall d, Forall (fun i => converts i d) items) -> converts (IArray items) depth.
Proof.
  intros IH. specialize (IH (S depth)). unfold converts. cbn [fits convert image].
  rewrite Nat.ltb_antisym. destruct (depth <=? kMaxDepth)%nat; cbn [negb andb]; [|eauto].
  rewrite Nat.ltb_antisym. destruct (length items <=? kMaxContainerElements)%nat; cbn [negb andb]; [|eauto].
  match goal with |- context [mbind _ (?f items)] => set (go := f) end.
  assert (if forallb (fits (S depth)) items then go items = Ok (map image items)
          else exists m, go items = Throw (InvalidArgument m)) as Hgo.
  { induction IH as [|i l Hi Hl IHl]; [done|]. cbn [forallb map]. unfold converts in Hi.
    destruct (fits (S depth) i); cbn [andb].
    - destruct (forallb _ l); [|destruct IHl as [m IHl]; exists m]; simpl; rewrite Hi; cbn; by rewrite IHl.
    - destruct Hi as [m Hi]. exists m. simpl. by rewrite Hi. }
  destruct (forallb _ items); [by rewrite Hgo|]. destruct Hgo as [m ->]. by exists m.
Qed.

Lemma convert_map pairs depth :
  (forall d, Forall (fun p => converts p.1 d /\ converts p.2 d) pairs) -> converts (IMap pairs) depth.
Proof.
  intros IH. specialize (IH (S depth)). unfold converts. cbn [fits convert image].
  rewrite Nat.ltb_antisym. destruct (depth <=? kMaxDepth)%nat; cbn [negb andb]; [|eauto].
  rewrite Nat.ltb_antisym. destruct (length pairs <=? kMaxContainerElements)%nat; cbn [negb andb]; [|eauto].
  match goal with |- context [mbind _ (?f pairs)] => set (go := f) end.
  match goal with |- context [forallb ?f pairs] => set (ok := f) end.
  match goal with |- context [map ?f pairs] => set (im := f) end.
  assert (if forallb ok pairs then go pairs = Ok (map im pairs) else exists m, go pairs = Throw (InvalidArgument m)) as Hgo.
  { induction IH as [|[k v] l [Hk Hv] Hl IHl]; [done|]. cbn [forallb map fst snd] in *. unfold converts in Hk, Hv.
    unfold ok at 1, im at 1. destruct (fits (S depth) k); cbn [andb].
    - destruct (fits (S depth) v); cbn [andb].
      + destruct (forallb _ l); [|destruct IHl as [m IHl]; exists m]; simpl; rewrite Hk; cbn; rewrite Hv; cbn; by rewrite IHl.
      + destruct Hv as [m Hv]. exists m. simpl. rewrite Hk. cbn. by rewrite Hv.
    - destruct Hk as [m Hk]. exists m. simpl. by rewrite Hk. }
  destruct (forallb _ pairs); [by rewrite Hgo|]. destruct Hgo as [m ->]. by exists m.
Qed.

Lemma convert_exact : forall item depth, converts item depth.
Proof.
  fix IH 1. intros item depth. destruct item as [w v|w v|d b|d t|items|pairs|b| | | |];
    try (unfold converts; cbn [fits convert image]; rewrite Nat.ltb_antisym, ?get_uint_width;
         destruct (depth <=? kMaxDepth)%nat; cbn [negb andb]; eauto; destruct d; cbn; eauto; fail).
  - apply convert_array. intros d. induction items as [|i l IHl]; constructor; [apply IH|apply IHl].
  - apply convert_map. intros d. induction pairs as [|[k v] l IHl]; constructor; [split; apply IH|apply IHl].
Qed.

Section cbor_theorems.
Context `{Lib : LibCbor} `{Laws : !LibCborLaws Lib}.

(** C37: the CBOR reader is total and bounded on hostile input: it accepts
    exactly the non-empty inputs of at most 4096 bytes whose item libcbor
    decodes and that respects the caps (nesting at most 8, containers of at
    most 64 elements, definite-length strings), returning the decoded tree
    itself and a byte count inside the input; anything else is
    [invalid_argument]. *)
Theorem parse_cbor_prefix_exact data :
  match parse_cbor_prefix data with
  | Ok (v, read) => exists item, cbor_load data = Some (item, read) /\ fits 0 item = true /\ v = image item /\
                                 (0 < read <= length data)%nat /\ (length data <= kMaxCborBytes)%nat
  | Throw e => (exists m, e = InvalidArgument m) /\
               (data = [] \/ (kMaxCborBytes < length data)%nat \/ cbor_load data = None \/
                exists item read, cbor_load data = Some (item, read) /\ fits 0 item = false)
  end.
Proof.
  unfold parse_cbor_prefix. destruct (bool_decide_reflect (data = [])) as [->|Hne]; [simpl; eauto|].
  destruct (Nat.ltb_spec kMaxCborBytes (length data)) as [Hlt|Hle]; cbn [orb]; [eauto 6|].
  destruct (cbor_load data) as [[item read]|] eqn:Hload; [|eauto 6].
  pose proof (convert_exact item 0) as Hc. unfold converts in Hc. destruct (fits 0 item) eqn:Hf.
  - rewrite Hc. cbn. exists item. split_and!; try done; by eapply cbor_load_read.
  - destruct Hc as [m ->]. cbn. split; [eauto|]. do 3 right. eauto.
Qed.

Lemma parse_cbor_prefix_cases data :
  match parse_cbor_prefix data with
  | Ok (v, read) => (0 < read <= length data)%nat
  | Throw e => exists m, e = InvalidArgument m
  end.
Proof.
  unfold parse_cbor_prefix. destruct (_ || _); [eauto|]. destruct (cbor_load data) as [[item n]|] eqn:Hload; [|eauto].
  pose proof (convert_exact item 0) as Hc. unfold converts in Hc. destruct (fits 0 item).
  - rewrite Hc. by eapply cbor_load_read.
  - destruct Hc as [m ->]. cbn. eauto.
Qed.

(** The bytes carved out for a key parse to the same value again. *)
Lemma parse_cbor_prefix_carved data v read :
  parse_cbor_prefix data = Ok (v, read) -> parse_cbor (take read data) = Ok v.
Proof.
  intros H. unfold parse_cbor_prefix in H. destruct (_ || _) eqn:Ed; [done|].
  destruct (cbor_load data) as [[item n]|] eqn:Hload; [|done].
  destruct (convert item 0) as [v'|] eqn:Hc; [|done]. cbn in H. injection H as <- <-.
  pose proof (cbor_load_read _ _ _ Hload) as Hn. apply orb_false_iff in Ed as [_ Hlen%Nat.ltb_ge].
  unfold parse_cbor, parse_cbor_prefix. rewrite (cbor_load_prefix _ _ _ Hload), Hc.
  rewrite bool_decide_eq_false_2 by (intros E; apply (f_equal length) in E; rewrite length_take in E; simpl in E; lia).
  destruct (Nat.ltb_spec kMaxCborBytes (length (take n data))) as [Hlt|_]; [rewrite length_take in Hlt; lia|done].
Qed.

Lemma parse_cbor_error data e : parse_cbor data = Throw e -> exists m, e = InvalidArgument m.
Proof.
  unfold parse_cbor. pose proof (parse_cbor_prefix_cases data) as H.
  destruct (parse_cbor_prefix data) as [[v n]|e']; cbn; [done|]. by intros [= <-].
Qed.
End cbor_theorems.

(** The integer lookup throws on a key that does not fit 64 bits, although it
    is documented to return "not found" instead of throwing. *)
Example find_int_throws : exists m, cbor_map_find_int (VMap [(VUint (2 ^ 63), VNull); (VUint 1, VNull)]) 1 = Throw (InvalidArgument m).
Proof. eexists. vm_compute. reflexivity. Qed.

(** ** A decoder for witnesses: it knows a table of encodings *)

Fixpoint table_load (table : list (list Z * cbor_item)) (data : list Z) : option (cbor_item * nat) :=
  match table with
  | [] => None
  | (bytes, item) :: table' =>
      if negb (bytes == []) && (take (length bytes) data == bytes) then Some (item, length bytes)
      else table_load table' data
  end.

Definition table_cbor (table : list (list Z * cbor_item)) : LibCbor := {| cbor_load := table_load table |}.

Lemma table_cbor_laws table : LibCborLaws (table_cbor table).
Proof.
  assert (forall t data item n, table_load t data = Some (item, n) ->
            (0 < n <= length data)%nat /\ table_load t (take n data) = Some (item, n)) as Hall.
  { induction t as [|[bytes it] t IH]; intros data item n; cbn [table_load]; [done|].
    destruct (bool_decide_reflect (bytes = [])) as [->|Hne]; cbn [negb andb]; [apply IH|].
    destruct (bool_decide_reflect (take (length bytes) data = bytes)) as [Ht|Ht].
    - intros [= <- <-]. assert (length bytes <= length data)%nat.
      { rewrite <- Ht at 1. rewrite length_take. lia. }
      split; [destruct bytes; [done|simpl in *; lia]|]. rewrite Ht, firstn_all.
      by rewrite bool_decide_eq_true_2.
    - intros Hl. destruct (IH _ _ _ Hl) as [Hn Hl']. split; [done|].
      rewrite bool_decide_eq_false_2; [done|]. intros E. apply Ht.
      rewrite take_take in E. destruct (Nat.le_ge_cases (length bytes) n) as [Hle|Hge].
      + by rewrite Nat.min_l in E.
      + rewrite Nat.min_r in E by done. pose proof (f_equal length E) as El. rewrite length_take in El.
        assert (n = length bytes) as -> by lia. done. }
  split; intros data item n H; by apply Hall in H as [? ?].
Qed.

Lemma parse_cbor_prefix_exact_witness :
  let Lib := table_cbor [([161; 1; 2], IMap [(IUint INT_8 1, IUint INT_8 2)])] in
  @parse_cbor_prefix Lib [161; 1; 2; 99] = Ok (VMap [(VUint 1, VUint 2)], 3%nat) /\
  match @parse_cbor_prefix Lib [161; 1; 2; 99] with
  | Ok (v, read) => exists item, cbor_load (LibCbor := Lib) [161; 1; 2; 99] = Some (item, read) /\ fits 0 item = true /\
                      v = image item /\ (0 < read <= 4)%nat /\ (4 <= kMaxCborBytes)%nat
  | Throw e => (exists m, e = InvalidArgument m) /\
               ([161; 1; 2; 99] = [] \/ (kMaxCborBytes < 4)%nat \/ cbor_load (LibCbor := Lib) [161; 1; 2; 99] = None \/
                exists item read, cbor_load (LibCbor := Lib) [161; 1; 2; 99] = Some (item, read) /\ fits 0 item = false)
  end.
Proof.
  intros Lib. split; [vm_compute; reflexivity|].
  exact (@parse_cbor_prefix_exact Lib (table_cbor_laws _) [161; 1; 2; 99]).
Defined.
