(* ===== verification/Json.v ===== *)
(** * Json: JSON values

    The values [boost::json] parses into and serialises from: the two integer
    kinds are one constructor, a [double] is a [spec_float]. Parsing text is
    the interface [JsonText]; an object is the list of its members. *)
From S2P Require Import Prelude.
From Stdlib Require Import SpecFloat.

Inductive json :=
  | JNull
  | JBool (b : bool)
  | JInt (z : Z)
  | JDouble (d : spec_float)
  | JStr (s : str)
  | JArr (l : list json)
  | JObj (members : list (str * json)).

Class JsonText := { json_parse : str -> option json }.

(** [object::find] *)
Fixpoint jfind (members : list (str * json)) (key : str) : option json :=
  match members with
  | [] => None
  | (k, v) :: members' => if k == key then Some v else jfind members' key
  end.

(** The member, when it is a string. *)
Definition jfind_string (members : list (str * json)) (key : str) : option str :=
  match jfind members key with Some (JStr s) => Some s | _ => None end.
