(* ===== verification/Webauthn.v ===== *)
(** * Webauthn: passkey ceremonies

    Models [auth/webauthn/webauthn_service.cpp]: the checks on clientDataJSON,
    the layout of authenticatorData, registration and authentication. JSON
    text, SHA-256, libcbor and OpenSSL keys are interfaces. *)
From S2P Require Import Prelude Text Bits Codec Cbor Json.

Class Sha256 := { sha256_digest : list Z -> option (list Z) }.

Definition kFlagUserPresent : Z := 0x01.
Definition kFlagUserVerified : Z := 0x04.
Definition kFlagAttestedCredentialData : Z := 0x40.

Record ParsedAuthenticatorData := mkParsed {
  rp_id_hash : list Z;
  flags : Z;
  pd_sign_count : Z;
  credential_id : list Z;
  pd_cose_public_key : list Z;
}.

Record WebAuthnRegistrationResult := mkRegistration {
  credential_id_b64url : str;
  reg_cose_public_key : list Z;
  reg_sign_count : Z;
  reg_user_verified : bool;
}.

Record WebAuthnAssertionResult := mkAssertion { new_sign_count : Z; user_verified : bool }.

(** [auth_data[i]], an error outside the vector. *)
Definition byte_at (data : list Z) (i : nat) : outcome Z :=
  match data !! i with
  | Some b => Ok b
  | None => Throw (LogicError "read past the end of authenticatorData")
  end.

Definition bytes_of (s : str) : list Z := map byte_of s.

Section webauthn.
Context `{Sha : Sha256} `{Lib : LibCbor} `{E : Evp} `{J : JsonText}.

Definition sha256 (data : list Z) : outcome (list Z) :=
  match sha256_digest data with
  | Some d => if (length d =? 32)%nat then Ok d else Throw (RuntimeError "SHA-256 computation failed")
  | None => Throw (RuntimeError "SHA-256 computation failed")
  end.

Definition bad (msg : str) : exn := InvalidArgument msg.

Definition verify_client_data (client_data_json : str) (expected_challenge : list Z)
    (expected_origin expected_type : str) : outcome unit :=
  match json_parse client_data_json with
  | None => Throw (bad "clientDataJSON is not valid JSON")
  | Some (JObj obj) =>
      if negb (jfind_string obj "type" == Some expected_type) then Throw (bad (lit "clientDataJSON: unexpected " ++ dq :: lit "type" ++ [dq]))
      else if negb (jfind_string obj "origin" == Some expected_origin) then
        Throw (bad "clientDataJSON: origin does not match this server")
      else match jfind_string obj "challenge" with
           | None => Throw (bad "clientDataJSON: missing challenge")
           | Some text =>
               match base64url_decode text with
               | Throw (InvalidArgument _) => Throw (bad "clientDataJSON: malformed challenge encoding")
               | Throw e => Throw e
               | Ok challenge_bytes =>
                   if negb (challenge_bytes == expected_challenge) then
                     Throw (bad "clientDataJSON: challenge does not match — expired or replayed?")
                   else Ok tt
               end
           end
  | Some _ => Throw (bad "clientDataJSON is not a JSON object")
  end.

Definition kFixedHeaderLen : nat := 32 + 1 + 4.
Definition kAaguidLen : nat := 16.
Definition kCredIdLenFieldLen : nat := 2.

Definition parse_authenticator_data (auth_data : list Z) (require_attested_credential : bool)
    : outcome ParsedAuthenticatorData :=
  if (length auth_data <? kFixedHeaderLen)%nat then
    Throw (bad "authenticatorData is shorter than the fixed header")
  else
    let rp := take 32 auth_data in
    fl ← byte_at auth_data 32;
    c3 ← byte_at auth_data 33;
    c2 ← byte_at auth_data 34;
    c1 ← byte_at auth_data 35;
    c0 ← byte_at auth_data 36;
    let count := Z.lor (Z.lor (Z.lor (wrap32 (Z.shiftl c3 24)) (wrap32 (Z.shiftl c2 16)))
                              (wrap32 (Z.shiftl c1 8))) c0 in
    let has_attested := negb (Z.land fl kFlagAttestedCredentialData =? 0) in
    if negb require_attested_credential then mret (mkParsed rp fl count [] [])
    else if negb has_attested then Throw (bad "authenticatorData is missing attested credential data")
    else
      let offset := kFixedHeaderLen in
      if (length auth_data <? offset + kAaguidLen + kCredIdLenFieldLen)%nat then
        Throw (bad "authenticatorData truncated before credentialId length")
      else
        let offset := (offset + kAaguidLen)%nat in
        hi ← byte_at auth_data offset;
        lo ← byte_at auth_data (offset + 1);
        let cred_id_len := wrap16 (Z.lor (Z.shiftl hi 8) lo) in
        let offset := (offset + kCredIdLenFieldLen)%nat in
        if Z.of_nat (length auth_data) <? Z.of_nat offset + cred_id_len then
          Throw (bad "authenticatorData truncated before end of credentialId")
        else
          let n := Z.to_nat cred_id_len in
          let cred_id := take n (drop offset auth_data) in
          let offset := (offset + n)%nat in
          if (length auth_data <=? offset)%nat then
            Throw (bad "authenticatorData is missing the credential public key")
          else
            let remaining := drop offset auth_data in
            p ← parse_cbor_prefix remaining;
            let '(cose_key_value, consumed) := p in
            match cose_key_value with
            | VMap _ =>
                if (length remaining <? consumed)%nat then Throw (LogicError "copied past the end of authenticatorData")
                else mret (mkParsed rp fl count cred_id (take consumed remaining))
            | _ => Throw (bad "credential public key is not a COSE_Key map")
            end.

(** The two checks both ceremonies make on authenticatorData. *)
Definition check_rp_and_presence (parsed : ParsedAuthenticatorData) (rp_id : str) : outcome unit :=
  hash ← sha256 (bytes_of rp_id);
  if negb (rp_id_hash parsed == hash) then Throw (bad "authenticatorData: RP ID hash does not match this server")
  else if Z.land (flags parsed) kFlagUserPresent =? 0 then
    Throw (bad "authenticatorData: user-presence flag not set")
  else Ok tt.

Definition verify_webauthn_registration (expected_challenge : list Z) (client_data_json : str)
    (attestation_object : list Z) (rp_id expected_origin : str) : outcome WebAuthnRegistrationResult :=
  _ ← verify_client_data client_data_json expected_challenge expected_origin "webauthn.create";
  attestation ← parse_cbor attestation_object;
  match attestation with
  | VMap _ =>
      match cbor_map_find_text attestation "authData" with
      | Some (VBytes auth_data) =>
          parsed ← parse_authenticator_data auth_data true;
          _ ← check_rp_and_presence parsed rp_id;
          cose_key ← parse_cbor (pd_cose_public_key parsed);
          _ ← parse_cose_public_key cose_key;
          mret (mkRegistration (base64url_encode (credential_id parsed)) (pd_cose_public_key parsed)
                  (pd_sign_count parsed) (negb (Z.land (flags parsed) kFlagUserVerified =? 0)))
      | _ => Throw (bad "attestationObject is missing authData")
      end
  | _ => Throw (bad "attestationObject is not a CBOR map")
  end.

Definition verify_webauthn_authentication (expected_challenge : list Z) (client_data_json : str)
    (authenticator_data signature stored_cose_public_key : list Z) (stored_sign_count : Z)
    (rp_id expected_origin : str) : outcome WebAuthnAssertionResult :=
  _ ← verify_client_data client_data_json expected_challenge expected_origin "webauthn.get";
  parsed ← parse_authenticator_data authenticator_data false;
  _ ← check_rp_and_presence parsed rp_id;
  client_data_hash ← sha256 (bytes_of client_data_json);
  let signed_data := authenticator_data ++ client_data_hash in
  cose_key ← parse_cbor stored_cose_public_key;
  key ← parse_cose_public_key cose_key;
  if negb (verify_cose_signature key.1 signed_data signature) then Throw (bad "signature verification failed")
  else if negb ((stored_sign_count =? 0) && (pd_sign_count parsed =? 0)) && (pd_sign_count parsed <=? stored_sign_count)
  then Throw (bad "sign counter did not increase — possible cloned authenticator")
  else mret (mkAssertion (pd_sign_count parsed) (negb (Z.land (flags parsed) kFlagUserVerified =? 0))).

End webauthn.

(** ** What an accepted ceremony means *)

Section ceremonies.
Context `{Sha : Sha256} `{Lib : LibCbor} `{E : Evp} `{J : JsonText}.

Definition client_data_ok (text : str) (challenge : list Z) (origin type : str) : Prop :=
  exists obj t, json_parse text = Some (JObj obj) /\ jfind_string obj "type" = Some type /\
    jfind_string obj "origin" = Some origin /\ jfind_string obj "challenge" = Some t /\
    base64url_decode t = Ok challenge.

Lemma verify_client_data_iff text challenge origin type :
  verify_client_data text challenge origin type = Ok tt <-> client_data_ok text challenge origin type.
Proof.
  unfold verify_client_data, client_data_ok. split.
  - destruct (json_parse text) as [[]|] eqn:Hj; try done.
    case_bool_decide as Ht; [|done]. case_bool_decide as Ho; [|done]. cbn [negb].
    destruct (jfind_string members "challenge") as [t|] eqn:Hc; [|done].
    destruct (base64url_decode t) as [c|[]] eqn:Hd; try done.
    case_bool_decide as Hch; [|done]. subst. intros _. by exists members, t.
  - intros (obj & t & -> & Ht & Ho & Hc & Hd). rewrite Ht, Ho, Hc, Hd.
    by rewrite !bool_decide_eq_true_2.
Qed.

(** The counter field: bytes 33 to 36, big-endian. *)
Definition counter_of (d : list Z) : Z :=
  nth 33 d 0 * 2 ^ 24 + nth 34 d 0 * 2 ^ 16 + nth 35 d 0 * 2 ^ 8 + nth 36 d 0.

Definition flag_set (d : list Z) (flag : Z) : bool := negb (Z.land (nth 32 d 0) flag =? 0).

Lemma byte_at_ok d i : (i < length d)%nat -> byte_at d i = Ok (nth i d 0).
Proof.
  intros Hi. unfold byte_at. destruct (lookup_lt_is_Some_2 d i Hi) as [b Hb]. by rewrite Hb, (nth_lookup_Some _ _ _ _ Hb).
Qed.

Lemma byte_nth d i : Forall byte_val d -> (i < length d)%nat -> in_width 8 (nth i d 0).
Proof. intros Hd Hi. rewrite Forall_forall in Hd. by apply Hd, list_elem_of_In, nth_In. Qed.

(** The fixed header, as both ceremonies read it. *)
Lemma parse_header d req :
  Forall byte_val d -> (kFixedHeaderLen <= length d)%nat ->
  parse_authenticator_data d req =
  if negb req then Ok (mkParsed (take 32 d) (nth 32 d 0) (counter_of d) [] [])
  else parse_authenticator_data d req.
Proof.
  intros Hd Hl. destruct req; [done|]. unfold parse_authenticator_data.
  destruct (Nat.ltb_spec (length d) kFixedHeaderLen) as [|_]; [lia|]. unfold kFixedHeaderLen in Hl.
  cbn [negb]. rewrite !byte_at_ok by lia. cbn [mbind outcome_bind]. rewrite assemble32 by (apply byte_nth; [done|lia]). done.
Qed.

Lemma check_rp_iff parsed rp h :
  sha256 (bytes_of rp) = Ok h ->
  check_rp_and_presence parsed rp = Ok tt <->
  rp_id_hash parsed = h /\ Z.land (flags parsed) kFlagUserPresent <> 0.
Proof.
  intros Hh. unfold check_rp_and_presence. rewrite Hh. cbn [mbind outcome_bind].
  case_bool_decide as Hr; cbn [negb]; [|split; [done|by intros [? _]]].
  destruct (Z.eqb_spec (Z.land (flags parsed) kFlagUserPresent) 0); split; try done. by intros [_ ?].
Qed.

(** The counter rule: strictly above the stored value, or never used. *)
Definition counter_ok (stored count : Z) : Prop := (stored = 0 /\ count = 0) \/ stored < count.

(** C21: a passkey login succeeds exactly when everything it promises holds:
    the client data is JSON of type webauthn.get for this origin with exactly
    the pending challenge, the authenticator data is for this RP with the
    user-presence flag, its signature over authenticatorData and the hash of
    the client data verifies under the stored key, and the counter is above
    the stored one or both are zero. The result is the new counter and the
    user-verified flag. *)
Theorem authentication_exact challenge text d signature stored_key stored rp origin r hrp hcd :
  Forall byte_val d -> sha256 (bytes_of rp) = Ok hrp -> sha256 (bytes_of text) = Ok hcd ->
  verify_webauthn_authentication challenge text d signature stored_key stored rp origin = Ok r <->
  client_data_ok text challenge origin "webauthn.get" /\
  (kFixedHeaderLen <= length d)%nat /\ take 32 d = hrp /\ flag_set d kFlagUserPresent = true /\
  (exists v key alg, parse_cbor stored_key = Ok v /\ parse_cose_public_key v = Ok (key, alg) /\
     digest_verify_sha256 key (d ++ hcd) signature = true) /\
  counter_ok stored (counter_of d) /\
  r = mkAssertion (counter_of d) (flag_set d kFlagUserVerified).
Proof.
  intros Hd Hrp Hcd. unfold verify_webauthn_authentication, flag_set, counter_ok.
  destruct (verify_client_data text challenge origin "webauthn.get") as [[]|e] eqn:Hcl; cbn [mbind outcome_bind].
  2: { split; [done|]. intros (Hc & _). apply verify_client_data_iff in Hc. congruence. }
  apply verify_client_data_iff in Hcl.
  destruct (Nat.le_gt_cases kFixedHeaderLen (length d)) as [Hl|Hl].
  2: { split; [|by intros (_ & ? & _); lia]. unfold parse_authenticator_data.
       destruct (Nat.ltb_spec (length d) kFixedHeaderLen); [done|lia]. }
  rewrite (parse_header d false Hd Hl). cbn [negb].
  set (parsed := mkParsed _ _ _ _ _). cbn [mbind outcome_bind]. pose proof (check_rp_iff parsed rp hrp Hrp) as Hck.
  destruct (check_rp_and_presence parsed rp) as [[]|e].
  2: { split; [done|]. intros (_ & _ & H1 & H2%negb_true_iff%Z.eqb_neq & _). discriminate (proj2 Hck (conj H1 H2)). }
  destruct Hck as [Hck _]. destruct (Hck eq_refl) as [Hr Hup%Z.eqb_neq]. cbn in Hr, Hup. clear Hck.
  rewrite Hcd, Hup. cbn [mbind outcome_bind].
  destruct (parse_cbor stored_key) as [v|e]; cbn [mbind outcome_bind]; [|split; [done|by intros (_ & _ & _ & _ & (? & ? & ? & ? & _) & _)]].
  destruct (parse_cose_public_key v) as [[key alg]|e] eqn:Hk; cbn [mbind outcome_bind].
  2: { split; [done|]. intros (_ & _ & _ & _ & (v' & k' & a' & [= <-] & Hk' & _) & _). congruence. }
  cbn [fst]. unfold verify_cose_signature. cbn [pd_sign_count parsed].
  destruct (digest_verify_sha256 key (d ++ hcd) signature) eqn:Hs; cbn [negb].
  2: { split; [done|]. intros (_ & _ & _ & _ & (v' & k' & a' & [= <-] & Hk' & Hs') & _). congruence. }
  destruct (negb ((stored =? 0) && (counter_of d =? 0)) && (counter_of d <=? stored)) eqn:Hc.
  - split; [done|]. intros (_ & _ & _ & _ & _ & Hct & _). exfalso.
    apply andb_true_iff in Hc as [Hc1%negb_true_iff%andb_false_iff Hc2%Z.leb_le].
    destruct Hct as [[-> Hz]|]; [|lia]. rewrite Hz in Hc1. by destruct Hc1.
  - assert ((stored = 0 /\ counter_of d = 0) \/ stored < counter_of d).
    { apply andb_false_iff in Hc as [[Hc1 Hc2]%negb_false_iff%andb_true_iff|Hc]; lia. }
    cbn. split; [intros [= <-]; split_and!; try done; by exists v, key, alg|]. by intros (_ & _ & _ & _ & _ & _ & ->).
Qed.

(** A counter that was accepted once and stored rejects the same assertion. *)
Lemma accepted_counter_is_stale d stored :
  counter_ok stored (counter_of d) -> counter_of d <> 0 -> ~ counter_ok (counter_of d) (counter_of d).
Proof. unfold counter_ok. intros _ Hne. lia. Qed.

(** *** Registration *)

(** The declared length of the credential id, and the layout around it. *)
Definition id_length (d : list Z) : nat := Z.to_nat (nth 53 d 0 * 256 + nth 54 d 0).

Lemma cred_id_length_bytes hi lo :
  in_width 8 hi -> in_width 8 lo -> wrap16 (Z.lor (Z.shiftl hi 8) lo) = hi * 256 + lo.
Proof.
  unfold in_width. change (2 ^ Z.of_nat 8) with 256. intros Hh Hl.
  rewrite lor_parts by lia. change (2 ^ 8) with 256. apply Z.mod_small. lia.
Qed.

Context `{Laws : !LibCborLaws Lib}.

(** Reading attested data never leaves the buffer: it yields the slices the
    layout says, or is refused as invalid. *)
Lemma parse_attested d :
  Forall byte_val d ->
  match parse_authenticator_data d true with
  | Ok parsed =>
      (55 + id_length d < length d)%nat /\ flag_set d kFlagAttestedCredentialData = true /\
      exists m consumed, parse_cbor_prefix (drop (55 + id_length d) d) = Ok (VMap m, consumed) /\
        parsed = mkParsed (take 32 d) (nth 32 d 0) (counter_of d) (take (id_length d) (drop 55 d))
                   (take consumed (drop (55 + id_length d) d))
  | Throw e => exists m, e = InvalidArgument m
  end.
Proof.
  intros Hd. unfold parse_authenticator_data, bad.
  destruct (Nat.ltb_spec (length d) kFixedHeaderLen) as [|Hl]; [by eexists|]. unfold kFixedHeaderLen in Hl.
  rewrite (byte_at_ok d 32), (byte_at_ok d 33), (byte_at_ok d 34), (byte_at_ok d 35), (byte_at_ok d 36) by lia.
  cbn [mbind outcome_bind negb]. rewrite assemble32 by (apply byte_nth; [done|lia]).
  fold (counter_of d). fold (flag_set d kFlagAttestedCredentialData).
  destruct (flag_set d kFlagAttestedCredentialData); cbn [negb]; [|by eexists].
  destruct (Nat.ltb_spec (length d) (kFixedHeaderLen + kAaguidLen + kCredIdLenFieldLen)) as [|Hl2]; [by eexists|].
  unfold kFixedHeaderLen, kAaguidLen, kCredIdLenFieldLen in *.
  change (32 + 1 + 4 + 16 + 1)%nat with 54%nat. change (32 + 1 + 4 + 16 + 2)%nat with 55%nat in *.
  change (32 + 1 + 4 + 16)%nat with 53%nat.
  rewrite (byte_at_ok d 53), (byte_at_ok d 54) by lia. cbn [mbind outcome_bind].
  rewrite cred_id_length_bytes by (apply byte_nth; [done|lia]). fold (id_length d).
  pose proof (byte_nth d 53 Hd ltac:(lia)) as H53. pose proof (byte_nth d 54 Hd ltac:(lia)) as H54.
  unfold in_width in H53, H54.
  destruct (Z.ltb_spec (Z.of_nat (length d)) (Z.of_nat 55 + (nth 53 d 0 * 256 + nth 54 d 0))) as [|Hl3]; [by eexists|].
  destruct (Nat.leb_spec (length d) (55 + id_length d)) as [|Hl4]; [by eexists|].
  pose proof (parse_cbor_prefix_cases (drop (55 + id_length d) d)) as Hp.
  destruct (parse_cbor_prefix (drop (55 + id_length d) d)) as [[v consumed]|e]; cbn [mbind outcome_bind]; [|done].
  destruct v as [| | | | |entries| | |]; try (by eexists).
  destruct (Nat.ltb_spec (length (drop (55 + id_length d) d)) consumed); [lia|].
  split_and!; [done|done|]. by exists entries, consumed.
Qed.

(** An accepted registration is sound: the client data was JSON of type
    webauthn.create for this origin and the pending challenge; the
    authenticator data is for this RP, with user presence and attested data;
    the credential id is the slice of the declared length, and the stored key
    bytes parse again to a supported, valid public key, so every later login
    can use them. Anything else is an error, never a read past the buffer. *)
Theorem registration_sound challenge text attestation rp origin r hrp :
  (forall m b, parse_cbor attestation = Ok m -> cbor_map_find_text m "authData" = Some (VBytes b) -> Forall byte_val b) ->
  sha256 (bytes_of rp) = Ok hrp ->
  verify_webauthn_registration challenge text attestation rp origin = Ok r ->
  client_data_ok text challenge origin "webauthn.create" /\
  exists m d, parse_cbor attestation = Ok m /\ cbor_map_find_text m "authData" = Some (VBytes d) /\
    take 32 d = hrp /\ flag_set d kFlagUserPresent = true /\ flag_set d kFlagAttestedCredentialData = true /\
    base64url_decode (credential_id_b64url r) = Ok (take (id_length d) (drop 55 d)) /\
    length (take (id_length d) (drop 55 d)) = id_length d /\
    reg_cose_public_key r `prefix_of` drop (55 + id_length d) d /\
    reg_sign_count r = counter_of d /\ reg_user_verified r = flag_set d kFlagUserVerified /\
    exists v key alg, parse_cbor (reg_cose_public_key r) = Ok v /\ parse_cose_public_key v = Ok (key, alg).
Proof.
  intros Hbytes Hrp. unfold verify_webauthn_registration.
  destruct (verify_client_data text challenge origin "webauthn.create") as [[]|e] eqn:Hcl; cbn [mbind outcome_bind]; [|done].
  apply verify_client_data_iff in Hcl. destruct (parse_cbor attestation) as [m|e]; cbn [mbind outcome_bind]; [|done].
  destruct m as [| | | | |entries| | |]; try done.
  destruct (cbor_map_find_text (VMap entries) "authData") as [[| |d| | | | | |]|] eqn:Hfind; try done.
  pose proof (Hbytes _ _ eq_refl Hfind) as Hd. pose proof (parse_attested d Hd) as Hp.
  destruct (parse_authenticator_data d true) as [parsed|e]; cbn [mbind outcome_bind]; [|done].
  destruct Hp as (Hlen & Hat & mm & consumed & Hprefix & ->).
  set (parsed := mkParsed _ _ _ _ _). pose proof (check_rp_iff parsed rp hrp Hrp) as Hck.
  destruct (check_rp_and_presence parsed rp) as [[]|e]; cbn [mbind outcome_bind]; [|done].
  destruct (proj1 Hck eq_refl) as [Hr Hup%Z.eqb_neq]. cbn in Hr, Hup.
  cbn [pd_cose_public_key parsed]. destruct (parse_cbor (take consumed _)) as [v|e] eqn:Hv; cbn [mbind outcome_bind]; [|done].
  destruct (parse_cose_public_key v) as [[key alg]|e] eqn:Hk; cbn [mbind outcome_bind]; [|done].
  intros [= <-]. cbn [credential_id_b64url reg_cose_public_key reg_sign_count reg_user_verified credential_id
                      pd_sign_count flags parsed]. split; [done|]. exists (VMap entries), d.
  split_and!; try done.
  - unfold flag_set. by rewrite Hup.
  - apply base64url_round_trip. apply Forall_take, Forall_drop, Hd.
  - rewrite length_take, length_drop. lia.
  - apply prefix_take.
  - by exists v, key, alg.
Qed.

End ceremonies.

(** ** Witnesses *)

Definition toy_sha : Sha256 := {|
  sha256_digest d := Some (map (fun i => wrap8 (foldl Z.add (Z.of_nat i) d)) (seq 0 32))
|}.
Definition toy_evp : Evp := {|
  pkey := list Z;
  ec_p256_fromdata point := EvpKey point;
  rsa_fromdata n e := EvpRejected;
  digest_verify_sha256 key data signature := signature == [wrap8 (foldl Z.add 0 (key ++ data))];
|}.

Definition demo_json_text : str := "client data".
Definition demo_obj (type : str) : list (str * json) :=
  [(lit "type", JStr type); (lit "origin", JStr "https://admin.example"); (lit "challenge", JStr (base64url_encode [1; 2; 3; 4]))].
Definition demo_json (type : str) : JsonText := {|
  json_parse text := if text == demo_json_text then Some (JObj (demo_obj type)) else None
|}.

Definition demo_cose_bytes : list Z := [165; 1; 2; 3; 38].
Definition demo_cose : cbor_item := IMap [
  (IUint INT_8 1, IUint INT_8 2); (IUint INT_8 3, INegint INT_8 6); (INegint INT_8 0, IUint INT_8 1);
  (INegint INT_8 1, IBytes true (repeat 7 32)); (INegint INT_8 2, IBytes true (repeat 8 32))].

Definition demo_rp : str := "admin.example".
Definition demo_hash (d : list Z) : list Z := match sha256_digest (Sha256 := toy_sha) d with Some h => h | None => [] end.

(** User present and verified, attested data, counter 9. *)
Definition demo_auth_data : list Z :=
  demo_hash (bytes_of demo_rp) ++ [0x45; 0; 0; 0; 9] ++ repeat 0 16 ++ [0; 3] ++ [200; 201; 202] ++ demo_cose_bytes.
Definition demo_att_bytes : list Z := [162; 99].
Definition demo_lib : LibCbor := table_cbor [(demo_cose_bytes, demo_cose);
  (demo_att_bytes, IMap [(IString true "fmt", IString true "none"); (IString true "authData", IBytes true demo_auth_data)])].
Definition demo_key : list Z := 4 :: repeat 7 32 ++ repeat 8 32.
Definition demo_signature : list Z :=
  [wrap8 (foldl Z.add 0 (demo_key ++ demo_auth_data ++ demo_hash (bytes_of demo_json_text)))].

Lemma demo_auth_bytes : Forall byte_val demo_auth_data.
Proof.
  apply Forall_forall. intros b Hb%list_elem_of_In.
  assert (forallb (fun b => (0 <=? b) && (b <? 256)) demo_auth_data = true) as H by (vm_compute; reflexivity).
  rewrite forallb_forall in H. specialize (H b Hb). unfold byte_val, in_width. change (2 ^ Z.of_nat 8) with 256. lia.
Qed.

Lemma authentication_exact_witness :
  let Sha := toy_sha in let Lib := demo_lib in let E := toy_evp in let J := demo_json "webauthn.get" in
  verify_webauthn_authentication (Sha := Sha) (Lib := Lib) (E := E) (J := J) [1; 2; 3; 4] demo_json_text demo_auth_data
    demo_signature demo_cose_bytes 8 demo_rp "https://admin.example" = Ok (mkAssertion 9 true) /\
  counter_ok 8 (counter_of demo_auth_data).
Proof.
  intros Sha Lib E J.
  assert (verify_webauthn_authentication (Sha := Sha) (Lib := Lib) (E := E) (J := J) [1; 2; 3; 4] demo_json_text demo_auth_data
    demo_signature demo_cose_bytes 8 demo_rp "https://admin.example" = Ok (mkAssertion 9 true)) as Hok
    by (vm_compute; reflexivity).
  split; [exact Hok|].
  pose proof (proj1 (@authentication_exact Sha Lib E J [1; 2; 3; 4] demo_json_text demo_auth_data demo_signature
    demo_cose_bytes 8 demo_rp "https://admin.example" (mkAssertion 9 true) (demo_hash (bytes_of demo_rp))
    (demo_hash (bytes_of demo_json_text)) demo_auth_bytes eq_refl eq_refl) Hok) as H.
  destruct H as (_ & _ & _ & _ & _ & H & _). exact H.
Defined.

Lemma registration_sound_witness :
  let Sha := toy_sha in let Lib := demo_lib in let E := toy_evp in let J := demo_json "webauthn.create" in
  exists r, verify_webauthn_registration (Sha := Sha) (Lib := Lib) (E := E) (J := J) [1; 2; 3; 4] demo_json_text
              demo_att_bytes demo_rp "https://admin.example" = Ok r /\
            base64url_decode (credential_id_b64url r) = Ok [200; 201; 202] /\
            client_data_ok (J := J) demo_json_text [1; 2; 3; 4] "https://admin.example" "webauthn.create".
Proof.
  intros Sha Lib E J. eexists. split; [vm_compute; reflexivity|]. split; [vm_compute; reflexivity|].
  refine (proj1 (@registration_sound Sha Lib E J (table_cbor_laws _) [1; 2; 3; 4] demo_json_text
    demo_att_bytes demo_rp "https://admin.example" _ (demo_hash (bytes_of demo_rp)) _ eq_refl _)).
  - intros m b Hm Hb. assert (b = demo_auth_data) as ->; [|exact demo_auth_bytes].
    vm_compute in Hm. injection Hm as <-. vm_compute in Hb. injection Hb as <-. vm_compute. reflexivity.
  - vm_compute. reflexivity.
Defined.
