(* ===== verification/UrlFetch.v ===== *)
(** * UrlFetch: fetching an import list from a URL

    Models [admin/url_fetch.cpp]: the URL parser, the address filter and
    [fetch_url]. Name resolution, connecting, TLS and the HTTP exchange are
    the fields of [Network]; what [fetch_url] does to the network is recorded
    as a trace. *)
From S2P Require Import Prelude Text Bits Codec Net.

Record ParsedUrl := mkUrl { https : bool; host : str; port : str; target : str }.

Definition after_char (c : ascii) (s : str) : option (str * str) :=
  match find_char c s with Some i => Some (take i s, drop (S i) s) | None => None end.

Definition parse_url (url : str) : option ParsedUrl :=
  let scheme :=
    if take 7 url == lit "http://" then Some (false, drop 7 url)
    else if take 8 url == lit "https://" then Some (true, drop 8 url)
    else None in
  match scheme with
  | None => None
  | Some (https, view) =>
      let authority := match find_char "/" view with Some slash => take slash view | None => view end in
      let target := match find_char "/" view with Some slash => drop slash view | None => lit "/" end in
      if authority == [] then None
      else if bool_decide (is_Some (find_char "@" authority)) then None
      else
        let host_port :=
          match authority with
          | "["%char :: _ =>
              match find_char "]" authority with
              | None => None
              | Some close =>
                  let rest := drop (S close) authority in
                  Some (take (close - 1) (drop 1 authority),
                        match rest with ":"%char :: p => p | _ => [] end)
              end
          | _ => match find_char ":" authority with
                 | None => Some (authority, [])
                 | Some colon => Some (take colon authority, drop (S colon) authority)
                 end
          end in
        match host_port with
        | None => None
        | Some (host, port) =>
            if host == [] then None
            else Some (mkUrl https host
                         (if port == [] then (if https then lit "443" else lit "80") else port) target)
        end
  end.

Section filter.
Context `{Asio : AsioIp}.

Definition unwrap_v4_mapped (a : address) : address :=
  match a with
  | addr_v6 v6 _ => if v6_is_v4_mapped v6 then addr_v4 (make_address_v4_mapped v6) else a
  | addr_v4 _ => a
  end.

Definition kDeniedRanges : list str := [
  lit "10.0.0.0/8"; lit "172.16.0.0/12"; lit "192.168.0.0/16"; lit "169.254.0.0/16";
  lit "100.64.0.0/10"; lit "0.0.0.0/8"; lit "fc00::/7"; lit "fe80::/10"].

Definition is_disallowed_address (raw_address : address) : bool :=
  let address := unwrap_v4_mapped raw_address in
  if is_loopback address || is_multicast address || is_unspecified address then true
  else existsb (fun text => match parse_cidr 0 text with
                            | Some range => address_in_cidr address range
                            | None => false
                            end) kDeniedRanges.
End filter.

(** ** [fetch_url] *)

Record UrlFetchResult := mkFetch { ok : bool; body : str; error : str }.
Definition fetch_error (msg : str) : UrlFetchResult := mkFetch false [] msg.

(** The outcome of reading the response: a status and body, the body limit
    exceeded, or another error. *)
Inductive read_result := ReadOk (status : Z) (response_body : str) | ReadTooLarge | ReadError (msg : str).

Record Network := {
  async_resolve : str -> str -> str + list address;
  async_connect : address -> option str;
  set_sni : str -> bool;
  async_handshake : option str;
  async_write : option str;
  async_read : Z -> read_result;
}.

(** What reached the network. *)
Inductive net_event :=
  | NConnect (to : address)
  | NRequest (to : address) (request_target request_host : str).

Definition read_response (net : Network) (max_bytes : Z) : UrlFetchResult :=
  match async_read net max_bytes with
  | ReadTooLarge => fetch_error (lit "response exceeded " ++ to_dec max_bytes ++ lit " byte limit")
  | ReadError msg => fetch_error msg
  | ReadOk status response_body =>
      if status / 100 =? 3 then
        fetch_error (lit "server returned a redirect (" ++ to_dec status ++
                     lit ") — redirects aren't followed, paste the final URL directly")
      else if negb (status / 100 =? 2) then fetch_error (lit "server returned HTTP " ++ to_dec status)
      else mkFetch true response_body []
  end.

Section fetch.
Context `{Asio : AsioIp} (net : Network).

Definition fetch_url (url : str) (max_bytes : Z) : UrlFetchResult * list net_event :=
  match parse_url url with
  | None => (fetch_error "expected an http:// or https:// URL", [])
  | Some parsed =>
      match async_resolve net (host parsed) (port parsed) with
      | inl msg => (fetch_error (lit "could not resolve host: " ++ msg), [])
      | inr endpoints =>
          match find (fun a => negb (is_disallowed_address a)) endpoints with
          | None => (fetch_error "refusing to fetch from a loopback/private/internal address", [])
          | Some filtered =>
              match async_connect net filtered with
              | Some msg => (fetch_error (lit "could not connect: " ++ msg), [NConnect filtered])
              | None =>
                  let sent := [NConnect filtered; NRequest filtered (target parsed) (host parsed)] in
                  if negb (https parsed) then
                    match async_write net with
                    | Some msg => (fetch_error msg, sent)
                    | None => (read_response net max_bytes, sent)
                    end
                  else if negb (set_sni net (host parsed)) then
                    (fetch_error "failed to set SNI hostname", [NConnect filtered])
                  else match async_handshake net with
                       | Some msg => (fetch_error (lit "TLS handshake failed: " ++ msg), [NConnect filtered])
                       | None =>
                           match async_write net with
                           | Some msg => (fetch_error msg, sent)
                           | None => (read_response net max_bytes, sent)
                           end
                       end
              end
          end
      end
  end.
End fetch.

(** ** Which addresses are refused *)

(** How the parser reads the literals of [kDeniedRanges]. *)
Class AsioLiterals (Asio : AsioIp) := {
  lit_10 : make_address "10.0.0.0" = Some (addr_v4 [10; 0; 0; 0]);
  lit_172 : make_address "172.16.0.0" = Some (addr_v4 [172; 16; 0; 0]);
  lit_192 : make_address "192.168.0.0" = Some (addr_v4 [192; 168; 0; 0]);
  lit_169 : make_address "169.254.0.0" = Some (addr_v4 [169; 254; 0; 0]);
  lit_100 : make_address "100.64.0.0" = Some (addr_v4 [100; 64; 0; 0]);
  lit_0 : make_address "0.0.0.0" = Some (addr_v4 [0; 0; 0; 0]);
  lit_fc00 : make_address "fc00::" = Some (addr_v6 (252 :: repeat 0 15) 0);
  lit_fe80 : make_address "fe80::" = Some (addr_v6 (254 :: 128 :: repeat 0 14) 0);
}.

(** The private ranges, in numbers. *)
Definition private_v4 (b : list Z) : bool :=
  let b0 := nth 0 b 0 in let b1 := nth 1 b 0 in
  (b0 =? 10) || ((b0 =? 172) && (16 <=? b1) && (b1 <=? 31)) || ((b0 =? 192) && (b1 =? 168)) ||
  ((b0 =? 169) && (b1 =? 254)) || ((b0 =? 100) && (64 <=? b1) && (b1 <=? 127)) || (b0 =? 0).
Definition private_v6 (b : list Z) : bool :=
  let b0 := nth 0 b 0 in let b1 := nth 1 b 0 in
  (b0 =? 252) || (b0 =? 253) || ((b0 =? 254) && (128 <=? b1) && (b1 <=? 191)).
Definition private (a : address) : bool :=
  match a with addr_v4 b => private_v4 b | addr_v6 b _ => private_v6 b end.

(** One byte under a mask, checked on all 256 values. *)
Definition masked (mask value lo hi : Z) (b : Z) : bool :=
  Bool.eqb (Z.land b mask =? Z.land value mask) ((lo <=? b) && (b <=? hi)).

Lemma masked_172 b : in_width 8 b -> (Z.land b 240 =? Z.land 16 240) = (16 <=? b) && (b <=? 31).
Proof. intros Hb. apply eqb_prop, (in_width_forallb 8 (masked 240 16 16 31) b Hb). vm_compute. reflexivity. Qed.
Lemma masked_100 b : in_width 8 b -> (Z.land b 192 =? Z.land 64 192) = (64 <=? b) && (b <=? 127).
Proof. intros Hb. apply eqb_prop, (in_width_forallb 8 (masked 192 64 64 127) b Hb). vm_compute. reflexivity. Qed.
Lemma masked_fc b : in_width 8 b -> (Z.land b 254 =? Z.land 252 254) = (252 <=? b) && (b <=? 253).
Proof. intros Hb. apply eqb_prop, (in_width_forallb 8 (masked 254 252 252 253) b Hb). vm_compute. reflexivity. Qed.
Lemma masked_fe80 b : in_width 8 b -> (Z.land b 192 =? Z.land 128 192) = (128 <=? b) && (b <=? 191).
Proof. intros Hb. apply eqb_prop, (in_width_forallb 8 (masked 192 128 128 191) b Hb). vm_compute. reflexivity. Qed.

(** The prefix test on the lengths of the table. *)
Lemma prefix_8 b0 b1 b2 b3 p0 p1 p2 p3 : prefix_matches [b0; b1; b2; b3] [p0; p1; p2; p3] 8 = (b0 =? p0).
Proof. unfold prefix_matches. change (Z.to_nat (8 / 8)) with 1%nat. cbn [forallb seq nth]. by destruct (b0 =? p0). Qed.
Lemma prefix_16 b0 b1 b2 b3 p0 p1 p2 p3 :
  prefix_matches [b0; b1; b2; b3] [p0; p1; p2; p3] 16 = (b0 =? p0) && (b1 =? p1).
Proof.
  unfold prefix_matches. change (Z.to_nat (16 / 8)) with 2%nat. cbn [forallb seq nth].
  by destruct (b0 =? p0), (b1 =? p1).
Qed.
Lemma prefix_12 b0 b1 b2 b3 p0 p1 p2 p3 :
  prefix_matches [b0; b1; b2; b3] [p0; p1; p2; p3] 12 = (b0 =? p0) && (Z.land b1 240 =? Z.land p1 240).
Proof. unfold prefix_matches. change (Z.to_nat (12 / 8)) with 1%nat. cbn [forallb seq nth]. by destruct (b0 =? p0). Qed.
Lemma prefix_10 b0 b1 b2 b3 p0 p1 p2 p3 :
  prefix_matches [b0; b1; b2; b3] [p0; p1; p2; p3] 10 = (b0 =? p0) && (Z.land b1 192 =? Z.land p1 192).
Proof. unfold prefix_matches. change (Z.to_nat (10 / 8)) with 1%nat. cbn [forallb seq nth]. by destruct (b0 =? p0). Qed.
Lemma prefix_7 b p : prefix_matches b p 7 = (Z.land (nth 0 b 0) 254 =? Z.land (nth 0 p 0) 254).
Proof. reflexivity. Qed.
Lemma prefix_10_v6 b p :
  prefix_matches b p 10 = (nth 0 b 0 =? nth 0 p 0) && (Z.land (nth 1 b 0) 192 =? Z.land (nth 1 p 0) 192).
Proof. unfold prefix_matches. change (Z.to_nat (10 / 8)) with 1%nat. cbn [forallb seq]. by destruct (_ =? _). Qed.

Section refused.
Context `{Asio : AsioIp} `{Lits : !AsioLiterals Asio}.

Lemma parse_literal i text addr_text len a :
  find_char "/" text = Some i -> take i text = addr_text -> make_address addr_text = Some a ->
  from_chars_u UINT_MAX (drop (S i) text) = Some (len, []) -> (len >? (if is_v4 a then 32 else 128)) = false ->
  parse_cidr 0 text = Some (make_cidr a len text 0).
Proof. intros Hi Ht Ha Hl Hm. unfold parse_cidr. by rewrite Hi, Ht, Ha, Hl, Hm. Qed.

Definition in_range (a : address) (text : str) : bool :=
  match parse_cidr 0 text with Some range => address_in_cidr a range | None => false end.

Lemma in_range_literal a i text addr_text len p :
  find_char "/" text = Some i -> take i text = addr_text -> make_address addr_text = Some p ->
  from_chars_u UINT_MAX (drop (S i) text) = Some (len, []) -> (len >? (if is_v4 p then 32 else 128)) = false ->
  in_range a text = address_in_cidr a (make_cidr p len text 0).
Proof. intros. unfold in_range. by erewrite parse_literal. Qed.

(** The eight ranges on an IPv4 address and on an IPv6 address. *)
Ltac range_of lit_fact := erewrite in_range_literal; [|reflexivity|reflexivity|exact lit_fact|reflexivity|reflexivity].

Lemma denied_ranges a :
  existsb (in_range a) kDeniedRanges =
  match a with
  | addr_v4 b => prefix_matches b [10; 0; 0; 0] 8 || prefix_matches b [172; 16; 0; 0] 12 ||
                 prefix_matches b [192; 168; 0; 0] 16 || prefix_matches b [169; 254; 0; 0] 16 ||
                 prefix_matches b [100; 64; 0; 0] 10 || prefix_matches b [0; 0; 0; 0] 8
  | addr_v6 b _ => prefix_matches b (252 :: repeat 0 15) 7 || prefix_matches b (254 :: 128 :: repeat 0 14) 10
  end.
Proof.
  unfold kDeniedRanges. cbn [existsb].
  range_of lit_10. range_of lit_172. range_of lit_192. range_of lit_169. range_of lit_100. range_of lit_0.
  range_of lit_fc00. range_of lit_fe80. unfold address_in_cidr. cbn [make_cidr cidr_prefix cidr_prefix_len].
  destruct a as [b|b scope]; rewrite ?orb_false_l, ?orb_false_r, ?orb_assoc; reflexivity.
Qed.

Lemma denied_private a : address_ok a -> existsb (in_range a) kDeniedRanges = private a.
Proof.
  rewrite denied_ranges. destruct a as [b|b scope]; cbn [address_ok private].
  - intros [Hl Hb]. do 4 (destruct b as [|? b]; [done|]). destruct b; [|done].
    repeat match goal with H : Forall _ (_ :: _) |- _ => apply Forall_cons in H as [? H] end.
    unfold private_v4. cbn [nth]. rewrite <- !andb_assoc, <- masked_172, <- masked_100 by done.
    by rewrite !prefix_8, !prefix_16, prefix_10, prefix_12.
  - intros [[Hl Hb] _]. destruct b as [|b0 [|b1 b]]; [done..|].
    apply Forall_cons in Hb as [H0 [H1 _]%Forall_cons].
    unfold private_v6. cbn [nth]. rewrite <- andb_assoc, <- masked_fe80 by done.
    assert ((b0 =? 252) || (b0 =? 253) = (Z.land b0 254 =? Z.land 252 254)) as ->.
    { rewrite masked_fc by done. destruct (Z.eqb_spec b0 252), (Z.eqb_spec b0 253); simpl; lia. }
    by rewrite prefix_7, prefix_10_v6.
Qed.

(** The filter, on the address a client of the socket sees. *)
Lemma is_disallowed_spec a :
  address_ok (unwrap_v4_mapped a) ->
  is_disallowed_address a =
  let u := unwrap_v4_mapped a in is_loopback u || is_multicast u || is_unspecified u || private u.
Proof.
  intros Ha. unfold is_disallowed_address. cbv zeta. rewrite <- denied_private by done.
  by destruct (is_loopback _ || _ || _).
Qed.

Definition is_connect (e : net_event) : bool := if e is NConnect _ then true else false.
Definition contacted (a : address) (events : list net_event) : Prop :=
  NConnect a ∈ events \/ exists t h, NRequest a t h ∈ events.

(** Either nothing is contacted, or the first address the filter lets pass. *)
Lemma fetch_cases net url max_bytes result events :
  fetch_url net url max_bytes = (result, events) ->
  (events = [] /\ ok result = false) \/
  exists u l a, parse_url url = Some u /\ async_resolve net (host u) (port u) = inr l /\
    find (fun a => negb (is_disallowed_address a)) l = Some a /\
    (events = [NConnect a] \/ events = [NConnect a; NRequest a (target u) (host u)]) /\
    (ok result = true -> result = read_response net max_bytes).
Proof.
  unfold fetch_url. destruct (parse_url url) as [u|]; [|intros [= <- <-]; by left].
  destruct (async_resolve net (host u) (port u)) as [|l] eqn:Hl; [intros [= <- <-]; by left|].
  destruct (find _ l) as [a|] eqn:Hf; [|intros [= <- <-]; by left]. intros Hev. right. exists u, l, a.
  split_and!; [done..| |]; repeat case_match; simplify_eq; auto; done.
Qed.

(** C25: the import fetcher cannot be pointed at the internal network: it
    contacts at most one address, one that the host of the URL resolved to and
    that, IPv4-mapped forms unwrapped, is neither loopback, multicast nor
    unspecified, nor in 10/8, 172.16/12, 192.168/16, 169.254/16, 100.64/10,
    0/8, fc00::/7 or fe80::/10. When every resolved address is internal it
    contacts none. A body is returned only with a 2xx status, so no redirect
    is followed. *)
Theorem fetch_never_internal net url max_bytes :
  (forall h p l, async_resolve net h p = inr l -> Forall (fun a => address_ok (unwrap_v4_mapped a)) l) ->
  let '(result, events) := fetch_url net url max_bytes in
  (forall a, contacted a events ->
     exists u l, parse_url url = Some u /\ async_resolve net (host u) (port u) = inr l /\ a ∈ l /\
       let v := unwrap_v4_mapped a in
       is_loopback v = false /\ is_multicast v = false /\ is_unspecified v = false /\ private v = false) /\
  (length (filter (fun e => is_connect e = true) events) <= 1)%nat /\
  (ok result = true -> exists status, async_read net max_bytes = ReadOk status (body result) /\ status / 100 = 2).
Proof.
  intros Hres. destruct (fetch_url net url max_bytes) as [result events] eqn:E.
  destruct (fetch_cases net url max_bytes _ _ E) as [[-> Hok]|(u & l & a & Hu & Hl & Hf & Hev & Hok)].
  - split_and!; [by intros a [?%not_elem_of_nil|(? & ? & ?%not_elem_of_nil)]|simpl; lia|congruence].
  - split_and!; [|by destruct Hev as [-> | ->]; simpl; lia|].
    + intros a' Ha'. assert (a' = a) as ->.
      { destruct Hev as [-> | ->], Ha' as [Ha'|(t & h & Ha')]; set_solver. }
      apply find_some in Hf as [Hin%list_elem_of_In Hd%negb_true_iff].
      exists u, l. split_and!; [done..|]. specialize (Hres _ _ _ Hl). rewrite Forall_forall in Hres.
      rewrite is_disallowed_spec in Hd by by apply Hres. cbv zeta in *.
      by repeat apply orb_false_iff in Hd as [Hd ?].
    + intros Hr. pose proof (Hok Hr) as E1. rewrite E1 in Hr |- *. unfold read_response in Hr |- *.
      destruct (async_read net max_bytes) as [status b| |]; [|discriminate Hr|discriminate Hr].
      destruct (status / 100 =? 3); [discriminate Hr|].
      destruct (Z.eqb_spec (status / 100) 2); [|discriminate Hr]. simpl. eauto.
Qed.

End refused.

(** ** Witness *)

Definition literal_table : list (str * address) := [
  (lit "fc00::", addr_v6 (252 :: repeat 0 15) 0); (lit "fe80::", addr_v6 (254 :: 128 :: repeat 0 14) 0)].

Definition literal_asio : AsioIp := {|
  make_address s := match find (fun p => p.1 == s) literal_table with
                    | Some p => Some p.2
                    | None => make_address (AsioIp := text_asio) s
                    end;
  to_string := to_string (AsioIp := text_asio);
  v6_is_v4_mapped := v6_is_v4_mapped (AsioIp := text_asio);
  make_address_v4_mapped := make_address_v4_mapped (AsioIp := text_asio);
  is_loopback a := if a is addr_v4 (b :: _) then b =? 127 else false;
  is_multicast _ := false;
  is_unspecified _ := false;
|}.

#[export] Instance literal_asio_ok : AsioLiterals literal_asio.
Proof. split; vm_compute; reflexivity. Qed.

(** A host that resolves to an internal and to a public address. *)
Definition demo_net : Network := {|
  async_resolve _ _ := inr [addr_v4 [172; 31; 0; 9]; addr_v4 [127; 0; 0; 1]; addr_v4 [93; 184; 216; 34]];
  async_connect _ := None; set_sni _ := true; async_handshake := None; async_write := None;
  async_read _ := ReadOk 200 "1.2.3.4";
|}.

Lemma fetch_never_internal_witness :
  fetch_url (Asio := literal_asio) demo_net "https://lists.example/bad.txt" 1000 =
    (mkFetch true "1.2.3.4" [], [NConnect (addr_v4 [93; 184; 216; 34]); NRequest (addr_v4 [93; 184; 216; 34]) "/bad.txt" "lists.example"]) /\
  forall a, contacted a (fetch_url (Asio := literal_asio) demo_net "https://lists.example/bad.txt" 1000).2 ->
            private (unwrap_v4_mapped (Asio := literal_asio) a) = false.
Proof.
  split; [vm_compute; reflexivity|]. intros a Ha.
  pose proof (fetch_never_internal (Asio := literal_asio) demo_net "https://lists.example/bad.txt" 1000) as H.
  destruct (fetch_url (Asio := literal_asio) demo_net "https://lists.example/bad.txt" 1000) as [result events].
  destruct H as [H _].
  - intros h p l Hl. injection Hl as <-.
    repeat (apply Forall_cons; split; [split; [reflexivity|];
      repeat (apply Forall_cons; split; [split; vm_compute; [discriminate|reflexivity]|]); apply Forall_nil_2|]).
    apply Forall_nil_2.
  - destruct (H a Ha) as (u & l & _ & _ & _ & _ & _ & _ & Hp). exact Hp.
Defined.
