(* ===== verification/ConfigStore.v ===== *)
(** * ConfigStore: the published configuration and its persistence

    Models [config/config_store.cpp]. Three kinds of thread meet here: admin
    requests calling [update], the background writer, and the poll for
    external edits. Every critical section of each of them, and every file
    operation between two, is one event; a run is any sequence of events. The
    file is represented by what it parses to ([None] when it does not parse)
    and its modification time; new modification times are arguments. *)
From S2P Require Import Prelude Config.

Section store.
Context {C : Type}.

(** [update] holds [write_mutex_] from its first event to its last. *)
Inductive update_phase :=
  | UNone
  | UCopied (updated : C) (mutator : C -> outcome C)
  | UPublished (snapshot : C).

Inductive writer_phase := WIdle | WWriting (to_write : C) | WStamp | WExited.

Inductive poll_phase := PNone | PStat (mtime : Z) | PRead (mtime : Z) | PPublish (mtime : Z) (config : C).

Record ConfigStore := mkStore {
  current_ : C;
  last_mtime_ : Z;
  pending_write_ : option C;
  stop_ : bool;
  file : option C;
  file_mtime : Z;
  updating : update_phase;
  writer : writer_phase;
  polling : poll_phase;
}.

Inductive event :=
  | EUpdateCopy (mutator : C -> outcome C)
  | EUpdatePublish
  | EUpdateQueue
  | EWriterTake
  | EWriterWrite (new_mtime : Z)
  | EWriterFail
  | EWriterStamp
  | EPollStat
  | EPollCompare
  | EPollRead
  | EPollPublish
  | EExternal (contents : option C) (new_mtime : Z)
  | EStop.

Definition init (c : C) (mtime : Z) : ConfigStore :=
  mkStore c mtime None false (Some c) mtime UNone WIdle PNone.

(** *** [update] *)
Definition update_copy (mutator : C -> outcome C) (s : ConfigStore) : option ConfigStore :=
  match updating s with
  | UNone => Some (mkStore (current_ s) (last_mtime_ s) (pending_write_ s) (stop_ s) (file s) (file_mtime s)
                     (UCopied (current_ s) mutator) (writer s) (polling s))
  | _ => None
  end.

(** A mutator that throws leaves everything as it was. *)
Definition update_publish (s : ConfigStore) : option ConfigStore :=
  match updating s with
  | UCopied updated mutator =>
      match mutator updated with
      | Ok snapshot => Some (mkStore snapshot (last_mtime_ s) (pending_write_ s) (stop_ s) (file s) (file_mtime s)
                               (UPublished snapshot) (writer s) (polling s))
      | Throw _ => Some (mkStore (current_ s) (last_mtime_ s) (pending_write_ s) (stop_ s) (file s) (file_mtime s)
                           UNone (writer s) (polling s))
      end
  | _ => None
  end.

Definition update_queue (s : ConfigStore) : option ConfigStore :=
  match updating s with
  | UPublished snapshot => Some (mkStore (current_ s) (last_mtime_ s) (Some snapshot) (stop_ s) (file s) (file_mtime s)
                                   UNone (writer s) (polling s))
  | _ => None
  end.

(** A whole call of [update], its exceptions passed on, as its caller sees it:
    [m] mutates a copy, which is published and queued only when it returns. *)
Definition update {A} (m : M C A) : M ConfigStore A := fun s =>
  match m (current_ s) with
  | (c, Ok a) => (mkStore c (last_mtime_ s) (Some c) (stop_ s) (file s) (file_mtime s)
                    (updating s) (writer s) (polling s), Ok a)
  | (_, Throw e) => (s, Throw e)
  end.

(** *** [writer_loop] *)
Definition writer_take (s : ConfigStore) : option ConfigStore :=
  match writer s with
  | WIdle =>
      match pending_write_ s with
      | Some c => Some (mkStore (current_ s) (last_mtime_ s) None (stop_ s) (file s) (file_mtime s)
                          (updating s) (WWriting c) (polling s))
      | None => if stop_ s then
                  Some (mkStore (current_ s) (last_mtime_ s) None (stop_ s) (file s) (file_mtime s)
                          (updating s) WExited (polling s))
                else None
      end
  | _ => None
  end.

(** [write_to_disk]: the rename puts the new contents in place. *)
Definition writer_write (new_mtime : Z) (s : ConfigStore) : option ConfigStore :=
  match writer s with
  | WWriting c => Some (mkStore (current_ s) (last_mtime_ s) (pending_write_ s) (stop_ s) (Some c) new_mtime
                          (updating s) WStamp (polling s))
  | _ => None
  end.

Definition writer_fail (s : ConfigStore) : option ConfigStore :=
  match writer s with
  | WWriting _ => Some (mkStore (current_ s) (last_mtime_ s) (pending_write_ s) (stop_ s) (file s) (file_mtime s)
                          (updating s) WIdle (polling s))
  | _ => None
  end.

Definition writer_stamp (s : ConfigStore) : option ConfigStore :=
  match writer s with
  | WStamp => Some (mkStore (current_ s) (file_mtime s) (pending_write_ s) (stop_ s) (file s) (file_mtime s)
                      (updating s) WIdle (polling s))
  | _ => None
  end.

(** *** [poll_for_external_changes] *)
Definition with_polling (p : poll_phase) (s : ConfigStore) : ConfigStore :=
  mkStore (current_ s) (last_mtime_ s) (pending_write_ s) (stop_ s) (file s) (file_mtime s) (updating s) (writer s) p.

Definition poll_step (e : event) (s : ConfigStore) : option ConfigStore :=
  match e, polling s with
  | EPollStat, PNone => Some (with_polling (PStat (file_mtime s)) s)
  | EPollCompare, PStat mtime => Some (with_polling (if mtime =? last_mtime_ s then PNone else PRead mtime) s)
  | EPollRead, PRead mtime => Some (with_polling (match file s with Some c => PPublish mtime c | None => PNone end) s)
  | EPollPublish, PPublish mtime config =>
      Some (mkStore config mtime (pending_write_ s) (stop_ s) (file s) (file_mtime s) (updating s) (writer s) PNone)
  | _, _ => None
  end.

Definition step (e : event) (s : ConfigStore) : option ConfigStore :=
  match e with
  | EUpdateCopy m => update_copy m s
  | EUpdatePublish => update_publish s
  | EUpdateQueue => update_queue s
  | EWriterTake => writer_take s
  | EWriterWrite t => writer_write t s
  | EWriterFail => writer_fail s
  | EWriterStamp => writer_stamp s
  | EExternal c t => Some (mkStore (current_ s) (last_mtime_ s) (pending_write_ s) (stop_ s) c t
                             (updating s) (writer s) (polling s))
  | EStop => Some (mkStore (current_ s) (last_mtime_ s) (pending_write_ s) true (file s) (file_mtime s)
                     (updating s) (writer s) (polling s))
  | _ => poll_step e s
  end.

Fixpoint run (es : list event) (s : ConfigStore) : option ConfigStore :=
  match es with
  | [] => Some s
  | e :: es' => match step e s with Some s' => run es' s' | None => None end
  end.

(** When no other update is under way, the events of one update amount to the
    call; a mutator that throws ends it before anything is queued. *)
Lemma update_is_its_events {A} (m : M C A) (s : ConfigStore) :
  updating s = UNone ->
  let mutator c := match m c with (c', Ok _) => Ok c' | (_, Throw e) => Throw e end in
  run ([EUpdateCopy mutator; EUpdatePublish] ++ if is_ok (update m s).2 then [EUpdateQueue] else []) s =
  Some (update m s).1.
Proof.
  destruct s as [c lm pw st f fm up w po]. cbn [updating]. intros ->. unfold update.
  cbn [run step update_copy update_publish updating current_ app].
  by destruct (m c) as [c' [a|e]] eqn:Em; cbn; rewrite ?Em.
Qed.

(** ** Runs without external edits *)



(** Where the newest published configuration is: queued by its update, about
    to be queued, being written, or in the file. *)
Definition on_its_way (s : ConfigStore) : Prop :=
  match updating s with
  | UPublished c => c = current_ s
  | _ => match pending_write_ s with
         | Some c => c = current_ s
         | None => match writer s with
                   | WWriting c => c = current_ s
                   | _ => file s = Some (current_ s)
                   end
         end
  end.

Definition store_inv (s : ConfigStore) : Prop :=
  on_its_way s /\
  (forall c m, updating s = UCopied c m -> c = current_ s) /\
  (match writer s with WStamp => True | _ => file_mtime s = last_mtime_ s end) /\
  (match polling s with PNone => True | PStat t => t = last_mtime_ s | _ => False end) /\
  (writer s = WStamp -> polling s = PNone) /\
  (writer s = WExited -> stop_ s = true).




(** Nothing is left to do: no update in progress, the writer caught up. *)
Definition settled (s : ConfigStore) : Prop :=
  updating s = UNone /\ pending_write_ s = None /\ (forall c, writer s <> WWriting c).





(** The writer can always catch up: at most five of its own steps settle the
    store once no update is in progress, unless it was already told to exit. *)
Lemma writer_catches_up s t :
  store_inv s -> updating s = UNone -> polling s = PNone -> writer s <> WExited ->
  exists es s', Forall (fun e => e = EWriterTake \/ e = EWriterWrite t \/ e = EWriterStamp) es /\
    (length es <= 5)%nat /\ run es s = Some s' /\ settled s' /\ current_ s' = current_ s.
Proof.
  intros _ Hup Hpo Hex.
  assert (forall s0, updating s0 = UNone -> polling s0 = PNone -> writer s0 = WIdle -> exists es s',
            Forall (fun e => e = EWriterTake \/ e = EWriterWrite t \/ e = EWriterStamp) es /\
            (length es <= 3)%nat /\ run es s0 = Some s' /\ settled s' /\ current_ s' = current_ s0) as Hidle.
  { intros s0 H1 H2 H3. destruct (pending_write_ s0) as [c|] eqn:Hp.
    - exists [EWriterTake; EWriterWrite t; EWriterStamp]. eexists. split_and!; [by repeat constructor; auto|simpl; lia| | |].
      + cbn [run step]. unfold writer_take. rewrite H3, Hp. cbn. reflexivity.
      + by split_and!.
      + done.
    - exists [], s0. split_and!; [constructor|simpl; lia|done|by split_and!; [..|rewrite H3]|done]. }
  destruct (writer s) as [|c| |] eqn:Hw; [|..|done].
  - destruct (Hidle s Hup Hpo Hw) as (es & s' & H1 & H2 & H3). exists es, s'. split_and!; try apply H3; try done. lia.
  - destruct (Hidle (mkStore (current_ s) t (pending_write_ s) (stop_ s) (Some c) t (updating s) WIdle (polling s))
      Hup Hpo eq_refl) as (es & s' & H1 & H2 & H3 & H4 & H5).
    exists (EWriterWrite t :: EWriterStamp :: es), s'. split_and!; [by repeat constructor; auto|simpl; lia| |done|done].
    cbn [run step]. unfold writer_write. rewrite Hw. cbn. exact H3.
  - destruct (Hidle (mkStore (current_ s) (file_mtime s) (pending_write_ s) (stop_ s) (file s) (file_mtime s)
      (updating s) WIdle (polling s)) Hup Hpo eq_refl) as (es & s' & H1 & H2 & H3 & H4 & H5).
    exists (EWriterStamp :: es), s'. split_and!; [by repeat constructor; auto|simpl; lia| |done|done].
    cbn [run step]. unfold writer_stamp. rewrite Hw. exact H3.
Qed.

End store.

(** ** Witness, and two races

    Configurations are represented by one of their members here. *)

Definition set_member (n : Z) (_ : Z) : outcome Z := Ok n.
Definition update_events (n : Z) : list (event (C := Z)) := [EUpdateCopy (set_member n); EUpdatePublish; EUpdateQueue].



(** A poll between the writer's rename and its recording of the new time takes
    the store's own write for an external edit: an update published meanwhile
    disappears from memory, and is never reloaded although the file holds it. *)
Definition racy_run : list (event (C := Z)) :=
  update_events 7 ++ [EWriterTake; EWriterWrite 2; EPollStat; EPollCompare; EPollRead] ++ update_events 9 ++
  [EPollPublish; EWriterStamp; EWriterTake; EWriterWrite 3; EWriterStamp; EPollStat; EPollCompare].

Example poll_race_loses_update :
  exists s', run racy_run (init 0 1) = Some s' /\ current_ s' = 7 /\ file s' = Some 9 /\ settled s' /\
    polling s' = PNone /\ file_mtime s' = last_mtime_ s'.
Proof. eexists. split; [vm_compute; reflexivity|]. by split_and!. Qed.

(** A failed background write is dropped: nothing is pending any more and the
    file keeps the old configuration until some later update. *)
Example failed_write_not_retried :
  exists s', run (update_events 7 ++ [EWriterTake; EWriterFail]) (init 0 1) = Some s' /\
    current_ s' = 7 /\ file s' = Some 0 /\ settled s' /\ step EWriterTake s' = None.
Proof. eexists. split; [vm_compute; reflexivity|]. by split_and!. Qed.
