(* ===== verification/Files.v ===== *)
(** * Files: atomic replacement and static file lookup

    Models [util/atomic_file.cpp] (Module [AtomicFile]), [admin/static_files.cpp]
    (Module [StaticFiles]) and the query parameter of [admin/http_util.cpp]
    (Module [HttpUtil]). System calls and the file system queries are inputs. *)
From S2P Require Import Prelude Text Codec.

(** ** [write_file_atomically] *)
Module AtomicFile.

Record file := mkFile { contents : str; mode : Z }.
Abbreviation fs := (gmap str file) (only parsing).

Inductive ExistingFileMode := Reset | Preserve.

#[export] Instance ExistingFileMode_eq_dec : EqDecision ExistingFileMode.
Proof. solve_decision. Defined.

(** The result of one [write]: interrupted, failed, or that many bytes. *)
Inductive write_result := WInterrupted | WFailed (err : str) | Wrote (n : nat).

(** What the system calls return; [None] is success. The process stops when
    it has seen the last of [writes] with bytes left to write. *)
Record syscalls := {
  umask : Z;
  open_result : option str;
  fchmod_result : option str;
  writes : list write_result;
  fsync_result : option str;
  close_result : option str;
  rename_result : option str;
}.

(** How a call ends: it returns, throws, or the process stops on the way. *)
Inductive ending := Returned | Threw (e : exn) | Stopped.

Definition tmp_path (path : str) : str := path ++ lit ".tmp".

Definition throw_errno (what path err : str) : exn := RuntimeError (what ++ lit " " ++ path ++ lit ": " ++ err).

(** The destructor of [TempFile]: an uncommitted temp file is unlinked. *)
Definition abandon (path : str) (e : exn) (t : list fs) (d : fs) : list fs * ending :=
  (t ++ [delete (tmp_path path) d], Threw e).

(** The write loop, from [cursor] with the rest of the contents: the states of
    the disk, and the rest left when the results run out. *)
Fixpoint write_loop (tmp written : str) (rest : str) (m : Z) (results : list write_result) (d : fs)
    : list fs * fs * option (option str) :=
  match rest with
  | [] => ([], d, Some None)
  | _ =>
      match results with
      | [] => ([], d, None)
      | WInterrupted :: results' => write_loop tmp written rest m results' d
      | WFailed err :: _ => ([], d, Some (Some err))
      | Wrote n :: results' =>
          let written' := written ++ take n rest in
          let d' := <[tmp := mkFile written' m]> d in
          let '(t, d'', r) := write_loop tmp written' (drop n rest) m results' d' in
          (d' :: t, d'', r)
      end
  end.

(** All states the disk goes through after the initial one, and the ending. *)
Definition write_file_atomically (sys : syscalls) (path data : str) (requested_mode : Z)
    (existing : ExistingFileMode) (d : fs) : list fs * ending :=
  let m := if existing == Preserve then
             match d !! path with Some f => Z.land (mode f) 4095 | None => requested_mode end
           else requested_mode in
  let tmp := tmp_path path in
  match open_result sys with
  | Some err => abandon path (throw_errno "cannot write" tmp err) [] d
  | None =>
      let d1 := <[tmp := mkFile [] (match d !! tmp with Some f => mode f | None => Z.ldiff m (umask sys) end)]> d in
      match fchmod_result sys with
      | Some err => abandon path (throw_errno "cannot set permissions on" tmp err) [d1] d1
      | None =>
          let d2 := <[tmp := mkFile [] m]> d1 in
          let '(t, d3, r) := write_loop tmp [] data m (writes sys) d2 in
          let trace := d1 :: d2 :: t in
          match r with
          | None => (trace, Stopped)
          | Some (Some err) => abandon path (throw_errno "cannot write" tmp err) trace d3
          | Some None =>
              match fsync_result sys with
              | Some err => abandon path (throw_errno "cannot sync" tmp err) trace d3
              | None =>
                  match close_result sys with
                  | Some err => abandon path (throw_errno "cannot close" tmp err) trace d3
                  | None =>
                      match rename_result sys with
                      | Some err => abandon path (throw_errno "cannot replace" path err) trace d3
                      | None =>
                          match d3 !! tmp with
                          | Some f => (trace ++ [<[path := f]> (delete tmp d3)], Returned)
                          | None => (trace, Threw (LogicError "the temp file is gone"))
                          end
                      end
                  end
              end
          end
      end
  end.

(** The file as the state had it. *)
Definition intended_mode (path : str) (requested_mode : Z) (existing : ExistingFileMode) (d : fs) : Z :=
  if existing == Preserve then match d !! path with Some f => Z.land (mode f) 4095 | None => requested_mode end
  else requested_mode.

Lemma tmp_path_ne path : tmp_path path <> path.
Proof. unfold tmp_path. intros E. apply (f_equal length) in E. rewrite length_app in E. simpl in E. lia. Qed.

(** Only the temp file differs from the initial state. *)
Definition untouched (path : str) (d d' : fs) : Prop := forall p, p <> tmp_path path -> d' !! p = d !! p.

Lemma untouched_insert path d d' f : untouched path d d' -> untouched path d (<[tmp_path path := f]> d').
Proof. intros H p Hp. rewrite lookup_insert_ne by done. by apply H. Qed.

Lemma untouched_delete path d d' : untouched path d d' -> untouched path d (delete (tmp_path path) d').
Proof. intros H p Hp. rewrite lookup_delete_ne by done. by apply H. Qed.

Lemma write_loop_spec path d0 written rest m results d t d' r :
  untouched path d0 d -> d !! tmp_path path = Some (mkFile written m) ->
  write_loop (tmp_path path) written rest m results d = (t, d', r) ->
  Forall (untouched path d0) t /\ untouched path d0 d' /\
  exists w, d' !! tmp_path path = Some (mkFile w m) /\ (r = Some None -> w = written ++ rest).
Proof.
  revert written rest d t d' r. induction results as [|res results IH]; intros written rest d t d' r Hd Ht.
  - cbn [write_loop]. destruct rest; intros [= <- <- <-]; (split_and!; [constructor|done|]); exists written;
      (split; [done|]); intros; [by rewrite app_nil_r|done].
  - destruct rest as [|c rest]; cbn [write_loop].
    { intros [= <- <- <-]. split_and!; [constructor|done|]. exists written. split; [done|]. intros _. by rewrite app_nil_r. }
    destruct res as [|err|n].
    + by apply IH.
    + intros [= <- <- <-]. split_and!; [constructor|done|]. by exists written.
    + set (d1 := <[tmp_path path := _]> d).
      destruct (write_loop _ _ _ _ results d1) as [[t1 d2] r1] eqn:E. intros [= <- <- <-].
      apply IH in E as (H1 & H2 & w & H3 & H4); [|by apply untouched_insert|by apply lookup_insert_eq].
      split_and!; [constructor; [by apply untouched_insert|done]|done|]. exists w. split; [done|].
      intros Hr. rewrite (H4 Hr), <- app_assoc. by rewrite take_drop.
Qed.

(** A call that throws: nothing but the temp file changed, and that is gone. *)
Definition thrown_ok (path : str) (d0 : fs) (r : list fs * ending) : Prop :=
  match r.2 with
  | Threw e => (exists m, e = RuntimeError m) /\ Forall (untouched path d0) r.1 /\
      exists after, last r.1 = Some after /\ after !! tmp_path path = None
  | _ => False
  end.

Lemma abandon_spec path what p err t d0 d :
  Forall (untouched path d0) t -> untouched path d0 d ->
  thrown_ok path d0 (abandon path (throw_errno what p err) t d).
Proof.
  intros Ht Hd. split_and!; [by eexists|apply Forall_app; split; [done|]; apply Forall_singleton; by apply untouched_delete|].
  cbn. eexists. rewrite last_snoc. split; [done|]. apply lookup_delete_eq.
Qed.

(** C35: a file is replaced atomically: in every state the disk passes through,
    whichever system call fails and wherever the process stops, every path
    but the temp file's is unchanged, until one last step puts the complete
    contents with exactly the intended mode in place. A call that returns has
    done so and left no temp file; one that throws changed nothing and
    removed the temp file. *)
Theorem replacement_is_atomic sys path data requested_mode existing d :
  let r := write_file_atomically sys path data requested_mode existing d in
  match r.2 with
  | Returned => exists before after, r.1 = before ++ [after] /\ Forall (untouched path d) before /\
      after !! path = Some (mkFile data (intended_mode path requested_mode existing d)) /\
      after !! tmp_path path = None /\ (forall p, p <> path -> p <> tmp_path path -> after !! p = d !! p)
  | Threw _ => thrown_ok path d r
  | Stopped => Forall (untouched path d) r.1
  end.
Proof.
  assert (untouched path d d) as H0 by done. unfold write_file_atomically.
  fold (intended_mode path requested_mode existing d). set (m := intended_mode _ _ _ _).
  destruct (open_result sys) as [err|]; [apply abandon_spec; [constructor|done]|].
  set (d1 := <[tmp_path path := _]> d). assert (untouched path d d1) as H1 by by apply untouched_insert.
  destruct (fchmod_result sys) as [err|]; [apply abandon_spec; [by constructor|done]|].
  set (d2 := <[tmp_path path := _]> d1). assert (untouched path d d2) as H2 by by apply untouched_insert.
  destruct (write_loop (tmp_path path) [] data m (writes sys) d2) as [[t d3] r] eqn:E.
  eapply write_loop_spec in E as (Ht & H3 & w & Hw & Hdone); [|exact H2|by apply lookup_insert_eq].
  assert (Forall (untouched path d) (d1 :: d2 :: t)) as Htrace by by repeat constructor.
  destruct r as [[err|]|]; [by apply abandon_spec| |done].
  destruct (fsync_result sys) as [err|]; [by apply abandon_spec|].
  destruct (close_result sys) as [err|]; [by apply abandon_spec|].
  destruct (rename_result sys) as [err|]; [by apply abandon_spec|].
  rewrite Hw. exists (d1 :: d2 :: t). eexists. split_and!; [done|done| | |].
  - rewrite lookup_insert_eq, (Hdone eq_refl). done.
  - rewrite lookup_insert_ne by apply not_eq_sym, tmp_path_ne. apply lookup_delete_eq.
  - intros p Hp Ht'. rewrite lookup_insert_ne, lookup_delete_ne by done. by apply H3.
Qed.

End AtomicFile.

(** ** Static files *)
Module StaticFiles.

(** The file system queries; a path is the list of its components. *)
Class FileSystem := {
  weakly_canonical : list str -> option (list str);
  is_regular_file : list str -> option bool;
}.

(** The index loop: an escape needs two hexadecimal digits after it. *)
Fixpoint percent_decode (input : str) : outcome str :=
  match input with
  | [] => Ok []
  | c :: input1 =>
      match input1 with
      | a :: (b :: rest) =>
          if (c == "%"%char) && isxdigit a && isxdigit b then
            v ← stoi16 [a; b];
            out ← percent_decode rest;
            mret (char_of v :: out)
          else out ← percent_decode input1; mret (c :: out)
      | _ => out ← percent_decode input1; mret (c :: out)
      end
  end.

(** [std::getline] with a delimiter, until it fails. *)
Fixpoint getlines (delim : ascii) (s : str) (cur : str) : list str :=
  match s with
  | [] => if cur == [] then [] else [rev cur]
  | c :: s' => if c == delim then rev cur :: getlines delim s' [] else getlines delim s' (c :: cur)
  end.

(** The segment loop: [None] when it refuses the path. *)
Fixpoint build_relative (segments : list str) (relative : list str) : option (list str) :=
  match segments with
  | [] => Some relative
  | segment :: segments' =>
      if (segment == []) || (segment == lit ".") then build_relative segments' relative
      else if segment == lit ".." then None
      else build_relative segments' (relative ++ [segment])
  end.

(** [std::mismatch] stopping at the end of the first range. *)
Fixpoint starts_with_path (root candidate : list str) : bool :=
  match root, candidate with
  | [], _ => true
  | a :: root', b :: candidate' => if a == b then starts_with_path root' candidate' else false
  | _ :: _, [] => false
  end.

Definition path_extension (filename : str) : str :=
  if (filename == lit ".") || (filename == lit "..") then []
  else match rfind_char "." filename with
       | Some (S i) => drop (S i) filename
       | _ => []
       end.

Definition mime_type_for (path : list str) : str :=
  let ext := path_extension (default [] (last path)) in
  if ext == lit ".html" then "text/html; charset=utf-8"
  else if ext == lit ".css" then "text/css; charset=utf-8"
  else if ext == lit ".js" then "application/javascript; charset=utf-8"
  else if ext == lit ".json" then "application/json; charset=utf-8"
  else if ext == lit ".svg" then "image/svg+xml"
  else if ext == lit ".png" then "image/png"
  else if ext == lit ".webp" then "image/webp"
  else if ext == lit ".ico" then "image/x-icon"
  else "application/octet-stream".

Section static.
Context `{Fs : FileSystem}.

Definition resolve_static_path (root : list str) (request_target : str) : outcome (option (list str)) :=
  let path_part := before_char "?" request_target in
  decoded ← percent_decode path_part;
  if bool_decide (is_Some (find_char nul decoded)) then mret None
  else match build_relative (getlines "/" decoded []) [] with
       | None => mret None
       | Some relative =>
           let relative := if relative == [] then [lit "index.html"] else relative in
           match weakly_canonical root with
           | None => mret None
           | Some canonical_root =>
               match weakly_canonical (canonical_root ++ relative) with
               | None => mret None
               | Some candidate =>
                   if negb (starts_with_path canonical_root candidate) then mret None
                   else match is_regular_file candidate with
                        | Some true => mret (Some candidate)
                        | _ => mret None
                        end
               end
           end
       end.

(** A safe path component. *)
Definition plain_segment (s : str) : Prop :=
  s <> [] /\ s <> lit "." /\ s <> lit ".." /\ ("/"%char ∉ s) /\ (nul ∉ s).

Lemma starts_with_path_prefix root candidate : starts_with_path root candidate = true <-> root `prefix_of` candidate.
Proof.
  revert candidate. induction root as [|a root IH]; intros [|b candidate]; cbn.
  - split; [intros _; by exists []|done].
  - split; [intros _; apply prefix_nil|done].
  - split; [done|]. intros [k Hk]. done.
  - case_bool_decide as E.
    + subst. rewrite IH. split; [apply prefix_cons|apply prefix_cons_inv_2].
    + split; [done|]. by intros ?%prefix_cons_inv_1.
Qed.

Lemma not_elem_rev {A} (c : A) l : c ∉ l -> c ∉ rev l.
Proof. intros Hc H%list_elem_of_In%in_rev%list_elem_of_In. done. Qed.

Lemma getlines_chars delim s cur c :
  c = delim \/ c ∉ s -> c ∉ cur -> Forall (fun seg => (c ∉ seg)) (getlines delim s cur).
Proof.
  revert cur. induction s as [|x s IH]; intros cur Hs Hcur; cbn.
  - case_bool_decide; [constructor|]. apply Forall_singleton. by apply not_elem_rev.
  - assert (c = delim \/ c ∉ s) as Hs' by (destruct Hs as [|Hs]; [by left|right; set_solver]).
    case_bool_decide as E.
    + constructor; [by apply not_elem_rev|]. apply IH; [done|]. apply not_elem_of_nil.
    + apply IH; [done|]. apply not_elem_of_cons. split; [|done]. destruct Hs as [->|Hs]; [congruence|set_solver].
Qed.

Lemma build_relative_segments (P : str -> Prop) segments rel out :
  Forall P segments -> Forall (fun s => P s /\ s <> [] /\ s <> lit "." /\ s <> lit "..") rel ->
  build_relative segments rel = Some out -> Forall (fun s => P s /\ s <> [] /\ s <> lit "." /\ s <> lit "..") out.
Proof.
  intros Hs. revert rel. induction Hs as [|seg segs Hseg Hsegs IH]; intros rel Hrel; cbn [build_relative].
  - by intros [= <-].
  - destruct (bool_decide_reflect (seg = [])) as [|H1]; [by apply IH|].
    destruct (bool_decide_reflect (seg = lit ".")) as [|H2]; [by apply IH|]. cbn [orb].
    destruct (bool_decide_reflect (seg = lit "..")) as [|H3]; [done|]. apply IH.
    apply Forall_app. split; [done|]. by apply Forall_singleton.
Qed.

(** Two hexadecimal digits always convert. *)
Definition digits_convert (b : Z) : bool :=
  let c := char_of b in
  negb (isxdigit c) ||
  forallb (fun i => let d := char_of (Z.of_nat i) in negb (isxdigit d) || is_ok (stoi16 [c; d])) (seq 0 256).

Lemma digits_convert_all : forallb (fun i => digits_convert (Z.of_nat i)) (seq 0 (2 ^ 8)) = true.
Proof. vm_compute. reflexivity. Qed.

Lemma stoi16_digits a b : isxdigit a = true -> isxdigit b = true -> exists v, stoi16 [a; b] = Ok v.
Proof.
  intros Ha Hb. pose proof (byte_of_range a) as Ra. pose proof (byte_of_range b) as Rb.
  pose proof (in_width_forallb 8 digits_convert (byte_of a) Ra digits_convert_all) as H.
  unfold digits_convert in H. rewrite char_of_byte, Ha in H. cbn [negb orb] in H. rewrite forallb_forall in H.
  specialize (H (Z.to_nat (byte_of b)) ltac:(apply in_seq; lia)). rewrite Z2Nat.id, char_of_byte, Hb in H by lia.
  cbn [negb orb] in H. destruct (stoi16 [a; b]); [eauto|done].
Qed.

Lemma percent_decode_total input : exists out, percent_decode input = Ok out.
Proof.
  induction input as [input IH] using (induction_ltof1 _ (@length ascii)). unfold ltof in IH.
  destruct input as [|c [|a [|b rest]]]; [by eexists|by eexists|by eexists|]. cbn [percent_decode].
  fold percent_decode. destruct ((c == "%"%char) && isxdigit a && isxdigit b) eqn:E.
  - apply andb_true_iff in E as [[_ Ha]%andb_true_iff Hb]. destruct (stoi16_digits a b Ha Hb) as [v ->].
    destruct (IH rest) as [out Ho]; [simpl; lia|]. exists (char_of v :: out). cbn. by rewrite Ho.
  - destruct (IH (a :: b :: rest)) as [out Ho]; [simpl; lia|]. exists (c :: out).
    cbn [percent_decode] in Ho. cbn. by rewrite Ho.
Qed.

(** Resolution does not throw, and what it returns was reached as follows. *)
Lemma resolve_static_path_spec root target :
  exists decoded r, percent_decode (before_char "?" target) = Ok decoded /\ resolve_static_path root target = Ok r /\
    forall p, r = Some p -> nul ∉ decoded /\
      exists rel croot, build_relative (getlines "/" decoded []) [] = Some rel /\ weakly_canonical root = Some croot /\
        weakly_canonical (croot ++ (if rel == [] then [lit "index.html"] else rel)) = Some p /\
        croot `prefix_of` p /\ is_regular_file p = Some true.
Proof.
  unfold resolve_static_path. destruct (percent_decode_total (before_char "?" target)) as [decoded ->]. exists decoded.
  cbn [mbind outcome_bind]. case_bool_decide as Hnul; [by exists None|].
  destruct (build_relative (getlines "/" decoded []) []) as [rel|] eqn:Hrel; [|by exists None].
  destruct (weakly_canonical root) as [croot|]; [|by exists None].
  destruct (weakly_canonical (croot ++ _)) as [p|] eqn:Hp; [|by exists None].
  destruct (starts_with_path croot p) eqn:Hpre; [|by exists None]. apply starts_with_path_prefix in Hpre.
  destruct (is_regular_file p) as [[]|] eqn:Hreg; [|by exists None|by exists None].
  exists (Some p). split; [done|]. split; [done|]. intros ? [= <-]. split; [|by exists rel, croot].
  intros Hin. apply Hnul. unfold find_char. apply fmap_is_Some. by apply list_find_elem_of with nul.
Qed.

Lemma build_relative_plain decoded rel :
  nul ∉ decoded -> build_relative (getlines "/" decoded []) [] = Some rel -> Forall plain_segment rel.
Proof.
  intros Hnul Hrel. eapply build_relative_segments with (P := fun s => "/"%char ∉ s /\ nul ∉ s) in Hrel; [| |constructor].
  - eapply Forall_impl; [exact Hrel|]. unfold plain_segment. tauto.
  - apply Forall_and. split; apply getlines_chars; try apply not_elem_of_nil; [by left|by right].
Qed.

(** A request target never leads outside the web root: whatever escapes,
    dot segments, NULs or symbolic links it uses, resolution does not throw,
    and a path it returns is a regular file whose canonical components extend
    those of the canonical root, reached through ordinary segments only. *)
Theorem static_path_confined root target :
  exists r, resolve_static_path root target = Ok r /\
    forall p, r = Some p ->
      exists croot rel, weakly_canonical root = Some croot /\ weakly_canonical (croot ++ rel) = Some p /\
        croot `prefix_of` p /\ is_regular_file p = Some true /\ rel <> [] /\ Forall plain_segment rel.
Proof.
  destruct (resolve_static_path_spec root target) as (decoded & r & _ & Hr & H). exists r. split; [done|].
  intros p Hp. destruct (H p Hp) as (Hnul & rel & croot & Hrel & H1 & H2 & H3 & H4).
  exists croot, (if rel == [] then [lit "index.html"] else rel).
  split_and!; try done; case_bool_decide as He; try done.
  - apply Forall_singleton. unfold plain_segment. split_and!; try done; refine (bool_decide_unpack _ _); vm_compute; exact I.
  - by eapply build_relative_plain.
Qed.

End static.
End StaticFiles.

(** ** [query_param_size_t] *)
Module HttpUtil.

(** The loop over the pairs; fuel: every round drops a character. *)
Fixpoint query_loop (fuel : nat) (query key : str) (fallback : Z) : Z :=
  match fuel, query with
  | O, _ | _, [] => fallback
  | S fuel', _ =>
      let amp := find_char "&" query in
      let pair := match amp with Some i => take i query | None => query end in
      let next := match amp with Some i => query_loop fuel' (drop (S i) query) key fallback | None => fallback end in
      match find_char "=" pair with
      | Some eq => if take eq pair == key then
                     match from_chars_u SIZE_MAX (drop (S eq) pair) with
                     | Some (value, _) => value
                     | None => fallback
                     end
                   else next
      | None => next
      end
  end.

Definition query_param_size_t (target key : str) (fallback : Z) : Z :=
  match find_char "?" target with
  | None => fallback
  | Some qpos => query_loop (length target) (drop (S qpos) target) key fallback
  end.

Example query_first_match :
  query_param_size_t "/api/events?since=3&limit=50&limit=9" "limit" 100 = 50 /\
  query_param_size_t "/api/events?limit=99999999999999999999999" "limit" 100 = 100 /\
  query_param_size_t "/api/events?limit=12abc" "limit" 100 = 12.
Proof. by vm_compute. Qed.

End HttpUtil.
