(* ===== verification/Numeric.v ===== *)
(** * Numeric: saturating conversion of JSON numbers

    Models [util/numeric.hpp] and boost's [to_number<double>]. A [double] is a
    [spec_float] with a 53-bit mantissa; an integer is converted to one with
    rounding to nearest even, as the hardware does. *)
From S2P Require Import Prelude.
From Stdlib Require Import SpecFloat.

Definition double_of_Z (z : Z) : spec_float := binary_normalize 53 1024 z 0 false.

(** [static_cast<int>(value)] of a finite value: truncation toward zero. *)
Definition trunc (d : spec_float) : Z :=
  match d with
  | S754_finite s m e => cond_Zopp s (Z.shiftl (Zpos m) e)
  | _ => 0
  end.

Definition saturating_to_int (value : spec_float) : Z :=
  let kMin := double_of_Z INT_MIN in
  let kMax := double_of_Z INT_MAX in
  if negb (SFltb kMin value) then INT_MIN
  else if SFleb kMax value then INT_MAX
  else trunc value.

(** ** Doubles in canonical form *)

Abbreviation valid_double := (valid_binary 53 1024) (only parsing).

Lemma digits2_log2 m : Zpos (digits2_pos m) = Z.log2 (Zpos m) + 1.
Proof.
  induction m as [m IH|m IH|]; [| |done]; cbn [digits2_pos]; rewrite Pos2Z.inj_succ, IH.
  - rewrite (Pos2Z.inj_xI m), Z.log2_succ_double by done. lia.
  - rewrite (Pos2Z.inj_xO m), Z.log2_double by done. lia.
Qed.

(** The mantissa and exponent of a canonical value: a full mantissa, unless
    the exponent is the smallest. *)
Lemma valid_double_finite s m e :
  valid_double (S754_finite s m e) = true ->
  0 < Zpos m < 2 ^ 53 /\ -1074 <= e /\ (-1074 < e -> 2 ^ 52 <= Zpos m).
Proof.
  cbn [valid_binary]. unfold bounded, canonical_mantissa, fexp, emin. rewrite digits2_log2.
  intros [Hc%Z.eqb_eq _]%andb_true_iff.
  pose proof (Z.log2_spec (Zpos m) eq_refl) as [Hl Hu].
  split_and!; [done| | |].
  - eapply Z.lt_le_trans; [exact Hu|]. apply Z.pow_le_mono_r; lia.
  - lia.
  - intros He. eapply Z.le_trans; [|exact Hl]. apply Z.pow_le_mono_r; lia.
Qed.

Lemma double_of_INT_MAX : double_of_Z INT_MAX = S754_finite false 9007199250546688 (-22).
Proof. vm_compute. reflexivity. Qed.
Lemma double_of_INT_MIN : double_of_Z INT_MIN = S754_finite true 4503599627370496 (-21).
Proof. vm_compute. reflexivity. Qed.

(** What a mantissa shifted by [e] amounts to, between two exponents. *)
Lemma shiftl_ge m e k : 2 ^ 52 <= Zpos m -> 0 <= k <= 52 -> - k <= e -> 2 ^ (52 - k) <= Z.shiftl (Zpos m) e.
Proof.
  intros Hm Hk He. destruct (Z.le_gt_cases 0 e).
  - rewrite Z.shiftl_mul_pow2 by lia. pose proof (Z.pow_pos_nonneg 2 e).
    assert (2 ^ (52 - k) <= 2 ^ 52) by (apply Z.pow_le_mono_r; lia). nia.
  - rewrite Z.shiftl_div_pow2 by lia. apply Z.div_le_lower_bound; [lia|]. rewrite <- Z.pow_add_r by lia.
    eapply Z.le_trans; [|exact Hm]. apply Z.pow_le_mono_r; lia.
Qed.

Lemma shiftl_lt m e k : Zpos m < 2 ^ 53 -> 0 <= k <= 53 -> e <= - k -> 0 <= Z.shiftl (Zpos m) e < 2 ^ (53 - k).
Proof.
  intros Hm Hk He. split; [by apply Z.shiftl_nonneg|].
  destruct (Z.eq_dec k 0) as [->|]; [destruct (Z.eq_dec e 0) as [->|]; [by rewrite Z.shiftl_0_r|]|].
  all: rewrite Z.shiftl_div_pow2 by lia; apply Z.div_lt_upper_bound; [lia|].
  all: rewrite <- Z.pow_add_r by lia; eapply Z.lt_le_trans; [exact Hm|]; apply Z.pow_le_mono_r; lia.
Qed.

Lemma saturating_pos m e :
  valid_double (S754_finite false m e) = true ->
  saturating_to_int (S754_finite false m e) = clamp INT_MIN INT_MAX (Z.shiftl (Zpos m) e).
Proof.
  intros (Hm & He & Hf)%valid_double_finite. unfold saturating_to_int.
  rewrite double_of_INT_MAX, double_of_INT_MIN. unfold SFltb, SFleb. cbn [SFcompare negb trunc cond_Zopp].
  unfold clamp, INT_MIN, INT_MAX in *.
  destruct (Z.compare_spec (-22) e) as [Hc|Hc|Hc].
  - subst e. change (Pos.compare_cont Eq 9007199250546688 m) with (9007199250546688 ?= m)%positive.
    rewrite Z.shiftl_div_pow2 by lia. change (2 ^ (- -22)) with 4194304.
    destruct (Pos.compare_spec 9007199250546688 m) as [Hq|Hq|Hq].
    + subst m. vm_compute. reflexivity.
    + apply Pos2Z.pos_lt_pos in Hq. clear -Hq. generalize dependent (Zpos m). intros z Hq.
      assert (2147483647 <= z / 4194304) by (apply Z.div_le_lower_bound; lia). lia.
    + apply Pos2Z.pos_lt_pos in Hq. clear -Hq Hm. generalize dependent (Zpos m). intros z Hm Hq.
      assert (0 <= z / 4194304 < 2147483647); [|lia].
      split; [apply Z.div_pos; lia|]. apply Z.div_lt_upper_bound; lia.
  - pose proof (shiftl_ge m e 21 ltac:(lia) ltac:(lia) ltac:(lia)). lia.
  - pose proof (shiftl_lt m e 23 ltac:(lia) ltac:(lia) ltac:(lia)). lia.
Qed.

Lemma saturating_neg m e :
  valid_double (S754_finite true m e) = true ->
  saturating_to_int (S754_finite true m e) = clamp INT_MIN INT_MAX (- Z.shiftl (Zpos m) e).
Proof.
  intros (Hm & He & Hf)%valid_double_finite. unfold saturating_to_int.
  rewrite double_of_INT_MAX, double_of_INT_MIN. unfold SFltb, SFleb. cbn [SFcompare negb trunc cond_Zopp].
  unfold clamp, INT_MIN, INT_MAX in *.
  destruct (Z.compare_spec (-21) e) as [Hc|Hc|Hc].
  - subst e. change (Pos.compare_cont Eq 4503599627370496 m) with (4503599627370496 ?= m)%positive.
    assert (2 ^ 52 <= Zpos m) as Hb by (by apply Hf). clear Hf He.
    pose proof (shiftl_ge m (-21) 21 Hb ltac:(done) ltac:(done)) as Hs.
    destruct (Pos.compare_spec 4503599627370496 m) as [Hq|Hq|Hq]; cbn [CompOpp negb]; [lia|lia|].
    apply Pos2Z.pos_lt_pos in Hq. change (2 ^ 52) with 4503599627370496 in Hb. lia.
  - assert (2 ^ 52 <= Zpos m) as Hb by (apply Hf; lia).
    pose proof (shiftl_ge m e 20 Hb ltac:(done) ltac:(lia)). cbn [negb]. lia.
  - pose proof (shiftl_lt m e 22 ltac:(apply Hm) ltac:(done) ltac:(lia)). cbn [negb]. lia.
Qed.

(** The conversion saturates: a finite double becomes its integer part clamped
    to the range of [int], an infinity the end it points to, and what is not a
    number the smallest [int]; it never leaves the range. *)
Theorem saturating_to_int_spec d :
  valid_double d = true ->
  saturating_to_int d =
  match d with
  | S754_nan => INT_MIN
  | S754_infinity s => if s then INT_MIN else INT_MAX
  | _ => clamp INT_MIN INT_MAX (trunc d)
  end.
Proof.
  intros Hv. destruct d as [s|s| |[] m e]; [by destruct s; vm_compute..| | |].
  - by vm_compute.
  - by apply saturating_neg.
  - by apply saturating_pos.
Qed.

Lemma saturating_range d : valid_double d = true -> INT_MIN <= saturating_to_int d <= INT_MAX.
Proof.
  intros Hv. rewrite saturating_to_int_spec by done. unfold clamp, INT_MIN, INT_MAX. destruct d as [| [] | |]; lia.
Qed.

(** ** Integers as doubles *)

Lemma shl_iter d m : Zpos (Pos.iter xO m d) = Zpos m * 2 ^ Zpos d.
Proof.
  induction d as [|d IH] using Pos.peano_ind; [simpl; lia|].
  rewrite Pos.iter_succ, Pos2Z.inj_xO, IH, Pos2Z.inj_succ, Z.pow_succ_r by lia. lia.
Qed.

Lemma fexp_eq e : -1021 <= e -> fexp 53 1024 e = e - 53.
Proof. unfold fexp, emin. lia. Qed.

Lemma shr_fexp_id m e :
  0 < m -> fexp 53 1024 (Zdigits2 m + e) <= e -> shr_fexp 53 1024 m e loc_Exact = (shr_record_of_loc m loc_Exact, e).
Proof. intros Hm He. unfold shr_fexp, shr. destruct (_ - e) as [|p|p] eqn:E; [done|lia|done]. Qed.

(** An integer of at most 53 bits is represented exactly. *)
Lemma double_of_small s m :
  Zpos m < 2 ^ 53 ->
  exists m' e', binary_round 53 1024 s m 0 = S754_finite s m' e' /\ valid_double (S754_finite s m' e') = true /\
                Z.shiftl (Zpos m') e' = Zpos m.
Proof.
  intros Hm. unfold binary_round. rewrite digits2_log2, Z.add_0_r.
  pose proof (Z.log2_nonneg (Zpos m)). assert (Z.log2 (Zpos m) < 53) by (apply Z.log2_lt_pow2; lia).
  rewrite fexp_eq by lia.
  set (k := Z.log2 (Zpos m) + 1 - 53).
  assert (exists m', shl_align m 0 k = (m', k) /\ Zpos m' = Zpos m * 2 ^ (- k)) as (m' & -> & Hm').
  { unfold shl_align. rewrite Z.sub_0_r. destruct k as [|p|p] eqn:Ek; [exists m|lia|exists (Pos.iter xO m p)].
    - split; [done|simpl; lia].
    - split; [done|]. rewrite shl_iter. done. }
  assert (Z.log2 (Zpos m') = 52) as Hl.
  { rewrite Hm', Z.log2_mul_pow2 by lia. lia. }
  assert (Zdigits2 (Zpos m') = 53) as Hd by (cbn [Zdigits2]; rewrite digits2_log2; lia).
  exists m', k. split_and!.
  - unfold binary_round_aux. rewrite shr_fexp_id by (rewrite ?Hd, ?fexp_eq; lia).
    cbn [shr_m shr_record_of_loc loc_of_shr_record round_nearest_even].
    rewrite shr_fexp_id by (rewrite ?Hd, ?fexp_eq; lia). cbn [shr_m shr_record_of_loc].
    destruct (Z.leb_spec k (1024 - 53)); [done|lia].
  - cbn [valid_binary]. unfold bounded, canonical_mantissa. rewrite digits2_log2, fexp_eq by lia.
    apply andb_true_iff. rewrite Z.eqb_eq, Z.leb_le. lia.
  - destruct (Z.eq_dec k 0) as [->|]; [rewrite Z.shiftl_0_r; simpl in Hm'; lia|].
    rewrite Z.shiftl_div_pow2 by lia. rewrite Hm'. apply Z.div_mul. lia.
Qed.

Lemma shr_1_m r : 0 <= shr_m r -> shr_m (shr_1 r) = shr_m r / 2.
Proof.
  destruct r as [[|[p|p|]|p] b1 b2]; cbn [shr_m shr_1]; intros H; [done| | |done|lia].
  - rewrite Pos2Z.inj_xI. apply Z.div_unique with 1; lia.
  - rewrite Pos2Z.inj_xO. apply Z.div_unique with 0; lia.
Qed.

Lemma iter_shr_m p r : 0 <= shr_m r -> shr_m (iter_pos shr_1 p r) = shr_m r / 2 ^ Zpos p.
Proof.
  assert (forall z q, 0 <= z -> 0 <= z / 2 ^ Zpos q) as Hnn by (intros; apply Z.div_pos; lia).
  revert r. induction p as [p IH|p IH|]; intros r Hr; cbn [iter_pos].
  - assert (0 <= shr_m (shr_1 r)) by (rewrite shr_1_m by done; apply Z.div_pos; lia).
    rewrite IH, IH by (rewrite ?IH; auto). rewrite shr_1_m, !Z.div_div by lia. f_equal.
    rewrite (Pos2Z.inj_xI p), Z.pow_add_r, Z.pow_twice_r by lia. ring.
  - rewrite IH, IH by (rewrite ?IH; auto).
    rewrite Z.div_div by lia. f_equal. by rewrite (Pos2Z.inj_xO p), Z.pow_twice_r.
  - by apply shr_1_m.
Qed.

Lemma log2_range n k : 0 <= k -> 2 ^ k <= Zpos n < 2 ^ (k + 2) -> k <= Z.log2 (Zpos n) <= k + 1.
Proof.
  intros Hk [Hl Hu]. split; [by apply Z.log2_le_pow2|].
  enough (Z.log2 (Zpos n) < k + 2) by lia. apply Z.log2_lt_pow2; lia.
Qed.

(** A wider integer is rounded to a double with a positive exponent. *)
Lemma double_of_large s m :
  2 ^ 53 <= Zpos m < 2 ^ 65 -> exists m' e', binary_round 53 1024 s m 0 = S754_finite s m' e' /\ 1 <= e'.
Proof.
  intros [Hm Hm']. unfold binary_round. rewrite digits2_log2, Z.add_0_r.
  assert (53 <= Z.log2 (Zpos m)) by (apply Z.log2_le_pow2; lia).
  assert (Z.log2 (Zpos m) < 65) by (apply Z.log2_lt_pow2; lia).
  rewrite fexp_eq by lia. unfold shl_align.
  destruct (Z.log2 (Zpos m) + 1 - 53 - 0) as [|p|p] eqn:Ep; [lia| |lia].
  pose proof (Z.log2_spec (Zpos m) eq_refl) as [Hlo Hhi].
  assert (2 ^ 52 <= Zpos m / 2 ^ Zpos p < 2 ^ 53) as Hq.
  { split; [apply Z.div_le_lower_bound|apply Z.div_lt_upper_bound]; [lia| |lia|];
      rewrite <- Z.pow_add_r by lia; [eapply Z.le_trans; [|exact Hlo]|eapply Z.lt_le_trans; [exact Hhi|]];
      apply Z.pow_le_mono_r; lia. }
  unfold binary_round_aux, shr_fexp at 1, shr. cbn [Zdigits2]. rewrite digits2_log2, Z.add_0_r, fexp_eq by lia.
  rewrite Ep, Z.add_0_l. cbn [shr_record_of_loc].
  set (r := iter_pos shr_1 p _). assert (shr_m r = Zpos m / 2 ^ Zpos p) as Hr by (by apply iter_shr_m).
  assert (2 ^ 52 <= round_nearest_even (shr_m r) (loc_of_shr_record r) <= 2 ^ 53) as Hn.
  { rewrite Hr. unfold round_nearest_even. repeat case_match; lia. }
  set (n := round_nearest_even _ _) in *. clearbody n. clear r Hr Hq.
  destruct n as [|n|n]; [lia| |lia]. unfold shr_fexp. cbn [Zdigits2]. rewrite digits2_log2.
  pose proof (log2_range n 52 ltac:(lia) ltac:(lia)).
  rewrite fexp_eq by lia. unfold shr. cbn [shr_record_of_loc].
  destruct (_ - Zpos p) as [|q|q] eqn:Eq; [|assert (q = 1%positive) as -> by lia|lia].
  - cbn [shr_m]. exists n, (Zpos p). destruct (Z.leb_spec (Zpos p) (1024 - 53)); [split; [done|lia]|lia].
  - cbn [iter_pos]. rewrite shr_1_m by done. cbn [shr_m].
    destruct (Zpos n / 2) as [|n2|n2] eqn:En; [|exists n2, (Zpos p + 1)|].
    + assert (1 <= Zpos n / 2) by (apply Z.div_le_lower_bound; lia). lia.
    + destruct (Z.leb_spec (Zpos p + 1) (1024 - 53)); [split; [done|lia]|lia].
    + pose proof (Z.div_pos (Zpos n) 2). lia.
Qed.

(** A JSON integer, converted to [double] and then saturated to [int], is the
    integer itself clamped to [int]: the detour over [double] loses nothing,
    over the whole range of 64-bit signed and unsigned integers. *)
Theorem saturating_of_integer z :
  Z.abs z < 2 ^ 65 -> saturating_to_int (double_of_Z z) = clamp INT_MIN INT_MAX z.
Proof.
  intros Hz.
  assert (forall s m, Zpos m < 2 ^ 65 ->
            saturating_to_int (binary_round 53 1024 s m 0) = clamp INT_MIN INT_MAX (cond_Zopp s (Zpos m))) as H.
  { intros s m Hm. destruct (Z.lt_ge_cases (Zpos m) (2 ^ 53)) as [Hs|Hl].
    - destruct (double_of_small s m Hs) as (m' & e' & -> & Hv & Ht).
      rewrite saturating_to_int_spec by done. cbn [trunc]. by rewrite Ht.
    - destruct (double_of_large s m) as (m' & e' & -> & He); [lia|].
      unfold saturating_to_int, SFltb, SFleb. rewrite double_of_INT_MAX, double_of_INT_MIN.
      change (2 ^ 53) with 9007199254740992 in Hl. unfold clamp, INT_MIN, INT_MAX.
      destruct s; cbn [SFcompare cond_Zopp].
      + rewrite (proj2 (Z.compare_lt_iff (-21) e')) by lia. cbn [negb]. lia.
      + rewrite (proj2 (Z.compare_lt_iff (-22) e')) by lia. cbn [negb]. lia. }
  destruct z as [|m|m]; [by vm_compute|apply (H false); lia|apply (H true); lia].
Qed.

Lemma saturating_of_integer_witness : saturating_to_int (double_of_Z 18446744073709551615) = INT_MAX.
Proof. exact (saturating_of_integer 18446744073709551615 eq_refl). Defined.

Lemma saturating_to_int_spec_witness :
  saturating_to_int (S754_finite true 5404319552844595 (-51)) = -2 /\ saturating_to_int (S754_infinity false) = INT_MAX.
Proof.
  split; [exact (saturating_to_int_spec (S754_finite true 5404319552844595 (-51)) eq_refl)
         |exact (saturating_to_int_spec (S754_infinity false) eq_refl)].
Defined.
