(* ===== verification/JsonView.v ===== *)
(** * JsonView: what the admin API shows

    Models [admin/json_view.cpp]: the JSON rendering of every value the admin
    API returns. [obj[name] = v] on distinct names builds the list of members
    in that order. *)
From S2P Require Import Prelude Net Config Json Passwords Users EventLogs.
From S2P Require Numeric IpBlocks Csv BlacklistOps.
From Stdlib Require Import SpecFloat.

Definition to_iso8601 (tp : time_point) : str := Csv.to_iso8601 tp.

Definition jtime (tp : time_point) : json := JStr (to_iso8601 tp).

(** ** Events *)

Definition request_event_to_json (event : RequestEvent) : json := JObj [
  (lit "seq", JInt (ev_seq event));
  (lit "timestamp", jtime (ev_timestamp event));
  (lit "client_ip", JStr (ev_client_ip event));
  (lit "country", JStr (ev_country event));
  (lit "isp", JStr (ev_isp event));
  (lit "user_agent", JStr (ev_user_agent event));
  (lit "method", JStr (ev_method event));
  (lit "path", JStr (ev_path event));
  (lit "domain", JStr (ev_domain event));
  (lit "listener", JStr (ev_listener event));
  (lit "blocked", JBool (ev_blocked event));
  (lit "block_reason", JStr (ev_block_reason event));
  (lit "status_code", JInt (ev_status_code event));
  (lit "bytes_transferred", JInt (ev_bytes_transferred event))].

Definition request_events_to_json (events : list RequestEvent) : json := JArr (map request_event_to_json events).

Definition globe_event_to_json (event : GlobeArcEvent) : json := JObj [
  (lit "seq", JInt (arc_seq event));
  (lit "timestamp", jtime (arc_timestamp event));
  (lit "lat", JDouble (arc_lat event));
  (lit "lon", JDouble (arc_lon event));
  (lit "blocked", JBool (arc_blocked event))].

Definition globe_events_to_json (events : list GlobeArcEvent) : json := JArr (map globe_event_to_json events).

Definition server_location_to_json (location : option GeoLocation) : json :=
  match location with
  | None => JNull
  | Some l => JObj [(lit "lat", JDouble (geo_lat l)); (lit "lon", JDouble (geo_lon l))]
  end.

Definition login_event_to_json (event : LoginEvent) : json := JObj [
  (lit "timestamp", jtime (login_timestamp event));
  (lit "username", JStr (login_username event));
  (lit "client_ip", JStr (login_client_ip event))].

Definition login_events_to_json (events : list LoginEvent) : json := JArr (map login_event_to_json events).

(** ** Blacklist and whitelist *)

Definition entry_to_json (entry : BlacklistEntry) : json := JObj [
  (lit "value", JStr (value entry));
  (lit "created_at", jtime (Config.created_at entry));
  (lit "created_by", JStr (created_by entry));
  (lit "source", JStr (source entry))].

Definition entry_list_to_json (values : list BlacklistEntry) : json := JArr (map entry_to_json values).

Definition cidr_to_json (range : CidrRange) : json := JObj [
  (lit "value", JStr (cidr_text range));
  (lit "created_at", jtime (cidr_created_at range));
  (lit "source", JStr (cidr_source range))].

Definition ip_entries_to_json (exact : list BlacklistEntry) (cidrs : list CidrRange) : json :=
  JArr (map entry_to_json exact ++ map cidr_to_json cidrs).

Definition ip_blacklist_to_json (blacklist : BlacklistConfig) : json :=
  ip_entries_to_json (ip_exact blacklist) (ip_cidrs blacklist).
Definition whitelist_to_json (whitelist : WhitelistConfig) : json :=
  ip_entries_to_json (wl_ip_exact whitelist) (wl_ip_cidrs whitelist).
Definition whitelist_routes_to_json (whitelist : WhitelistConfig) : json := entry_list_to_json (wl_routes whitelist).

Definition blacklist_to_json (blacklist : BlacklistConfig) : json := JObj [
  (lit "ips", ip_blacklist_to_json blacklist);
  (lit "routes", entry_list_to_json (routes blacklist));
  (lit "countries", entry_list_to_json (countries blacklist));
  (lit "isps", entry_list_to_json (isps blacklist));
  (lit "user_agents", entry_list_to_json (user_agents blacklist));
  (lit "referrers", entry_list_to_json (referrers blacklist));
  (lit "body_patterns", entry_list_to_json (body_patterns blacklist));
  (lit "fake_routes", entry_list_to_json (fake_routes blacklist));
  (lit "max_body_size_bytes", JInt (max_body_size_bytes blacklist))].

Definition blacklist_category_to_json (blacklist : BlacklistConfig) (category : BlacklistOps.BlacklistCategory)
    : json :=
  match category with
  | BlacklistOps.Ips => ip_blacklist_to_json blacklist
  | BlacklistOps.Routes => entry_list_to_json (routes blacklist)
  | BlacklistOps.Countries => entry_list_to_json (countries blacklist)
  | BlacklistOps.Isps => entry_list_to_json (isps blacklist)
  | BlacklistOps.UserAgents => entry_list_to_json (user_agents blacklist)
  | BlacklistOps.Referrers => entry_list_to_json (referrers blacklist)
  | BlacklistOps.BodyPatterns => entry_list_to_json (body_patterns blacklist)
  | BlacklistOps.FakeRoutes => entry_list_to_json (fake_routes blacklist)
  end.

Definition permanent_to_json (text src : str) (created : time_point) : json := JObj [
  (lit "text", JStr text);
  (lit "source", JStr src);
  (lit "permanent", JBool true);
  (lit "created_at", jtime created);
  (lit "expires_at", JNull)].

Definition temporary_to_json (block : IpBlocks.TemporaryIpBlock) : json := JObj [
  (lit "text", JStr (IpBlocks.b_text block));
  (lit "source", JStr (IpBlocks.b_source block));
  (lit "permanent", JBool false);
  (lit "created_at", jtime (IpBlocks.b_created_at block));
  (lit "expires_at", jtime (IpBlocks.b_expires_at block));
  (lit "score_at_block", JInt (IpBlocks.b_score_at_block block))].

Definition ip_blocks_to_json (blacklist : BlacklistConfig) (temporary : list IpBlocks.TemporaryIpBlock) : json :=
  JArr (map (fun e => permanent_to_json (value e) (source e) (Config.created_at e)) (ip_exact blacklist) ++
        map (fun r => permanent_to_json (cidr_text r) (cidr_source r) (cidr_created_at r)) (ip_cidrs blacklist) ++
        map temporary_to_json temporary).

(** ** Sites, bans, checks, pages *)

Definition site_to_json (site : SiteConfig) : json := JObj [
  (lit "domain", JStr (domain site));
  (lit "enabled", JBool (site_enabled site));
  (lit "cert_file", JStr (cert_file site));
  (lit "key_file", JStr (key_file site));
  (lit "upstream_host", JStr (upstream_host (site_upstream site)));
  (lit "upstream_port", JInt (upstream_port (site_upstream site)))].

Definition sites_to_json (config : RuntimeConfig) : json := JObj [
  (lit "default_site", JObj [
     (lit "cert_file", JStr (https_cert_file (https config)));
     (lit "key_file", JStr (https_key_file (https config)));
     (lit "upstream_host", JStr (upstream_host (upstream config)));
     (lit "upstream_port", JInt (upstream_port (upstream config)))]);
  (lit "sites", JArr (map site_to_json (sites config)))].

(** [BanConfig::scores] is a [std::map]: it is walked in the order of names. *)
Definition key_le (a b : str * Z) : Prop := IpBlocks.str_ltb b.1 a.1 = false.
#[export] Instance key_le_dec a b : Decision (key_le a b).
Proof. unfold key_le. solve_decision. Defined.

Definition ban_config_to_json (ban : BanConfig) : json := JObj [
  (lit "enabled", JBool (ban_enabled ban));
  (lit "threshold", JInt (threshold ban));
  (lit "ban_duration_hours", JInt (ban_duration_hours ban));
  (lit "scores", JObj (map (fun kv => (kv.1, JInt kv.2)) (merge_sort key_le (map_to_list (scores ban)))))].

Definition security_config_to_json (security : SecurityConfig) : json :=
  JObj [(lit "require_2fa", JBool (require_2fa security))].

Definition speed_check_to_json (speed_check : SpeedCheckConfig) : json := JObj [
  (lit "enabled", JBool (sc_enabled speed_check));
  (lit "max_requests", JInt (max_requests speed_check));
  (lit "window_seconds", JInt (window_seconds speed_check))].

Definition method_check_to_json (method_check : MethodCheckConfig) : json := JObj [
  (lit "enabled", JBool (mc_enabled method_check));
  (lit "allowed_methods", JArr (map JStr (allowed_methods method_check)))].

Definition emergency_off_to_json (emergency_off : EmergencyOffConfig) : json :=
  JObj [(lit "enabled", JBool (eo_enabled emergency_off))].

Definition status_page_to_json (entry : StatusPageEntry) : json := JObj [
  (lit "code", JInt (code entry));
  (lit "html", JStr (html entry));
  (lit "created_at", jtime (sp_created_at entry))].

Definition status_pages_to_json (entries : list StatusPageEntry) : json := JArr (map status_page_to_json entries).

Definition pages_to_json (pages : ResponsePagesConfig) : json := JObj [
  (lit "blocked_html", JStr (blocked_html pages));
  (lit "banned_html", JStr (banned_html pages));
  (lit "status_pages", status_pages_to_json (status_pages pages))].

Definition request_log_config_to_json (request_log : RequestLogConfig) : json := JObj [
  (lit "enabled", JBool (rl_enabled request_log));
  (lit "csv_path", JStr (csv_path request_log))].

Definition robots_txt_config_to_json (robots_txt : RobotsTxtConfig) : json :=
  JObj [(lit "custom_content", JStr (custom_content robots_txt))].

Definition geoip_config_to_json (geoip : GeoIpConfig) (loaded asn_loaded : bool) : json := JObj [
  (lit "mmdb_path", JStr (mmdb_path geoip));
  (lit "loaded", JBool loaded);
  (lit "asn_mmdb_path", JStr (asn_mmdb_path geoip));
  (lit "asn_loaded", JBool asn_loaded)].

Definition globe_config_to_json (globe : GlobeConfig) : json := JObj [
  (lit "public_enabled", JBool (public_enabled globe));
  (lit "public_bind", JStr (public_bind_host globe));
  (lit "public_port", JInt (public_port globe));
  (lit "public_tls_cert_file", JStr (public_tls_cert_file globe));
  (lit "public_tls_key_file", JStr (public_tls_key_file globe));
  (lit "server_lat", match server_lat globe with Some d => JDouble d | None => JNull end);
  (lit "server_lon", match server_lon globe with Some d => JDouble d | None => JNull end);
  (lit "auto_detect_server_location", JBool (auto_detect_server_location globe));
  (lit "history_size", JInt (history_size globe))].

(** ** Accounts *)

Definition webauthn_credentials_to_json (credentials : list WebAuthnCredential) : json :=
  JArr (map (fun cred => JObj [
    (lit "id", JStr (id_b64url cred));
    (lit "label", JStr (cred_label cred));
    (lit "created_at", jtime (cred_created_at cred))]) credentials).

(** The counting loop over the codes that are not used. *)
Definition unused_codes (codes : list BackupCode) : Z :=
  foldl (fun n code => if used code then n else swrap32 (n + 1)) 0 codes.

Definition two_factor_status_to_json (user : UserRecord) : json := JObj [
  (lit "totp_enabled", JBool (bool_decide (is_Some (totp user))));
  (lit "backup_codes_remaining", JInt (unused_codes (backup_codes user)));
  (lit "webauthn_credentials", webauthn_credentials_to_json (webauthn_credentials user))].

Definition users_to_json (users : list UserRecord) : json :=
  JArr (map (fun user => JObj [
    (lit "username", JStr (username user));
    (lit "created_at", jtime (Users.created_at user));
    (lit "has_2fa", JBool (bool_decide (is_Some (totp user))))]) users).

(** ** The whole configuration *)

Definition config_to_json (config : RuntimeConfig) : json := JObj [
  (lit "http", JObj [
     (lit "enabled", JBool (http_enabled (http config)));
     (lit "bind", JStr (http_bind_host (http config)));
     (lit "port", JInt (http_port (http config)))]);
  (lit "https", JObj [
     (lit "enabled", JBool (https_enabled (https config)));
     (lit "bind", JStr (https_bind_host (https config)));
     (lit "port", JInt (https_port (https config)));
     (lit "cert_file", JStr (https_cert_file (https config)));
     (lit "key_file", JStr (https_key_file (https config)))]);
  (lit "upstream", JObj [
     (lit "host", JStr (upstream_host (upstream config)));
     (lit "port", JInt (upstream_port (upstream config)))]);
  (lit "admin", JObj [
     (lit "enabled", JBool (admin_enabled (admin config)));
     (lit "bind", JStr (admin_bind_host (admin config)));
     (lit "port", JInt (admin_port (admin config)))]);
  (lit "limits", JObj [
     (lit "max_header_bytes", JInt (max_header_bytes (limits config)));
     (lit "max_body_bytes", JInt (max_body_bytes (limits config)));
     (lit "upstream_connect_timeout_seconds", JInt (upstream_connect_timeout (limits config)));
     (lit "request_timeout_seconds", JInt (request_timeout (limits config)))]);
  (lit "sites", sites_to_json config);
  (lit "blacklist", blacklist_to_json (blacklist config));
  (lit "whitelist", whitelist_to_json (whitelist config));
  (lit "whitelist_routes", whitelist_routes_to_json (whitelist config));
  (lit "ban", ban_config_to_json (ban config));
  (lit "speed_check", speed_check_to_json (speed_check config));
  (lit "method_check", method_check_to_json (method_check config));
  (lit "emergency_off", emergency_off_to_json (emergency_off config));
  (lit "globe", globe_config_to_json (globe config));
  (lit "security", security_config_to_json (security config))].

(** ** What the views reveal *)

(** The string under a name, for every object of an array. *)
Definition strings_under (name : str) (j : json) : list (option (list ascii)) :=
  match j with
  | JArr l => map (fun e => if e is JObj members then jfind_string members name else None) l
  | _ => []
  end.

Lemma strings_under_map {A} name (f : A -> json) (g : A -> option (list ascii)) l :
  (forall x, (if f x is JObj members then jfind_string members name else None) = g x) ->
  strings_under name (JArr (map f l)) = map g l.
Proof. intros Hf. cbn. rewrite map_map. apply map_ext, Hf. Qed.

Lemma entry_list_values l : strings_under "value" (entry_list_to_json l) = map Some (map value l).
Proof. unfold entry_list_to_json. erewrite strings_under_map; [by rewrite map_map|]. done. Qed.

Lemma ip_entries_values e c :
  strings_under "value" (ip_entries_to_json e c) = map Some (BlacklistOps.ip_texts (e, c)).
Proof. unfold BlacklistOps.ip_texts. cbn. rewrite !map_app, !map_map. done. Qed.

(** The admin sees exactly the entries that the checks consult, in their
    order, for every list. *)
Theorem views_show_the_lists config category :
  strings_under "value" (blacklist_category_to_json (blacklist config) category) =
    map Some (BlacklistOps.texts_of (BlacklistOps.LBlack category) config) /\
  strings_under "value" (whitelist_to_json (whitelist config)) =
    map Some (BlacklistOps.texts_of BlacklistOps.LWhiteIps config) /\
  strings_under "value" (whitelist_routes_to_json (whitelist config)) =
    map Some (BlacklistOps.texts_of BlacklistOps.LWhiteRoutes config).
Proof.
  split_and!; [destruct category|..]; first [apply ip_entries_values|apply entry_list_values].
Qed.

Lemma unused_codes_count codes :
  Z.of_nat (length codes) <= INT_MAX -> unused_codes codes = Z.of_nat (length (unused codes)).
Proof.
  unfold unused_codes. intros Hl.
  enough (forall k, 0 <= k -> k + Z.of_nat (length codes) <= INT_MAX ->
            foldl (fun n code => if used code then n else swrap32 (n + 1)) k codes =
            k + Z.of_nat (length (unused codes))) as H by (rewrite H; lia).
  clear Hl. induction codes as [|c codes IH]; intros k Hk Hl; [simpl; lia|]. cbn [foldl length] in *.
  unfold unused in *. rewrite filter_cons. destruct (used c) eqn:Hu.
  - rewrite IH by lia. by rewrite decide_False by done.
  - rewrite swrap32_small by (unfold INT_MIN; lia). rewrite IH by lia. rewrite decide_True by done. cbn [length]. lia.
Qed.

(** Two accounts that differ only in what must stay secret: password hash,
    TOTP secret, backup code hashes, public keys, counters, user handle. *)
Record same_public (u v : UserRecord) : Prop := {
  same_username : username u = username v;
  same_created : Users.created_at u = Users.created_at v;
  same_totp : is_Some (totp u) <-> is_Some (totp v);
  same_codes : map used (backup_codes u) = map used (backup_codes v);
  same_credentials :
    map (fun c => (id_b64url c, cred_label c, cred_created_at c)) (webauthn_credentials u) =
    map (fun c => (id_b64url c, cred_label c, cred_created_at c)) (webauthn_credentials v) }.

Lemma unused_codes_used codes codes' : map used codes = map used codes' -> unused_codes codes = unused_codes codes'.
Proof.
  unfold unused_codes. generalize 0. revert codes'.
  induction codes as [|c codes IH]; intros [|c' codes'] k; try done. cbn. intros [= -> H]. by apply IH.
Qed.

Lemma credentials_view cs cs' :
  map (fun c => (id_b64url c, cred_label c, cred_created_at c)) cs =
  map (fun c => (id_b64url c, cred_label c, cred_created_at c)) cs' ->
  webauthn_credentials_to_json cs = webauthn_credentials_to_json cs'.
Proof.
  intros H. unfold webauthn_credentials_to_json. f_equal. revert cs' H.
  induction cs as [|c cs IH]; intros [|c' cs'] H; try done. cbn [map] in H. injection H as H1 H2 H3 H.
  cbn [map]. rewrite (IH _ H). by rewrite H1, H2, H3.
Qed.

Lemma two_factor_view u v : same_public u v -> two_factor_status_to_json u = two_factor_status_to_json v.
Proof.
  intros []. unfold two_factor_status_to_json. f_equal.
  rewrite (bool_decide_ext _ _ same_totp0), (unused_codes_used _ _ same_codes0).
  by rewrite (credentials_view _ _ same_credentials0).
Qed.

Lemma users_view us vs : Forall2 same_public us vs -> users_to_json us = users_to_json vs.
Proof.
  unfold users_to_json. intros H. f_equal. induction H as [|u v us vs [] _ IH]; [done|]. cbn [map].
  rewrite IH. by rewrite same_username0, same_created0, (bool_decide_ext _ _ same_totp0).
Qed.

(** Nothing secret is shown: accounts that agree on everything but the
    password hash, the TOTP secret, the backup code hashes, the key material
    and the counters have the same JSON. *)
Theorem views_hide_secrets u v us vs :
  same_public u v -> Forall2 same_public us vs ->
  two_factor_status_to_json u = two_factor_status_to_json v /\ users_to_json us = users_to_json vs.
Proof. intros Hu Hus. split; [by apply two_factor_view|by apply users_view]. Qed.

Lemma views_hide_secrets_witness :
  users_to_json [mkUser "a" "11" "22" 1 0 (Some (lit "AAAA")) [] [] None] =
  users_to_json [mkUser "a" "33" "44" 2 0 (Some (lit "BBBB")) [] [] (Some (lit "h"))].
Proof.
  assert (same_public (mkUser "a" "11" "22" 1 0 (Some (lit "AAAA")) [] [] None)
                      (mkUser "a" "33" "44" 2 0 (Some (lit "BBBB")) [] [] (Some (lit "h")))) as H
    by (split; [reflexivity..|split; intros _; eexists; reflexivity|reflexivity|reflexivity]).
  apply (views_hide_secrets _ _ _ _ H). constructor; [exact H|constructor].
Defined.
