(* ===== verification/AdminBase.v ===== *)
(** * AdminBase: what the admin handlers share

    Models the helpers at the top of [admin/admin_server.cpp], the response
    builders of [admin/http_util.cpp], and the part of [AppState] that the
    admin server touches, with the lifting of each component's operations to
    it. The text of a JSON body is left as the value it serialises; HTTP
    version and Content-Length are Beast's. *)
From S2P Require Import Prelude Text Net Config Checks Json Numeric Passwords Users EventLogs.
From S2P Require IpBlocks RequestLog ConfigStore UrlFetch.
From S2P Require Export Tokens.
From Stdlib Require Import SpecFloat.

(** ** Constants *)

Definition kAdminMaxBodyBytes : Z := 1 * 1024 * 1024.
Definition kGeoipUploadMaxBytes : Z := 128 * 1024 * 1024.
Definition kImportUrlMaxBytes : Z := 64 * 1024 * 1024.
Definition kDefaultHistoryLimit : Z := 200.
Definition kApiGeoipUpload : str := "/api/geoip-upload".
Definition kApiAsnUpload : str := "/api/asn-upload".
Definition kApiBlacklistPrefix : str := "/api/blacklist/".
Definition kImportSuffix : str := "/import".
Definition kImportUrlSuffix : str := "/import-url".
Definition kClearSuffix : str := "/clear".
Definition kApiWhitelist : str := "/api/whitelist".
Definition kApiWhitelistImport : str := "/api/whitelist/import".
Definition kApiWhitelistImportUrl : str := "/api/whitelist/import-url".
Definition kApiWhitelistClear : str := "/api/whitelist/clear".
Definition kApiWhitelistRoutes : str := "/api/whitelist/routes".
Definition kApiWhitelistRoutesImport : str := "/api/whitelist/routes/import".
Definition kApiWhitelistRoutesImportUrl : str := "/api/whitelist/routes/import-url".
Definition kApiWhitelistRoutesClear : str := "/api/whitelist/routes/clear".
Definition kApiRequests : str := "/api/requests".
Definition kApiRequestsStream : str := "/api/requests/stream".
Definition kApiGlobeStream : str := "/api/globe/stream".
Definition kApiUsersPrefix : str := "/api/users/".
Definition kApiWebauthnPrefix : str := "/api/auth/2fa/webauthn/".
Definition kApiSitesPrefix : str := "/api/sites/".
Definition kApiPagesStatusPrefix : str := "/api/pages/status/".
Definition kSessionCookieName : str := "atomwall_session".
Definition kPendingMfaCookieName : str := "atomwall_pending_mfa".
Definition kWebAuthnLoginCookieName : str := "atomwall_webauthn_login".

(** The default arguments of the stores' operations. *)
Definition kSessionTtlHours : Z := 12.
Definition kPendingMfaTtlMinutes : Z := 5.
Definition kPendingTotpTtlMinutes : Z := 10.
Definition kChallengeTtlMinutes : Z := 2.

(** ** JSON bodies *)

Definition parse_json_object `{JsonText} (body : str) : option (list (str * json)) :=
  match json_parse body with
  | Some (JObj members) => Some members
  | _ => None
  end.

Definition json_string_field (obj : list (str * json)) (key : str) : option str :=
  match jfind obj key with Some (JStr s) => Some s | _ => None end.

(** [is_number] and [to_number<double>]. *)
Definition number_of (v : json) : option spec_float :=
  match v with
  | JInt z => Some (double_of_Z z)
  | JDouble d => Some d
  | _ => None
  end.

Definition json_int_field (obj : list (str * json)) (key : str) : option Z :=
  saturating_to_int <$> (jfind obj key ≫= number_of).

Definition json_object_field (obj : list (str * json)) (key : str) : option (list (str * json)) :=
  match jfind obj key with Some (JObj members) => Some members | _ => None end.

(** [if (auto it = obj.find(key); it != end && it->value().is_bool())] *)
Definition json_bool_field (obj : list (str * json)) (key : str) : option bool :=
  match jfind obj key with Some (JBool b) => Some b | _ => None end.

(** ** Requests and cookies *)

Record AdminRequest := mkAdminRequest { rq_header : request_header; rq_body : str }.

Definition trim_spaces : str -> str :=
  fix go s := match s with c :: s' => if c == " "%char then go s' else s | [] => [] end.

(** The loop over the pairs of a Cookie header; fuel: every round but the
    last drops a separator. *)
Fixpoint cookie_loop (fuel : nat) (cookies name : str) : option str :=
  match fuel, cookies with
  | O, _ | _, [] => None
  | S fuel', _ =>
      let semi := find_char ";" cookies in
      let part := trim_spaces (match semi with Some i => take i cookies | None => cookies end) in
      let next := match semi with Some i => cookie_loop fuel' (drop (S i) cookies) name | None => None end in
      match find_char "=" part with
      | Some eq => if take eq part == name then Some (drop (S eq) part) else next
      | None => next
      end
  end.

Definition extract_cookie (h : request_header) (name : str) : option str :=
  match header_find h "Cookie" with
  | None => None
  | Some cookies => cookie_loop (length cookies) cookies name
  end.

Definition extract_session_token (h : request_header) : option str := extract_cookie h kSessionCookieName.
Definition extract_pending_mfa_token (r : AdminRequest) : option str :=
  extract_cookie (rq_header r) kPendingMfaCookieName.
Definition extract_webauthn_login_token (r : AdminRequest) : option str :=
  extract_cookie (rq_header r) kWebAuthnLoginCookieName.

Definition public_api_routes : list str := map lit [
  "/api/auth/status"; "/api/auth/setup"; "/api/auth/login"; "/api/auth/2fa/totp/verify";
  "/api/auth/2fa/backup-code/verify"; "/api/auth/webauthn/login/options"; "/api/auth/webauthn/login/verify";
  "/api/auth/webauthn/2fa/options"; "/api/auth/webauthn/2fa/verify"]%string.

Definition is_public_api_route (target : str) : bool := existsb (fun t => target == t) public_api_routes.

Definition mfa_setup_routes : list str := map lit [
  "/api/auth/logout"; "/api/auth/2fa/status"; "/api/auth/2fa/totp/setup"; "/api/auth/2fa/totp/confirm";
  "/api/auth/2fa/webauthn/register/options"; "/api/auth/2fa/webauthn/register/verify"]%string.

Definition is_mfa_setup_allowed_route (target : str) : bool := existsb (fun t => target == t) mfa_setup_routes.

Definition cookie_header (name token age : str) (secure : bool) : str :=
  name ++ lit "=" ++ token ++ lit "; HttpOnly; SameSite=Strict; Path=/; Max-Age=" ++ age ++
  (if secure then lit "; Secure" else []).

Definition session_set_cookie_header (token : str) (secure : bool) : str :=
  cookie_header kSessionCookieName token "43200" secure.
Definition session_clear_cookie_header (secure : bool) : str := cookie_header kSessionCookieName [] "0" secure.
Definition pending_mfa_set_cookie_header (token : str) (secure : bool) : str :=
  cookie_header kPendingMfaCookieName token "300" secure.
Definition pending_mfa_clear_cookie_header (secure : bool) : str := cookie_header kPendingMfaCookieName [] "0" secure.
Definition webauthn_login_set_cookie_header (token : str) (secure : bool) : str :=
  cookie_header kWebAuthnLoginCookieName token "120" secure.
Definition webauthn_login_clear_cookie_header (secure : bool) : str :=
  cookie_header kWebAuthnLoginCookieName [] "0" secure.

Definition host_of (h : request_header) : str := default [] (header_find h "Host").
Definition webauthn_rp_id (r : AdminRequest) : str := before_char ":" (host_of (rq_header r)).
Definition webauthn_expected_origin (r : AdminRequest) (uses_tls : bool) : str :=
  (if uses_tls then lit "https://" else lit "http://") ++ host_of (rq_header r).

Definition random_bytes (random : option (list Z)) : outcome (list Z) :=
  match random with
  | Some bytes => Ok bytes
  | None => Throw (RuntimeError "RAND_bytes failed")
  end.

(** ** Responses *)

Inductive response_body := BJson (value : json) | BFile (contents : str).

Record Response := mkResponse { status : Z; fields : list (str * str); rbody : response_body }.

(** [fields::set] replaces every field of that name; [insert] adds one. *)
Definition set_field (name v : str) (r : Response) : Response :=
  mkResponse (status r) (filter (fun f => ~ to_lower f.1 = to_lower name) (fields r) ++ [(name, v)]) (rbody r).
Definition insert_field (name v : str) (r : Response) : Response :=
  mkResponse (status r) (fields r ++ [(name, v)]) (rbody r).

Definition json_response (st : Z) (value : json) : Response :=
  mkResponse st [(lit "Server", lit "atomwall-admin"); (lit "Content-Type", lit "application/json");
                 (lit "X-Content-Type-Options", lit "nosniff"); (lit "Cache-Control", lit "no-store")] (BJson value).

Definition error_response (st : Z) (message : str) : Response :=
  json_response st (JObj [(lit "error", JStr message)]).

(** ** State and inputs *)

Record AdminState := mkState {
  config_store : @ConfigStore.ConfigStore RuntimeConfig;
  users : UserStore;
  sessions : gmap str Sessions.Session;
  pending_mfa : gmap str Mfa.Entry;
  pending_totp : gmap str PendingTotp.Entry;
  webauthn_challenges : Challenges.ChallengeStore;
  login_history : Ring LoginEvent;
  ip_blocks : IpBlocks.IpBlockTracker;
  request_log : RequestLog.RequestLog;
  globe_events : Ring GlobeArcEvent }.

(** [state.config_store->get()] *)
Definition config_of (s : AdminState) : RuntimeConfig := ConfigStore.current_ (config_store s).

(** Writing an upload next to its destination and renaming it there. *)
Inductive upload_result := Saved | OpenFailed | SaveFailed (what : str).

(** What one request takes from outside: the clock readings by their place in
    the code, random bytes, the result of writing the accounts file, the
    network of an import, the outcome of saving an upload, and the services
    that are only queried. *)
Record Env := mkEnv {
  t_gate : time_point; t_pending : time_point; t_challenge : time_point; t_verify : time_point;
  t_create : time_point; t_record : time_point; t_data : time_point; t_list : nat -> time_point;
  rnd_token : option (list Z); rnd_challenge : option (list Z); rnd_login_token : option (list Z);
  rnd_secret : option (list Z); rnd_salt : option (list Z); rnd_salts : nat -> option (list Z);
  rnd_codes : nat -> option Z; rnd_handle : option (list Z);
  users_written : outcome unit;
  network : UrlFetch.Network;
  upload_saved : upload_result;
  config_dir : str;
  geoip_loaded : bool; asn_loaded : bool; server_location : option GeoLocation;
  path_of : str -> list (list ascii);
  file_contents : list (list ascii) -> str }.

Definition on_config {A} (m : M RuntimeConfig A) : M AdminState A := fun s =>
  let '(c, r) := ConfigStore.update m (config_store s) in
  (mkState c (users s) (sessions s) (pending_mfa s) (pending_totp s) (webauthn_challenges s) (login_history s)
     (ip_blocks s) (request_log s) (globe_events s), r).
Definition on_users {A} (m : M UserStore A) : M AdminState A := fun s =>
  let '(u, r) := m (users s) in
  (mkState (config_store s) u (sessions s) (pending_mfa s) (pending_totp s) (webauthn_challenges s) (login_history s)
     (ip_blocks s) (request_log s) (globe_events s), r).
Definition on_sessions {A} (m : M (gmap str Sessions.Session) A) : M AdminState A := fun s =>
  let '(t, r) := m (sessions s) in
  (mkState (config_store s) (users s) t (pending_mfa s) (pending_totp s) (webauthn_challenges s) (login_history s)
     (ip_blocks s) (request_log s) (globe_events s), r).
Definition on_pending_mfa {A} (m : M (gmap str Mfa.Entry) A) : M AdminState A := fun s =>
  let '(t, r) := m (pending_mfa s) in
  (mkState (config_store s) (users s) (sessions s) t (pending_totp s) (webauthn_challenges s) (login_history s)
     (ip_blocks s) (request_log s) (globe_events s), r).
Definition on_pending_totp (f : gmap str PendingTotp.Entry -> gmap str PendingTotp.Entry) : M AdminState unit := fun s =>
  (mkState (config_store s) (users s) (sessions s) (pending_mfa s) (f (pending_totp s)) (webauthn_challenges s)
     (login_history s) (ip_blocks s) (request_log s) (globe_events s), Ok tt).
Definition on_challenges {A} (f : Challenges.ChallengeStore -> Challenges.ChallengeStore * A) : M AdminState A := fun s =>
  let '(t, a) := f (webauthn_challenges s) in
  (mkState (config_store s) (users s) (sessions s) (pending_mfa s) (pending_totp s) t (login_history s)
     (ip_blocks s) (request_log s) (globe_events s), Ok a).
Definition on_login_history (f : Ring LoginEvent -> Ring LoginEvent) : M AdminState unit := fun s =>
  (mkState (config_store s) (users s) (sessions s) (pending_mfa s) (pending_totp s) (webauthn_challenges s)
     (f (login_history s)) (ip_blocks s) (request_log s) (globe_events s), Ok tt).
Definition on_ip_blocks {A} (f : IpBlocks.IpBlockTracker -> IpBlocks.IpBlockTracker * A) : M AdminState A := fun s =>
  let '(t, a) := f (ip_blocks s) in
  (mkState (config_store s) (users s) (sessions s) (pending_mfa s) (pending_totp s) (webauthn_challenges s)
     (login_history s) t (request_log s) (globe_events s), Ok a).

Definition pure_op {S} (f : S -> S) : M S unit := fun s => (f s, Ok tt).

(** [catch (const std::invalid_argument& e)] and [catch (const std::exception& e)] around
    the rest of a handler. *)
Definition catch_invalid (st : Z) (m : M AdminState Response) : M AdminState Response := fun s =>
  match m s with
  | (s', Throw (InvalidArgument e)) => (s', Ok (error_response st e))
  | r => r
  end.
Definition catch_all (st : Z) (message : str) (m : M AdminState Response) : M AdminState Response := fun s =>
  match m s with
  | (s', Throw _) => (s', Ok (error_response st message))
  | r => r
  end.

(** A [try] block whose result the handler goes on with: the message of an
    [invalid_argument], or of any exception. *)
Definition attempt {A} (m : M AdminState A) : M AdminState (A + list ascii) := fun s =>
  match m s with
  | (s', Ok a) => (s', Ok (inl a))
  | (s', Throw (InvalidArgument e)) => (s', Ok (inr e))
  | (s', Throw e) => (s', Throw e)
  end.

Definition admin_uses_tls (s : AdminState) : bool :=
  negb (tls_cert_file (admin (config_of s)) == []) && negb (tls_key_file (admin (config_of s)) == []).

(** ** Reasoning about handlers: relations every step respects

    [keeps R m]: whatever [m] returns or throws, [R] holds between the states
    before and after. For a preorder [R] this is compositional. *)

Definition keeps {S A} (R : S -> S -> Prop) (m : M S A) : Prop := forall s, R s (m s).1.

Section keeps.
Context {S : Type} (R : S -> S -> Prop) `{!PreOrder R}.

Lemma keeps_ret {A} (a : A) : keeps R (mret a).
Proof. intros s. simpl. reflexivity. Qed.
Lemma keeps_throw {A} e : keeps R (throwM (A := A) e).
Proof. intros s. simpl. reflexivity. Qed.
Lemma keeps_lift {A} (o : outcome A) : keeps R (liftM o).
Proof. intros s. simpl. reflexivity. Qed.
Lemma keeps_get : keeps R getM.
Proof. intros s. simpl. reflexivity. Qed.
Lemma keeps_bind {A B} (m : M S A) (k : A -> M S B) :
  keeps R m -> (forall a, keeps R (k a)) -> keeps R (m ≫= k).
Proof.
  intros Hm Hk s. unfold mbind, M_bind. specialize (Hm s). destruct (m s) as [s' [a|e]]; [|done].
  etransitivity; [exact Hm|apply Hk].
Qed.
End keeps.

Lemma keeps_catch_invalid (R : AdminState -> AdminState -> Prop) st m : keeps R m -> keeps R (catch_invalid st m).
Proof. intros Hm s. specialize (Hm s). unfold catch_invalid. destruct (m s) as [s' [a|[]]]; done. Qed.
Lemma keeps_attempt {A} (R : AdminState -> AdminState -> Prop) (m : M AdminState A) : keeps R m -> keeps R (attempt m).
Proof. intros Hm s. specialize (Hm s). unfold attempt. destruct (m s) as [s' [a|[]]]; done. Qed.
Lemma keeps_catch_all (R : AdminState -> AdminState -> Prop) st msg m : keeps R m -> keeps R (catch_all st msg m).
Proof. intros Hm s. specialize (Hm s). unfold catch_all. destruct (m s) as [s' [a|[]]]; done. Qed.

(** Walks through a handler, leaving the operations on the components. *)
Ltac keeps_step :=
  lazymatch goal with
  | |- forall _, _ => intros ?
  | |- keeps _ (mret _) => apply (keeps_ret _)
  | |- keeps _ (throwM _) => apply (keeps_throw _)
  | |- keeps _ (liftM _) => apply (keeps_lift _)
  | |- keeps _ getM => apply (keeps_get _)
  | |- keeps _ (mbind _ _) => apply (keeps_bind _)
  | |- keeps _ (catch_invalid _ _) => apply keeps_catch_invalid
  | |- keeps _ (catch_all _ _ _) => apply keeps_catch_all
  | |- keeps _ (attempt _) => apply keeps_attempt
  | |- keeps _ (match ?x with _ => _ end) => destruct x
  | |- keeps _ (let '_ := ?x in _) => destruct x
  end.
Ltac keeps_auto := repeat keeps_step.
