(* ===== verification/AdminAuth.v ===== *)
(** * AdminAuth: logging in and managing second factors

    Models the authentication handlers of [admin/admin_server.cpp]: first-run
    setup, login, the second-factor steps, enrolment of TOTP and passkeys,
    and the management of accounts. Each handler is the whole function. *)
From S2P Require Import Prelude Text Net Config Checks Json Numeric Codec Totp Passwords Users EventLogs Cbor Webauthn.
From S2P Require Import AdminBase JsonView.
From S2P Require IpBlocks RequestLog ConfigStore.

Section auth.
Context `{Kdf : Pbkdf2} `{Hmac : HmacSha1} `{Sha : Sha256} `{Lib : LibCbor} `{E : Evp} `{J : JsonText}.

(** ** Login *)

Definition session_of (now : time_point) (h : request_header) (s : AdminState) : option Sessions.SessionInfo :=
  match extract_session_token h with
  | Some token => Sessions.validate now token (sessions s)
  | None => None
  end.

Definition handle_auth_status (env : Env) (request : AdminRequest) : M AdminState Response :=
  s ← getM;
  let session := session_of (t_verify env) (rq_header request) s in
  mret (json_response 200 (JObj [
    (lit "setup_required", JBool (Users.empty (users s)));
    (lit "authenticated", JBool (bool_decide (is_Some session)));
    (lit "needs_mfa_setup", JBool (match session with
                                   | Some i => Sessions.info_needs_mfa_setup i
                                   | None => false
                                   end))])).

Definition issue_session_response (env : Env) (username : str) (needs_mfa_setup : bool) (client_ip : str)
    : M AdminState Response :=
  token ← on_sessions (Sessions.create (rnd_token env) (t_create env) kSessionTtlHours username needs_mfa_setup);
  _ ← on_login_history (EventLogs.record (mkLogin 0 (t_record env) username client_ip));
  s ← getM;
  mret (insert_field "Set-Cookie" (pending_mfa_clear_cookie_header (admin_uses_tls s))
       (insert_field "Set-Cookie" (session_set_cookie_header token (admin_uses_tls s))
       (json_response 200 (JObj [(lit "username", JStr username); (lit "needs_mfa_setup", JBool needs_mfa_setup)])))).

Definition issue_mfa_challenge_response (env : Env) (username : str) (has_totp has_backup_codes has_webauthn : bool)
    : M AdminState Response :=
  token ← on_pending_mfa (Mfa.create (rnd_token env) (t_create env) kPendingMfaTtlMinutes username);
  s ← getM;
  mret (set_field "Set-Cookie" (pending_mfa_set_cookie_header token (admin_uses_tls s))
       (json_response 200 (JObj [
          (lit "mfa_required", JBool true);
          (lit "methods", JArr ((if has_totp then [JStr "totp"] else []) ++
                                (if has_webauthn then [JStr "webauthn"] else [])));
          (lit "has_backup_codes", JBool has_backup_codes)]))).

Definition handle_auth_setup (env : Env) (body client_ip : str) : M AdminState Response :=
  s ← getM;
  if negb (Users.empty (users s)) then mret (error_response 409 "setup already completed")
  else match parse_json_object body with
  | None => mret (error_response 400 "expected JSON body")
  | Some json_body =>
      match json_string_field json_body "username", json_string_field json_body "password" with
      | Some username, Some password =>
          created ← attempt (on_users (create_if_empty (rnd_salt env) (t_data env) (users_written env) username password));
          match created with
          | inr e => mret (error_response 400 e)
          | inl false => mret (error_response 409 "setup already completed")
          | inl true =>
              s ← getM;
              issue_session_response env username (require_2fa (security (config_of s))) client_ip
          end
      | _, _ => mret (error_response 400 "username and password are required")
      end
  end.

Definition stored_hash (u : UserRecord) : PasswordHash := mkPasswordHash (u_salt_hex u) (u_hash_hex u) (u_iterations u).

Definition has_factor (u : UserRecord) : bool :=
  bool_decide (is_Some (totp u)) || negb (webauthn_credentials u == []).

Definition handle_auth_login (env : Env) (body client_ip : str) : M AdminState Response :=
  match parse_json_object body with
  | None => mret (error_response 400 "expected JSON body")
  | Some json_body =>
      match json_string_field json_body "username", json_string_field json_body "password" with
      | Some username, Some password =>
          s ← getM;
          match Users.find username (users s) with
          | None => mret (error_response 401 "invalid username or password")
          | Some user =>
              verified ← liftM (verify_password password (stored_hash user));
              if negb verified then mret (error_response 401 "invalid username or password")
              else if has_factor user then
                issue_mfa_challenge_response env username (bool_decide (is_Some (totp user)))
                  (unused_codes (backup_codes user) >? 0) (negb (webauthn_credentials user == []))
              else issue_session_response env username (require_2fa (security (config_of s))) client_ip
          end
      | _, _ => mret (error_response 400 "username and password are required")
      end
  end.

Definition handle_auth_logout (env : Env) (request : AdminRequest) : M AdminState Response :=
  _ ← match extract_session_token (rq_header request) with
      | Some token => on_sessions (pure_op (Sessions.invalidate token))
      | None => mret tt
      end;
  s ← getM;
  mret (set_field "Set-Cookie" (session_clear_cookie_header (admin_uses_tls s)) (json_response 200 (JObj []))).

(** ** The second step of a login *)

Definition no_pending_login : Response := error_response 401 "no pending login — sign in again".

(** The token of the pending-login cookie and the user it stands for. *)
Definition pending_user (env : Env) (request : AdminRequest) (s : AdminState) : option (list ascii * list ascii) :=
  match extract_pending_mfa_token request with
  | Some token => match Mfa.validate (t_pending env) token (pending_mfa s) with
                  | Some username => Some (token, username)
                  | None => None
                  end
  | None => None
  end.

Definition body_code (request : AdminRequest) : option str :=
  match parse_json_object (rq_body request) with
  | Some json_body => json_string_field json_body "code"
  | None => None
  end.

Definition expected_code : Response :=
  error_response 400 (lit "expected {" ++ [dq] ++ lit "code" ++ [dq] ++ lit ": " ++ [dq] ++ lit "..." ++ [dq] ++ lit "}").

Definition unix_seconds (t : time_point) : Z := t ÷ ns_per_s.

Definition handle_auth_2fa_totp_verify (env : Env) (request : AdminRequest) (client_ip : str) : M AdminState Response :=
  s ← getM;
  match pending_user env request s with
  | None => mret no_pending_login
  | Some (pending_token, username) =>
      match body_code request with
      | None => mret expected_code
      | Some code =>
          match Users.find username (users s) ≫= totp with
          | None => mret (error_response 401 "invalid code")
          | Some secret =>
              matched ← liftM (verify_totp secret code (unix_seconds (t_verify env)));
              match matched with
              | None => mret (error_response 401 "invalid code")
              | Some matched_step =>
                  fresh ← on_users (consume_totp_step username matched_step);
                  if negb fresh then mret (error_response 401 "invalid code")
                  else
                    _ ← on_pending_mfa (pure_op (Mfa.invalidate pending_token));
                    issue_session_response env username false client_ip
              end
          end
      end
  end.

Definition handle_auth_2fa_backup_code_verify (env : Env) (request : AdminRequest) (client_ip : str)
    : M AdminState Response :=
  s ← getM;
  match pending_user env request s with
  | None => mret no_pending_login
  | Some (pending_token, username) =>
      match body_code request with
      | None => mret expected_code
      | Some code =>
          accepted ← on_users (consume_user_backup_code (users_written env) username code);
          if negb accepted then mret (error_response 401 "invalid or already-used backup code")
          else
            _ ← on_pending_mfa (pure_op (Mfa.invalidate pending_token));
            issue_session_response env username false client_ip
      end
  end.

(** ** Enrolling and dropping TOTP *)

Definition handle_auth_2fa_status (acting_user : str) : M AdminState Response :=
  s ← getM;
  match Users.find acting_user (users s) with
  | None => mret (error_response 404 "user not found")
  | Some user => mret (json_response 200 (two_factor_status_to_json user))
  end.

Definition handle_auth_2fa_totp_setup (env : Env) (acting_user : str) : M AdminState Response :=
  secret ← liftM (generate_totp_secret_base32 (rnd_secret env));
  _ ← on_pending_totp (PendingTotp.start (t_create env) kPendingTotpTtlMinutes acting_user secret);
  mret (json_response 200 (JObj [
    (lit "secret_base32", JStr secret);
    (lit "otpauth_url", JStr (totp_provisioning_uri secret acting_user "atomwall"))])).

(** The end of an enrolment: the session's own flag is cleared. *)
Definition mark_session_satisfied (request : AdminRequest) : M AdminState unit :=
  match extract_session_token (rq_header request) with
  | Some token => on_sessions (pure_op (Sessions.mark_mfa_satisfied token))
  | None => mret tt
  end.

Definition codes_to_json (codes : list str) : json := JObj [(lit "backup_codes", JArr (map JStr codes))].

Definition handle_auth_2fa_totp_confirm (env : Env) (request : AdminRequest) (acting_user : str)
    : M AdminState Response :=
  s ← getM;
  match PendingTotp.secret_for (t_pending env) acting_user (pending_totp s) with
  | None => mret (error_response 400 "no pending TOTP setup — call /api/auth/2fa/totp/setup first")
  | Some secret =>
      match body_code request with
      | None => mret expected_code
      | Some code =>
          matched ← liftM (verify_totp secret code (unix_seconds (t_verify env)));
          match matched with
          | None => mret (error_response 401 "invalid code")
          | Some matched_step =>
              backup_codes ← liftM (generate_backup_codes (rnd_codes env) 10);
              enrolled ← attempt (on_users (set_totp (rnd_salts env) (users_written env) acting_user secret backup_codes));
              match enrolled with
              | inr e => mret (error_response 400 e)
              | inl _ =>
                  _ ← on_users (consume_totp_step acting_user matched_step);
                  _ ← on_pending_totp (PendingTotp.clear acting_user);
                  _ ← mark_session_satisfied request;
                  mret (json_response 200 (codes_to_json backup_codes))
              end
          end
      end
  end.

Definition verify_current_password (username password : str) (s : AdminState) : outcome bool :=
  match Users.find username (users s) with
  | None => Ok false
  | Some user => verify_password password (stored_hash user)
  end.

Definition body_password (body : str) : option str :=
  match parse_json_object body with
  | Some json_body => json_string_field json_body "password"
  | None => None
  end.

Definition expected_password : Response :=
  error_response 400 (lit "expected {" ++ [dq] ++ lit "password" ++ [dq] ++ lit ": " ++ [dq] ++ lit "..." ++ [dq] ++ lit "}").

Definition handle_auth_2fa_totp_disable (env : Env) (acting_user body : str) : M AdminState Response :=
  match body_password body with
  | None => mret expected_password
  | Some password =>
      s ← getM;
      verified ← liftM (verify_current_password acting_user password s);
      if negb verified then mret (error_response 401 "incorrect password")
      else if require_2fa (security (config_of s)) then
        mret (error_response 400 "cannot disable your only second factor while security.require_2fa is enabled")
      else
        cleared ← attempt (on_users (clear_totp (users_written env) acting_user));
        match cleared with
        | inr e => mret (error_response 400 e)
        | inl _ => mret (json_response 200 (JObj []))
        end
  end.

Definition handle_auth_2fa_backup_codes_regenerate (env : Env) (acting_user body : str) : M AdminState Response :=
  match body_password body with
  | None => mret expected_password
  | Some password =>
      s ← getM;
      verified ← liftM (verify_current_password acting_user password s);
      if negb verified then mret (error_response 401 "incorrect password")
      else catch_invalid 400 (
        codes ← on_users (regenerate_backup_codes (rnd_codes env) (rnd_salts env) (users_written env) acting_user);
        mret (json_response 200 (codes_to_json codes)))
  end.

(** ** Passkeys *)

Record WebAuthnCredentialFields := mkFields {
  cf_id_b64url : str; cf_client_data_json : list Z; cf_data : list Z; cf_signature : list Z }.

(** [base64url_decode] throws [invalid_argument] only, which the parser
    turns into an absent value. *)
Definition decoded (o : outcome (list Z)) : option (list Z) := if o is Ok b then Some b else None.

Definition parse_credential_fields (body : list (str * json)) (is_registration : bool)
    : option WebAuthnCredentialFields :=
  credential ← json_object_field body "credential";
  id ← json_string_field credential "id";
  response ← json_object_field credential "response";
  client_data_json_b64 ← json_string_field response "clientDataJSON";
  second_field_b64 ← json_string_field response (if is_registration then lit "attestationObject" else lit "authenticatorData");
  client_data_json ← decoded (base64url_decode client_data_json_b64);
  data ← decoded (base64url_decode second_field_b64);
  if is_registration then Some (mkFields id client_data_json data [])
  else
    signature_b64 ← json_string_field response "signature";
    signature ← decoded (base64url_decode signature_b64);
    Some (mkFields id client_data_json data signature).

Definition text_of (bytes : list Z) : str := map char_of bytes.

Definition credential_ref (c : WebAuthnCredential) : json :=
  JObj [(lit "type", JStr "public-key"); (lit "id", JStr (id_b64url c))].

Definition register_key (user : str) : str := lit "register:" ++ user.
Definition login_key (token : str) : str := lit "login:" ++ token.
Definition login2fa_key (user : str) : str := lit "login2fa:" ++ user.

Definition handle_webauthn_register_options (env : Env) (request : AdminRequest) (acting_user : str)
    : M AdminState Response :=
  s ← getM;
  match Users.find acting_user (users s) with
  | None => mret (error_response 404 "user not found")
  | Some user =>
      challenge ← liftM (random_bytes (rnd_challenge env));
      _ ← on_challenges (fun t => (Challenges.start (t_create env) kChallengeTtlMinutes (register_key acting_user) challenge t, tt));
      user_handle ← on_users (webauthn_user_handle (rnd_handle env) (users_written env) acting_user);
      mret (json_response 200 (JObj [
        (lit "challenge", JStr (base64url_encode challenge));
        (lit "rp", JObj [(lit "id", JStr (webauthn_rp_id request)); (lit "name", JStr "atomwall")]);
        (lit "user", JObj [(lit "id", JStr user_handle); (lit "name", JStr acting_user);
                           (lit "displayName", JStr acting_user)]);
        (lit "pubKeyCredParams", JArr [
           JObj [(lit "type", JStr "public-key"); (lit "alg", JInt (-7))];
           JObj [(lit "type", JStr "public-key"); (lit "alg", JInt (-257))]]);
        (lit "authenticatorSelection",
           JObj [(lit "residentKey", JStr "preferred"); (lit "userVerification", JStr "preferred")]);
        (lit "attestation", JStr "none");
        (lit "timeout", JInt 60000);
        (lit "excludeCredentials", JArr (map credential_ref (webauthn_credentials user)))]))
  end.

Definition handle_webauthn_register_verify (env : Env) (request : AdminRequest) (acting_user : str)
    : M AdminState Response :=
  match parse_json_object (rq_body request) with
  | None => mret (error_response 400 "expected JSON body")
  | Some json_body =>
      match parse_credential_fields json_body true with
      | None => mret (error_response 400 "malformed credential response")
      | Some fields =>
          let label := default (lit "Passkey") (json_string_field json_body "label") in
          pending ← on_challenges (Challenges.consume (t_challenge env) (register_key acting_user));
          match pending with
          | None => mret (error_response 400 "no pending passkey registration — call the options endpoint first")
          | Some challenge =>
              s ← getM;
              catch_invalid 400 (
                result ← liftM (verify_webauthn_registration challenge (text_of (cf_client_data_json fields))
                                  (cf_data fields) (webauthn_rp_id request)
                                  (webauthn_expected_origin request (admin_uses_tls s)));
                let credential := mkCredential (credential_id_b64url result) label (reg_cose_public_key result)
                                    (reg_sign_count result) (t_data env) in
                _ ← on_users (add_webauthn_credential (users_written env) acting_user credential);
                _ ← mark_session_satisfied request;
                mret (json_response 200 (JObj [(lit "id", JStr (id_b64url credential));
                                               (lit "label", JStr (cred_label credential))])))
          end
      end
  end.

Definition handle_webauthn_delete (env : Env) (acting_user credential_id : str) : M AdminState Response :=
  s ← getM;
  match Users.find acting_user (users s) with
  | None => mret (error_response 404 "user not found")
  | Some user =>
      let only_factor := negb (bool_decide (is_Some (totp user))) && (length (webauthn_credentials user) <=? 1)%nat in
      if only_factor && require_2fa (security (config_of s)) then
        mret (error_response 400 "cannot remove your only second factor while security.require_2fa is enabled")
      else
        removed ← on_users (remove_webauthn_credential (users_written env) acting_user credential_id);
        if negb removed then mret (error_response 404 "passkey not found")
        else mret (json_response 200 (JObj []))
  end.

(** Passwordless login: the challenge is keyed by a random token of its own. *)
Definition handle_webauthn_login_options (env : Env) (request : AdminRequest) : M AdminState Response :=
  challenge ← liftM (random_bytes (rnd_challenge env));
  match rnd_login_token env with
  | None => mret (error_response 500 "failed to generate token")
  | Some token_bytes =>
      let token := base64url_encode token_bytes in
      _ ← on_challenges (fun t => (Challenges.start (t_create env) kChallengeTtlMinutes (login_key token) challenge t, tt));
      s ← getM;
      mret (set_field "Set-Cookie" (webauthn_login_set_cookie_header token (admin_uses_tls s))
           (json_response 200 (JObj [
              (lit "challenge", JStr (base64url_encode challenge));
              (lit "rpId", JStr (webauthn_rp_id request));
              (lit "timeout", JInt 60000);
              (lit "userVerification", JStr "preferred");
              (lit "allowCredentials", JArr [])])))
  end.

(** [*cred_it]: the first credential of that id. *)
Definition credential_of (id : str) (u : UserRecord) : option WebAuthnCredential :=
  find_credential id (webauthn_credentials u) ≫= fun i => webauthn_credentials u !! i.

(** The check of an assertion against a stored credential. *)
Definition check_assertion (request : AdminRequest) (s : AdminState) (challenge : list Z)
    (fields : WebAuthnCredentialFields) (credential : WebAuthnCredential) : outcome WebAuthnAssertionResult :=
  verify_webauthn_authentication challenge (text_of (cf_client_data_json fields)) (cf_data fields)
    (cf_signature fields) (cose_public_key credential) (sign_count credential) (webauthn_rp_id request)
    (webauthn_expected_origin request (admin_uses_tls s)).

Definition handle_webauthn_login_verify (env : Env) (request : AdminRequest) (client_ip : str) : M AdminState Response :=
  pending ← match extract_webauthn_login_token request with
            | Some token => on_challenges (Challenges.consume (t_challenge env) (login_key token))
            | None => mret None
            end;
  match pending with
  | None => mret (error_response 401 "no pending passkey login — reload and try again")
  | Some challenge =>
      match parse_json_object (rq_body request) with
      | None => mret (error_response 400 "expected JSON body")
      | Some json_body =>
          match parse_credential_fields json_body false with
          | None => mret (error_response 400 "malformed credential response")
          | Some fields =>
              s ← getM;
              match find_by_credential_id (cf_id_b64url fields) (users s) with
              | None => mret (error_response 401 "unrecognized passkey")
              | Some user =>
                  match credential_of (cf_id_b64url fields) user with
                  | None => throwM (LogicError "dereference of the end iterator")
                  | Some credential =>
                      catch_invalid 401 (
                        result ← liftM (check_assertion request s challenge fields credential);
                        _ ← on_users (update_webauthn_sign_count (users_written env) (username user)
                                        (cf_id_b64url fields) (new_sign_count result));
                        res ← issue_session_response env (username user) false client_ip;
                        s ← getM;
                        mret (insert_field "Set-Cookie" (webauthn_login_clear_cookie_header (admin_uses_tls s)) res))
                  end
              end
          end
      end
  end.

Definition handle_webauthn_2fa_options (env : Env) (request : AdminRequest) : M AdminState Response :=
  s ← getM;
  match pending_user env request s with
  | None => mret no_pending_login
  | Some (_, username) =>
      match Users.find username (users s) with
      | None => mret no_pending_login
      | Some user =>
          challenge ← liftM (random_bytes (rnd_challenge env));
          _ ← on_challenges (fun t => (Challenges.start (t_create env) kChallengeTtlMinutes (login2fa_key username) challenge t, tt));
          mret (json_response 200 (JObj [
            (lit "challenge", JStr (base64url_encode challenge));
            (lit "rpId", JStr (webauthn_rp_id request));
            (lit "timeout", JInt 60000);
            (lit "userVerification", JStr "preferred");
            (lit "allowCredentials", JArr (map credential_ref (webauthn_credentials user)))]))
      end
  end.

Definition handle_webauthn_2fa_verify (env : Env) (request : AdminRequest) (client_ip : str) : M AdminState Response :=
  s ← getM;
  match pending_user env request s with
  | None => mret no_pending_login
  | Some (pending_token, username) =>
      pending ← on_challenges (Challenges.consume (t_challenge env) (login2fa_key username));
      match pending with
      | None => mret (error_response 400 "no pending passkey challenge — call the options endpoint first")
      | Some challenge =>
          match parse_json_object (rq_body request) with
          | None => mret (error_response 400 "expected JSON body")
          | Some json_body =>
              match parse_credential_fields json_body false with
              | None => mret (error_response 400 "malformed credential response")
              | Some fields =>
                  match Users.find username (users s) with
                  | None => mret no_pending_login
                  | Some user =>
                      match credential_of (cf_id_b64url fields) user with
                      | None => mret (error_response 401 "unrecognized passkey for this account")
                      | Some credential =>
                          catch_invalid 401 (
                            result ← liftM (check_assertion request s challenge fields credential);
                            _ ← on_users (update_webauthn_sign_count (users_written env) username
                                            (cf_id_b64url fields) (new_sign_count result));
                            _ ← on_pending_mfa (pure_op (Mfa.invalidate pending_token));
                            issue_session_response env username false client_ip)
                      end
                  end
              end
          end
      end
  end.

(** ** Accounts *)

Definition handle_users_create (env : Env) (body : str) : M AdminState Response :=
  match parse_json_object body with
  | None => mret (error_response 400 "expected JSON body")
  | Some json_body =>
      match json_string_field json_body "username", json_string_field json_body "password" with
      | Some username, Some password =>
          created ← attempt (on_users (Users.create (rnd_salt env) (t_data env) (users_written env) username password));
          match created with
          | inr e => mret (error_response 400 e)
          | inl _ => s ← getM; mret (json_response 200 (users_to_json (users_ (users s))))
          end
      | _, _ => mret (error_response 400 "username and password are required")
      end
  end.

Definition handle_users_delete (env : Env) (username : str) : M AdminState Response :=
  removed ← attempt (on_users (Users.remove (users_written env) username));
  match removed with
  | inr e => mret (error_response 400 e)
  | inl false => mret (error_response 404 "user not found")
  | inl true => s ← getM; mret (json_response 200 (users_to_json (users_ (users s))))
  end.
End auth.
