(* ===== verification/AdminLogin.v ===== *)
(** * AdminLogin: who gets a session, and who keeps a second factor

    Theorems about the handlers of [AdminAuth]: the evidence behind every new
    session and pending login, what the handlers leave alone, and the
    enforcement of two-factor authentication. *)
From S2P Require Import Prelude Text Net Config Checks Json Numeric Codec Totp Passwords Users EventLogs Cbor Webauthn.
From S2P Require Import AdminBase JsonView AdminAuth.
From S2P Require IpBlocks RequestLog ConfigStore.

(** ** Who gets a session

    The evidence on which a request may be answered with a session for a user,
    read off the state before the request; the flag says whether the session
    is restricted to enrolling a second factor. *)

Lemma bind_get {S A} (k : S -> M S A) s : (getM ≫= k) s = k s s.
Proof. done. Qed.
Lemma bind_ret {S A B} (a : A) (k : A -> M S B) s : (mret a ≫= k) s = k a s.
Proof. done. Qed.
Lemma bind_lift {S A B} (o : outcome A) (k : A -> M S B) s :
  (liftM o ≫= k) s = match o with Ok a => k a s | Throw e => (s, Throw e) end.
Proof. by destruct o. Qed.

Section evidence.
Context `{Kdf : Pbkdf2} `{Hmac : HmacSha1} `{Sha : Sha256} `{Lib : LibCbor} `{E : Evp} `{J : JsonText}.

Definition body_credentials (request : AdminRequest) : option (list ascii * list ascii) :=
  match parse_json_object (rq_body request) with
  | Some b => match json_string_field b "username", json_string_field b "password" with
              | Some u, Some p => Some (u, p)
              | _, _ => None
              end
  | None => None
  end.

Definition body_fields (request : AdminRequest) : option WebAuthnCredentialFields :=
  match parse_json_object (rq_body request) with Some b => parse_credential_fields b false | None => None end.

Definition fresh_step (user : str) (step : Z) (us : UserStore) : Prop :=
  forall last, last_totp_step_ us !! user = Some last -> last < step.

Inductive login_evidence (env : Env) (request : AdminRequest) (s : AdminState) : list ascii -> bool -> Prop :=
  | by_setup u pw :
      body_credentials request = Some (u, pw) -> users_ (users s) = [] ->
      u <> [] -> (8 <= length pw)%nat ->
      login_evidence env request s u (require_2fa (security (config_of s)))
  | by_password u pw rec :
      body_credentials request = Some (u, pw) -> Users.find u (users s) = Some rec ->
      verify_password pw (stored_hash rec) = Ok true -> has_factor rec = false ->
      login_evidence env request s u (require_2fa (security (config_of s)))
  | by_totp token u code secret step :
      pending_user env request s = Some (token, u) -> body_code request = Some code ->
      Users.find u (users s) ≫= totp = Some secret ->
      verify_totp secret code (unix_seconds (t_verify env)) = Ok (Some step) -> fresh_step u step (users s) ->
      login_evidence env request s u false
  | by_backup_code token u code :
      pending_user env request s = Some (token, u) -> body_code request = Some code ->
      (consume_user_backup_code (users_written env) u code (users s)).2 = Ok true ->
      login_evidence env request s u false
  | by_second_passkey token u rec fields challenge c result :
      pending_user env request s = Some (token, u) -> body_fields request = Some fields ->
      (Challenges.consume (t_challenge env) (login2fa_key u) (webauthn_challenges s)).2 = Some challenge ->
      Users.find u (users s) = Some rec -> credential_of (cf_id_b64url fields) rec = Some c ->
      check_assertion request s challenge fields c = Ok result ->
      login_evidence env request s u false
  | by_passkey token rec fields challenge c result :
      extract_webauthn_login_token request = Some token -> body_fields request = Some fields ->
      (Challenges.consume (t_challenge env) (login_key token) (webauthn_challenges s)).2 = Some challenge ->
      find_by_credential_id (cf_id_b64url fields) (users s) = Some rec ->
      credential_of (cf_id_b64url fields) rec = Some c ->
      check_assertion request s challenge fields c = Ok result ->
      login_evidence env request s (username rec) false.

(** The session was there before, for the same user and until the same time. *)
Definition inherited (token : str) (sess : Sessions.Session) (s : AdminState) : Prop :=
  exists old, sessions s !! token = Some old /\ Sessions.sess_username old = Sessions.sess_username sess /\
              Sessions.expires_at old = Sessions.expires_at sess.

Definition sessions_inherited (s s' : AdminState) : Prop :=
  forall token sess, sessions s' !! token = Some sess -> inherited token sess s.

#[export] Instance sessions_inherited_preorder : PreOrder sessions_inherited.
Proof.
  split.
  - intros s token sess H. by exists sess.
  - intros s1 s2 s3 H12 H23 token sess (old & Ho & Hu & He)%H23.
    apply H12 in Ho as (old' & Ho' & Hu' & He'). exists old'. split_and!; [done|congruence|congruence].
Qed.

Definition granted (env : Env) (request : AdminRequest) (s s' : AdminState) : Prop :=
  forall token sess, sessions s' !! token = Some sess ->
    inherited token sess s \/
    (random_token_hex (rnd_token env) = Ok token /\
     login_evidence env request s (Sessions.sess_username sess) (Sessions.needs_mfa_setup sess) /\
     Sessions.expires_at sess = tp_add (t_create env) (kSessionTtlHours * ns_per_hour)).

Lemma same_sessions_inherited s s' : sessions s' = sessions s -> sessions_inherited s s'.
Proof. intros H token sess Hs. rewrite H in Hs. by exists sess. Qed.

Lemma inherited_granted env request s s' : sessions_inherited s s' -> granted env request s s'.
Proof. intros H token sess Hs. left. by apply H. Qed.

Lemma create_sessions random now ttl u needs st token sess :
  (Sessions.create random now ttl u needs st).1 !! token = Some sess ->
  st !! token = Some sess \/
  (random_token_hex random = Ok token /\ sess = Sessions.mkSession u needs (tp_add now (ttl * ns_per_hour))).
Proof.
  unfold Sessions.create. destruct (random_token_hex random) as [t|e]; [|by left]. cbn [fst].
  destruct (decide (t = token)) as [->|Hne].
  - rewrite lookup_insert_eq. intros [= <-]. by right.
  - rewrite lookup_insert_ne by done. intros H%map_lookup_filter_Some. left. apply H.
Qed.

Lemma issue_sessions env u needs ip s :
  sessions (issue_session_response env u needs ip s).1 =
  (Sessions.create (rnd_token env) (t_create env) kSessionTtlHours u needs (sessions s)).1.
Proof.
  unfold issue_session_response, on_sessions, mbind, M_bind.
  destruct (Sessions.create _ _ _ _ _ _) as [t [a|e]]; done.
Qed.

Lemma issue_granted env request s0 s u needs ip :
  sessions s = sessions s0 -> login_evidence env request s0 u needs ->
  granted env request s0 (issue_session_response env u needs ip s).1.
Proof.
  intros Hs He token sess. rewrite issue_sessions, Hs.
  intros [H|[Ht ->]]%create_sessions; [left; by exists sess|by right].
Qed.

Lemma on_users_sessions {A} (m : M UserStore A) s : sessions (on_users m s).1 = sessions s.
Proof. unfold on_users. by destruct (m (users s)). Qed.
Lemma on_challenges_sessions {A} (f : _ -> _ * A) s : sessions (on_challenges f s).1 = sessions s.
Proof. unfold on_challenges. by destruct (f (webauthn_challenges s)). Qed.
End evidence.

(** Runs a handler up to its next operation on a component. *)
Ltac mrun := repeat first
  [ rewrite bind_get | rewrite bind_ret | rewrite bind_lift
  | progress cbn [fst snd on_pending_mfa pure_op] ].

Ltac inherited_now := apply inherited_granted, same_sessions_inherited; done.

Section grants.
Context `{Kdf : Pbkdf2} `{Hmac : HmacSha1} `{Sha : Sha256} `{Lib : LibCbor} `{E : Evp} `{J : JsonText}.

Lemma granted_catch env request s0 s st m :
  granted env request s0 (m s).1 -> granted env request s0 (catch_invalid st m s).1.
Proof. intros Hm. unfold catch_invalid. by destruct (m s) as [s' [r|[]]]. Qed.

Lemma granted_then {A B} env request s0 s (m : M AdminState A) (k : A -> M AdminState B) :
  (forall a s', (k a s').1 = s') -> granted env request s0 (m s).1 -> granted env request s0 ((m ≫= k) s).1.
Proof. intros Hk Hm. unfold mbind, M_bind. destruct (m s) as [s' [a|e]]; [by rewrite Hk|done]. Qed.

Lemma consume_step_fresh u step us us' :
  consume_totp_step u step us = (us', Ok true) -> fresh_step u step us.
Proof.
  unfold consume_totp_step, fresh_step. destruct (_ !! u) as [last|]; [|by intros _ ?].
  destruct (Z.leb_spec step last); intros [=]; intros ? [= <-]; lia.
Qed.

Lemma totp_verify_granted env request ip s :
  granted env request s (handle_auth_2fa_totp_verify env request ip s).1.
Proof.
  unfold handle_auth_2fa_totp_verify. mrun.
  destruct (pending_user env request s) as [[token u]|] eqn:Hp; [|inherited_now].
  destruct (body_code request) as [code|] eqn:Hc; [|inherited_now].
  destruct (Users.find u (users s) ≫= totp) as [secret|] eqn:Hf; [|inherited_now]. mrun.
  destruct (verify_totp secret code _) as [[step|]|] eqn:Hv; [|inherited_now..].
  unfold on_users, mbind, M_bind. destruct (consume_totp_step u step (users s)) as [us [[]|e]] eqn:Hs; [|inherited_now..].
  cbn. apply issue_granted; [done|]. eapply by_totp; try done. by eapply consume_step_fresh.
Qed.

Lemma backup_code_granted env request ip s :
  granted env request s (handle_auth_2fa_backup_code_verify env request ip s).1.
Proof.
  unfold handle_auth_2fa_backup_code_verify. mrun.
  destruct (pending_user env request s) as [[token u]|] eqn:Hp; [|inherited_now].
  destruct (body_code request) as [code|] eqn:Hc; [|inherited_now].
  unfold on_users, mbind, M_bind.
  destruct (consume_user_backup_code _ u code (users s)) as [us [[]|e]] eqn:Hs; [|inherited_now..].
  cbn. apply issue_granted; [done|]. eapply by_backup_code; [done..|]. by rewrite Hs.
Qed.

Lemma find_username u us rec : Users.find u us = Some rec -> username rec = u.
Proof.
  unfold Users.find. destruct (find_user u (users_ us)) as [i|] eqn:Hi; [|done].
  apply find_user_lookup in Hi as (r & Hr & Hn). rewrite Hr. by intros [= <-].
Qed.

Lemma login_granted env request ip s :
  granted env request s (handle_auth_login env (rq_body request) ip s).1.
Proof.
  unfold handle_auth_login. destruct (parse_json_object (rq_body request)) as [b|] eqn:Hb; [|inherited_now].
  destruct (json_string_field b "username") as [u|] eqn:Hu; [|inherited_now].
  destruct (json_string_field b "password") as [pw|] eqn:Hpw; [|inherited_now]. mrun.
  destruct (Users.find u (users s)) as [rec|] eqn:Hf; [|inherited_now]. mrun.
  destruct (verify_password pw (stored_hash rec)) as [[]|] eqn:Hv; [|inherited_now..]. cbn [negb].
  destruct (has_factor rec) eqn:Hh.
  - apply inherited_granted, same_sessions_inherited. unfold issue_mfa_challenge_response, on_pending_mfa, mbind, M_bind.
    by destruct (Mfa.create _ _ _ _ _) as [t [a|e]].
  - apply issue_granted; [done|]. eapply by_password; [|done..]. unfold body_credentials. by rewrite Hb, Hu, Hpw.
Qed.

Lemma create_if_empty_true salt now w u pw us us' :
  create_if_empty salt now w u pw us = (us', Ok true) -> users_ us = [] /\ u <> [] /\ (8 <= length pw)%nat.
Proof.
  unfold create_if_empty, validate_new_credentials. destruct u as [|c u]; [done|].
  destruct (Nat.ltb_spec (length pw) 8); [done|]. rewrite bind_lift, bind_get. unfold Users.empty.
  case_bool_decide; [|done]. done.
Qed.

Lemma setup_granted env request ip s :
  granted env request s (handle_auth_setup env (rq_body request) ip s).1.
Proof.
  unfold handle_auth_setup. mrun. destruct (negb _); [inherited_now|].
  destruct (parse_json_object (rq_body request)) as [b|] eqn:Hb; [|inherited_now].
  destruct (json_string_field b "username") as [u|] eqn:Hu; [|inherited_now].
  destruct (json_string_field b "password") as [pw|] eqn:Hpw; [|inherited_now].
  unfold attempt, on_users, mbind, M_bind.
  destruct (create_if_empty _ _ _ u pw (users s)) as [us [[]|[]]] eqn:Hc; [|inherited_now..].
  cbn. apply create_if_empty_true in Hc as (He & Hn & Hl).
  apply issue_granted; [done|]. change (config_of _) with (config_of s). eapply by_setup; [|done..].
  unfold body_credentials. by rewrite Hb, Hu, Hpw.
Qed.

Lemma second_passkey_granted env request ip s :
  granted env request s (handle_webauthn_2fa_verify env request ip s).1.
Proof.
  unfold handle_webauthn_2fa_verify. mrun.
  destruct (pending_user env request s) as [[token u]|] eqn:Hp; [|inherited_now].
  unfold on_challenges at 1. unfold mbind at 1, M_bind at 1.
  destruct (Challenges.consume _ (login2fa_key u) _) as [t [ch|]] eqn:Hch; [|inherited_now].
  destruct (parse_json_object (rq_body request)) as [b|] eqn:Hb; [|inherited_now].
  destruct (parse_credential_fields b false) as [f|] eqn:Hf; [|inherited_now].
  destruct (Users.find u (users s)) as [rec|] eqn:Hu; [|inherited_now].
  destruct (credential_of (cf_id_b64url f) rec) as [c|] eqn:Hc; [|inherited_now].
  apply granted_catch. mrun.
  destruct (check_assertion request s ch f c) as [result|e] eqn:Ha; [|inherited_now].
  unfold on_users, mbind at 1, M_bind at 1.
  destruct (update_webauthn_sign_count _ _ _ _ _) as [us [[]|e]]; [|inherited_now].
  mrun. apply issue_granted; [done|].
  eapply by_second_passkey; try done; [unfold body_fields; by rewrite Hb|by rewrite Hch].
Qed.

Lemma passkey_granted env request ip s :
  granted env request s (handle_webauthn_login_verify env request ip s).1.
Proof.
  unfold handle_webauthn_login_verify.
  destruct (extract_webauthn_login_token request) as [token|] eqn:Ht; [|inherited_now].
  unfold on_challenges at 1. unfold mbind at 1, M_bind at 1.
  destruct (Challenges.consume _ (login_key token) _) as [t [ch|]] eqn:Hch; [|inherited_now].
  destruct (parse_json_object (rq_body request)) as [b|] eqn:Hb; [|inherited_now].
  destruct (parse_credential_fields b false) as [f|] eqn:Hf; [|inherited_now]. mrun.
  cbn [users]. destruct (find_by_credential_id (cf_id_b64url f) (users s)) as [rec|] eqn:Hu; [|inherited_now].
  destruct (credential_of (cf_id_b64url f) rec) as [c|] eqn:Hc; [|inherited_now].
  apply granted_catch. mrun.
  match goal with |- context [check_assertion request ?st ch f c] =>
    change (check_assertion request st ch f c) with (check_assertion request s ch f c) end.
  destruct (check_assertion request s ch f c) as [result|e] eqn:Ha; [|inherited_now].
  unfold on_users, mbind at 1, M_bind at 1.
  destruct (update_webauthn_sign_count _ _ _ _ _) as [us [[]|e]]; [|inherited_now].
  apply granted_then; [done|]. apply issue_granted; [done|].
  eapply by_passkey; try done; [unfold body_fields; by rewrite Hb|by rewrite Hch].
Qed.
End grants.

(** ** What the other handlers leave alone *)

(** The configuration, its persistence and the bans. *)
Definition untouched (s s' : AdminState) : Prop := config_store s' = config_store s /\ ip_blocks s' = ip_blocks s.
#[export] Instance untouched_preorder : PreOrder untouched.
Proof. split; [by split|]. intros s1 s2 s3 [] []. split; congruence. Qed.

(** No login became pending. *)
Definition pending_inherited (s s' : AdminState) : Prop :=
  forall token e, pending_mfa s' !! token = Some e -> pending_mfa s !! token = Some e.
#[export] Instance pending_inherited_preorder : PreOrder pending_inherited.
Proof. split; [by intros s token e|]. intros s1 s2 s3 H12 H23 token e H%H23. by apply H12. Qed.

(** A session restricted to enrolment stays so. *)
Definition restricted_inherited (s s' : AdminState) : Prop :=
  forall token old sess, sessions s !! token = Some old -> sessions s' !! token = Some sess ->
    Sessions.needs_mfa_setup old = true -> Sessions.needs_mfa_setup sess = true.

Lemma frame_config {A} (R : AdminState -> AdminState -> Prop) (m : M RuntimeConfig A) :
  (forall s c, R s (mkState c (users s) (sessions s) (pending_mfa s) (pending_totp s) (webauthn_challenges s)
                      (login_history s) (ip_blocks s) (request_log s) (globe_events s))) ->
  keeps R (on_config m).
Proof. intros H s. unfold on_config. destruct (ConfigStore.update m _). apply H. Qed.

Lemma frame_users {A} (R : AdminState -> AdminState -> Prop) (m : M UserStore A) :
  (forall s, R s (mkState (config_store s) (m (users s)).1 (sessions s) (pending_mfa s) (pending_totp s)
                    (webauthn_challenges s) (login_history s) (ip_blocks s) (request_log s) (globe_events s))) ->
  keeps R (on_users m).
Proof. intros H s. specialize (H s). unfold on_users. by destruct (m (users s)). Qed.

Lemma frame_challenges {A} (R : AdminState -> AdminState -> Prop) (f : _ -> _ * A) :
  (forall s c, R s (mkState (config_store s) (users s) (sessions s) (pending_mfa s) (pending_totp s) c
                      (login_history s) (ip_blocks s) (request_log s) (globe_events s))) ->
  keeps R (on_challenges f).
Proof. intros H s. unfold on_challenges. destruct (f (webauthn_challenges s)). apply H. Qed.

Lemma frame_pending_mfa {A} (R : AdminState -> AdminState -> Prop) (m : M (gmap str Mfa.Entry) A) :
  (forall s, R s (mkState (config_store s) (users s) (sessions s) (m (pending_mfa s)).1 (pending_totp s)
                      (webauthn_challenges s) (login_history s) (ip_blocks s) (request_log s) (globe_events s))) ->
  keeps R (on_pending_mfa m).
Proof. intros H s. specialize (H s). unfold on_pending_mfa. by destruct (m (pending_mfa s)). Qed.

Lemma frame_sessions {A} (R : AdminState -> AdminState -> Prop) (m : M (gmap str Sessions.Session) A) :
  (forall s, R s (mkState (config_store s) (users s) (m (sessions s)).1 (pending_mfa s) (pending_totp s)
                      (webauthn_challenges s) (login_history s) (ip_blocks s) (request_log s) (globe_events s))) ->
  keeps R (on_sessions m).
Proof. intros H s. specialize (H s). unfold on_sessions. by destruct (m (sessions s)). Qed.

Lemma frame_ip_blocks {A} (R : AdminState -> AdminState -> Prop) (f : _ -> _ * A) :
  (forall s c, R s (mkState (config_store s) (users s) (sessions s) (pending_mfa s) (pending_totp s)
                      (webauthn_challenges s) (login_history s) c (request_log s) (globe_events s))) ->
  keeps R (on_ip_blocks f).
Proof. intros H s. unfold on_ip_blocks. destruct (f (ip_blocks s)). apply H. Qed.

(** Applies the frame lemma of the operation at hand and closes what the
    relation says of components that are the same. *)
Ltac frame_leaf :=
  lazymatch goal with |- keeps _ _ => idtac end;
  first [ apply frame_config | apply frame_users | apply frame_challenges | apply frame_pending_mfa
        | apply frame_sessions | apply frame_ip_blocks
        | (intros ?; unfold on_pending_totp, on_login_history; cbn [fst]) ];
  intros; cbn [fst pure_op];
  first [ reflexivity | split; reflexivity | by intros ?? | by apply same_sessions_inherited | idtac ].
Ltac keeps_frame := repeat (keeps_step || frame_leaf).

Lemma invalidate_inherited token s :
  sessions_inherited s (mkState (config_store s) (users s) (Sessions.invalidate token (sessions s)) (pending_mfa s)
    (pending_totp s) (webauthn_challenges s) (login_history s) (ip_blocks s) (request_log s) (globe_events s)).
Proof. intros t sess H. cbn in H. unfold Sessions.invalidate in H. apply lookup_delete_Some in H as [_ H]. by exists sess. Qed.

Lemma mark_inherited token s :
  sessions_inherited s (mkState (config_store s) (users s) (Sessions.mark_mfa_satisfied token (sessions s))
    (pending_mfa s) (pending_totp s) (webauthn_challenges s) (login_history s) (ip_blocks s) (request_log s)
    (globe_events s)).
Proof.
  intros t sess H. cbn in H. unfold Sessions.mark_mfa_satisfied in H. apply lookup_alter_Some in H as [(<- & old & Ho & ->)|(_ & H)]; [by exists old|by exists sess].
Qed.
#[export] Hint Resolve invalidate_inherited mark_inherited : atomwall.

Create HintDb handlers.
#[export] Hint Unfold handle_auth_status handle_auth_logout handle_auth_2fa_status handle_auth_2fa_totp_setup
  handle_auth_2fa_totp_confirm handle_auth_2fa_totp_disable handle_auth_2fa_backup_codes_regenerate
  handle_webauthn_register_options handle_webauthn_register_verify handle_webauthn_delete
  handle_webauthn_login_options handle_webauthn_2fa_options handle_users_create handle_users_delete
  handle_auth_setup handle_auth_login handle_auth_2fa_totp_verify handle_auth_2fa_backup_code_verify
  handle_webauthn_login_verify handle_webauthn_2fa_verify mark_session_satisfied
  issue_session_response issue_mfa_challenge_response : handlers.


(** ** Pending logins stand for a checked password *)

Section pending.
Context `{Kdf : Pbkdf2} `{J : JsonText}.

(** The only handler that makes a login pending is the password step. *)
Definition pending_evidence (env : Env) (request : AdminRequest) (s : AdminState) (u : str) : Prop :=
  exists pw rec, body_credentials request = Some (u, pw) /\ Users.find u (users s) = Some rec /\
    verify_password pw (stored_hash rec) = Ok true /\ has_factor rec = true.

Definition pending_granted (env : Env) (request : AdminRequest) (s s' : AdminState) : Prop :=
  forall token e, pending_mfa s' !! token = Some e ->
    pending_mfa s !! token = Some e \/
    (random_token_hex (rnd_token env) = Ok token /\ pending_evidence env request s (Mfa.mfa_username e) /\
     Mfa.expires_at e = tp_add (t_create env) (kPendingMfaTtlMinutes * ns_per_min)).

Lemma pending_inherited_granted env request s s' : pending_inherited s s' -> pending_granted env request s s'.
Proof. intros H token e He. left. by apply H. Qed.

Lemma login_pending env request ip s :
  pending_granted env request s (handle_auth_login env (rq_body request) ip s).1.
Proof.
  unfold handle_auth_login. destruct (parse_json_object (rq_body request)) as [b|] eqn:Hb; [|by apply pending_inherited_granted].
  destruct (json_string_field b "username") as [u|] eqn:Hu; [|by apply pending_inherited_granted].
  destruct (json_string_field b "password") as [pw|] eqn:Hpw; [|by apply pending_inherited_granted]. mrun.
  destruct (Users.find u (users s)) as [rec|] eqn:Hf; [|by apply pending_inherited_granted]. mrun.
  destruct (verify_password pw (stored_hash rec)) as [[]|] eqn:Hv; [|by apply pending_inherited_granted..]. cbn [negb].
  destruct (has_factor rec) eqn:Hh.
  - unfold issue_mfa_challenge_response, on_pending_mfa, mbind, M_bind, Mfa.create.
    destruct (random_token_hex (rnd_token env)) as [t|e] eqn:Ht; [|apply pending_inherited_granted; by intros ? ?].
    cbn. intros token e. cbn [pending_mfa]. destruct (decide (t = token)) as [->|Hne].
    + rewrite lookup_insert_eq. intros [= <-]. right. split_and!; [done| |done]. exists pw, rec. split_and!; try done.
      unfold body_credentials. by rewrite Hb, Hu, Hpw.
    + rewrite lookup_insert_ne by done. intros H%map_lookup_filter_Some. left. apply H.
  - apply pending_inherited_granted. unfold issue_session_response, on_sessions, mbind, M_bind.
    destruct (Sessions.create _ _ _ _ _ _) as [t [a|e]]; by intros ? ?.
Qed.

Lemma invalidate_pending token s :
  pending_inherited s (mkState (config_store s) (users s) (sessions s) (Mfa.invalidate token (pending_mfa s))
    (pending_totp s) (webauthn_challenges s) (login_history s) (ip_blocks s) (request_log s) (globe_events s)).
Proof. intros t e H. cbn in H. unfold Mfa.invalidate in H. by apply lookup_delete_Some in H as [_ H]. Qed.
End pending.
#[export] Hint Resolve invalidate_pending : atomwall.

(** ** Second factors are not lost *)

Definition protected (u : str) (us : UserStore) : Prop :=
  exists rec, Users.find u us = Some rec /\ has_factor rec = true.

Definition protects (u : str) (us us' : UserStore) : Prop := protected u us -> protected u us'.
#[export] Instance protects_preorder u : PreOrder (protects u).
Proof. split; [by intros us H|]. intros a b c H1 H2 Ha. by apply H2, H1. Qed.

Lemma find_user_cons u r l :
  find_user u (r :: l) = if decide (username r = u) then Some 0%nat else S <$> find_user u l.
Proof.
  unfold find_user. cbn [list_find]. destruct (decide (username r = u)); [done|].
  by destruct (list_find _ l) as [[i x]|].
Qed.

Lemma find_user_alter u f i l : (forall r, username (f r) = username r) -> find_user u (alter f i l) = find_user u l.
Proof.
  intros Hf. revert i. induction l as [|r l IH]; intros i; [done|]. destruct i as [|i].
  - change (alter f 0%nat (r :: l)) with (f r :: l). rewrite !find_user_cons. by rewrite Hf.
  - change (alter f (S i) (r :: l)) with (r :: alter f i l). rewrite !find_user_cons. by rewrite IH.
Qed.

Lemma find_user_app u l x i : find_user u l = Some i -> find_user u (l ++ [x]) = Some i.
Proof.
  revert i. induction l as [|r l IH]; intros i; [done|]. cbn [app]. rewrite !find_user_cons. destruct (decide _); [done|].
  intros (j & Hj & ->)%fmap_Some. by rewrite (IH j Hj).
Qed.

Lemma protects_alter_at u us us' f i :
  (forall r, username (f r) = username r) ->
  (forall r, users_ us !! i = Some r -> has_factor r = true -> has_factor (f r) = true) ->
  users_ us' = alter f i (users_ us) -> protects u us us'.
Proof.
  intros Hn Hf He (rec & Hr & Hh). unfold protected, Users.find in *. rewrite He, find_user_alter by done.
  destruct (find_user u (users_ us)) as [j|]; [|discriminate Hr]. destruct (decide (i = j)) as [->|Hne].
  - rewrite list_lookup_alter_eq, Hr. exists (f rec). auto.
  - rewrite list_lookup_alter_ne by done. by exists rec.
Qed.

Lemma protects_alter u us us' f i :
  (forall r, username (f r) = username r) -> (forall r, has_factor r = true -> has_factor (f r) = true) ->
  users_ us' = alter f i (users_ us) -> protects u us us'.
Proof. intros Hn Hf. apply protects_alter_at; auto. Qed.

Lemma protects_app u us us' x : users_ us' = users_ us ++ [x] -> protects u us us'.
Proof.
  intros He (rec & Hr & Hh). unfold protected, Users.find in *. rewrite He.
  destruct (find_user u (users_ us)) as [j|] eqn:Hj; [|discriminate Hr]. rewrite (find_user_app _ _ _ _ Hj).
  exists rec. split; [|done]. rewrite lookup_app_l; [done|]. by eapply lookup_lt_Some.
Qed.

Lemma protects_same u us us' : users_ us' = users_ us -> protects u us us'.
Proof. intros He (rec & Hr & Hh). exists rec. unfold Users.find in *. by rewrite He. Qed.

Lemma save_users w us s : users_ (save_locked w (with_users us s)).1 = us.
Proof. by destruct w. Qed.
Lemma save_then_users {A} w us s (a : A) : users_ ((_ ← save_locked w; mret a) (with_users us s)).1 = us.
Proof. by destruct w. Qed.

Lemma factor_totp u secret : has_factor (set_user_totp (Some secret) u) = true.
Proof. done. Qed.
Lemma factor_credentials u cs : cs <> [] -> has_factor (set_user_credentials cs u) = true.
Proof. intros H. unfold has_factor. cbn. rewrite (bool_decide_eq_false_2 (cs = [])) by done. apply orb_true_r. Qed.
Lemma factor_credentials_mono u (f : list WebAuthnCredential -> list WebAuthnCredential) :
  (webauthn_credentials u <> [] -> f (webauthn_credentials u) <> []) ->
  has_factor u = true -> has_factor (set_user_credentials (f (webauthn_credentials u)) u) = true.
Proof.
  intros Hf. unfold has_factor. cbn. intros [H|H%negb_true_iff%bool_decide_eq_false]%orb_true_iff; [by rewrite H|].
  rewrite (bool_decide_eq_false_2 (f _ = [])) by auto. apply orb_true_r.
Qed.
Lemma alter_nonempty {A} (f : A -> A) i (l : list A) : l <> [] -> alter f i l <> [].
Proof. by destruct l, i. Qed.

Section protecting.
Context `{Kdf : Pbkdf2}.

Ltac protects_op := repeat case_match; cbn [fst]; try reflexivity.

Lemma create_protects u salt now w name pw : keeps (protects u) (Users.create salt now w name pw).
Proof.
  intros us. unfold Users.create. rewrite bind_lift. destruct (validate_new_credentials name pw); [|reflexivity].
  unfold add_user_locked. protects_op. eapply protects_app. by rewrite save_users.
Qed.

Lemma create_if_empty_protects u salt now w name pw : keeps (protects u) (create_if_empty salt now w name pw).
Proof.
  intros us. unfold create_if_empty. rewrite bind_lift. destruct (validate_new_credentials name pw); [|reflexivity].
  rewrite bind_get. destruct (negb _); [reflexivity|]. unfold add_user_locked, mbind, M_bind.
  destruct (existsb _ _); [reflexivity|]. destruct (hash_password salt pw); [|reflexivity].
  eapply protects_app. by destruct w.
Qed.

Lemma set_totp_protects u salts w name secret codes : keeps (protects u) (set_totp salts w name secret codes).
Proof.
  intros us. unfold set_totp. destruct (find_user name (users_ us)) as [i|]; [|reflexivity].
  transitivity (with_users (alter (set_user_totp (Some secret)) i (users_ us)) us).
  { by eapply (protects_alter _ _ _ (set_user_totp (Some secret)) i). }
  destruct (hash_backup_codes salts codes); [|reflexivity].
  eapply protects_alter; [| |by rewrite save_users]; done.
Qed.

Lemma codes_protects u us us' codes i :
  users_ us' = alter (set_user_codes codes) i (users_ us) -> protects u us us'.
Proof. by apply (protects_alter _ _ _ (set_user_codes codes)). Qed.

Lemma regenerate_protects u rnd salts w name : keeps (protects u) (regenerate_backup_codes rnd salts w name).
Proof. intros us. unfold regenerate_backup_codes. protects_op. eapply codes_protects. by rewrite save_then_users. Qed.

Lemma consume_code_protects u w name cand : keeps (protects u) (consume_user_backup_code w name cand).
Proof.
  intros us. unfold consume_user_backup_code. destruct (find_user name (users_ us)) as [i|]; [|reflexivity].
  destruct (users_ us !! i) as [r|]; [|reflexivity]. destruct (consume_backup_code cand (backup_codes r)) as [codes [[]|]];
    eapply codes_protects; cbn [fst]; rewrite ?save_then_users; reflexivity.
Qed.

Lemma consume_step_protects u name step : keeps (protects u) (consume_totp_step name step).
Proof. intros us. unfold consume_totp_step. repeat case_match; by apply protects_same. Qed.

Lemma handle_protects u rnd w name : keeps (protects u) (webauthn_user_handle rnd w name).
Proof. intros us. unfold webauthn_user_handle. protects_op. eapply protects_alter; [| |by rewrite save_then_users]; done. Qed.

Lemma add_credential_protects u w name c : keeps (protects u) (add_webauthn_credential w name c).
Proof.
  intros us. unfold add_webauthn_credential. protects_op. eapply protects_alter; [| |by rewrite save_users]; [done|].
  intros r Hr. apply factor_credentials. by destruct (webauthn_credentials r).
Qed.

Lemma sign_count_protects u w name id n : keeps (protects u) (update_webauthn_sign_count w name id n).
Proof.
  intros us. unfold update_webauthn_sign_count. destruct (locate name id us) as [[i j]|]; [|reflexivity].
  eapply protects_alter; [| |by rewrite save_users]; [done|]. intros r Hr.
  apply (factor_credentials_mono r (alter (set_sign_count n) j)); [|done]. apply alter_nonempty.
Qed.
End protecting.
#[export] Hint Resolve create_protects create_if_empty_protects set_totp_protects regenerate_protects
  consume_code_protects consume_step_protects handle_protects add_credential_protects sign_count_protects : atomwall.
