(* ===== verification/AdminConfig.v ===== *)
(** * AdminConfig: the handlers that edit the configuration

    Models the handlers of [admin/admin_server.cpp] for bans, lists, sites,
    checks, pages, uploads and the globe. Each one reads its JSON body, runs a
    mutator on a copy of the configuration inside [config_store->update], and
    answers with the view of what is now published. *)
From S2P Require Import Prelude Text Net Config Checks Json Numeric EventLogs Sites.
From S2P Require Import BlacklistOps AdminBase JsonView AdminLogin.
From S2P Require IpBlocks RequestLog ConfigStore UrlFetch Files.
From Stdlib Require Import SpecFloat.

(** ** Mutators *)

Definition mutate (f : RuntimeConfig -> RuntimeConfig) : M RuntimeConfig unit := pure_op f.
Definition mutate_or_throw (f : RuntimeConfig -> outcome RuntimeConfig) : M RuntimeConfig unit := fun c =>
  match f c with Ok c' => (c', Ok tt) | Throw e => (c, Throw e) end.

(** [if (auto v = field) config.x = *v;] *)
Definition assign {A} (field : option A) (set : A -> RuntimeConfig -> RuntimeConfig) : M RuntimeConfig unit :=
  match field with Some v => mutate (set v) | None => mret tt end.

(** The same after [if (bad) throw std::invalid_argument(msg);]. *)
Definition assign_checked {A} (field : option A) (bad : A -> bool) (msg : str)
    (set : A -> RuntimeConfig -> RuntimeConfig) : M RuntimeConfig unit :=
  match field with
  | Some v => if bad v then throwM (InvalidArgument msg) else mutate (set v)
  | None => mret tt
  end.

Definition persist_failed : Response := error_response 500 "failed to persist config".

(** [try { update } catch (invalid_argument) { 400 } catch (exception) { 500 }] and, for the
    operations that do not validate, only the second handler. *)
Definition update_or_refuse {A} (m : M RuntimeConfig A) : M AdminState (A + Response) := fun s =>
  match on_config m s with
  | (s', Ok a) => (s', Ok (inl a))
  | (s', Throw (InvalidArgument e)) => (s', Ok (inr (error_response 400 e)))
  | (s', Throw _) => (s', Ok (inr persist_failed))
  end.
Definition update_or_500 {A} (m : M RuntimeConfig A) : M AdminState (A + Response) := fun s =>
  match on_config m s with
  | (s', Ok a) => (s', Ok (inl a))
  | (s', Throw _) => (s', Ok (inr persist_failed))
  end.
(** [try { update } catch (invalid_argument) { st }]; anything else escapes. *)
Definition update_or {A} (st : Z) (m : M RuntimeConfig A) : M AdminState (A + Response) := fun s =>
  match on_config m s with
  | (s', Ok a) => (s', Ok (inl a))
  | (s', Throw (InvalidArgument e)) => (s', Ok (inr (error_response st e)))
  | (s', Throw e) => (s', Throw e)
  end.

(** The answer after an update: the refusal, or a view of the new state. *)
Definition answer {A} (m : M AdminState (A + Response)) (view : A -> AdminState -> json) : M AdminState Response :=
  r ← m;
  match r with
  | inr refused => mret refused
  | inl a => s ← getM; mret (json_response 200 (view a s))
  end.

(** [{"name": "..."}] in an error message. *)
Definition expects (name : str) : Response :=
  error_response 400 (lit "expected JSON body {" ++ [dq] ++ name ++ [dq] ++ lit ": " ++ [dq] ++ lit "..." ++ [dq] ++ lit "}").
Definition expected_body : Response := error_response 400 "expected JSON body".

Section config_handlers.
Context `{Asio : AsioIp} `{J : JsonText}.

Definition body_string (body key : str) : option str :=
  match parse_json_object body with Some b => json_string_field b key | None => None end.

(** ** Security and bans *)

Definition handle_security_config_update (body : str) : M AdminState Response :=
  match parse_json_object body with
  | None => mret expected_body
  | Some b =>
      _ ← on_config (assign (json_bool_field b "require_2fa") (fun v c => set_security (mkSecurity v) c));
      s ← getM;
      mret (json_response 200 (security_config_to_json (security (config_of s))))
  end.

Definition build_temporary_block (now : time_point) (text src : str) (hours : Z) : outcome IpBlocks.TemporaryIpBlock :=
  let expires := tp_add now (hours * ns_per_hour) in
  if bool_decide (is_Some (find_char "/" text)) then
    match parse_cidr now text with
    | None => Throw (InvalidArgument (lit "not a valid CIDR range: " ++ text))
    | Some range => Ok (IpBlocks.mkBlock text true (cidr_prefix range) (cidr_prefix_len range) src 0 now expires)
    end
  else match make_address text with
       | None => Throw (InvalidArgument (lit "not a valid IP address: " ++ text))
       | Some addr => Ok (IpBlocks.mkBlock text false addr 0 src 0 now expires)
       end.

(** The unified list of permanent and temporary blocks; listing prunes. *)
Definition answer_ip_blocks (env : Env) : M AdminState Response :=
  s ← getM;
  active ← on_ip_blocks (IpBlocks.list_active (t_record env));
  mret (json_response 200 (ip_blocks_to_json (blacklist (config_of s)) active)).

Definition handle_ip_block_mutation (env : Env) (is_delete : bool) (body : str) : M AdminState Response :=
  match parse_json_object body with
  | None => mret (expects "value")
  | Some b =>
      match json_string_field b "value" with
      | None => mret (expects "value")
      | Some value =>
          if is_delete then
            removed ← on_ip_blocks (IpBlocks.remove value);
            (if negb removed then
               _ ← update_or_500 (remove_blacklist_entry Ips value);
               answer_ip_blocks env
             else answer_ip_blocks env)
          else
            let duration_hours := default 0 (json_int_field b "duration_hours") in
            if duration_hours >? kMaxBanDurationHours then
              mret (error_response 400 (lit "duration_hours must be at most " ++ to_dec kMaxBanDurationHours ++
                lit " — use a permanent block (omit duration_hours) instead"))
            else if duration_hours >? 0 then
              match build_temporary_block (t_data env) value "manual" duration_hours with
              | Throw (InvalidArgument e) => mret (error_response 400 e)
              | Throw _ => mret persist_failed
              | Ok block =>
                  _ ← on_ip_blocks (fun t => (IpBlocks.add (t_create env) block t, tt));
                  answer_ip_blocks env
              end
            else
              r ← update_or_refuse (add_blacklist_entry (t_data env) Ips value [] "manual");
              match r with
              | inr refused => mret refused
              | inl _ => answer_ip_blocks env
              end
      end
  end.

(** ** Blacklist categories *)

Definition handle_blacklist_mutation (env : Env) (is_post : bool) (category_name body acting_user : str)
    : M AdminState Response :=
  match parse_blacklist_category category_name with
  | None => mret (error_response 404 "unknown blacklist category")
  | Some Ips => handle_ip_block_mutation env (negb is_post) body
  | Some category =>
      match body_string body "value" with
      | None => mret (expects "value")
      | Some value =>
          answer (update_or_refuse (if is_post then add_blacklist_entry (t_data env) category value acting_user "manual"
                                    else remove_blacklist_entry category value))
            (fun _ s => blacklist_category_to_json (blacklist (config_of s)) category)
      end
  end.

Definition category_view (category : BlacklistCategory) (s : AdminState) : json :=
  match category with
  | Ips => ip_blacklist_to_json (blacklist (config_of s))
  | _ => blacklist_category_to_json (blacklist (config_of s)) category
  end.

Definition handle_blacklist_clear (category_name : str) : M AdminState Response :=
  match parse_blacklist_category category_name with
  | None => mret (error_response 404 "unknown blacklist category")
  | Some category => answer (update_or_500 (clear_blacklist_category category)) (fun _ => category_view category)
  end.

Definition import_view (view : AdminState -> json) (result : ImportResult) (s : AdminState) : json :=
  JObj [(lit "added", JInt (added result)); (lit "skipped", JInt (skipped result)); (lit "entries", view s)].

Definition apply_blacklist_import (env : Env) (category : BlacklistCategory) (body acting_user : str)
    : M AdminState Response :=
  answer (update_or_500 (import_blacklist_entries (t_list env) category body acting_user))
    (import_view (category_view category)).

Definition handle_blacklist_import (env : Env) (category_name body acting_user : str) : M AdminState Response :=
  match parse_blacklist_category category_name with
  | None => mret (error_response 404 "unknown blacklist category")
  | Some category => apply_blacklist_import env category body acting_user
  end.

(** The imports from a URL share their front: the body names it, the fetch
    must succeed. *)
Definition import_from_url (env : Env) (body : str) (import : str -> M AdminState Response) : M AdminState Response :=
  match body_string body "url" with
  | None => mret (expects "url")
  | Some url =>
      let fetched := (UrlFetch.fetch_url (network env) url kImportUrlMaxBytes).1 in
      if negb (UrlFetch.ok fetched) then mret (error_response 502 (UrlFetch.error fetched))
      else import (UrlFetch.body fetched)
  end.

Definition handle_blacklist_import_url (env : Env) (category_name body acting_user : str) : M AdminState Response :=
  match parse_blacklist_category category_name with
  | None => mret (error_response 404 "unknown blacklist category")
  | Some category => import_from_url env body (fun text => apply_blacklist_import env category text acting_user)
  end.

(** ** Whitelist *)

Definition whitelist_view (s : AdminState) : json := whitelist_to_json (whitelist (config_of s)).
Definition whitelist_routes_view (s : AdminState) : json := whitelist_routes_to_json (whitelist (config_of s)).

Definition handle_whitelist_mutation (env : Env) (is_post : bool) (body acting_user : str) : M AdminState Response :=
  match body_string body "value" with
  | None => mret (expects "value")
  | Some value =>
      answer (update_or_refuse (if is_post then add_whitelist_entry (t_data env) value acting_user "manual"
                                else mutate (remove_whitelist_entry value))) (fun _ => whitelist_view)
  end.

Definition handle_whitelist_clear : M AdminState Response :=
  answer (update_or_500 (mutate clear_whitelist)) (fun _ => whitelist_view).

Definition handle_whitelist_import (env : Env) (body acting_user : str) : M AdminState Response :=
  answer (update_or_500 (import_whitelist_entries (t_list env) body acting_user)) (import_view whitelist_view).

Definition handle_whitelist_import_url (env : Env) (body acting_user : str) : M AdminState Response :=
  import_from_url env body (fun text => handle_whitelist_import env text acting_user).

Definition handle_whitelist_routes_mutation (env : Env) (is_post : bool) (body acting_user : str)
    : M AdminState Response :=
  match body_string body "value" with
  | None => mret (expects "value")
  | Some value =>
      answer (update_or_refuse (if is_post then add_whitelist_route_entry (t_data env) value acting_user "manual"
                                else mutate (remove_whitelist_route_entry value))) (fun _ => whitelist_routes_view)
  end.

Definition handle_whitelist_routes_clear : M AdminState Response :=
  answer (update_or_500 (mutate clear_whitelist_routes)) (fun _ => whitelist_routes_view).

Definition handle_whitelist_routes_import (env : Env) (body acting_user : str) : M AdminState Response :=
  answer (update_or_500 (import_whitelist_route_entries (t_list env) body acting_user)) (import_view whitelist_routes_view).

Definition handle_whitelist_routes_import_url (env : Env) (body acting_user : str) : M AdminState Response :=
  import_from_url env body (fun text => handle_whitelist_routes_import env text acting_user).

(** ** Sites *)

Definition sites_view (s : AdminState) : json := sites_to_json (config_of s).
Definition bad_port (port : Z) : bool := (port <=? 0) || (port >? 65535).

Definition sites_expected : Response :=
  error_response 400 (lit "expected JSON body {" ++ [dq] ++ lit "domain" ++ [dq] ++ lit ", " ++ [dq] ++ lit "upstream_host" ++
    [dq] ++ lit ", " ++ [dq] ++ lit "upstream_port" ++ [dq] ++ lit ", ...}").

Definition handle_sites_create (body : str) : M AdminState Response :=
  match parse_json_object body with
  | None => mret sites_expected
  | Some b =>
      match json_string_field b "domain", json_string_field b "upstream_host", json_int_field b "upstream_port" with
      | Some d, Some host, Some port =>
          if bad_port port then mret (error_response 400 "upstream_port must be between 1 and 65535")
          else
            let site := mkSite d (default (site_enabled default_site) (json_bool_field b "enabled"))
                          (default [] (json_string_field b "cert_file")) (default [] (json_string_field b "key_file"))
                          (mkUpstream host (wrap16 port)) in
            answer (update_or 400 (mutate_or_throw (fun c => add_site c site))) (fun _ => sites_view)
      | _, _, _ => mret sites_expected
      end
  end.

Definition handle_sites_update (d body : str) : M AdminState Response :=
  match parse_json_object body with
  | None => mret expected_body
  | Some b =>
      let port := json_int_field b "upstream_port" in
      if default false (bad_port <$> port) then mret (error_response 400 "upstream_port must be between 1 and 65535")
      else
        let u := mkSiteUpdate (json_bool_field b "enabled") (json_string_field b "cert_file")
                   (json_string_field b "key_file") (json_string_field b "upstream_host") (wrap16 <$> port) in
        answer (update_or 404 (mutate_or_throw (fun c => update_site c d u))) (fun _ => sites_view)
  end.

Definition handle_sites_delete (d : str) : M AdminState Response :=
  answer (update_or 404 (mutate_or_throw (fun c => remove_site c d))) (fun _ => sites_view).

(** ** Checks and bans *)

Definition ban_mutator (b : list (str * json)) : M RuntimeConfig unit :=
  let on_ban {A} (set : A -> BanConfig -> BanConfig) v c := set_ban (set v (ban c)) c in
  _ ← assign (json_bool_field b "enabled") (on_ban set_ban_enabled);
  _ ← assign_checked (json_int_field b "threshold") (fun v => v <=? 0) "threshold must be positive" (on_ban set_threshold);
  _ ← assign_checked (json_int_field b "ban_duration_hours") (fun v => (v <=? 0) || (v >? kMaxBanDurationHours))
        (lit "ban_duration_hours must be between 1 and " ++ to_dec kMaxBanDurationHours) (on_ban set_ban_duration_hours);
  assign (json_object_field b "scores") (fun members c =>
    foldl (fun c '(name, points) =>
             match number_of points with
             | Some d => set_ban (set_scores (<[name := saturating_to_int d]> (scores (ban c))) (ban c)) c
             | None => c
             end) c members).

Definition handle_ban_config_update (body : str) : M AdminState Response :=
  match parse_json_object body with
  | None => mret expected_body
  | Some b => answer (update_or 400 (ban_mutator b)) (fun _ s => ban_config_to_json (ban (config_of s)))
  end.

Definition speed_mutator (b : list (str * json)) : M RuntimeConfig unit :=
  let on_speed {A} (set : A -> SpeedCheckConfig -> SpeedCheckConfig) v c := set_speed_check (set v (speed_check c)) c in
  _ ← assign (json_bool_field b "enabled") (on_speed set_sc_enabled);
  _ ← assign_checked (json_int_field b "max_requests") (fun v => v <=? 0) "max_requests must be positive"
        (on_speed set_max_requests);
  assign_checked (json_int_field b "window_seconds") (fun v => v <=? 0) "window_seconds must be positive"
    (on_speed set_window_seconds).

Definition handle_speed_check_update (body : str) : M AdminState Response :=
  match parse_json_object body with
  | None => mret expected_body
  | Some b => answer (update_or 400 (speed_mutator b)) (fun _ s => speed_check_to_json (speed_check (config_of s)))
  end.

(** The array's strings, refused when empty while the check is on. *)
Definition set_methods (items : list json) : M RuntimeConfig unit := fun c =>
  let methods := omap (fun item => if item is JStr m then Some m else None) items in
  if mc_enabled (method_check c) && (methods == []) then
    (c, Throw (InvalidArgument (lit "allowed_methods can't be empty while method_check is enabled — that " ++
                                lit "would block every request")))
  else (set_method_check (set_allowed_methods methods (method_check c)) c, Ok tt).

Definition method_mutator (b : list (str * json)) : M RuntimeConfig unit :=
  _ ← assign (json_bool_field b "enabled") (fun v c => set_method_check (set_mc_enabled v (method_check c)) c);
  match jfind b "allowed_methods" with
  | Some (JArr items) => set_methods items
  | _ => mret tt
  end.

Definition handle_method_check_update (body : str) : M AdminState Response :=
  match parse_json_object body with
  | None => mret expected_body
  | Some b => answer (update_or 400 (method_mutator b)) (fun _ s => method_check_to_json (method_check (config_of s)))
  end.

Definition expected_enabled : Response :=
  error_response 400 (lit "expected JSON body {" ++ [dq] ++ lit "enabled" ++ [dq] ++ lit ": bool}").

Definition handle_emergency_off_update (body : str) : M AdminState Response :=
  match parse_json_object body with
  | None => mret expected_enabled
  | Some b =>
      match json_bool_field b "enabled" with
      | None => mret expected_enabled
      | Some enabled =>
          _ ← on_config (mutate (set_emergency_off (mkEmergency enabled)));
          s ← getM;
          mret (json_response 200 (emergency_off_to_json (emergency_off (config_of s))))
      end
  end.

(** ** Pages *)

Definition pages_view (s : AdminState) : json := pages_to_json (pages (config_of s)).

Definition handle_pages_update (body : str) : M AdminState Response :=
  match parse_json_object body with
  | None => mret expected_body
  | Some b =>
      _ ← on_config (
        _ ← assign (json_string_field b "blocked_html") (fun v c => set_pages (set_blocked_html v (pages c)) c);
        assign (json_string_field b "banned_html") (fun v c => set_pages (set_banned_html v (pages c)) c));
      s ← getM;
      mret (json_response 200 (pages_view s))
  end.

Definition handle_status_page_add (env : Env) (body : str) : M AdminState Response :=
  let refused := error_response 400 (lit "expected JSON body {" ++ [dq] ++ lit "code" ++ [dq] ++ lit ": <int>, " ++ [dq] ++
                   lit "html" ++ [dq] ++ lit ": " ++ [dq] ++ lit "..." ++ [dq] ++ lit "}") in
  match parse_json_object body with
  | None => mret refused
  | Some b =>
      match json_int_field b "code", json_string_field b "html" with
      | Some code, Some html =>
          answer (update_or 400 (mutate_or_throw (fun c => add_status_page (t_data env) c code html))) (fun _ => pages_view)
      | _, _ => mret refused
      end
  end.

(** [std::from_chars] into an [int]; unread characters are ignored. *)
Definition numeric_code (code_text : str) : option Z := fst <$> from_chars_int code_text.

Definition not_numeric : Response := error_response 400 "status code must be numeric".

Definition handle_status_page_update (code_text body : str) : M AdminState Response :=
  match numeric_code code_text with
  | None => mret not_numeric
  | Some code =>
      match body_string body "html" with
      | None => mret (expects "html")
      | Some html => answer (update_or 404 (mutate_or_throw (fun c => update_status_page c code html))) (fun _ => pages_view)
      end
  end.

Definition handle_status_page_delete (code_text : str) : M AdminState Response :=
  match numeric_code code_text with
  | None => mret not_numeric
  | Some code => answer (update_or 404 (mutate_or_throw (fun c => remove_status_page c code))) (fun _ => pages_view)
  end.

(** ** Logs, robots.txt, limits *)

Definition handle_request_log_config_update (body : str) : M AdminState Response :=
  match parse_json_object body with
  | None => mret expected_body
  | Some b =>
      _ ← on_config (
        _ ← assign (json_bool_field b "enabled")
              (fun v c => set_request_log (mkRequestLogConfig v (csv_path (Config.request_log c))) c);
        assign (json_string_field b "csv_path")
          (fun v c => set_request_log (mkRequestLogConfig (rl_enabled (Config.request_log c)) v) c));
      s ← getM;
      mret (json_response 200 (request_log_config_to_json (Config.request_log (config_of s))))
  end.

Definition handle_robots_txt_config_update (body : str) : M AdminState Response :=
  match parse_json_object body with
  | None => mret expected_body
  | Some b =>
      _ ← match json_string_field b "custom_content" with
          | Some content => on_config (mutate (set_robots_txt (mkRobots content)))
          | None => mret tt
          end;
      s ← getM;
      mret (json_response 200 (robots_txt_config_to_json (robots_txt (config_of s))))
  end.

Definition handle_body_size_limit_update (body : str) : M AdminState Response :=
  match (match parse_json_object body with Some b => json_int_field b "max_bytes" | None => None end) with
  | Some max_bytes =>
      if max_bytes <? 0 then mret (error_response 400 (lit "expected JSON body {" ++ [dq] ++ lit "max_bytes" ++ [dq] ++ lit ": N}"))
      else
        _ ← on_config (mutate (fun c => set_blacklist (set_max_body_size_bytes max_bytes (blacklist c)) c));
        s ← getM;
        mret (json_response 200 (JObj [(lit "max_bytes", JInt (max_body_size_bytes (blacklist (config_of s))))]))
  | None => mret (error_response 400 (lit "expected JSON body {" ++ [dq] ++ lit "max_bytes" ++ [dq] ++ lit ": N}"))
  end.

(** ** GeoIP and globe *)

(** [a / b] on paths. *)
Definition path_join (a b : str) : str :=
  match a with
  | [] => b
  | _ => if default nul (last a) == "/"%char then a ++ b else a ++ lit "/" ++ b
  end.

Definition handle_mmdb_upload (env : Env) (body filename : str) (apply_path : RuntimeConfig -> str -> RuntimeConfig)
    : M AdminState Response :=
  match body with
  | [] => mret (error_response 400 "empty upload")
  | _ =>
      let dest_path := path_join (path_join (config_dir env) "geoip") filename in
      match upload_saved env with
      | OpenFailed => mret (error_response 500 "failed to open destination file for writing")
      | SaveFailed what => mret (error_response 500 (lit "failed to save upload: " ++ what))
      | Saved =>
          _ ← on_config (mutate (fun c => apply_path c dest_path));
          mret (json_response 200 (JObj [(lit "mmdb_path", JStr dest_path); (lit "bytes", JInt (Z.of_nat (length body)))]))
      end
  end.

Definition handle_geoip_upload (env : Env) (body : str) : M AdminState Response :=
  handle_mmdb_upload env body "GeoLite2-City.mmdb"
    (fun c path => set_geoip (mkGeoIp path (asn_mmdb_path (Config.geoip c))) c).
Definition handle_asn_upload (env : Env) (body : str) : M AdminState Response :=
  handle_mmdb_upload env body "GeoLite2-ASN.mmdb"
    (fun c path => set_geoip (mkGeoIp (mmdb_path (Config.geoip c)) path) c).

Definition handle_geoip_config_update (env : Env) (body : str) : M AdminState Response :=
  match parse_json_object body with
  | None => mret expected_body
  | Some b =>
      let path := json_string_field b "mmdb_path" in
      let asn_path := json_string_field b "asn_mmdb_path" in
      match path, asn_path with
      | None, None => mret (error_response 400 (lit "expected JSON body with " ++ [dq] ++ lit "mmdb_path" ++ [dq] ++
                              lit " and/or " ++ [dq] ++ lit "asn_mmdb_path" ++ [dq]))
      | _, _ =>
          _ ← on_config (
            _ ← assign path (fun v c => set_geoip (mkGeoIp v (asn_mmdb_path (Config.geoip c))) c);
            assign asn_path (fun v c => set_geoip (mkGeoIp (mmdb_path (Config.geoip c)) v) c));
          s ← getM;
          mret (json_response 200 (geoip_config_to_json (Config.geoip (config_of s)) (geoip_loaded env) (asn_loaded env)))
      end
  end.

(** A coordinate: null clears it, a number must lie between the bounds. *)
Definition assign_coordinate (v : option json) (bound : Z) (msg : str)
    (set : option spec_float -> RuntimeConfig -> RuntimeConfig) : M RuntimeConfig unit :=
  match v with
  | Some JNull => mutate (set None)
  | Some value =>
      match number_of value with
      | Some d => if SFltb d (double_of_Z (- bound)) || SFltb (double_of_Z bound) d
                  then throwM (InvalidArgument msg) else mutate (set (Some d))
      | None => mret tt
      end
  | None => mret tt
  end.

Definition globe_mutator (b : list (str * json)) : M RuntimeConfig unit :=
  let on_globe {A} (set : A -> GlobeConfig -> GlobeConfig) v c := set_globe (set v (globe c)) c in
  _ ← assign (json_bool_field b "public_enabled") (on_globe set_public_enabled);
  _ ← assign (json_string_field b "public_bind") (on_globe set_public_bind_host);
  _ ← assign_checked (json_int_field b "public_port") bad_port "public_port must be between 1 and 65535"
        (fun v => on_globe set_public_port (wrap16 v));
  _ ← assign (json_string_field b "public_tls_cert_file") (on_globe set_public_tls_cert_file);
  _ ← assign (json_string_field b "public_tls_key_file") (on_globe set_public_tls_key_file);
  _ ← assign_coordinate (jfind b "server_lat") 90 "server_lat must be between -90 and 90" (on_globe set_server_lat);
  _ ← assign_coordinate (jfind b "server_lon") 180 "server_lon must be between -180 and 180" (on_globe set_server_lon);
  _ ← assign (json_bool_field b "auto_detect_server_location") (on_globe set_auto_detect_server_location);
  assign_checked (json_int_field b "history_size") (fun v => v <=? 0) "history_size must be positive"
    (on_globe set_history_size).

Definition handle_globe_config_update (body : str) : M AdminState Response :=
  match parse_json_object body with
  | None => mret expected_body
  | Some b => answer (update_or 400 (globe_mutator b)) (fun _ s => globe_config_to_json (globe (config_of s)))
  end.

(** [recent(limit)] for a limit of 64 bits. *)
Definition recent_up_to {X} (limit : Z) (r : Ring X) : list X :=
  recent (Z.to_nat (Z.min limit (Z.of_nat (length (buffer_ r))))) r.

Definition handle_globe_snapshot (env : Env) (target : str) : M AdminState Response :=
  let limit := Files.HttpUtil.query_param_size_t target "limit" kDefaultHistoryLimit in
  s ← getM;
  mret (json_response 200 (JObj [
    (lit "events", globe_events_to_json (recent_up_to limit (globe_events s)));
    (lit "server_location", server_location_to_json (server_location env));
    (lit "geoip_ready", JBool (geoip_loaded env))])).

Definition kVisitorWindow : Z := 5 * ns_per_min.

Definition handle_live_visitors (env : Env) : M AdminState Response :=
  s ← getM;
  let cutoff := swrap64 (t_data env - kVisitorWindow) in
  let unique_ips := foldl (fun ips event => if ev_timestamp event >=? cutoff then {[ev_client_ip event]} ∪ ips else ips)
                      (∅ : gset (list ascii)) (recent_up_to 2000 (RequestLog.ring (request_log s))) in
  mret (json_response 200 (JObj [(lit "count", JInt (Z.of_nat (size unique_ips)))])).
End config_handlers.

(** ** Walking through the configuration handlers *)

Section keeps_config.
Context (R : AdminState -> AdminState -> Prop).

Lemma keeps_update_or {A} st (m : M RuntimeConfig A) : keeps R (on_config m) -> keeps R (update_or st m).
Proof. intros H s. specialize (H s). unfold update_or. by destruct (on_config m s) as [s' [a|[]]]. Qed.
Lemma keeps_update_or_refuse {A} (m : M RuntimeConfig A) : keeps R (on_config m) -> keeps R (update_or_refuse m).
Proof. intros H s. specialize (H s). unfold update_or_refuse. by destruct (on_config m s) as [s' [a|[]]]. Qed.
Lemma keeps_update_or_500 {A} (m : M RuntimeConfig A) : keeps R (on_config m) -> keeps R (update_or_500 m).
Proof. intros H s. specialize (H s). unfold update_or_500. by destruct (on_config m s) as [s' [a|e]]. Qed.
End keeps_config.

#[export] Hint Unfold answer answer_ip_blocks import_from_url handle_security_config_update handle_ip_block_mutation
  handle_blacklist_mutation handle_blacklist_clear apply_blacklist_import handle_blacklist_import
  handle_blacklist_import_url handle_whitelist_mutation handle_whitelist_clear handle_whitelist_import
  handle_whitelist_import_url handle_whitelist_routes_mutation handle_whitelist_routes_clear
  handle_whitelist_routes_import handle_whitelist_routes_import_url handle_sites_create handle_sites_update
  handle_sites_delete handle_ban_config_update handle_speed_check_update handle_method_check_update
  handle_emergency_off_update handle_pages_update handle_status_page_add handle_status_page_update
  handle_status_page_delete handle_request_log_config_update handle_robots_txt_config_update
  handle_body_size_limit_update handle_mmdb_upload handle_geoip_upload handle_asn_upload
  handle_geoip_config_update handle_globe_config_update handle_globe_snapshot handle_live_visitors : handlers.

Ltac config_step :=
  lazymatch goal with
  | |- keeps _ (update_or _ _) => apply keeps_update_or
  | |- keeps _ (update_or_refuse _) => apply keeps_update_or_refuse
  | |- keeps _ (update_or_500 _) => apply keeps_update_or_500
  end.

(** A handler that only uses operations the relation allows. *)
Ltac keeps_handler := autounfold with handlers; repeat (keeps_step || config_step || frame_leaf); auto with atomwall.
