(* ===== verification/Admin.v ===== *)
(** * Admin: the session gate and the routes

    Models the rest of [admin/admin_server.cpp]: [route], the loop of
    [handle_connection] with its session gate, the start-up check of
    [run_admin_server], and theorems about whole requests. Reading a body and
    writing a response are inputs and outputs of an exchange. *)
From S2P Require Import Prelude Text Net Config Checks Json Totp Passwords Users EventLogs Cbor Webauthn.
From S2P Require Import BlacklistOps AdminBase JsonView AdminAuth AdminLogin AdminConfig.
From S2P Require IpBlocks RequestLog ConfigStore Files Sites.

(** [t.substr(prefix.size(), t.size() - prefix.size() - suffix.size())]: a
    count below zero wraps around and means the rest. *)
Definition between (prefix suffix t : str) : str :=
  let rest := drop (length prefix) t in
  let n := Z.of_nat (length t) - Z.of_nat (length prefix) - Z.of_nat (length suffix) in
  if n <? 0 then rest else take (Z.to_nat n) rest.

Section admin.
Context `{Asio : AsioIp} `{Kdf : Pbkdf2} `{Hmac : HmacSha1} `{Sha : Sha256} `{Lib : LibCbor} `{E : Evp} `{J : JsonText}.
Context `{Fs : Files.StaticFiles.FileSystem}.

Definition serve_static_file (env : Env) (static_dir target : str) : M AdminState Response :=
  resolved ← liftM (Files.StaticFiles.resolve_static_path (path_of env static_dir) target);
  match resolved with
  | None => mret (error_response 404 "not found")
  | Some file => mret (mkResponse 200 [
      (lit "Server", lit "atomwall-admin"); (lit "Content-Type", Files.StaticFiles.mime_type_for file);
      (lit "X-Content-Type-Options", lit "nosniff"); (lit "X-Frame-Options", lit "DENY");
      (lit "Referrer-Policy", lit "no-referrer")] (BFile (file_contents env file)))
  end.

(** [if (guard) return handler;], one after the other. *)
Fixpoint dispatch (rows : list (bool * M AdminState Response)) (otherwise : M AdminState Response)
    : M AdminState Response :=
  match rows with
  | [] => otherwise
  | (guard, handler) :: rows' => if guard then handler else dispatch rows' otherwise
  end.

Definition view (f : AdminState -> json) : M AdminState Response := s ← getM; mret (json_response 200 (f s)).

Definition suffix_of (prefix t : str) : str := drop (length prefix) t.

(** The guards: a method with an exact target, or with the prefix of one. *)
Definition on (h : request_header) (method : str) (path : string) : bool :=
  (method_string h == method) && (target h == lit path).
Definition under (h : request_header) (method prefix : str) : bool :=
  (method_string h == method) && starts_with (target h) prefix.

Definition auth_routes (env : Env) (request : AdminRequest) (acting_user client_ip : str)
    : list (bool * M AdminState Response) :=
  let h := rq_header request in
  let t := target h in
  let body := rq_body request in
  [ (on h "GET" "/api/auth/status", handle_auth_status env request);
    (on h "POST" "/api/auth/setup", handle_auth_setup env body client_ip);
    (on h "POST" "/api/auth/login", handle_auth_login env body client_ip);
    (on h "POST" "/api/auth/logout", handle_auth_logout env request);
    (on h "POST" "/api/auth/2fa/totp/verify", handle_auth_2fa_totp_verify env request client_ip);
    (on h "POST" "/api/auth/2fa/backup-code/verify", handle_auth_2fa_backup_code_verify env request client_ip);
    (on h "GET" "/api/auth/2fa/status", handle_auth_2fa_status acting_user);
    (on h "POST" "/api/auth/2fa/totp/setup", handle_auth_2fa_totp_setup env acting_user);
    (on h "POST" "/api/auth/2fa/totp/confirm", handle_auth_2fa_totp_confirm env request acting_user);
    (on h "POST" "/api/auth/2fa/totp/disable", handle_auth_2fa_totp_disable env acting_user body);
    (on h "POST" "/api/auth/2fa/backup-codes/regenerate", handle_auth_2fa_backup_codes_regenerate env acting_user body);
    (on h "GET" "/api/auth/webauthn/login/options", handle_webauthn_login_options env request);
    (on h "POST" "/api/auth/webauthn/login/verify", handle_webauthn_login_verify env request client_ip);
    (on h "GET" "/api/auth/webauthn/2fa/options", handle_webauthn_2fa_options env request);
    (on h "POST" "/api/auth/webauthn/2fa/verify", handle_webauthn_2fa_verify env request client_ip);
    (on h "POST" "/api/auth/2fa/webauthn/register/options", handle_webauthn_register_options env request acting_user);
    (on h "POST" "/api/auth/2fa/webauthn/register/verify", handle_webauthn_register_verify env request acting_user);
    (under h "DELETE" kApiWebauthnPrefix, handle_webauthn_delete env acting_user (suffix_of kApiWebauthnPrefix t));
    (on h "GET" "/api/security-config", view (fun s => security_config_to_json (security (config_of s))));
    (on h "PUT" "/api/security-config", handle_security_config_update body);
    (on h "GET" "/api/users", view (fun s => users_to_json (users_ (users s))));
    (on h "POST" "/api/users", handle_users_create env body);
    (under h "DELETE" kApiUsersPrefix, handle_users_delete env (suffix_of kApiUsersPrefix t));
    (on h "GET" "/api/login-history", view (fun s => login_events_to_json
       (recent_up_to (Files.HttpUtil.query_param_size_t t "limit" kDefaultHistoryLimit) (login_history s)))) ].

Definition config_routes (env : Env) (request : AdminRequest) : list (bool * M AdminState Response) :=
  let h := rq_header request in
  let t := target h in
  let body := rq_body request in
  [ (on h "GET" "/api/config", view (fun s => config_to_json (config_of s)));
    (on h "GET" "/api/blacklist", view (fun s => blacklist_to_json (blacklist (config_of s))));
    (on h "GET" "/api/sites", view (fun s => sites_to_json (config_of s)));
    (on h "POST" "/api/sites", handle_sites_create body);
    (under h "PUT" kApiSitesPrefix, handle_sites_update (suffix_of kApiSitesPrefix t) body);
    (under h "DELETE" kApiSitesPrefix, handle_sites_delete (suffix_of kApiSitesPrefix t));
    (on h "GET" "/api/ip-blocks", answer_ip_blocks env);
    ((method_string h == lit "GET") && starts_with t kApiRequests &&
       match drop (length kApiRequests) t with [] => true | c :: _ => c == "?"%char end,
     view (fun s => request_events_to_json
       (recent_up_to (Files.HttpUtil.query_param_size_t t "limit" kDefaultHistoryLimit) (RequestLog.ring (request_log s)))));
    (on h "GET" "/api/live-visitors", handle_live_visitors env);
    (on h "GET" "/api/ban-config", view (fun s => ban_config_to_json (ban (config_of s))));
    (on h "PUT" "/api/ban-config", handle_ban_config_update body);
    (on h "GET" "/api/speed-check", view (fun s => speed_check_to_json (speed_check (config_of s))));
    (on h "PUT" "/api/speed-check", handle_speed_check_update body);
    (on h "GET" "/api/method-check", view (fun s => method_check_to_json (method_check (config_of s))));
    (on h "PUT" "/api/method-check", handle_method_check_update body);
    (on h "GET" "/api/emergency-off", view (fun s => emergency_off_to_json (emergency_off (config_of s))));
    (on h "PUT" "/api/emergency-off", handle_emergency_off_update body);
    (on h "GET" "/api/pages", view pages_view);
    (on h "PUT" "/api/pages", handle_pages_update body);
    (on h "POST" "/api/pages/status", handle_status_page_add env body);
    (under h "PUT" kApiPagesStatusPrefix, handle_status_page_update (suffix_of kApiPagesStatusPrefix t) body);
    (under h "DELETE" kApiPagesStatusPrefix, handle_status_page_delete (suffix_of kApiPagesStatusPrefix t));
    (on h "GET" "/api/request-log-config", view (fun s => request_log_config_to_json (Config.request_log (config_of s))));
    (on h "PUT" "/api/request-log-config", handle_request_log_config_update body);
    (on h "GET" "/api/robots-txt", view (fun s => robots_txt_config_to_json (robots_txt (config_of s))));
    (on h "PUT" "/api/robots-txt", handle_robots_txt_config_update body);
    (on h "PUT" "/api/body-size-limit", handle_body_size_limit_update body);
    ((method_string h == lit "POST") && (t == kApiGeoipUpload), handle_geoip_upload env body);
    ((method_string h == lit "POST") && (t == kApiAsnUpload), handle_asn_upload env body);
    (on h "GET" "/api/geoip-config",
       view (fun s => geoip_config_to_json (Config.geoip (config_of s)) (geoip_loaded env) (asn_loaded env)));
    (on h "PUT" "/api/geoip-config", handle_geoip_config_update env body);
    (on h "GET" "/api/globe-config", view (fun s => globe_config_to_json (globe (config_of s))));
    (on h "PUT" "/api/globe-config", handle_globe_config_update body);
    (under h "GET" "/api/globe/snapshot", handle_globe_snapshot env t) ].

Definition list_routes (env : Env) (request : AdminRequest) (acting_user : str) : list (bool * M AdminState Response) :=
  let h := rq_header request in
  let t := target h in
  let body := rq_body request in
  let post_or_delete := (method_string h == lit "POST") || (method_string h == lit "DELETE") in
  [ (under h "POST" kApiBlacklistPrefix && ends_with t kImportSuffix,
       handle_blacklist_import env (between kApiBlacklistPrefix kImportSuffix t) body acting_user);
    (under h "DELETE" kApiBlacklistPrefix && ends_with t kClearSuffix,
       handle_blacklist_clear (between kApiBlacklistPrefix kClearSuffix t));
    (post_or_delete && starts_with t kApiBlacklistPrefix,
       handle_blacklist_mutation env (method_string h == lit "POST") (suffix_of kApiBlacklistPrefix t) body acting_user);
    ((method_string h == lit "POST") && (t == kApiWhitelistImport), handle_whitelist_import env body acting_user);
    ((method_string h == lit "DELETE") && (t == kApiWhitelistClear), handle_whitelist_clear);
    (post_or_delete && (t == kApiWhitelist),
       handle_whitelist_mutation env (method_string h == lit "POST") body acting_user);
    ((method_string h == lit "POST") && (t == kApiWhitelistRoutesImport),
       handle_whitelist_routes_import env body acting_user);
    ((method_string h == lit "DELETE") && (t == kApiWhitelistRoutesClear), handle_whitelist_routes_clear);
    (post_or_delete && (t == kApiWhitelistRoutes),
       handle_whitelist_routes_mutation env (method_string h == lit "POST") body acting_user);
    (method_string h == lit "GET", s ← getM; serve_static_file env (static_dir (admin (config_of s))) t) ].

Definition routes (env : Env) (request : AdminRequest) (acting_user client_ip : str)
    : list (bool * M AdminState Response) :=
  auth_routes env request acting_user client_ip ++ config_routes env request ++ list_routes env request acting_user.

Definition route (env : Env) (request : AdminRequest) (acting_user client_ip : str) : M AdminState Response :=
  dispatch (routes env request acting_user client_ip) (mret (error_response 405 "method not allowed")).

(** ** The connection *)

(** One request: its header and the reading of its body under the limit in
    force, with the request's keep-alive flag ([None]: the read failed). *)
Record AdminExchange := mkExchange { x_header : request_header; x_read : Z -> option (list ascii * bool) }.

Definition is_list_import (h : request_header) : bool :=
  (method_string h == lit "POST") && starts_with (target h) kApiBlacklistPrefix && ends_with (target h) kImportSuffix.

Definition body_limit (h : request_header) : Z :=
  if (method_string h == lit "POST") && ((target h == kApiGeoipUpload) || (target h == kApiAsnUpload))
  then kGeoipUploadMaxBytes
  else if is_list_import h then kImportUrlMaxBytes
  else kAdminMaxBodyBytes.

Inductive gate_result := Rejected (response : Response) | Passed (acting_user : str).

Definition needs_auth (t : str) : bool := starts_with t "/api/" && negb (is_public_api_route t).

Definition session_gate (env : Env) (h : request_header) (s : AdminState) : gate_result :=
  if needs_auth (target h) then
    match session_of (t_gate env) h s with
    | None => Rejected (error_response 401 "unauthorized")
    | Some session =>
        if Sessions.info_needs_mfa_setup session && negb (is_mfa_setup_allowed_route (target h))
        then Rejected (error_response 403 "mfa_setup_required")
        else Passed (Sessions.info_username session)
    end
  else Passed [].

Inductive Served :=
  | Answered (response : Response) (keep_alive : bool)
  | StreamRequests
  | StreamGlobe
  | ReadFailed.

(** The imports from a URL, which the loop dispatches itself. *)
Definition import_routes (env : Env) (request : AdminRequest) (acting_user : str) : list (bool * M AdminState Response) :=
  let h := rq_header request in
  let t := target h in
  let body := rq_body request in
  [ ((method_string h == lit "POST") && starts_with t kApiBlacklistPrefix && ends_with t kImportUrlSuffix,
       handle_blacklist_import_url env (between kApiBlacklistPrefix kImportUrlSuffix t) body acting_user);
    ((method_string h == lit "POST") && (t == kApiWhitelistImportUrl), handle_whitelist_import_url env body acting_user);
    ((method_string h == lit "POST") && (t == kApiWhitelistRoutesImportUrl),
       handle_whitelist_routes_import_url env body acting_user)].

Definition handle_request (env : Env) (request : AdminRequest) (acting_user client_ip : str) (keep_alive : bool)
    : M AdminState Served :=
  let h := rq_header request in
  let t := target h in
  if (method_string h == lit "GET") && (t == kApiRequestsStream) then mret StreamRequests
  else if (method_string h == lit "GET") && (t == kApiGlobeStream) then mret StreamGlobe
  else
    response ← dispatch (import_routes env request acting_user) (route env request acting_user client_ip);
    mret (Answered response keep_alive).

Definition handle_exchange (env : Env) (client_ip : str) (x : AdminExchange) : M AdminState Served :=
  s ← getM;
  match session_gate env (x_header x) s with
  | Rejected response => mret (Answered response false)
  | Passed acting_user =>
      match x_read x (body_limit (x_header x)) with
      | None => mret ReadFailed
      | Some (body, keep_alive) =>
          handle_request env (mkAdminRequest (x_header x) body) acting_user client_ip keep_alive
      end
  end.

(** The requests of a connection, in turn; an exception closes it. *)
Fixpoint handle_connection (client_ip : str) (xs : list (Env * AdminExchange)) (s : AdminState)
    : AdminState * list Served :=
  match xs with
  | [] => (s, [])
  | (env, x) :: xs' =>
      match handle_exchange env client_ip x s with
      | (s1, Ok (Answered r true)) => let '(s2, served) := handle_connection client_ip xs' s1 in
                                      (s2, Answered r true :: served)
      | (s1, Ok served) => (s1, [served])
      | (s1, Throw _) => (s1, [])
      end
  end.

(** ** Start-up *)

(** The checks of [run_admin_server]: whether it starts, and with TLS. *)
Definition admin_may_start (config : RuntimeConfig) : outcome bool :=
  let bind_host := admin_bind_host (admin config) in
  let use_tls := negb (tls_cert_file (admin config) == []) && negb (tls_key_file (admin config) == []) in
  match make_address bind_host with
  | None => Throw (RuntimeError (lit "admin.bind is not a valid address: '" ++ bind_host ++ lit "'"))
  | Some bind_address =>
      if negb (is_loopback bind_address) && negb use_tls then
        Throw (RuntimeError (lit "admin.bind ('" ++ bind_host ++ lit "') is non-loopback but no " ++
          lit "admin.tls_cert_file/tls_key_file are configured — refusing to start. Exposing the " ++
          lit "admin API beyond loopback requires TLS (so the session cookie can be marked " ++
          lit "Secure and the login can't be sniffed in plaintext)."))
      else Ok use_tls
  end.
End admin.

#[export] Hint Unfold view serve_static_file : handlers.

(** ** What holds of every route *)

Section routes.
Context `{Asio : AsioIp} `{Kdf : Pbkdf2} `{Hmac : HmacSha1} `{Sha : Sha256} `{Lib : LibCbor} `{E : Evp} `{J : JsonText}.
Context `{Fs : Files.StaticFiles.FileSystem}.

Lemma dispatch_rows (P : M AdminState Response -> Prop) rows otherwise :
  Forall (fun row => row.1 = true -> P row.2) rows -> P otherwise -> P (dispatch rows otherwise).
Proof. induction 1 as [|[[] m] rows Hr _ IH]; cbn [dispatch]; auto. Qed.

(** Everything under a prefix that no public route has needs a session. *)
Lemma starts_with_prefix t p : starts_with t p = true <-> p `prefix_of` t.
Proof.
  unfold starts_with. rewrite bool_decide_eq_true. split.
  - intros <-. apply prefix_take.
  - intros [k ->]. apply take_app_length.
Qed.

Lemma starts_with_trans t p q : starts_with t p = true -> starts_with p q = true -> starts_with t q = true.
Proof. rewrite !starts_with_prefix. intros H1 H2. by etransitivity. Qed.

Lemma under_needs_auth p t :
  starts_with p "/api/" = true -> forallb (fun r => negb (starts_with r p)) public_api_routes = true ->
  starts_with t p = true -> needs_auth t = true.
Proof.
  intros Hp Hf Ht. unfold needs_auth. rewrite (starts_with_trans _ _ _ Ht Hp). apply negb_true_iff.
  unfold is_public_api_route. apply not_true_is_false. intros (r & Hr & <-%bool_decide_eq_true)%existsb_exists.
  rewrite forallb_forall in Hf. specialize (Hf _ Hr). by rewrite Ht in Hf.
Qed.

(** What holds of the routes and of the imports holds of a whole request, and
    of an exchange that passes the gate. *)
Lemma handle_request_elim (P : AdminState -> Prop) env request user ip keep s :
  P s ->
  Forall (fun row => row.1 = true -> P (row.2 s).1) (import_routes env request user ++ routes env request user ip) ->
  P (handle_request env request user ip keep s).1.
Proof.
  intros Hs [Hi Hr]%Forall_app. unfold handle_request. cbv zeta. do 2 (destruct (_ && _); [done|]).
  match goal with |- P ((?m ≫= ?k) s).1 => enough (P (m s).1) as H end.
  { unfold mbind, M_bind. destruct (dispatch _ _ s) as [s' [a|e]]; done. }
  apply (dispatch_rows (fun m => P (m s).1)); [exact Hi|].
  unfold route. by apply (dispatch_rows (fun m => P (m s).1)).
Qed.

Lemma handle_exchange_elim (P : AdminState -> Prop) env ip x s :
  P s ->
  (forall user body keep, session_gate env (x_header x) s = Passed user ->
     x_read x (body_limit (x_header x)) = Some (body, keep) ->
     let request := mkAdminRequest (x_header x) body in
     Forall (fun row => row.1 = true -> P (row.2 s).1)
       (import_routes env request user ++ routes env request user ip)) ->
  P (handle_exchange env ip x s).1.
Proof.
  intros Hs Hrows. unfold handle_exchange. rewrite bind_get.
  destruct (session_gate env (x_header x) s) as [r|user] eqn:Hg; [done|].
  destruct (x_read x _) as [[body keep]|] eqn:Hx; [|done].
  apply handle_request_elim; [done|]. by apply Hrows with (keep := keep).
Qed.
End routes.

(** One goal for every row, its guard as [Hguard]. *)
Ltac each_row := unfold import_routes, routes, auth_routes, config_routes, list_routes, on, under; cbv zeta; cbn [app]; repeat (apply Forall_cons; split; [cbn [fst snd]; intros Hguard|]); [..|apply Forall_nil; exact I].

(** From the state after a handler to the handler. *)
Ltac by_keeps :=
  lazymatch goal with |- ?R ?s (?m ?s).1 => cut (keeps R m); [intros Hk; exact (Hk s)|] end; keeps_handler.
