(* ===== verification/AdminSteps.v ===== *)
(** * AdminSteps: the authentication handlers under interleaving

    The handlers of [AdminAuth] once more, as programs of atomic actions: each
    store locks for the length of one call, and a handler of
    [admin/admin_server.cpp] runs on one of several threads, so between two of
    its calls those of any other request may run. Run alone they are the
    handlers of [AdminAuth]. *)
From S2P Require Import Prelude Text Net Config Checks Json Numeric Codec Totp Passwords Users EventLogs Cbor Webauthn.
From S2P Require Import Interleave BlacklistOps AdminBase JsonView AdminAuth AdminLogin AdminConfig Admin.
From S2P Require IpBlocks RequestLog ConfigStore Files Sites.

Create HintDb steps.

Section steps.
Context `{Kdf : Pbkdf2} `{Hmac : HmacSha1} `{Sha : Sha256} `{Lib : LibCbor} `{E : Evp} `{J : JsonText}.

(** [try { ... } catch (const std::invalid_argument& e)] around several calls. *)
Definition catch_invalid_steps (st : Z) (p : prog AdminState Response) : prog AdminState Response :=
  o ← try_prog p;
  match o with
  | Throw (InvalidArgument e) => mret (error_response st e)
  | o => lift_prog o
  end.

(** ** Sessions *)

Definition handle_auth_status_steps (env : Env) (request : AdminRequest) : prog AdminState Response :=
  setup ← look (fun s => Users.empty (users s));
  session ← look (session_of (t_verify env) (rq_header request));
  mret (json_response 200 (JObj [
    (lit "setup_required", JBool setup);
    (lit "authenticated", JBool (bool_decide (is_Some session)));
    (lit "needs_mfa_setup", JBool (match session with
                                   | Some i => Sessions.info_needs_mfa_setup i
                                   | None => false
                                   end))])).

Definition issue_session_steps (env : Env) (username : str) (needs_mfa_setup : bool) (client_ip : str)
    : prog AdminState Response :=
  token ← act (on_sessions (Sessions.create (rnd_token env) (t_create env) kSessionTtlHours username needs_mfa_setup));
  _ ← act (on_login_history (EventLogs.record (mkLogin 0 (t_record env) username client_ip)));
  tls ← look admin_uses_tls;
  tls' ← look admin_uses_tls;
  mret (insert_field "Set-Cookie" (pending_mfa_clear_cookie_header tls')
       (insert_field "Set-Cookie" (session_set_cookie_header token tls)
       (json_response 200 (JObj [(lit "username", JStr username); (lit "needs_mfa_setup", JBool needs_mfa_setup)])))).

Definition issue_mfa_challenge_steps (env : Env) (username : str) (has_totp has_backup_codes has_webauthn : bool)
    : prog AdminState Response :=
  token ← act (on_pending_mfa (Mfa.create (rnd_token env) (t_create env) kPendingMfaTtlMinutes username));
  tls ← look admin_uses_tls;
  mret (set_field "Set-Cookie" (pending_mfa_set_cookie_header token tls)
       (json_response 200 (JObj [
          (lit "mfa_required", JBool true);
          (lit "methods", JArr ((if has_totp then [JStr "totp"] else []) ++
                                (if has_webauthn then [JStr "webauthn"] else [])));
          (lit "has_backup_codes", JBool has_backup_codes)]))).

Definition require_2fa_now : AdminState -> bool := fun s => require_2fa (security (config_of s)).

Definition handle_auth_setup_steps (env : Env) (body client_ip : str) : prog AdminState Response :=
  none ← look (fun s => Users.empty (users s));
  if negb none then mret (error_response 409 "setup already completed")
  else match parse_json_object body with
  | None => mret (error_response 400 "expected JSON body")
  | Some json_body =>
      match json_string_field json_body "username", json_string_field json_body "password" with
      | Some username, Some password =>
          created ← act (attempt (on_users (create_if_empty (rnd_salt env) (t_data env) (users_written env) username password)));
          match created with
          | inr e => mret (error_response 400 e)
          | inl false => mret (error_response 409 "setup already completed")
          | inl true =>
              needs ← look require_2fa_now;
              issue_session_steps env username needs client_ip
          end
      | _, _ => mret (error_response 400 "username and password are required")
      end
  end.

Definition handle_auth_login_steps (env : Env) (body client_ip : str) : prog AdminState Response :=
  match parse_json_object body with
  | None => mret (error_response 400 "expected JSON body")
  | Some json_body =>
      match json_string_field json_body "username", json_string_field json_body "password" with
      | Some username, Some password =>
          found ← look (fun s => Users.find username (users s));
          match found with
          | None => mret (error_response 401 "invalid username or password")
          | Some user =>
              verified ← lift_prog (verify_password password (stored_hash user));
              if negb verified then mret (error_response 401 "invalid username or password")
              else if has_factor user then
                issue_mfa_challenge_steps env username (bool_decide (is_Some (totp user)))
                  (unused_codes (backup_codes user) >? 0) (negb (webauthn_credentials user == []))
              else
                needs ← look require_2fa_now;
                issue_session_steps env username needs client_ip
          end
      | _, _ => mret (error_response 400 "username and password are required")
      end
  end.

Definition handle_auth_logout_steps (env : Env) (request : AdminRequest) : prog AdminState Response :=
  _ ← match extract_session_token (rq_header request) with
      | Some token => act (on_sessions (pure_op (Sessions.invalidate token)))
      | None => mret tt
      end;
  tls ← look admin_uses_tls;
  mret (set_field "Set-Cookie" (session_clear_cookie_header tls) (json_response 200 (JObj []))).

(** ** The second step of a login *)

(** [user && user->totp] *)
Definition totp_secret_of (username : str) (s : AdminState) : option (list ascii) := Users.find username (users s) ≫= totp.

Definition handle_auth_2fa_totp_verify_steps (env : Env) (request : AdminRequest) (client_ip : str)
    : prog AdminState Response :=
  pending ← look (pending_user env request);
  match pending with
  | None => mret no_pending_login
  | Some (pending_token, username) =>
      match body_code request with
      | None => mret expected_code
      | Some code =>
          secret ← look (totp_secret_of username);
          match secret with
          | None => mret (error_response 401 "invalid code")
          | Some secret =>
              matched ← lift_prog (verify_totp secret code (unix_seconds (t_verify env)));
              match matched with
              | None => mret (error_response 401 "invalid code")
              | Some matched_step =>
                  fresh ← act (on_users (consume_totp_step username matched_step));
                  if negb fresh then mret (error_response 401 "invalid code")
                  else
                    _ ← act (on_pending_mfa (pure_op (Mfa.invalidate pending_token)));
                    issue_session_steps env username false client_ip
              end
          end
      end
  end.

Definition handle_auth_2fa_backup_code_verify_steps (env : Env) (request : AdminRequest) (client_ip : str)
    : prog AdminState Response :=
  pending ← look (pending_user env request);
  match pending with
  | None => mret no_pending_login
  | Some (pending_token, username) =>
      match body_code request with
      | None => mret expected_code
      | Some code =>
          accepted ← act (on_users (consume_user_backup_code (users_written env) username code));
          if negb accepted then mret (error_response 401 "invalid or already-used backup code")
          else
            _ ← act (on_pending_mfa (pure_op (Mfa.invalidate pending_token)));
            issue_session_steps env username false client_ip
      end
  end.

(** ** Enrolling and dropping TOTP *)

Definition mark_session_satisfied_steps (request : AdminRequest) : prog AdminState unit :=
  match extract_session_token (rq_header request) with
  | Some token => act (on_sessions (pure_op (Sessions.mark_mfa_satisfied token)))
  | None => mret tt
  end.

Definition handle_auth_2fa_totp_confirm_steps (env : Env) (request : AdminRequest) (acting_user : str)
    : prog AdminState Response :=
  pending ← look (fun s => PendingTotp.secret_for (t_pending env) acting_user (pending_totp s));
  match pending with
  | None => mret (error_response 400 "no pending TOTP setup — call /api/auth/2fa/totp/setup first")
  | Some secret =>
      match body_code request with
      | None => mret expected_code
      | Some code =>
          matched ← lift_prog (verify_totp secret code (unix_seconds (t_verify env)));
          match matched with
          | None => mret (error_response 401 "invalid code")
          | Some matched_step =>
              backup_codes ← lift_prog (generate_backup_codes (rnd_codes env) 10);
              enrolled ← act (attempt (on_users (set_totp (rnd_salts env) (users_written env) acting_user secret backup_codes)));
              match enrolled with
              | inr e => mret (error_response 400 e)
              | inl _ =>
                  _ ← act (on_users (consume_totp_step acting_user matched_step));
                  _ ← act (on_pending_totp (PendingTotp.clear acting_user));
                  _ ← mark_session_satisfied_steps request;
                  mret (json_response 200 (codes_to_json backup_codes))
              end
          end
      end
  end.

Definition verify_current_password_steps (username password : str) : prog AdminState bool :=
  found ← look (fun s => Users.find username (users s));
  match found with
  | None => mret false
  | Some user => lift_prog (verify_password password (stored_hash user))
  end.

Definition handle_auth_2fa_totp_disable_steps (env : Env) (acting_user body : str) : prog AdminState Response :=
  match body_password body with
  | None => mret expected_password
  | Some password =>
      verified ← verify_current_password_steps acting_user password;
      if negb verified then mret (error_response 401 "incorrect password")
      else
        required ← look require_2fa_now;
        if (required : bool) then
          mret (error_response 400 "cannot disable your only second factor while security.require_2fa is enabled")
        else
          cleared ← act (attempt (on_users (clear_totp (users_written env) acting_user)));
          match cleared with
          | inr e => mret (error_response 400 e)
          | inl _ => mret (json_response 200 (JObj []))
          end
  end.

Definition handle_auth_2fa_backup_codes_regenerate_steps (env : Env) (acting_user body : str) : prog AdminState Response :=
  match body_password body with
  | None => mret expected_password
  | Some password =>
      verified ← verify_current_password_steps acting_user password;
      if negb verified then mret (error_response 401 "incorrect password")
      else catch_invalid_steps 400 (
        codes ← act (on_users (regenerate_backup_codes (rnd_codes env) (rnd_salts env) (users_written env) acting_user));
        mret (json_response 200 (codes_to_json codes)))
  end.

(** ** Passkeys *)

Definition start_challenge (env : Env) (key : str) (challenge : list Z) : M AdminState unit :=
  on_challenges (fun t => (Challenges.start (t_create env) kChallengeTtlMinutes key challenge t, tt)).

Definition handle_webauthn_register_options_steps (env : Env) (request : AdminRequest) (acting_user : str)
    : prog AdminState Response :=
  found ← look (fun s => Users.find acting_user (users s));
  match found with
  | None => mret (error_response 404 "user not found")
  | Some user =>
      challenge ← lift_prog (random_bytes (rnd_challenge env));
      _ ← act (start_challenge env (register_key acting_user) challenge);
      user_handle ← act (on_users (webauthn_user_handle (rnd_handle env) (users_written env) acting_user));
      mret (json_response 200 (JObj [
        (lit "challenge", JStr (base64url_encode challenge));
        (lit "rp", JObj [(lit "id", JStr (webauthn_rp_id request)); (lit "name", JStr "atomwall")]);
        (lit "user", JObj [(lit "id", JStr user_handle); (lit "name", JStr acting_user);
                           (lit "displayName", JStr acting_user)]);
        (lit "pubKeyCredParams", JArr [
           JObj [(lit "type", JStr "public-key"); (lit "alg", JInt (-7))];
           JObj [(lit "type", JStr "public-key"); (lit "alg", JInt (-257))]]);
        (lit "authenticatorSelection",
           JObj [(lit "residentKey", JStr "preferred"); (lit "userVerification", JStr "preferred")]);
        (lit "attestation", JStr "none");
        (lit "timeout", JInt 60000);
        (lit "excludeCredentials", JArr (map credential_ref (webauthn_credentials user)))]))
  end.

Definition handle_webauthn_register_verify_steps (env : Env) (request : AdminRequest) (acting_user : str)
    : prog AdminState Response :=
  match parse_json_object (rq_body request) with
  | None => mret (error_response 400 "expected JSON body")
  | Some json_body =>
      match parse_credential_fields json_body true with
      | None => mret (error_response 400 "malformed credential response")
      | Some fields =>
          let label := default (lit "Passkey") (json_string_field json_body "label") in
          pending ← act (on_challenges (Challenges.consume (t_challenge env) (register_key acting_user)));
          match pending with
          | None => mret (error_response 400 "no pending passkey registration — call the options endpoint first")
          | Some challenge =>
              tls ← look admin_uses_tls;
              catch_invalid_steps 400 (
                result ← lift_prog (verify_webauthn_registration challenge (text_of (cf_client_data_json fields))
                                      (cf_data fields) (webauthn_rp_id request) (webauthn_expected_origin request tls));
                let credential := mkCredential (credential_id_b64url result) label (reg_cose_public_key result)
                                    (reg_sign_count result) (t_data env) in
                _ ← act (on_users (add_webauthn_credential (users_written env) acting_user credential));
                _ ← mark_session_satisfied_steps request;
                mret (json_response 200 (JObj [(lit "id", JStr (id_b64url credential));
                                               (lit "label", JStr (cred_label credential))])))
          end
      end
  end.

Definition handle_webauthn_delete_steps (env : Env) (acting_user credential_id : str) : prog AdminState Response :=
  found ← look (fun s => Users.find acting_user (users s));
  match found with
  | None => mret (error_response 404 "user not found")
  | Some user =>
      let only_factor := negb (bool_decide (is_Some (totp user))) && (length (webauthn_credentials user) <=? 1)%nat in
      required ← (if only_factor then look require_2fa_now else mret false);
      if (required : bool) then
        mret (error_response 400 "cannot remove your only second factor while security.require_2fa is enabled")
      else
        removed ← act (on_users (remove_webauthn_credential (users_written env) acting_user credential_id));
        if negb removed then mret (error_response 404 "passkey not found")
        else mret (json_response 200 (JObj []))
  end.

Definition handle_webauthn_login_options_steps (env : Env) (request : AdminRequest) : prog AdminState Response :=
  challenge ← lift_prog (random_bytes (rnd_challenge env));
  match rnd_login_token env with
  | None => mret (error_response 500 "failed to generate token")
  | Some token_bytes =>
      let token := base64url_encode token_bytes in
      _ ← act (start_challenge env (login_key token) challenge);
      tls ← look admin_uses_tls;
      mret (set_field "Set-Cookie" (webauthn_login_set_cookie_header token tls)
           (json_response 200 (JObj [
              (lit "challenge", JStr (base64url_encode challenge));
              (lit "rpId", JStr (webauthn_rp_id request));
              (lit "timeout", JInt 60000);
              (lit "userVerification", JStr "preferred");
              (lit "allowCredentials", JArr [])])))
  end.

Definition handle_webauthn_login_verify_steps (env : Env) (request : AdminRequest) (client_ip : str)
    : prog AdminState Response :=
  pending ← match extract_webauthn_login_token request with
            | Some token => act (on_challenges (Challenges.consume (t_challenge env) (login_key token)))
            | None => mret None
            end;
  match pending with
  | None => mret (error_response 401 "no pending passkey login — reload and try again")
  | Some challenge =>
      match parse_json_object (rq_body request) with
      | None => mret (error_response 400 "expected JSON body")
      | Some json_body =>
          match parse_credential_fields json_body false with
          | None => mret (error_response 400 "malformed credential response")
          | Some fields =>
              found ← look (fun s => find_by_credential_id (cf_id_b64url fields) (users s));
              match found with
              | None => mret (error_response 401 "unrecognized passkey")
              | Some user =>
                  match credential_of (cf_id_b64url fields) user with
                  | None => Raise (LogicError "dereference of the end iterator")
                  | Some credential =>
                      result ← look (fun s => check_assertion request s challenge fields credential);
                      catch_invalid_steps 401 (
                        result ← lift_prog result;
                        _ ← act (on_users (update_webauthn_sign_count (users_written env) (username user)
                                            (cf_id_b64url fields) (new_sign_count result)));
                        res ← issue_session_steps env (username user) false client_ip;
                        tls ← look admin_uses_tls;
                        mret (insert_field "Set-Cookie" (webauthn_login_clear_cookie_header tls) res))
                  end
              end
          end
      end
  end.

Definition handle_webauthn_2fa_options_steps (env : Env) (request : AdminRequest) : prog AdminState Response :=
  pending ← look (pending_user env request);
  match pending with
  | None => mret no_pending_login
  | Some (_, username) =>
      found ← look (fun s => Users.find username (users s));
      match found with
      | None => mret no_pending_login
      | Some user =>
          challenge ← lift_prog (random_bytes (rnd_challenge env));
          _ ← act (start_challenge env (login2fa_key username) challenge);
          mret (json_response 200 (JObj [
            (lit "challenge", JStr (base64url_encode challenge));
            (lit "rpId", JStr (webauthn_rp_id request));
            (lit "timeout", JInt 60000);
            (lit "userVerification", JStr "preferred");
            (lit "allowCredentials", JArr (map credential_ref (webauthn_credentials user)))]))
      end
  end.

Definition handle_webauthn_2fa_verify_steps (env : Env) (request : AdminRequest) (client_ip : str)
    : prog AdminState Response :=
  pending ← look (pending_user env request);
  match pending with
  | None => mret no_pending_login
  | Some (pending_token, username) =>
      consumed ← act (on_challenges (Challenges.consume (t_challenge env) (login2fa_key username)));
      match consumed with
      | None => mret (error_response 400 "no pending passkey challenge — call the options endpoint first")
      | Some challenge =>
          match parse_json_object (rq_body request) with
          | None => mret (error_response 400 "expected JSON body")
          | Some json_body =>
              match parse_credential_fields json_body false with
              | None => mret (error_response 400 "malformed credential response")
              | Some fields =>
                  found ← look (fun s => Users.find username (users s));
                  match found with
                  | None => mret no_pending_login
                  | Some user =>
                      match credential_of (cf_id_b64url fields) user with
                      | None => mret (error_response 401 "unrecognized passkey for this account")
                      | Some credential =>
                          result ← look (fun s => check_assertion request s challenge fields credential);
                          catch_invalid_steps 401 (
                            result ← lift_prog result;
                            _ ← act (on_users (update_webauthn_sign_count (users_written env) username
                                                (cf_id_b64url fields) (new_sign_count result)));
                            _ ← act (on_pending_mfa (pure_op (Mfa.invalidate pending_token)));
                            issue_session_steps env username false client_ip)
                      end
                  end
              end
          end
      end
  end.

(** ** Accounts *)

Definition list_accounts : prog AdminState Response :=
  accounts ← look (fun s => users_ (users s));
  mret (json_response 200 (users_to_json accounts)).

Definition handle_users_create_steps (env : Env) (body : str) : prog AdminState Response :=
  match parse_json_object body with
  | None => mret (error_response 400 "expected JSON body")
  | Some json_body =>
      match json_string_field json_body "username", json_string_field json_body "password" with
      | Some username, Some password =>
          created ← act (attempt (on_users (Users.create (rnd_salt env) (t_data env) (users_written env) username password)));
          match created with
          | inr e => mret (error_response 400 e)
          | inl _ => list_accounts
          end
      | _, _ => mret (error_response 400 "username and password are required")
      end
  end.

Definition handle_users_delete_steps (env : Env) (username : str) : prog AdminState Response :=
  removed ← act (attempt (on_users (Users.remove (users_written env) username)));
  match removed with
  | inr e => mret (error_response 400 e)
  | inl false => mret (error_response 404 "user not found")
  | inl true => list_accounts
  end.

Definition handle_security_config_update_steps (body : str) : prog AdminState Response :=
  match parse_json_object body with
  | None => mret expected_body
  | Some b =>
      _ ← act (on_config (assign (json_bool_field b "require_2fa") (fun v c => set_security (mkSecurity v) c)));
      current ← look config_of;
      mret (json_response 200 (security_config_to_json (security current)))
  end.

(** ** Alone, the steps are the handler *)

Lemma run_catch_invalid st p s : run (catch_invalid_steps st p) s = catch_invalid st (run p) s.
Proof.
  unfold catch_invalid_steps, catch_invalid. rewrite run_bind, run_try.
  destruct (run p s) as [s' [r|[]]]; by rewrite ?run_lift.
Qed.

Lemma run_mret {S A} (a : A) (s : S) : run (mret (M := prog S) a) s = (s, Ok a).
Proof. done. Qed.

Lemma bind_runs {S A B} (m : M S A) (k : A -> M S B) s :
  (m ≫= k) s = match m s with (s', Ok a) => k a s' | (s', Throw e) => (s', Throw e) end.
Proof. done. Qed.

End steps.

(** One step of both sides. *)
Ltac alone_step :=
  first
  [ reflexivity
  | rewrite run_bind | rewrite run_mret | rewrite run_look | rewrite run_act | rewrite run_lift
  | rewrite run_catch_invalid | rewrite bind_get | rewrite bind_lift | rewrite bind_runs
  | progress cbn [fst snd negb]
  | progress unfold catch_invalid, start_challenge, require_2fa_now, totp_secret_of
  | match goal with |- context [match ?x with _ => _ end] =>
      lazymatch x with
      | context [match _ with _ => _ end] => fail
      | context [run _ _] => fail
      | _ => destruct x
      end end ].
Ltac alone := repeat alone_step.
Ltac head_of t := lazymatch t with ?f _ => head_of f | _ => t end.
Ltac unfold_heads :=
  lazymatch goal with |- run ?p _ = ?m _ => let h := head_of p in let g := head_of m in unfold h, g end.

#[export] Hint Unfold handle_auth_status_steps handle_auth_setup_steps handle_auth_login_steps handle_auth_logout_steps
  handle_auth_2fa_totp_verify_steps handle_auth_2fa_backup_code_verify_steps handle_auth_2fa_totp_confirm_steps
  mark_session_satisfied_steps verify_current_password_steps handle_auth_2fa_totp_disable_steps
  handle_auth_2fa_backup_codes_regenerate_steps handle_webauthn_register_options_steps
  handle_webauthn_register_verify_steps handle_webauthn_delete_steps handle_webauthn_login_options_steps
  handle_webauthn_login_verify_steps handle_webauthn_2fa_options_steps handle_webauthn_2fa_verify_steps
  handle_users_create_steps handle_users_delete_steps handle_security_config_update_steps list_accounts
  issue_session_steps issue_mfa_challenge_steps totp_secret_of start_challenge : steps.

Lemma run_issue_session env u needs ip s :
  run (issue_session_steps env u needs ip) s = issue_session_response env u needs ip s.
Proof. unfold issue_session_steps, issue_session_response. alone. Qed.

Lemma run_issue_challenge env u a b c s :
  run (issue_mfa_challenge_steps env u a b c) s = issue_mfa_challenge_response env u a b c s.
Proof. unfold issue_mfa_challenge_steps, issue_mfa_challenge_response. alone. Qed.

Lemma run_mark_satisfied request s : run (mark_session_satisfied_steps request) s = mark_session_satisfied request s.
Proof. unfold mark_session_satisfied_steps, mark_session_satisfied. alone. Qed.

Lemma run_verify_current `{Kdf : Pbkdf2} u pw s :
  run (verify_current_password_steps u pw) s = (s, verify_current_password u pw s).
Proof. unfold verify_current_password_steps, verify_current_password. alone. Qed.

Ltac alone_handler := repeat first
  [ rewrite run_issue_session | rewrite run_issue_challenge | rewrite run_mark_satisfied | rewrite run_verify_current
  | alone_step ].

Section rows.
Context `{Kdf : Pbkdf2} `{Hmac : HmacSha1} `{Sha : Sha256} `{Lib : LibCbor} `{E : Evp} `{J : JsonText}.

(** The rows of [auth_routes]; what makes one call only is one action. *)
Definition auth_steps (env : Env) (request : AdminRequest) (acting_user client_ip : str)
    : list (bool * prog AdminState Response) :=
  let h := rq_header request in
  let t := target h in
  let body := rq_body request in
  [ (on h "GET" "/api/auth/status", handle_auth_status_steps env request);
    (on h "POST" "/api/auth/setup", handle_auth_setup_steps env body client_ip);
    (on h "POST" "/api/auth/login", handle_auth_login_steps env body client_ip);
    (on h "POST" "/api/auth/logout", handle_auth_logout_steps env request);
    (on h "POST" "/api/auth/2fa/totp/verify", handle_auth_2fa_totp_verify_steps env request client_ip);
    (on h "POST" "/api/auth/2fa/backup-code/verify", handle_auth_2fa_backup_code_verify_steps env request client_ip);
    (on h "GET" "/api/auth/2fa/status", act (handle_auth_2fa_status acting_user));
    (on h "POST" "/api/auth/2fa/totp/setup", act (handle_auth_2fa_totp_setup env acting_user));
    (on h "POST" "/api/auth/2fa/totp/confirm", handle_auth_2fa_totp_confirm_steps env request acting_user);
    (on h "POST" "/api/auth/2fa/totp/disable", handle_auth_2fa_totp_disable_steps env acting_user body);
    (on h "POST" "/api/auth/2fa/backup-codes/regenerate", handle_auth_2fa_backup_codes_regenerate_steps env acting_user body);
    (on h "GET" "/api/auth/webauthn/login/options", handle_webauthn_login_options_steps env request);
    (on h "POST" "/api/auth/webauthn/login/verify", handle_webauthn_login_verify_steps env request client_ip);
    (on h "GET" "/api/auth/webauthn/2fa/options", handle_webauthn_2fa_options_steps env request);
    (on h "POST" "/api/auth/webauthn/2fa/verify", handle_webauthn_2fa_verify_steps env request client_ip);
    (on h "POST" "/api/auth/2fa/webauthn/register/options", handle_webauthn_register_options_steps env request acting_user);
    (on h "POST" "/api/auth/2fa/webauthn/register/verify", handle_webauthn_register_verify_steps env request acting_user);
    (under h "DELETE" kApiWebauthnPrefix, handle_webauthn_delete_steps env acting_user (suffix_of kApiWebauthnPrefix t));
    (on h "GET" "/api/security-config", act (view (fun s => security_config_to_json (security (config_of s)))));
    (on h "PUT" "/api/security-config", handle_security_config_update_steps body);
    (on h "GET" "/api/users", act (view (fun s => users_to_json (users_ (users s)))));
    (on h "POST" "/api/users", handle_users_create_steps env body);
    (under h "DELETE" kApiUsersPrefix, handle_users_delete_steps env (suffix_of kApiUsersPrefix t));
    (on h "GET" "/api/login-history", act (view (fun s => login_events_to_json
       (recent_up_to (Files.HttpUtil.query_param_size_t t "limit" kDefaultHistoryLimit) (login_history s))))) ].

Lemma run_webauthn_delete env user id s :
  run (handle_webauthn_delete_steps env user id) s = handle_webauthn_delete env user id s.
Proof.
  unfold handle_webauthn_delete_steps, handle_webauthn_delete. rewrite run_bind, run_look, bind_get.
  destruct (Users.find user (users s)) as [u|]; [|done]. cbv zeta.
  destruct (negb _ && (length _ <=? 1)%nat); cbn [andb]; alone_handler.
Qed.

(** The challenges are no part of what the rest of the handler reads. *)
Lemma run_webauthn_2fa_verify env request ip s :
  run (handle_webauthn_2fa_verify_steps env request ip) s = handle_webauthn_2fa_verify env request ip s.
Proof.
  unfold handle_webauthn_2fa_verify_steps, handle_webauthn_2fa_verify. rewrite run_bind, run_look, bind_get.
  destruct (pending_user env request s) as [[token u]|]; [|done].
  rewrite run_bind, run_act, bind_runs. unfold on_challenges.
  destruct (Challenges.consume _ _ _) as [t [challenge|]]; [|done].
  destruct (parse_json_object _) as [b|]; [|done]. destruct (parse_credential_fields b false) as [f|]; [|done].
  rewrite run_bind, run_look. cbn [users]. destruct (Users.find u (users s)) as [rec|]; [|done].
  destruct (credential_of _ rec) as [c|]; [|done]. rewrite run_bind, run_look.
  match goal with |- context [run (catch_invalid_steps _ (result ← lift_prog ?o; _))] =>
    change o with (check_assertion request s challenge f c) end.
  destruct (check_assertion request s challenge f c); alone_handler.
Qed.

Fixpoint pick {A} (rows : list (bool * A)) : option A :=
  match rows with
  | [] => None
  | (guard, p) :: rows' => if guard then Some p else pick rows'
  end.

(** Row by row, the steps run alone are the handler. *)
Definition same_row (row : bool * M AdminState Response) (row' : bool * prog AdminState Response) : Prop :=
  row.1 = row'.1 /\ forall s, run row'.2 s = row.2 s.

Lemma auth_steps_alone env request user ip :
  Forall2 same_row (auth_routes env request user ip) (auth_steps env request user ip).
Proof.
  unfold auth_routes, auth_steps. cbv zeta. repeat constructor.
  all: intros s; cbn [snd fst]; try apply run_act.
  all: first [ apply run_webauthn_delete | apply run_webauthn_2fa_verify | unfold_heads; alone_handler ].
Qed.

(** The first row whose guard holds. *)
Lemma picked_row (rows : list (bool * M AdminState Response)) (rows' : list (bool * prog AdminState Response)) rest otherwise :
  Forall2 same_row rows rows' ->
  match pick rows' with
  | Some p => (forall s, dispatch (rows ++ rest) otherwise s = run p s) /\ Exists (fun row => row.1 = true) rows
  | None => True
  end.
Proof.
  induction 1 as [|[g m] [g' p] rows rows' [Hg Hr] _ IH]; [done|]. cbn in *. subst g'. cbn [pick dispatch app].
  destruct g; [split; [by intros s|by left]|]. destruct (pick rows') as [q|]; [|done].
  destruct IH as [H1 H2]. split; [done|by right].
Qed.

(** No request of an authentication route is a stream or an import. *)
Lemma auth_guards_apart `{Asio : AsioIp} env request user ip :
  Exists (fun row => row.1 = true) (auth_routes env request user ip) ->
  (method_string (rq_header request) == lit "GET") && (target (rq_header request) == kApiRequestsStream) = false /\
  (method_string (rq_header request) == lit "GET") && (target (rq_header request) == kApiGlobeStream) = false /\
  Forall (fun row => row.1 = false) (import_routes env request user).
Proof.
  intros Hex.
  assert (forall P : Prop, Forall (fun row => row.1 = true -> P) (auth_routes env request user ip) -> P) as Hrow.
  { intros P HP. apply Exists_exists in Hex as (row & Hin & Hg). rewrite Forall_forall in HP. by apply (HP row). }
  apply Hrow. unfold auth_routes, on, under. cbv zeta.
  repeat (apply Forall_cons; split; [cbn [fst]; intros [Hm Ht]%andb_true_iff|]); [..|by apply Forall_nil].
  all: apply bool_decide_eq_true in Hm; try apply bool_decide_eq_true in Ht.
  all: unfold import_routes; cbv zeta; rewrite Hm; try rewrite Ht.
  all: split_and!; [try reflexivity; by vm_compute..|repeat constructor; cbn [fst]; try reflexivity; by vm_compute].
Qed.
End rows.

(** ** Walking through the steps *)

Section walking.
Context (R : AdminState -> AdminState -> Prop) `{!Reflexive R}.

Lemma steps_by_keeps {A} (m : M AdminState A) : keeps R m -> steps_by R (act m).
Proof. intros Hm. apply steps_by_act. exact Hm. Qed.
Lemma steps_by_look {A} (f : AdminState -> A) : steps_by R (look f).
Proof. by split. Qed.
Lemma steps_by_lift {A} (o : outcome A) : steps_by R (lift_prog o).
Proof. by destruct o. Qed.
Lemma steps_by_catch st p : steps_by R p -> steps_by R (catch_invalid_steps st p).
Proof. intros Hp. apply steps_by_bind; [by apply steps_by_try|]. intros [r|[]]; done. Qed.
End walking.

Ltac steps_step :=
  lazymatch goal with
  | |- forall _, _ => intros ?
  | |- steps_by _ (mret _) => exact I
  | |- steps_by _ (Raise _) => exact I
  | |- steps_by _ (look _) => apply (steps_by_look _)
  | |- steps_by _ (lift_prog _) => apply steps_by_lift
  | |- steps_by _ (act _) => apply steps_by_keeps
  | |- steps_by _ (mbind _ _) => apply steps_by_bind
  | |- steps_by _ (catch_invalid_steps _ _) => apply steps_by_catch
  | |- steps_by _ (match ?x with _ => _ end) => destruct x
  | |- steps_by _ (let '_ := ?x in _) => destruct x
  end.

(** One goal for every row, down to the operations on the components. *)
Ltac each_step_row :=
  unfold auth_steps, on, under; cbv zeta;
  repeat (apply Forall_cons; split; [cbn [fst snd]; intros Hguard|]); [..|apply Forall_nil; exact I].
Ltac steps_to_keeps := autounfold with steps; cbv zeta; repeat steps_step.

(** ** How many calls a handler makes *)

Section counting.
Context {S A B : Type}.

Lemma within_act_bind n (op : M S A) (k : A -> prog S B) :
  (forall a, within n (k a)) -> within (Datatypes.S n) (act op ≫= k).
Proof. intros Hk. change (Datatypes.S n) with (1 + n)%nat. by apply within_bind. Qed.
Lemma within_lift_bind n (o : outcome A) (k : A -> prog S B) :
  (forall a, within n (k a)) -> within n (lift_prog o ≫= k).
Proof. intros Hk. change n with (0 + n)%nat. apply within_bind; [by destruct o|done]. Qed.
End counting.

Lemma within_catch n st p : within n p -> within n (catch_invalid_steps st p).
Proof.
  intros Hp. unfold catch_invalid_steps. replace n with (n + 0)%nat by lia. apply within_bind; [by apply within_try|].
  by intros [r|[]].
Qed.

Lemma within_issue env u needs ip : within 4 (issue_session_steps env u needs ip).
Proof. unfold issue_session_steps, look. do 4 (apply within_act_bind; intros). done. Qed.

Ltac within_step :=
  lazymatch goal with
  | |- forall _, _ => intros ?
  | |- within _ (mret _) => exact I
  | |- within _ (Raise _) => exact I
  | |- within _ (lift_prog ?o) => by destruct o
  | |- within _ (issue_session_steps _ _ _ _) => eapply within_le; [|apply within_issue]; lia
  | |- within _ (act _) => by eapply (within_le 1); [lia|]
  | |- within _ (mbind _ (act _)) => apply within_act_bind
  | |- within _ (mbind _ (look _)) => apply within_act_bind
  | |- within _ (mbind _ (lift_prog _)) => apply within_lift_bind
  | |- within _ (mbind _ (issue_session_steps _ _ _ _)) => apply (within_bind 4); [apply within_issue|]
  | |- within _ (mbind _ (mret _)) => apply (within_bind 0); [exact I|]
  | |- within _ (mbind _ (match ?x with _ => _ end)) => destruct x
  | |- within _ (catch_invalid_steps _ _) => apply within_catch
  | |- within _ (match ?x with _ => _ end) => destruct x
  end.

Lemma within_verify_bind `{Kdf : Pbkdf2} {B} n u pw (k : bool -> prog AdminState B) :
  (forall b, within n (k b)) -> within (S n) (verify_current_password_steps u pw ≫= k).
Proof.
  intros Hk. change (S n) with (1 + n)%nat. apply within_bind; [|done]. unfold verify_current_password_steps.
  repeat within_step.
Qed.

Lemma auth_steps_within `{Kdf : Pbkdf2} `{Hmac : HmacSha1} `{Sha : Sha256} `{Lib : LibCbor} `{E : Evp} `{J : JsonText}
    env request user ip :
  Forall (fun row => row.1 = true -> within 10 row.2) (auth_steps env request user ip).
Proof.
  each_step_row.
  all: lazymatch goal with |- within _ (act _) => idtac | |- within _ ?p => let h := head_of p in unfold h end.
  all: unfold mark_session_satisfied_steps, issue_mfa_challenge_steps, list_accounts; cbv zeta.
  all: repeat (apply within_verify_bind || within_step).
Qed.
