(* ===== verification/AdminEvidence.v ===== *)
(** * AdminEvidence: what stands behind a session when handlers interleave

    [AdminLogin] reads the evidence for a session off the one state that a
    handler met. When handlers interleave ([AdminSteps]) its pieces come from
    several states of the past, in order; here is the evidence in that form,
    and that the steps of every handler give no session and no pending login
    without it. *)
From S2P Require Import Prelude Text Net Config Checks Json Numeric Codec Totp Passwords Users EventLogs Cbor Webauthn.
From S2P Require Import Interleave BlacklistOps AdminBase JsonView AdminAuth AdminLogin AdminConfig Admin AdminSteps.
From S2P Require IpBlocks RequestLog ConfigStore Files Sites.

(** ** Moments of the past *)

(** What holds of a state, given the states before it. *)
Definition moment : Type := list AdminState -> AdminState -> Prop.
Definition seen (P : AdminState -> Prop) : moment := fun _ s => P s.

(** From the [n]th state on, states that satisfy the moments, in order. *)
Fixpoint in_turn_from (n : nat) (Ps : list moment) (hs : list AdminState) : Prop :=
  match Ps with
  | [] => True
  | P :: Ps' => exists i s, (n <= i)%nat /\ hs !! i = Some s /\ P (take i hs) s /\ in_turn_from (S i) Ps' hs
  end.
Definition in_turn (Ps : list moment) (hs : list AdminState) : Prop := in_turn_from 0 Ps hs.

Lemma in_turn_from_later n Ps hs hs' : hs `prefix_of` hs' -> in_turn_from n Ps hs -> in_turn_from n Ps hs'.
Proof.
  intros [l ->]. revert n. induction Ps as [|P Ps IH]; intros n; [done|]. intros (i & s & Hn & Hi & HP & Hr).
  exists i, s. assert (i < length hs)%nat by (by eapply lookup_lt_Some). split_and!; [done| | |by apply IH].
  - by rewrite lookup_app_l.
  - rewrite take_app_le by lia. done.
Qed.

Lemma in_turn_later Ps hs hs' : hs `prefix_of` hs' -> in_turn Ps hs -> in_turn Ps hs'.
Proof. apply in_turn_from_later. Qed.

Lemma in_turn_snoc Ps (P : moment) hs before s :
  in_turn Ps hs -> hs `prefix_of` before -> P before s -> in_turn (Ps ++ [P]) (before ++ [s]).
Proof.
  intros Hps Hle HP. apply (in_turn_from_later _ _ _ before Hle) in Hps. clear Hle. unfold in_turn.
  cut (forall n, (n <= length before)%nat -> in_turn_from n Ps before -> in_turn_from n (Ps ++ [P]) (before ++ [s])).
  { intros H. apply H; [lia|exact Hps]. }
  clear Hps. induction Ps as [|P' Ps IH]; intros n Hn Hps.
  - exists (length before), s. rewrite take_app_length, lookup_app_r, Nat.sub_diag by lia. done.
  - destruct Hps as (i & s' & Hi & Hl & HP' & Hr). assert (i < length before)%nat by (by eapply lookup_lt_Some).
    exists i, s'. split_and!; [done|by rewrite lookup_app_l|rewrite take_app_le by lia; done|]. apply IH; [lia|done].
Qed.

Section evidence.
Context `{Kdf : Pbkdf2} `{Hmac : HmacSha1} `{Sha : Sha256} `{Lib : LibCbor} `{E : Evp} `{J : JsonText}.

(** The requests that may come, each with what it takes from outside. *)
Context (sent : Env -> AdminRequest -> Prop).

(** Some request gave the password of [u], an account with a second factor. *)
Definition password_given (hs : list AdminState) (u : str) : Prop :=
  exists env request pw rec, sent env request /\ body_credentials request = Some (u, pw) /\
    verify_password pw (stored_hash rec) = Ok true /\ has_factor rec = true /\
    in_turn [seen (fun s => Users.find u (users s) = Some rec)] hs.

(** The cookie of the request stands for a login of [u] whose password had
    been given. *)
Definition pending_seen (env : Env) (request : AdminRequest) (token u : str) : moment := fun h s =>
  pending_user env request s = Some (token, u) /\ password_given h u.

Inductive proved (env : Env) (request : AdminRequest) (hs : list AdminState) : list ascii -> bool -> Prop :=
  | proved_setup u pw needs :
      body_credentials request = Some (u, pw) -> u <> [] -> (8 <= length pw)%nat ->
      in_turn [seen (fun s => users_ (users s) = []); seen (fun s => require_2fa_now s = needs)] hs ->
      proved env request hs u needs
  | proved_password u pw rec needs :
      body_credentials request = Some (u, pw) -> verify_password pw (stored_hash rec) = Ok true -> has_factor rec = false ->
      in_turn [seen (fun s => Users.find u (users s) = Some rec); seen (fun s => require_2fa_now s = needs)] hs ->
      proved env request hs u needs
  | proved_totp token u code secret step :
      body_code request = Some code -> verify_totp secret code (unix_seconds (t_verify env)) = Ok (Some step) ->
      in_turn [pending_seen env request token u; seen (fun s => totp_secret_of u s = Some secret);
               seen (fun s => fresh_step u step (users s))] hs ->
      proved env request hs u false
  | proved_backup_code token u code :
      body_code request = Some code ->
      in_turn [pending_seen env request token u;
               seen (fun s => (consume_user_backup_code (users_written env) u code (users s)).2 = Ok true)] hs ->
      proved env request hs u false
  | proved_second_passkey token u rec fields challenge c result :
      body_fields request = Some fields -> credential_of (cf_id_b64url fields) rec = Some c ->
      in_turn [pending_seen env request token u;
               seen (fun s => (Challenges.consume (t_challenge env) (login2fa_key u) (webauthn_challenges s)).2 = Some challenge);
               seen (fun s => Users.find u (users s) = Some rec);
               seen (fun s => check_assertion request s challenge fields c = Ok result)] hs ->
      proved env request hs u false
  | proved_passkey token rec fields challenge c result :
      extract_webauthn_login_token request = Some token ->
      body_fields request = Some fields -> credential_of (cf_id_b64url fields) rec = Some c ->
      in_turn [seen (fun s => (Challenges.consume (t_challenge env) (login_key token) (webauthn_challenges s)).2 = Some challenge);
               seen (fun s => find_by_credential_id (cf_id_b64url fields) (users s) = Some rec);
               seen (fun s => check_assertion request s challenge fields c = Ok result)] hs ->
      proved env request hs (username rec) false.

(** Some request proved to be [u]'s. *)
Definition authenticated (hs : list AdminState) (u : str) : Prop :=
  exists env request needs, sent env request /\ proved env request hs u needs.

Lemma password_later hs hs' u : hs `prefix_of` hs' -> password_given hs u -> password_given hs' u.
Proof.
  intros Hle (env & request & pw & rec & Hs & Hb & Hv & Hf & Hi). exists env, request, pw, rec. split_and!; try done.
  by eapply in_turn_later.
Qed.

Lemma proved_later env request hs hs' u needs :
  hs `prefix_of` hs' -> proved env request hs u needs -> proved env request hs' u needs.
Proof. intros Hle []; econstructor; first [eassumption|eapply in_turn_later; eassumption]. Qed.

Lemma authenticated_later hs hs' u : hs `prefix_of` hs' -> authenticated hs u -> authenticated hs' u.
Proof. intros Hle (env & request & needs & Hs & Hp). exists env, request, needs. split; [done|]. by eapply proved_later. Qed.

(** ** The invariant *)

Record justified (hs : list AdminState) (s : AdminState) : Prop := {
  just_sessions token sess : sessions s !! token = Some sess -> authenticated hs (Sessions.sess_username sess);
  just_pending token e : pending_mfa s !! token = Some e -> password_given hs (Mfa.mfa_username e) }.

(** No new session and no new pending login. *)
Definition quiet (s s' : AdminState) : Prop := sessions_inherited s s' /\ pending_inherited s s'.
#[export] Instance quiet_preorder : PreOrder quiet.
Proof. split; [by split|]. intros a b c [] []. split; by etransitivity. Qed.

Lemma quiet_same s s' : sessions s' = sessions s -> pending_mfa s' = pending_mfa s -> quiet s s'.
Proof. intros Hs Hp. split; [by apply same_sessions_inherited|]. intros token e. by rewrite Hp. Qed.

Lemma justified_quiet hs s s' : quiet s s' -> justified hs s -> justified (hs ++ [s]) s'.
Proof.
  intros [Hs Hp] [Js Jp]. split.
  - intros token sess (old & Ho & <- & _)%Hs. eapply authenticated_later; [|by eapply Js]. by apply prefix_app_r.
  - intros token e He%Hp. eapply password_later; [|by eapply Jp]. by apply prefix_app_r.
Qed.

Lemma justified_stays hs s : justified hs s -> justified (hs ++ [s]) s.
Proof. by apply justified_quiet. Qed.

Lemma pending_justified env request hs s token u :
  justified hs s -> pending_user env request s = Some (token, u) -> pending_seen env request token u hs s.
Proof.
  intros [_ Jp] H. split; [exact H|]. unfold pending_user, Mfa.validate in H.
  destruct (extract_pending_mfa_token request) as [t|]; [|done].
  destruct (pending_mfa s !! t) as [e|] eqn:He; [|done]. destruct (_ >? _); [done|]. injection H as <- <-. by eapply Jp.
Qed.

(** ** Every handler gives evidence *)

#[local] Abbreviation keeps_justified := (recalls justified (fun _ _ => True)).

Lemma recalls_quiet {A} hs (p : prog AdminState A) : steps_by quiet p -> keeps_justified hs p.
Proof. apply recalls_steps. intros hs' s s'. apply justified_quiet. Qed.

Lemma recalls_look_bind {A} hs (f : AdminState -> A) (k : A -> prog AdminState Response) :
  (forall before s, hs `prefix_of` before -> justified before s -> keeps_justified (before ++ [s]) (k (f s))) ->
  keeps_justified hs (look f ≫= k).
Proof.
  intros Hk. apply recalls_bind, recalls_act. intros before s Hle Hj. split; [by apply justified_stays|].
  intros a [= <-]. by apply Hk.
Qed.

Lemma recalls_quiet_bind {A} hs (m : M AdminState A) (k : A -> prog AdminState Response) :
  keeps quiet m ->
  (forall before s a, hs `prefix_of` before -> (m s).2 = Ok a -> keeps_justified (before ++ [s]) (k a)) ->
  keeps_justified hs (act m ≫= k).
Proof.
  intros Hm Hk. apply recalls_bind, recalls_act. intros before s Hle Hj.
  split; [by apply (justified_quiet before s); [apply Hm|]|]. intros a Ha. by apply Hk.
Qed.

Lemma recalls_catch hs st p : keeps_justified hs p -> keeps_justified hs (catch_invalid_steps st p).
Proof.
  intros Hp. apply recalls_bind. eapply recalls_mono; [|apply (recalls_try _ (fun _ _ => True)); [done|exact Hp]].
  intros hs' [r|[]] _; done.
Qed.

Lemma recalls_lift {A} hs (o : outcome A) (k : A -> prog AdminState Response) :
  (forall a, o = Ok a -> keeps_justified hs (k a)) -> keeps_justified hs (lift_prog o ≫= k).
Proof. intros Hk. destruct o as [a|e]; [by apply Hk|done]. Qed.

Lemma quiet_users {A} (m : M UserStore A) : keeps quiet (on_users m).
Proof. apply frame_users. intros s. by apply quiet_same. Qed.
Lemma quiet_challenges {A} (f : Challenges.ChallengeStore -> Challenges.ChallengeStore * A) : keeps quiet (on_challenges f).
Proof. apply frame_challenges. intros s c. by apply quiet_same. Qed.
Lemma quiet_invalidate token : keeps quiet (on_pending_mfa (pure_op (Mfa.invalidate token))).
Proof. apply frame_pending_mfa. intros s. split; [by apply same_sessions_inherited|apply invalidate_pending]. Qed.
Lemma quiet_history f : keeps quiet (on_login_history f).
Proof. intros s. by apply quiet_same. Qed.
Lemma quiet_attempt {A} (m : M AdminState A) : keeps quiet m -> keeps quiet (attempt m).
Proof. apply keeps_attempt. Qed.

(** A session for somebody who has proved to be the user. *)
Lemma issue_justified env u needs ip hs :
  authenticated hs u -> keeps_justified hs (issue_session_steps env u needs ip).
Proof.
  intros Ha. unfold issue_session_steps. apply recalls_bind, recalls_act. intros before s Hle Hj. split.
  - assert (authenticated (before ++ [s]) u) as Hu by (eapply authenticated_later; [|exact Ha]; by apply prefix_app_r).
    destruct (justified_stays before s Hj) as [Js Jp]. unfold on_sessions.
    destruct (Sessions.create _ _ _ u needs (sessions s)) as [t r] eqn:Hc. cbn [fst]. split; [|exact Jp].
    intros token sess H. cbn in H.
    assert ((Sessions.create (rnd_token env) (t_create env) kSessionTtlHours u needs (sessions s)).1 !! token = Some sess) as H'
      by by rewrite Hc.
    apply create_sessions in H' as [H'|[_ ->]]; [by eapply Js|exact Hu].
  - intros token _. apply recalls_quiet, steps_by_bind; [apply steps_by_keeps, quiet_history|].
    intros _. repeat steps_step.
Qed.

Lemma challenge_justified env u a b c hs :
  password_given hs u -> keeps_justified hs (issue_mfa_challenge_steps env u a b c).
Proof.
  intros Hpw. unfold issue_mfa_challenge_steps. apply recalls_bind, recalls_act. intros before s Hle Hj. split.
  - assert (password_given (before ++ [s]) u) as Hu by (eapply password_later; [|exact Hpw]; by apply prefix_app_r).
    destruct (justified_stays before s Hj) as [Js Jp]. unfold on_pending_mfa, Mfa.create.
    destruct (random_token_hex (rnd_token env)) as [t|e]; cbn [fst]; (split; [exact Js|]); [|exact Jp].
    intros token entry H. cbn in H. destruct (decide (t = token)) as [->|Hne].
    + rewrite lookup_insert_eq in H. injection H as <-. exact Hu.
    + rewrite lookup_insert_ne in H by done. apply map_lookup_filter_Some in H as [H _]. by eapply Jp.
  - intros token _. apply recalls_quiet. repeat steps_step.
Qed.

Ltac quiet_now := by apply recalls_quiet; repeat steps_step.

Lemma setup_justified env request ip hs :
  sent env request -> keeps_justified hs (handle_auth_setup_steps env (rq_body request) ip).
Proof.
  intros Hs. unfold handle_auth_setup_steps. apply recalls_look_bind. intros b0 s0 _ _. destruct (negb _); [quiet_now|].
  destruct (parse_json_object (rq_body request)) as [b|] eqn:Hb; [|quiet_now].
  destruct (json_string_field b "username") as [u|] eqn:Hu; [|quiet_now].
  destruct (json_string_field b "password") as [pw|] eqn:Hpw; [|quiet_now].
  apply recalls_quiet_bind; [apply quiet_attempt, quiet_users|]. intros b1 s1 [[|]|e] Hle Hc; [|quiet_now..].
  assert (users_ (users s1) = [] /\ u <> [] /\ (8 <= length pw)%nat) as (He & Hn & Hl).
  { unfold attempt, on_users in Hc. destruct (create_if_empty _ _ _ u pw (users s1)) as [us [[]|[]]] eqn:H; try done.
    by eapply create_if_empty_true. }
  apply recalls_look_bind. intros b2 s2 Hle2 _. apply issue_justified. exists env, request, (require_2fa_now s2).
  split; [done|]. apply (proved_setup _ _ _ u pw); [unfold body_credentials; by rewrite Hb, Hu, Hpw|done..|].
  apply (in_turn_snoc [_] _ (b1 ++ [s1])); [|done|done]. apply (in_turn_snoc [] _ []); [done|apply prefix_nil|done].
Qed.

Lemma login_justified env request ip hs :
  sent env request -> keeps_justified hs (handle_auth_login_steps env (rq_body request) ip).
Proof.
  intros Hs. unfold handle_auth_login_steps.
  destruct (parse_json_object (rq_body request)) as [b|] eqn:Hb; [|done].
  destruct (json_string_field b "username") as [u|] eqn:Hu; [|done].
  destruct (json_string_field b "password") as [pw|] eqn:Hpw; [|done].
  assert (body_credentials request = Some (u, pw)) as Hcred by (unfold body_credentials; by rewrite Hb, Hu, Hpw).
  apply recalls_look_bind. intros b1 s1 _ _. destruct (Users.find u (users s1)) as [rec|] eqn:Hf; [|done].
  assert (in_turn [seen (fun s => Users.find u (users s) = Some rec)] (b1 ++ [s1])) as Hseen
    by (apply (in_turn_snoc [] _ []); [done|apply prefix_nil|done]).
  apply recalls_lift. intros [|] Hv; cbn [negb]; [|done]. destruct (has_factor rec) eqn:Hh.
  - apply challenge_justified. by exists env, request, pw, rec.
  - apply recalls_look_bind. intros b2 s2 Hle _. apply issue_justified. exists env, request, (require_2fa_now s2).
    split; [done|]. eapply proved_password; [exact Hcred|exact Hv|exact Hh|]. by apply (in_turn_snoc [_] _ (b1 ++ [s1])).
Qed.

(** The first moment of the second step of a login. *)
Lemma pending_first env request before s token u :
  justified before s -> pending_user env request s = Some (token, u) ->
  in_turn [pending_seen env request token u] (before ++ [s]).
Proof. intros Hj Hp. apply (in_turn_snoc [] _ before); [done|done|]. by apply pending_justified. Qed.

Lemma totp_justified env request ip hs :
  sent env request -> keeps_justified hs (handle_auth_2fa_totp_verify_steps env request ip).
Proof.
  intros Hs. unfold handle_auth_2fa_totp_verify_steps. apply recalls_look_bind. intros b0 s0 _ Hj.
  destruct (pending_user env request s0) as [[token u]|] eqn:Hp; [|done].
  apply (pending_first _ _ b0) in Hp; [|done].
  destruct (body_code request) as [code|] eqn:Hc; [|done].
  apply recalls_look_bind. intros b1 s1 Hle1 _. destruct (totp_secret_of u s1) as [secret|] eqn:Ht; [|done].
  apply recalls_lift. intros [step|] Hv; [|done].
  apply recalls_quiet_bind; [apply quiet_users|]. intros b2 s2 [|] Hle2 Hstep; cbn [negb]; [|done].
  apply recalls_quiet_bind; [apply quiet_invalidate|]. intros b3 s3 _ Hle3 _.
  apply issue_justified. exists env, request, false. split; [done|]. eapply proved_totp; [exact Hc|exact Hv|].
  apply (in_turn_later _ (b2 ++ [s2])); [by apply prefix_app_r|].
  apply (in_turn_snoc [_; _] _ (b1 ++ [s1])); [|done|].
  - by apply (in_turn_snoc [_] _ (b0 ++ [s0])).
  - unfold on_users in Hstep. destruct (consume_totp_step u step (users s2)) as [us r] eqn:H. cbn in Hstep. subst r.
    by eapply consume_step_fresh.
Qed.

Lemma backup_code_justified env request ip hs :
  sent env request -> keeps_justified hs (handle_auth_2fa_backup_code_verify_steps env request ip).
Proof.
  intros Hs. unfold handle_auth_2fa_backup_code_verify_steps. apply recalls_look_bind. intros b0 s0 _ Hj.
  destruct (pending_user env request s0) as [[token u]|] eqn:Hp; [|done].
  apply (pending_first _ _ b0) in Hp; [|done].
  destruct (body_code request) as [code|] eqn:Hc; [|done].
  apply recalls_quiet_bind; [apply quiet_users|]. intros b1 s1 [|] Hle1 Hok; cbn [negb]; [|done].
  apply recalls_quiet_bind; [apply quiet_invalidate|]. intros b2 s2 _ Hle2 _.
  apply issue_justified. exists env, request, false. split; [done|]. eapply proved_backup_code; [exact Hc|].
  apply (in_turn_later _ (b1 ++ [s1])); [by apply prefix_app_r|].
  apply (in_turn_snoc [_] _ (b0 ++ [s0])); [exact Hp|done|].
  unfold on_users in Hok. unfold seen. destruct (consume_user_backup_code _ u code (users s1)); exact Hok.
Qed.

Lemma second_passkey_justified env request ip hs :
  sent env request -> keeps_justified hs (handle_webauthn_2fa_verify_steps env request ip).
Proof.
  intros Hs. unfold handle_webauthn_2fa_verify_steps. apply recalls_look_bind. intros b0 s0 _ Hj.
  destruct (pending_user env request s0) as [[token u]|] eqn:Hp; [|done].
  apply (pending_first _ _ b0) in Hp; [|done].
  apply recalls_quiet_bind; [apply quiet_challenges|]. intros b1 s1 [challenge|] Hle1 Hch; [|done].
  destruct (parse_json_object (rq_body request)) as [b|] eqn:Hb; [|done].
  destruct (parse_credential_fields b false) as [f|] eqn:Hf; [|done].
  apply recalls_look_bind. intros b2 s2 Hle2 _. destruct (Users.find u (users s2)) as [rec|] eqn:Hu; [|done].
  destruct (credential_of (cf_id_b64url f) rec) as [c|] eqn:Hc; [|done].
  apply recalls_look_bind. intros b3 s3 Hle3 _. apply recalls_catch, recalls_lift. intros result Hr.
  apply recalls_quiet_bind; [apply quiet_users|]. intros b4 s4 _ Hle4 _.
  apply recalls_quiet_bind; [apply quiet_invalidate|]. intros b5 s5 _ Hle5 _.
  apply issue_justified. exists env, request, false. split; [done|].
  eapply (proved_second_passkey _ _ _ _ _ _ _ challenge _ result); [unfold body_fields; rewrite Hb; exact Hf|exact Hc|].
  apply (in_turn_later _ (b4 ++ [s4])); [by apply prefix_app_r|].
  apply (in_turn_later _ (b3 ++ [s3])); [by apply prefix_app_r|].
  apply (in_turn_snoc [_; _; _] _ (b2 ++ [s2])); [|done|exact Hr].
  apply (in_turn_snoc [_; _] _ (b1 ++ [s1])); [|done|exact Hu].
  apply (in_turn_snoc [_] _ (b0 ++ [s0])); [exact Hp|done|].
  unfold on_challenges in Hch. unfold seen. destruct (Challenges.consume _ _ _). by injection Hch.
Qed.

Lemma passkey_justified env request ip hs :
  sent env request -> keeps_justified hs (handle_webauthn_login_verify_steps env request ip).
Proof.
  intros Hs. unfold handle_webauthn_login_verify_steps.
  destruct (extract_webauthn_login_token request) as [token|] eqn:Ht; [|done].
  apply recalls_quiet_bind; [apply quiet_challenges|]. intros b1 s1 [challenge|] Hle1 Hch; [|done].
  destruct (parse_json_object (rq_body request)) as [b|] eqn:Hb; [|done].
  destruct (parse_credential_fields b false) as [f|] eqn:Hf; [|done].
  apply recalls_look_bind. intros b2 s2 Hle2 _.
  destruct (find_by_credential_id (cf_id_b64url f) (users s2)) as [rec|] eqn:Hu; [|done].
  destruct (credential_of (cf_id_b64url f) rec) as [c|] eqn:Hc; [|done].
  apply recalls_look_bind. intros b3 s3 Hle3 _. apply recalls_catch, recalls_lift. intros result Hr.
  apply recalls_quiet_bind; [apply quiet_users|]. intros b4 s4 _ Hle4 _.
  apply recalls_bind. eapply recalls_mono; [|apply issue_justified].
  { intros hs' r _. apply recalls_quiet. repeat steps_step. }
  exists env, request, false. split; [done|].
  eapply (proved_passkey _ _ _ token rec _ challenge _ result); [exact Ht|unfold body_fields; rewrite Hb; exact Hf|exact Hc|].
  apply (in_turn_later _ (b3 ++ [s3])); [by apply prefix_app_r|].
  apply (in_turn_snoc [_; _] _ (b2 ++ [s2])); [|done|exact Hr].
  apply (in_turn_snoc [_] _ (b1 ++ [s1])); [|done|exact Hu].
  apply (in_turn_snoc [] _ []); [done|apply prefix_nil|].
  unfold on_challenges in Hch. unfold seen. destruct (Challenges.consume _ _ _). by injection Hch.
Qed.

Lemma steps_justified env request user ip hs :
  sent env request ->
  Forall (fun row => row.1 = true -> keeps_justified hs row.2) (auth_steps env request user ip).
Proof.
  intros Hs. each_step_row.
  all: first [ by apply setup_justified | by apply login_justified | by apply totp_justified
             | by apply backup_code_justified | by apply passkey_justified | by apply second_passkey_justified
             | apply recalls_quiet; steps_to_keeps; keeps_handler;
               split; first [ solve [auto with atomwall] | by apply same_sessions_inherited | by intros ? ? ] ].
Qed.
End evidence.
