(* ===== verification/AdminDemo.v ===== *)
(** * AdminDemo: a small admin server for the witnesses

    Two accounts, one with TOTP and one without a second factor, under
    [require_2fa]; stand-ins for the libraries; and the requests that the
    witnesses about whole exchanges replay. *)
From S2P Require Import Prelude Text Net Config Checks Json Totp Passwords Users EventLogs Cbor Webauthn.
From S2P Require Import AdminBase JsonView AdminAuth AdminLogin AdminConfig Admin.
From S2P Require IpBlocks RequestLog ConfigStore Files UrlFetch.

#[export] Existing Instance text_asio.
#[export] Existing Instance toy_kdf.
#[export] Existing Instance toy_hmac.
#[export] Existing Instance toy_sha.
#[export] Existing Instance demo_lib.
#[export] Existing Instance toy_evp.
#[export] Instance demo_fs : Files.StaticFiles.FileSystem := {|
  Files.StaticFiles.weakly_canonical p := Some p;
  Files.StaticFiles.is_regular_file p := Some false |}.

Definition demo_now : time_point := 1700000000 * ns_per_s.
Definition demo_new_secret : list Z := map (fun i => Z.of_nat (i * 7 + 3)) (seq 1 20).

(** The code an authenticator shows for a secret. *)
Definition code_for (secret : list Z) : str :=
  match hotp secret (1700000000 ÷ kStepSeconds) with Ok v => format_code v | Throw _ => [] end.

(** The bodies the requests carry. *)
Definition credentials (u pw : str) : json := JObj [(lit "username", JStr u); (lit "password", JStr pw)].
#[export] Instance demo_bodies : JsonText := {|
  json_parse text :=
    if text == lit "login admin" then Some (credentials "admin" "correct horse")
    else if text == lit "login carol" then Some (credentials "carol" "battery staple")
    else if text == lit "code admin" then Some (JObj [(lit "code", JStr (code_for Totp.demo_key))])
    else if text == lit "code carol" then Some (JObj [(lit "code", JStr (code_for demo_new_secret))])
    else if text == lit "off" then Some (JObj [(lit "enabled", JBool true)])
    else if text == lit "no methods" then Some (JObj [(lit "allowed_methods", JArr [])])
    else if text == lit "password" then Some (JObj [(lit "password", JStr "correct horse")])
    else None |}.

(** An environment at time [demo_now] in which tokens are drawn from
    [token]. *)
Definition demo_env (token : list Z) : Env := {|
  t_gate := demo_now; t_pending := demo_now; t_challenge := demo_now; t_verify := demo_now;
  t_create := demo_now; t_record := demo_now; t_data := demo_now; t_list := fun _ => demo_now;
  rnd_token := Some token; rnd_challenge := Some [1; 2; 3; 4]; rnd_login_token := Some token;
  rnd_secret := Some demo_new_secret; rnd_salt := Some demo_salt; rnd_salts := fun _ => Some demo_salt;
  rnd_codes := fun i => Some (Z.of_nat i); rnd_handle := Some demo_salt;
  users_written := Ok tt;
  network := {| UrlFetch.async_resolve _ _ := inl (lit "no network"); UrlFetch.async_connect _ := None;
                UrlFetch.set_sni _ := true; UrlFetch.async_handshake := None; UrlFetch.async_write := None;
                UrlFetch.async_read _ := UrlFetch.ReadTooLarge |};
  upload_saved := Saved; config_dir := "/etc/atomwall";
  geoip_loaded := false; asn_loaded := false; server_location := None;
  path_of p := [p]; file_contents _ := [] |}.

Definition demo_accounts : UserStore :=
  (run_all [CCreateIfEmpty (Some demo_salt) 5 (Ok tt) "admin" "correct horse";
            CCreate (Some demo_salt) 6 (Ok tt) "carol" "battery staple";
            CSetTotp (fun _ => Some demo_salt) (Ok tt) "admin" Totp.demo_secret [demo_code]] users_init).1.

Definition demo_admin : AdminState := {|
  config_store := ConfigStore.init (set_security (mkSecurity true) default_config) 0;
  users := demo_accounts; sessions := ∅; pending_mfa := ∅; pending_totp := ∅;
  webauthn_challenges := Challenges.challenges_init; login_history := ring_init 5;
  ip_blocks := IpBlocks.blocks_init ns_per_min; request_log := RequestLog.log_init 10 [] [];
  globe_events := ring_init 5 |}.

Definition demo_exchange (method target cookies body : string) : AdminExchange := {|
  x_header := mkHeader 11 method target (fun name => if name == lit "Cookie" then Some (lit cookies) else None);
  x_read _ := Some (lit body, true) |}.

Definition demo_run (token : list Z) (x : AdminExchange) (s : AdminState) : AdminState :=
  (handle_exchange (demo_env token) "127.0.0.1" x s).1.

(** Carol logs in, restricted to enrolling; the administrator gives the
    password, then the code. *)
Definition carol_login := demo_exchange "POST" "/api/auth/login" "" "login carol".
Definition carol_setup := demo_exchange "POST" "/api/auth/2fa/totp/setup" "atomwall_session=07" "".
Definition carol_confirm := demo_exchange "POST" "/api/auth/2fa/totp/confirm" "atomwall_session=07" "code carol".
Definition admin_login := demo_exchange "POST" "/api/auth/login" "" "login admin".
Definition admin_code := demo_exchange "POST" "/api/auth/2fa/totp/verify" "atomwall_pending_mfa=08" "code admin".

Definition carol_state : AdminState := demo_run [7] carol_login demo_admin.
Definition carol_enrolling : AdminState := demo_run [1] carol_setup carol_state.
Definition admin_pending : AdminState := demo_run [8] admin_login carol_state.
Definition admin_state : AdminState := demo_run [9] admin_code admin_pending.
