(* ===== verification/AdminSafety.v ===== *)
(** * AdminSafety: authentication over whole histories of requests

    Theorems about [handle_exchange] and sequences of exchanges: every session
    has evidence behind it, and second factors are enforced across requests. *)
From S2P Require Import Prelude Text Net Config Checks Json Totp Passwords Users EventLogs Cbor Webauthn.
From S2P Require Import BlacklistOps AdminBase JsonView AdminAuth AdminLogin AdminConfig Admin AdminDemo.
From S2P Require IpBlocks RequestLog ConfigStore Files Sites.

Section safety.
Context `{Asio : AsioIp} `{Kdf : Pbkdf2} `{Hmac : HmacSha1} `{Sha : Sha256} `{Lib : LibCbor} `{E : Evp} `{J : JsonText}.
Context `{Fs : Files.StaticFiles.FileSystem}.

Lemma routes_granted env request user ip s :
  Forall (fun row => row.1 = true -> granted env request s (row.2 s).1)
    (import_routes env request user ++ routes env request user ip).
Proof.
  each_row.
  all: first [ apply setup_granted | apply login_granted | apply totp_verify_granted | apply backup_code_granted
             | apply passkey_granted | apply second_passkey_granted | apply inherited_granted; by_keeps ].
Qed.

Lemma routes_pending env request user ip s :
  Forall (fun row => row.1 = true -> pending_granted env request s (row.2 s).1)
    (import_routes env request user ++ routes env request user ip).
Proof.
  each_row.
  all: first [ apply login_pending | apply pending_inherited_granted; by_keeps ].
Qed.

(** ** One exchange *)

Definition body_read (x : AdminExchange) (request : AdminRequest) : Prop :=
  exists keep, x_read x (body_limit (x_header x)) = Some (rq_body request, keep) /\ rq_header request = x_header x.

Lemma exchange_sessions env ip x s token sess :
  sessions (handle_exchange env ip x s).1 !! token = Some sess ->
  inherited token sess s \/
  exists request, body_read x request /\ random_token_hex (rnd_token env) = Ok token /\
    login_evidence env request s (Sessions.sess_username sess) (Sessions.needs_mfa_setup sess).
Proof.
  revert token sess. apply (handle_exchange_elim (fun s' => forall token sess, sessions s' !! token = Some sess -> _)).
  { intros token sess H. left. by exists sess. }
  intros user body keep _ Hx request.
  assert (forall s', granted env request s s' -> forall token sess, sessions s' !! token = Some sess ->
            inherited token sess s \/ exists request, body_read x request /\ random_token_hex (rnd_token env) = Ok token /\
              login_evidence env request s (Sessions.sess_username sess) (Sessions.needs_mfa_setup sess)) as Hg.
  { intros s' Hs' token sess H. destruct (Hs' token sess H) as [?|(Ht & He & _)]; [by left|right].
    exists request. split_and!; try done. by exists keep. }
  eapply Forall_impl; [apply (routes_granted env request user ip s)|]. intros row Hrow Hguard. by apply Hg, Hrow.
Qed.

Lemma exchange_pending env ip x s token e :
  pending_mfa (handle_exchange env ip x s).1 !! token = Some e ->
  pending_mfa s !! token = Some e \/
  exists request, body_read x request /\ pending_evidence env request s (Mfa.mfa_username e).
Proof.
  revert token e. apply (handle_exchange_elim (fun s' => forall token e, pending_mfa s' !! token = Some e -> _)); [by left|].
  intros user body keep _ Hx request.
  assert (forall s', pending_granted env request s s' -> forall token e, pending_mfa s' !! token = Some e ->
            pending_mfa s !! token = Some e \/
            exists request, body_read x request /\ pending_evidence env request s (Mfa.mfa_username e)) as Hg.
  { intros s' Hs' token e H. destruct (Hs' token e H) as [?|(_ & He & _)]; [by left|right].
    exists request. split; [by exists keep|done]. }
  eapply Forall_impl; [apply (routes_pending env request user ip s)|]. intros row Hrow Hguard. by apply Hg, Hrow.
Qed.

(** ** Histories *)

Record Visit := mkVisit { v_env : Env; v_ip : list ascii; v_exchange : AdminExchange }.

Definition visit (s : AdminState) (v : Visit) : AdminState :=
  (handle_exchange (v_env v) (v_ip v) (v_exchange v) s).1.
Definition after (history : list Visit) (s : AdminState) : AdminState := foldl visit s history.

(** What one visit established, in the state it met. *)
Definition at_visit (history : list Visit) (s0 : AdminState) (P : Env -> AdminRequest -> AdminState -> Prop) : Prop :=
  exists earlier v later request, history = earlier ++ v :: later /\ body_read (v_exchange v) request /\
    P (v_env v) request (after earlier s0).

Lemma at_visit_snoc history v s0 P : at_visit history s0 P -> at_visit (history ++ [v]) s0 P.
Proof.
  intros (earlier & w & later & request & -> & Hr & HP). exists earlier, w, (later ++ [v]), request.
  split; [by rewrite <- app_assoc|done].
Qed.

Lemma at_visit_last history v s0 request (P : Env -> AdminRequest -> AdminState -> Prop) :
  body_read (v_exchange v) request -> P (v_env v) request (after history s0) -> at_visit (history ++ [v]) s0 P.
Proof. intros Hr HP. by exists history, v, [], request. Qed.

Lemma after_snoc history v s0 : after (history ++ [v]) s0 = visit (after history s0) v.
Proof. unfold after. by rewrite foldl_app. Qed.

Lemma pending_history history s0 token e :
  pending_mfa s0 = ∅ -> pending_mfa (after history s0) !! token = Some e ->
  at_visit history s0 (fun env request s => pending_evidence env request s (Mfa.mfa_username e)).
Proof.
  intros H0. induction history as [|v history IH] using rev_ind.
  - cbn. rewrite H0. by rewrite lookup_empty.
  - rewrite after_snoc. intros [H|(request & Hr & He)]%exchange_pending.
    + by apply at_visit_snoc, IH.
    + by eapply at_visit_last.
Qed.

Lemma session_history history s0 token sess :
  sessions s0 = ∅ -> sessions (after history s0) !! token = Some sess ->
  exists earlier v later request needs, history = earlier ++ v :: later /\ body_read (v_exchange v) request /\
    login_evidence (v_env v) request (after earlier s0) (Sessions.sess_username sess) needs.
Proof.
  intros H0. revert sess. induction history as [|v history IH] using rev_ind; intros sess.
  - cbn. rewrite H0. by rewrite lookup_empty.
  - rewrite after_snoc. intros [(old & Ho & Hu & _)|(request & Hr & _ & He)]%exchange_sessions.
    + destruct (IH old Ho) as (earlier & w & later & request & needs & -> & Hr & He). rewrite <- Hu.
      exists earlier, w, (later ++ [v]), request, needs. split; [by rewrite <- app_assoc|done].
    + exists history, v, [], request, (Sessions.needs_mfa_setup sess). done.
Qed.

Lemma pending_user_entry env request s token u :
  pending_user env request s = Some (token, u) -> exists e, pending_mfa s !! token = Some e /\ Mfa.mfa_username e = u.
Proof.
  unfold pending_user, Mfa.validate. destruct (extract_pending_mfa_token request) as [t|]; [|done].
  destruct (pending_mfa s !! t) as [e|] eqn:He; [|done]. destruct (_ >? _); [done|]. intros [= <- <-]. by exists e.
Qed.

(** Two-factor authentication cannot be bypassed: after any history of
    requests, in any order and over any connections, a session for [u] goes
    back to a request that proved itself: the first-run setup, the password of
    an account without a second factor, a registered passkey, or a second
    factor (TOTP code of an unused step, unused backup code, passkey of the
    account). In the last case an earlier request of the history had given
    the password of that account. *)
Theorem two_factor_enforced history s0 token sess :
  sessions s0 = ∅ -> pending_mfa s0 = ∅ ->
  sessions (after history s0) !! token = Some sess ->
  let u := Sessions.sess_username sess in
  exists earlier v later request needs, history = earlier ++ v :: later /\ body_read (v_exchange v) request /\
    login_evidence (v_env v) request (after earlier s0) u needs /\
    forall t w, pending_user (v_env v) request (after earlier s0) = Some (t, w) ->
      at_visit earlier s0 (fun env request s => pending_evidence env request s w).
Proof.
  intros Hs Hp H u. apply session_history in H as (earlier & v & later & request & needs & Hh & Hr & He); [|done].
  exists earlier, v, later, request, needs. split_and!; try done.
  intros t w (e & Hl & <-)%pending_user_entry. by eapply pending_history.
Qed.

End safety.

(** ** Witness: the administrator's session goes back to both steps *)

Definition demo_visit (token : list Z) (x : AdminExchange) : Visit := mkVisit (demo_env token) "127.0.0.1" x.
Definition demo_history : list Visit := [demo_visit [7] carol_login; demo_visit [8] admin_login; demo_visit [9] admin_code].

Lemma two_factor_enforced_witness :
  exists sess, sessions (after demo_history demo_admin) !! lit "09" = Some sess /\
    exists earlier v later request needs, demo_history = earlier ++ v :: later /\ body_read (v_exchange v) request /\
      login_evidence (v_env v) request (after earlier demo_admin) "admin" needs /\
      forall t w, pending_user (v_env v) request (after earlier demo_admin) = Some (t, w) ->
        at_visit earlier demo_admin (fun env request s => pending_evidence env request s w).
Proof.
  exists (Sessions.mkSession "admin" false (demo_now + 12 * ns_per_hour)).
  assert (sessions (after demo_history demo_admin) !! lit "09" =
            Some (Sessions.mkSession "admin" false (demo_now + 12 * ns_per_hour))) as Hs by (vm_compute; reflexivity).
  split; [exact Hs|].
  exact (two_factor_enforced demo_history demo_admin (lit "09") _ eq_refl eq_refl Hs).
Defined.
