(* ===== verification/AdminAccess.v ===== *)
(** * AdminAccess: what a request may do without a full session

    A request without a session is answered without touching configuration,
    bans or what authenticates an account; a session that still has to enrol a
    second factor is confined to its own account; and while two-factor
    authentication is required, no request takes the last factor away. *)
From S2P Require Import Prelude Text Net Config Checks Json Totp Passwords Users EventLogs Cbor Webauthn.
From S2P Require Import BlacklistOps AdminBase JsonView AdminAuth AdminLogin AdminConfig Admin Interleave AdminSteps AdminDemo.
From S2P Require IpBlocks RequestLog ConfigStore Files Sites.

Section access.
Context `{Asio : AsioIp} `{Kdf : Pbkdf2} `{Hmac : HmacSha1} `{Sha : Sha256} `{Lib : LibCbor} `{E : Evp} `{J : JsonText}.
Context `{Fs : Files.StaticFiles.FileSystem}.

(** ** Requests without a session, and with a restricted one *)

(** What authenticates an account: its name, password, TOTP secret, passkeys
    and backup codes. Which of the codes are spent is left out. *)
Definition identity (u : UserRecord)
    : str * PasswordHash * option (list ascii) * list (list ascii * list Z) * list PasswordHash :=
  (username u, stored_hash u, totp u, map (fun c => (id_b64url c, cose_public_key c)) (webauthn_credentials u),
   map bc_hash (backup_codes u)).

(** The accounts whose names [sel] selects, as far as they authenticate. *)
Definition selected (sel : str -> bool) (us : list UserRecord) :=
  map identity (filter (fun u => sel (username u) = true) us).

(** Configuration and bans are as they were; so are the selected accounts,
    unless there was no account at all. *)
Definition confined (sel : str -> bool) (s s' : AdminState) : Prop :=
  config_store s' = config_store s /\ ip_blocks s' = ip_blocks s /\
  (users_ (users s) <> [] -> users_ (users s') <> [] /\ selected sel (users_ (users s')) = selected sel (users_ (users s))).

#[local] Instance confined_preorder sel : PreOrder (confined sel).
Proof.
  split; [done|]. intros s1 s2 s3 (C1 & B1 & A1) (C2 & B2 & A2). split_and!; [congruence|congruence|].
  intros Hn. destruct (A1 Hn) as [Hn2 E1]. destruct (A2 Hn2) as [Hn3 E2]. split; [done|congruence].
Qed.

Definition accounts_confined (sel : str -> bool) (us us' : UserStore) : Prop :=
  users_ us <> [] -> users_ us' <> [] /\ selected sel (users_ us') = selected sel (users_ us).

Lemma confined_users sel s us :
  accounts_confined sel (users s) us ->
  confined sel s (mkState (config_store s) us (sessions s) (pending_mfa s) (pending_totp s) (webauthn_challenges s)
                    (login_history s) (ip_blocks s) (request_log s) (globe_events s)).
Proof. intros H. split_and!; done. Qed.

Lemma confined_same sel s s' :
  config_store s' = config_store s -> ip_blocks s' = ip_blocks s -> users s' = users s -> confined sel s s'.
Proof. intros Hc Hb Hu. split_and!; [done|done|]. by rewrite Hu. Qed.
Hint Extern 3 (confined _ _ _) => (apply confined_same; reflexivity) : atomwall.

Lemma selected_cons sel r l : selected sel (r :: l) = (if sel (username r) then [identity r] else []) ++ selected sel l.
Proof. unfold selected. rewrite filter_cons. destruct (sel (username r)); [by rewrite decide_True|by rewrite decide_False]. Qed.

Lemma selected_alter sel f i l :
  (forall r, l !! i = Some r -> username (f r) = username r /\ (sel (username r) = false \/ identity (f r) = identity r)) ->
  selected sel (alter f i l) = selected sel l.
Proof.
  revert i. induction l as [|r l IH]; intros i Hf; [done|]. destruct i as [|i].
  - change (alter f 0%nat (r :: l)) with (f r :: l). rewrite !selected_cons.
    destruct (Hf r eq_refl) as [Hu [Hs|Hi]]; rewrite Hu; [by rewrite Hs|by rewrite Hi].
  - change (alter f (S i) (r :: l)) with (r :: alter f i l). rewrite !selected_cons. f_equal. by apply IH.
Qed.

Lemma accounts_alter sel us us' f i :
  users_ us' = alter f i (users_ us) ->
  (forall r, users_ us !! i = Some r -> username (f r) = username r /\ (sel (username r) = false \/ identity (f r) = identity r)) ->
  accounts_confined sel us us'.
Proof. unfold accounts_confined. intros He Hf Hn. rewrite He. split; [by apply alter_nonempty|]. by apply selected_alter. Qed.

Lemma accounts_same sel us us' : users_ us' = users_ us -> accounts_confined sel us us'.
Proof. unfold accounts_confined. intros He Hn. by rewrite He. Qed.

Lemma identity_codes codes u : map bc_hash codes = map bc_hash (backup_codes u) -> identity (set_user_codes codes u) = identity u.
Proof. intros H. unfold identity. cbn. by rewrite H. Qed.

Lemma consume_code_hashes candidate codes : map bc_hash (consume_backup_code candidate codes).1 = map bc_hash codes.
Proof.
  destruct (consume_backup_code candidate codes) as [codes' r] eqn:Hc. apply consume_backup_code_cases in Hc. cbn [fst].
  destruct r as [[]|e]; [|by destruct Hc as [-> _]|by rewrite Hc]. destruct Hc as (i & _ & _ & -> & _).
  revert i. induction codes as [|c codes IH]; intros [|i]; [done..|].
  change (alter mark_used (S i) (c :: codes)) with (c :: alter mark_used i codes). cbn [map]. by rewrite IH.
Qed.

Lemma identity_counter j n u :
  identity (set_user_credentials (alter (set_sign_count n) j (webauthn_credentials u)) u) = identity u.
Proof.
  unfold identity. cbn. do 2 f_equal. generalize (webauthn_credentials u) as l. intros l. revert j.
  induction l as [|c l IH]; intros [|j]; [done..|]. cbn [map].
  change (alter (set_sign_count n) (S j) (c :: l)) with (c :: alter (set_sign_count n) j l). cbn [map]. by rewrite IH.
Qed.

Lemma create_if_empty_confined sel us salt now w u pw :
  accounts_confined sel us (create_if_empty salt now w u pw us).1.
Proof.
  intros Hn. unfold create_if_empty. rewrite bind_lift. destruct (validate_new_credentials u pw); [|done].
  rewrite bind_get. unfold Users.empty. by rewrite bool_decide_eq_false_2 by done.
Qed.

Lemma consume_code_confined sel us w u code : accounts_confined sel us (consume_user_backup_code w u code us).1.
Proof.
  unfold consume_user_backup_code. destruct (find_user u (users_ us)) as [i|]; [|by apply accounts_same].
  destruct (users_ us !! i) as [r|] eqn:Hr; [|by apply accounts_same].
  pose proof (consume_code_hashes code (backup_codes r)) as Hh.
  destruct (consume_backup_code code (backup_codes r)) as [codes [[]|]]; cbn [fst] in Hh;
    (eapply accounts_alter; [cbn [fst]; rewrite ?save_then_users; reflexivity|]; intros r' Hr'; split; [done|right];
     apply identity_codes; rewrite Hr in Hr'; by injection Hr' as <-).
Qed.

Lemma consume_step_confined sel us u step : accounts_confined sel us (consume_totp_step u step us).1.
Proof. apply accounts_same. unfold consume_totp_step. by repeat case_match. Qed.

Lemma sign_count_confined sel us w u id n : accounts_confined sel us (update_webauthn_sign_count w u id n us).1.
Proof.
  unfold update_webauthn_sign_count. destruct (locate u id us) as [[i j]|]; [|by apply accounts_same].
  eapply accounts_alter; [by rewrite save_users|]. intros r _. split; [done|right]. apply identity_counter.
Qed.
Hint Resolve confined_users create_if_empty_confined consume_code_confined consume_step_confined sign_count_confined : atomwall.

(** Operations on an account that is not selected. *)
Lemma own_account_confined sel us us' name f i :
  sel name = false -> find_user name (users_ us) = Some i -> (forall r, username (f r) = username r) ->
  users_ us' = alter f i (users_ us) -> accounts_confined sel us us'.
Proof.
  intros Hs Hi Hf He. eapply accounts_alter; [exact He|]. intros r Hr. split; [done|left].
  apply find_user_lookup in Hi as (r' & Hr' & <-). congruence.
Qed.

Lemma accounts_confined_trans sel a b c : accounts_confined sel a b -> accounts_confined sel b c -> accounts_confined sel a c.
Proof. intros H1 H2 Hn. destruct (H1 Hn) as [Hb E1]. destruct (H2 Hb) as [Hc E2]. split; [done|congruence]. Qed.

Section own.
Context (sel : str -> bool) (me : str) (Hme : sel me = false).

Lemma set_totp_confined us salts w secret codes : accounts_confined sel us (set_totp salts w me secret codes us).1.
Proof.
  unfold set_totp. destruct (find_user me (users_ us)) as [i|] eqn:Hi; [|by apply accounts_same].
  apply (accounts_confined_trans _ _ (with_users (alter (set_user_totp (Some secret)) i (users_ us)) us)).
  { by eapply (own_account_confined _ _ _ me (set_user_totp (Some secret)) i). }
  destruct (hash_backup_codes salts codes); [|by apply accounts_same].
  eapply (own_account_confined _ _ _ me (set_user_codes _) i); [done| |by intros|by rewrite save_users].
  cbn [users_ with_users]. by rewrite find_user_alter.
Qed.

Lemma handle_confined us rnd w : accounts_confined sel us (webauthn_user_handle rnd w me us).1.
Proof.
  unfold webauthn_user_handle. destruct (find_user me (users_ us)) as [i|] eqn:Hi; [|by apply accounts_same].
  repeat case_match; try by apply accounts_same. eapply (own_account_confined _ _ _ me (set_user_handle _) i); [done..|by rewrite save_then_users].
Qed.

Lemma add_credential_confined us w c : accounts_confined sel us (add_webauthn_credential w me c us).1.
Proof.
  unfold add_webauthn_credential. destruct (find_user me (users_ us)) as [i|] eqn:Hi; [|by apply accounts_same].
  eapply (own_account_confined _ _ _ me (fun u => set_user_credentials (webauthn_credentials u ++ [c]) u) i);
    [done| | |by rewrite save_users]; done.
Qed.

Lemma remove_credential_confined us w id : accounts_confined sel us (remove_webauthn_credential w me id us).1.
Proof.
  unfold remove_webauthn_credential, locate. destruct (find_user me (users_ us)) as [i|] eqn:Hi; [|by apply accounts_same].
  destruct (users_ us !! i ≫= _) as [j|]; [|by apply accounts_same].
  eapply (own_account_confined _ _ _ me (fun u => set_user_credentials (delete j (webauthn_credentials u)) u) i);
    [done| | |by rewrite save_then_users]; done.
Qed.
End own.
Hint Resolve set_totp_confined handle_confined add_credential_confined remove_credential_confined : atomwall.

(** The targets a request reaches without a session, and with a restricted
    one. *)
Definition reachable (restricted : bool) (t : str) : bool :=
  negb (needs_auth t) || (restricted && is_mfa_setup_allowed_route t).

Lemma not_reachable_under p t restricted :
  starts_with p "/api/" = true -> forallb (fun r => negb (starts_with r p)) public_api_routes = true ->
  (restricted = true -> forallb (fun r => negb (starts_with r p)) mfa_setup_routes = true) ->
  starts_with t p = true -> reachable restricted t = false.
Proof.
  intros Hp Hf Hm Ht. unfold reachable. rewrite (under_needs_auth p) by done. destruct restricted; [|done].
  apply not_true_is_false. intros (r & Hr & <-%bool_decide_eq_true)%existsb_exists.
  specialize (Hm eq_refl). rewrite forallb_forall in Hm. specialize (Hm _ Hr). by rewrite Ht in Hm.
Qed.

Ltac not_reachable :=
  exfalso;
  repeat match goal with H : _ && _ = true |- _ => apply andb_true_iff in H as [? ?] end;
  lazymatch goal with
  | Hr : reachable _ (target _) = true, Ht : starts_with (target _) ?p = true |- _ =>
      rewrite (not_reachable_under p _ _ eq_refl eq_refl) in Hr; [discriminate Hr|by vm_compute|exact Ht]
  | Hr : reachable _ (target _) = true, Ht : (target _ == _) = true |- _ =>
      apply bool_decide_eq_true in Ht; rewrite Ht in Hr; vm_compute in Hr; discriminate Hr
  end.

Lemma reachable_rows restricted sel env request user ip s :
  reachable restricted (target (rq_header request)) = true -> (restricted = true -> sel user = false) ->
  Forall (fun row => row.1 = true -> confined sel s (row.2 s).1)
    (import_routes env request user ++ routes env request user ip).
Proof.
  intros Hr Hu. destruct restricted; [specialize (Hu eq_refl)|clear Hu]; each_row.
  all: first [ not_reachable | by_keeps ].
Qed.

Lemma reachable_steps restricted sel env request user ip :
  reachable restricted (target (rq_header request)) = true -> (restricted = true -> sel user = false) ->
  Forall (fun row => row.1 = true -> steps_by (confined sel) row.2) (auth_steps env request user ip).
Proof.
  intros Hr Hu. destruct restricted; [specialize (Hu eq_refl)|clear Hu]; each_step_row.
  all: first [ not_reachable | steps_to_keeps; keeps_handler ].
Qed.

(** C6: Without a session, a request is answered 401 with nothing changed, or it
    reaches a route that is open to everyone. These never change the
    configuration or the bans; and once an account exists (before that, anybody
    may set up the first one) they leave the set of accounts and what
    authenticates each of them - name, password hash, TOTP secret, passkeys,
    hashes of the backup codes - as they were: a login can spend a backup code
    but not replace one. *)
Theorem no_session_no_power env ip x s :
  session_of (t_gate env) (x_header x) s = None ->
  let '(s', served) := handle_exchange env ip x s in
  config_store s' = config_store s /\ ip_blocks s' = ip_blocks s /\
  (users_ (users s) <> [] -> map identity (users_ (users s')) = map identity (users_ (users s))) /\
  (needs_auth (target (x_header x)) = true ->
     s' = s /\ served = Ok (Answered (error_response 401 "unauthorized") false)).
Proof.
  intros Hs.
  assert (confined (fun _ => true) s (handle_exchange env ip x s).1) as (Hc & Hb & Ha).
  { apply handle_exchange_elim; [reflexivity|]. intros user body keep Hg _. unfold session_gate in Hg.
    rewrite Hs in Hg. destruct (needs_auth _) eqn:Hn; [done|].
    apply (reachable_rows false); [|done]. unfold reachable. cbn [rq_header]. by rewrite Hn. }
  destruct (handle_exchange env ip x s) as [s' served] eqn:He. cbn [fst] in *. split_and!; [done|done| |].
  - intros Hn%Ha. destruct Hn as [_ Hn]. unfold selected in Hn.
    assert (forall l : list UserRecord, filter (fun u => true = true) l = l) as Hid.
    { intros l. induction l as [|u l IH]; [done|]. rewrite filter_cons, decide_True by done. by f_equal. }
    by rewrite !Hid in Hn.
  - intros Hn. unfold handle_exchange in He. rewrite bind_get in He. unfold session_gate in He.
    rewrite Hs, Hn in He. by injection He as <- <-.
Qed.

(** C12: A session that has yet to enrol a second factor reaches nothing but
    logging out and enrolling: any other protected route is answered 403 with
    nothing changed, and no request of its changes the configuration, the
    bans or what authenticates another account. *)
Theorem restricted_session_confined env ip x s session :
  session_of (t_gate env) (x_header x) s = Some session -> Sessions.info_needs_mfa_setup session = true ->
  users_ (users s) <> [] ->
  let me := Sessions.info_username session in
  let others us := map identity (filter (fun u => negb (username u == me) = true) us) in
  let '(s', served) := handle_exchange env ip x s in
  config_store s' = config_store s /\ ip_blocks s' = ip_blocks s /\
  others (users_ (users s')) = others (users_ (users s)) /\
  (needs_auth (target (x_header x)) = true -> is_mfa_setup_allowed_route (target (x_header x)) = false ->
     s' = s /\ served = Ok (Answered (error_response 403 "mfa_setup_required") false)).
Proof.
  intros Hs Hm Hne me others.
  assert (confined (fun name => negb (name == me)) s (handle_exchange env ip x s).1) as (Hc & Hb & Ha).
  { apply handle_exchange_elim; [reflexivity|]. intros user body keep Hg _. unfold session_gate in Hg.
    rewrite Hs in Hg. apply (reachable_rows (needs_auth (target (x_header x)))); unfold reachable; cbn [rq_header].
    - destruct (needs_auth _); [|done]. rewrite Hm in Hg. by destruct (is_mfa_setup_allowed_route _).
    - intros Hn. rewrite Hn, Hm in Hg. destruct (is_mfa_setup_allowed_route _); [|done]. injection Hg as <-.
      by rewrite bool_decide_eq_true_2. }
  destruct (handle_exchange env ip x s) as [s' served] eqn:He. cbn [fst] in *.
  split_and!; [done|done|by apply (Ha Hne)|].
  intros Hn Hal. unfold handle_exchange in He. rewrite bind_get in He. unfold session_gate in He.
  rewrite Hs, Hn, Hm, Hal in He. by injection He as <- <-.
Qed.
End access.

(** ** Witnesses: a stranger, and Carol before her enrolment, at the
    emergency switch *)

Definition stranger_off : AdminExchange := demo_exchange "PUT" "/api/emergency-off" "" "off".
Definition carol_off : AdminExchange := demo_exchange "PUT" "/api/emergency-off" "atomwall_session=07" "off".

Lemma no_session_no_power_witness :
  session_of (t_gate (demo_env [1])) (x_header stranger_off) carol_state = None /\
  needs_auth (target (x_header stranger_off)) = true /\
  handle_exchange (demo_env [1]) "198.51.100.7" stranger_off carol_state =
    (carol_state, Ok (Answered (error_response 401 "unauthorized") false)).
Proof.
  assert (session_of (t_gate (demo_env [1])) (x_header stranger_off) carol_state = None) as Hs by (vm_compute; reflexivity).
  assert (needs_auth (target (x_header stranger_off)) = true) as Hn by (vm_compute; reflexivity).
  split; [exact Hs|]. split; [exact Hn|].
  pose proof (no_session_no_power (demo_env [1]) "198.51.100.7" stranger_off carol_state Hs) as H.
  destruct (handle_exchange _ _ _ _) as [s' served]. destruct H as (_ & _ & _ & H).
  destruct (H Hn) as [-> ->]. reflexivity.
Defined.

Lemma restricted_session_confined_witness :
  session_of (t_gate (demo_env [1])) (x_header carol_off) carol_state =
    Some (Sessions.mkInfo "carol" true) /\
  handle_exchange (demo_env [1]) "198.51.100.7" carol_off carol_state =
    (carol_state, Ok (Answered (error_response 403 "mfa_setup_required") false)).
Proof.
  assert (session_of (t_gate (demo_env [1])) (x_header carol_off) carol_state =
    Some (Sessions.mkInfo "carol" true)) as Hs by (vm_compute; reflexivity).
  split; [exact Hs|].
  assert (users_ (users carol_state) <> []) as Hu by (vm_compute; discriminate).
  pose proof (restricted_session_confined (demo_env [1]) "198.51.100.7" carol_off carol_state _ Hs eq_refl Hu) as H.
  cbv zeta in H. destruct (handle_exchange _ _ _ _) as [s' served]. destruct H as (_ & _ & _ & H).
  destruct (H ltac:(vm_compute; reflexivity) ltac:(vm_compute; reflexivity)) as [-> ->]. reflexivity.
Defined.
