(* ===== verification/AdminFactors.v ===== *)
(** * AdminFactors: second factors over whole requests

    While two-factor authentication is required, no request takes the last
    factor of an account away; and a session restricted to enrolment becomes a
    full one only when its account has a factor. *)
From S2P Require Import Prelude Text Net Config Checks Json Totp Passwords Users EventLogs Cbor Webauthn.
From S2P Require Import BlacklistOps AdminBase JsonView AdminAuth AdminLogin AdminConfig Admin AdminDemo.
From S2P Require IpBlocks RequestLog ConfigStore Files Sites.

(** ** Removing accounts and credentials *)

(** [find] as a search of the list. *)
Lemma find_list u us : Users.find u us = snd <$> list_find (fun r => username r = u) (users_ us).
Proof.
  unfold Users.find, find_user. destruct (list_find _ (users_ us)) as [[i r]|] eqn:H; [|done].
  by apply list_find_Some in H as [H _].
Qed.

Lemma first_cons u (r : UserRecord) l :
  snd <$> list_find (fun r => username r = u) (r :: l) =
  if decide (username r = u) then Some r else snd <$> list_find (fun r => username r = u) l.
Proof. cbn [list_find]. destruct (decide (username r = u)); [done|]. by destruct (list_find _ l) as [[]|]. Qed.

Lemma first_absent u (l : list UserRecord) :
  u ∉ map username l -> snd <$> list_find (fun r => username r = u) l = None.
Proof.
  induction l as [|r l IH]; [done|]. cbn [map]. rewrite not_elem_of_cons. intros [Hne Hl]. rewrite first_cons.
  rewrite decide_False by congruence. by apply IH.
Qed.

Lemma first_delete u name i (l : list UserRecord) r0 :
  NoDup (map username l) -> l !! i = Some r0 -> username r0 = name ->
  snd <$> list_find (fun r => username r = u) (delete i l) =
  if decide (u = name) then None else snd <$> list_find (fun r => username r = u) l.
Proof.
  revert i. induction l as [|r l IH]; intros i Hnd; [done|]. cbn [map] in Hnd. apply NoDup_cons in Hnd as [Hr Hnd].
  destruct i as [|i]; cbn [lookup list_lookup].
  - intros [= ->] <-. change (delete 0%nat (r0 :: l)) with l. rewrite first_cons.
    destruct (decide (u = username r0)) as [->|Hne]; [by apply first_absent|by rewrite decide_False by congruence].
  - intros Hi Hn. change (delete (S i) (r :: l)) with (r :: delete i l). rewrite !first_cons.
    destruct (decide (username r = u)) as [Hu|Hne]; [|by apply IH].
    destruct (decide (u = name)) as [Hun|]; [|done]. exfalso. apply Hr, list_elem_of_In, in_map_iff.
    exists r0. split; [congruence|]. apply list_elem_of_In. by eapply list_elem_of_lookup_2.
Qed.

Lemma remove_find w name us u :
  NoDup (map username (users_ us)) ->
  Users.find u (Users.remove w name us).1 = None \/ Users.find u (Users.remove w name us).1 = Users.find u us.
Proof.
  intros Hnd. unfold Users.remove. destruct (find_user name (users_ us)) as [i|] eqn:Hi; [|by right].
  destruct (length (users_ us) =? 1)%nat; [by right|]. rewrite !find_list, save_then_users.
  apply find_user_lookup in Hi as (r0 & Hr & Hn). rewrite (first_delete _ name _ _ r0) by done.
  destruct (decide (u = name)); [by left|by right].
Qed.

Lemma delete_nonempty {A} j (l : list A) : (2 <= length l)%nat -> delete j l <> [].
Proof. destruct l as [|a [|b l]]; cbn; [lia..|]. by destruct j as [|[|j]]. Qed.

(** ** Second factors under [require_2fa] *)

(** What the requests that remove nothing of an account do to [u]. *)
Definition factor_kept (u : str) (s s' : AdminState) : Prop := protects u (users s) (users s').

#[export] Instance factor_kept_preorder u : PreOrder (factor_kept u).
Proof. split; [by intros s H|]. intros a b c H1 H2 Ha. by apply H2, H1. Qed.

Ltac factor_leaf :=
  unfold factor_kept; cbn [users];
  first [ apply create_protects | apply create_if_empty_protects | apply set_totp_protects | apply regenerate_protects
        | apply consume_code_protects | apply consume_step_protects | apply handle_protects | apply add_credential_protects
        | apply sign_count_protects | apply protects_same; reflexivity ].
#[export] Hint Extern 1 (factor_kept _ _ _) => factor_leaf : atomwall.

Section factors.
Context `{Asio : AsioIp} `{Kdf : Pbkdf2} `{Hmac : HmacSha1} `{Sha : Sha256} `{Lib : LibCbor} `{E : Evp} `{J : JsonText}.
Context `{Fs : Files.StaticFiles.FileSystem}.

(** The account exists and has a second factor. *)
Definition enrolled (u : str) (us : UserStore) : bool :=
  match Users.find u us with Some rec => has_factor rec | None => false end.

(** It is what the store's own query answers. *)
Lemma enrolled_has_second_factor u us : enrolled u us = has_second_factor u us.
Proof. unfold enrolled, has_second_factor, Users.find. by destruct (find_user u (users_ us)). Qed.

Lemma enrolled_protected u us : enrolled u us = true <-> protected u us.
Proof.
  unfold enrolled, protected. destruct (Users.find u us) as [rec|]; split; try done.
  - intros H. by exists rec.
  - by intros (r & [= ->] & H).
  - by intros (r & [=] & _).
Qed.

Definition kept_or_gone (u : str) (us : UserStore) : Prop := Users.find u us = None \/ protected u us.

Lemma disable_refused env user body s :
  require_2fa (security (config_of s)) = true -> (handle_auth_2fa_totp_disable env user body s).1 = s.
Proof.
  intros Hr. unfold handle_auth_2fa_totp_disable. destruct (body_password body); [|done]. mrun.
  destruct (verify_current_password _ _ _) as [[]|]; [|done..]. cbn [negb]. by rewrite Hr.
Qed.

Lemma only_factor_refused env user id s u :
  require_2fa (security (config_of s)) = true -> factor_kept u s (handle_webauthn_delete env user id s).1.
Proof.
  intros Hr. unfold handle_webauthn_delete. mrun. destruct (Users.find user (users s)) as [r|] eqn:Hf; [|by intros ?].
  rewrite Hr, andb_true_r. destruct (negb (bool_decide (is_Some (totp r))) && _) eqn:Ho; [by intros ?|].
  assert (factor_kept u s (on_users (remove_webauthn_credential (users_written env) user id) s).1) as Hk.
  { unfold on_users, factor_kept. destruct (remove_webauthn_credential _ _ _ _) as [us o] eqn:He. cbn [fst users].
    change us with (us, o).1. rewrite <- He. unfold remove_webauthn_credential, locate.
    unfold Users.find in Hf. destruct (find_user user (users_ (users s))) as [i|] eqn:Hi; [|by intros ?].
    rewrite Hf. cbn [mbind option_bind]. destruct (find_credential id _) as [j|]; [|by intros ?].
    eapply (protects_alter_at _ _ _ (fun v => set_user_credentials (delete j (webauthn_credentials v)) v) i);
      [done| |by rewrite save_then_users].
    intros r' Hr' Hh. assert (r' = r) as -> by congruence. unfold has_factor. cbn.
    destruct (bool_decide (is_Some (totp r))) eqn:Ht; [done|]. cbn in Ho. apply Nat.leb_gt in Ho.
    by rewrite bool_decide_eq_false_2 by (apply delete_nonempty; lia). }
  unfold mbind, M_bind. destruct (on_users _ s) as [s' [[]|]]; done.
Qed.

Lemma delete_kept_or_gone env name s u :
  NoDup (map username (users_ (users s))) -> protected u (users s) ->
  kept_or_gone u (users (handle_users_delete env name s).1).
Proof.
  intros Hnd Hp. assert (kept_or_gone u (Users.remove (users_written env) name (users s)).1) as Hk.
  { destruct (remove_find (users_written env) name (users s) u Hnd) as [Hn|He]; [by left|right].
    destruct Hp as (r & Hr & Hh). exists r. by rewrite He. }
  unfold handle_users_delete, attempt, on_users, mbind, M_bind.
  destruct (Users.remove _ _ _) as [us [[]|[]]]; exact Hk.
Qed.

Lemma factor_rows env request user ip s u :
  accounts_ok (users_ (users s)) -> require_2fa (security (config_of s)) = true -> protected u (users s) ->
  Forall (fun row => row.1 = true -> kept_or_gone u (users (row.2 s).1))
    (import_routes env request user ++ routes env request user ip).
Proof.
  intros [Hnd _] Hr Hp. each_row.
  all: first
    [ by apply delete_kept_or_gone
    | right; rewrite disable_refused by done; done
    | right; apply only_factor_refused; done
    | right; match goal with |- protected _ (users ?s').1 => idtac | |- protected _ (users ?s') =>
        cut (factor_kept u s s'); [intros Hf; by apply Hf|] end; by_keeps ].
Qed.

(** C10: While two-factor authentication is required, no request, of whoever,
    leaves an account that has a second factor without one: the account keeps
    a factor or is deleted. This is about a request that no other one
    overlaps; about those that do, see [SystemRaces]. *)
Theorem second_factor_required_stays env ip x s u :
  accounts_ok (users_ (users s)) -> require_2fa (security (config_of s)) = true ->
  enrolled u (users s) = true ->
  let s' := (handle_exchange env ip x s).1 in
  enrolled u (users s') = true \/ Users.find u (users s') = None.
Proof.
  intros Hok Hr Hp%enrolled_protected s'. rewrite enrolled_protected. apply or_comm. change (kept_or_gone u (users s')).
  apply handle_exchange_elim; [by right|]. intros user body keep _ _. by apply factor_rows.
Qed.

(** ** How a restricted session becomes a full one *)

(** No session appears or changes, but for one under the token drawn. *)
Definition sessions_shrink (env : Env) (s s' : AdminState) : Prop :=
  forall token sess, random_token_hex (rnd_token env) <> Ok token ->
    sessions s' !! token = Some sess -> sessions s !! token = Some sess.

#[local] Instance sessions_shrink_preorder env : PreOrder (sessions_shrink env).
Proof. split; [by intros s token sess _|]. intros a b c H1 H2 t sess Hn Hs. by apply H1, H2. Qed.

Lemma shrink_same env s s' : sessions s' = sessions s -> sessions_shrink env s s'.
Proof. intros He t sess _. by rewrite He. Qed.

Lemma shrink_create env now ttl u needs s :
  sessions_shrink env s
    (mkState (config_store s) (users s) (Sessions.create (rnd_token env) now ttl u needs (sessions s)).1 (pending_mfa s)
       (pending_totp s) (webauthn_challenges s) (login_history s) (ip_blocks s) (request_log s) (globe_events s)).
Proof. intros t sess Hn Hs. cbn [sessions] in Hs. by apply create_sessions in Hs as [|[? _]]. Qed.

Lemma shrink_invalidate env token s :
  sessions_shrink env s
    (mkState (config_store s) (users s) (Sessions.invalidate token (sessions s)) (pending_mfa s)
       (pending_totp s) (webauthn_challenges s) (login_history s) (ip_blocks s) (request_log s) (globe_events s)).
Proof. intros t sess _ Hs. cbn in Hs. unfold Sessions.invalidate in Hs. by apply lookup_delete_Some in Hs as [_ ?]. Qed.
Hint Resolve shrink_create shrink_invalidate : atomwall.
Hint Extern 2 (sessions_shrink _ _ _) => (apply shrink_same; reflexivity) : atomwall.

(** The sessions after a request of [user]: those there were, or the one of
    the request itself, once [user] has a factor. *)
Definition lifted_by_enrolment (env : Env) (h : request_header) (user : str) (s s' : AdminState) : Prop :=
  forall token sess, random_token_hex (rnd_token env) <> Ok token -> sessions s' !! token = Some sess ->
    sessions s !! token = Some sess \/
    (extract_session_token h = Some token /\ inherited token sess s /\ protected user (users s')).

Lemma shrink_lifted env h user s s' : sessions_shrink env s s' -> lifted_by_enrolment env h user s s'.
Proof. intros H token sess Hn Hs. left. by apply (H token). Qed.

(** The last step of both enrolments. *)
Lemma mark_lifted env request user s s1 (k : M AdminState Response) :
  sessions s1 = sessions s -> protected user (users s1) -> (forall s, (k s).1 = s) ->
  lifted_by_enrolment env (rq_header request) user s ((_ ← mark_session_satisfied request; k) s1).1.
Proof.
  intros Hs Hp Hk. unfold mark_session_satisfied. destruct (extract_session_token _) as [t|] eqn:Ht.
  - unfold on_sessions, mbind, M_bind. cbn [pure_op]. rewrite Hk. intros token sess _ H. cbn [sessions users] in *.
    rewrite Hs in H. unfold Sessions.mark_mfa_satisfied in H. apply lookup_alter_Some in H as [(<- & old & Ho & ->)|(_ & H)]; [right|by left].
    split_and!; [done|by exists old|done].
  - rewrite bind_ret, Hk. intros token sess _ H. left. by rewrite Hs in H.
Qed.

Lemma lifted_catch env h user s st s1 m :
  lifted_by_enrolment env h user s (m s1).1 -> lifted_by_enrolment env h user s (catch_invalid st m s1).1.
Proof. intros Hm. unfold catch_invalid. by destruct (m s1) as [s' [r|[]]]. Qed.

Lemma set_totp_protected salts w user secret codes us us' :
  set_totp salts w user secret codes us = (us', Ok tt) -> protected user us'.
Proof.
  unfold set_totp. destruct (find_user user (users_ us)) as [i|] eqn:Hi; [|done].
  destruct (hash_backup_codes _ _) as [hs|]; [|done]. intros He.
  assert (users_ us' = alter (set_user_codes hs) i (alter (set_user_totp (Some secret)) i (users_ us))) as Hu.
  { change us' with (us', Ok tt : outcome unit).1. rewrite <- He. by rewrite save_users. }
  apply find_user_lookup in Hi as Hl. destruct Hl as (r & Hr & Hn).
  unfold protected, Users.find. rewrite Hu, !find_user_alter, Hi by done.
  rewrite !list_lookup_alter_eq, Hr. by eexists.
Qed.

Lemma add_credential_protected w user c us us' :
  add_webauthn_credential w user c us = (us', Ok tt) -> protected user us'.
Proof.
  unfold add_webauthn_credential. destruct (find_user user (users_ us)) as [i|] eqn:Hi; [|done]. intros He.
  assert (users_ us' = alter (fun u => set_user_credentials (webauthn_credentials u ++ [c]) u) i (users_ us)) as Hu.
  { change us' with (us', Ok tt : outcome unit).1. rewrite <- He. by rewrite save_users. }
  apply find_user_lookup in Hi as Hl. destruct Hl as (r & Hr & Hn).
  unfold protected, Users.find. rewrite Hu, find_user_alter, Hi by done. rewrite list_lookup_alter_eq, Hr.
  eexists. split; [done|]. apply factor_credentials. by destruct (webauthn_credentials r).
Qed.

Lemma confirm_lifted env request user s :
  lifted_by_enrolment env (rq_header request) user s (handle_auth_2fa_totp_confirm env request user s).1.
Proof.
  assert (lifted_by_enrolment env (rq_header request) user s s) as Hs by (by apply shrink_lifted).
  unfold handle_auth_2fa_totp_confirm. mrun. destruct (PendingTotp.secret_for _ _ _) as [secret|]; [|done].
  destruct (body_code request) as [code|]; [|done]. mrun. destruct (verify_totp _ _ _) as [[step|]|]; [|done..]. mrun.
  destruct (generate_backup_codes _ _) as [codes|]; [|done].
  unfold attempt, on_users. unfold mbind at 1, M_bind at 1.
  destruct (set_totp _ _ _ _ _ (users s)) as [us [[]|[]]] eqn:Ht; [|by apply shrink_lifted, shrink_same..].
  unfold mbind at 1, M_bind at 1. cbn [users].
  assert (protected user (consume_totp_step user step us).1) as Hp
    by (apply consume_step_protects; by eapply set_totp_protected).
  destruct (consume_totp_step user step us) as [us2 [b|]]; [|by apply shrink_lifted, shrink_same].
  unfold on_pending_totp. unfold mbind at 1, M_bind at 1. by apply mark_lifted.
Qed.

Lemma register_lifted env request user s :
  lifted_by_enrolment env (rq_header request) user s (handle_webauthn_register_verify env request user s).1.
Proof.
  unfold handle_webauthn_register_verify. destruct (parse_json_object _) as [b|]; [|by apply shrink_lifted].
  destruct (parse_credential_fields b true) as [f|]; [|by apply shrink_lifted]. cbv zeta.
  unfold on_challenges at 1. unfold mbind at 1, M_bind at 1.
  destruct (Challenges.consume _ _ _) as [t [ch|]]; [|by apply shrink_lifted, shrink_same].
  mrun. apply lifted_catch. mrun. destruct (verify_webauthn_registration _ _ _ _ _) as [result|]; [|by apply shrink_lifted, shrink_same].
  unfold on_users. unfold mbind at 1, M_bind at 1. cbn [users].
  destruct (add_webauthn_credential _ _ _ (users s)) as [us [[]|]] eqn:Ha; [|by apply shrink_lifted, shrink_same].
  apply mark_lifted; [done| |done]. by eapply add_credential_protected.
Qed.

Lemma lifting_rows env request user ip s :
  Forall (fun row => row.1 = true ->
      sessions_shrink env s (row.2 s).1 \/
      needs_auth (target (rq_header request)) = true /\ lifted_by_enrolment env (rq_header request) user s (row.2 s).1)
    (import_routes env request user ++ routes env request user ip).
Proof.
  each_row.
  all: first
    [ right; split; [|first [ apply confirm_lifted | apply register_lifted ]];
      apply andb_true_iff in Hguard as [_ Hguard%bool_decide_eq_true]; by rewrite Hguard
    | left; by_keeps ].
Qed.

(** C16: A session restricted to enrolment becomes a full one by a request of its
    own only, after which its account has a second factor. (A session drawn
    in the same request under the same token would be a new one.) *)
Theorem restriction_lifted_only_by_enrolment env ip x s token old sess :
  sessions s !! token = Some old -> Sessions.needs_mfa_setup old = true ->
  random_token_hex (rnd_token env) <> Ok token ->
  let s' := (handle_exchange env ip x s).1 in
  sessions s' !! token = Some sess -> Sessions.needs_mfa_setup sess = false ->
  extract_session_token (x_header x) = Some token /\ Sessions.sess_username sess = Sessions.sess_username old /\
  enrolled (Sessions.sess_username sess) (users s') = true.
Proof.
  intros Ho Hm Hd s' Hs Hf.
  assert (sess = old \/ extract_session_token (x_header x) = Some token /\
            inherited token sess s /\ protected (Sessions.sess_username old) (users s')) as [He|(Ht & (o & Hl & Hu & _) & Hp)].
  - revert Hs. apply (handle_exchange_elim (fun s' => sessions s' !! token = Some sess ->
      sess = old \/ _ /\ _ /\ protected _ (users s'))); [left; congruence|].
    intros user body keep Hg _. cbv zeta.
    eapply Forall_impl; [apply (lifting_rows env _ user ip s)|]. intros row Hrow Hguard Hs.
    destruct (Hrow Hguard) as [H|[Hn H]]; [left; specialize (H token sess Hd Hs); congruence|].
    destruct (H token sess Hd Hs) as [Hl|(Ht & Hi & Hp)]; [left; congruence|right]. cbn [rq_header] in Ht, Hn.
    split_and!; [done..|]. unfold session_gate in Hg. rewrite Hn in Hg. unfold session_of in Hg. rewrite Ht in Hg.
    unfold Sessions.validate in Hg. rewrite Ho in Hg. destruct (_ >? _); [done|].
    destruct (_ && _); [done|]. by injection Hg as <-.
  - exfalso. congruence.
  - rewrite Ho in Hl. injection Hl as <-. rewrite <- Hu. split_and!; [done..|]. by apply enrolled_protected.
Qed.
End factors.

(** ** Witnesses: the administrator tries to switch TOTP off, and Carol
    enrols *)

Definition admin_disable : AdminExchange :=
  demo_exchange "POST" "/api/auth/2fa/totp/disable" "atomwall_session=09" "password".

Lemma admin_state_ok : accounts_ok (users_ (users admin_state)).
Proof. vm_compute. split; repeat constructor; set_solver. Qed.

Lemma second_factor_required_stays_witness :
  status <$> (match (handle_exchange (demo_env [1]) "127.0.0.1" admin_disable admin_state).2 with
              | Ok (Answered r _) => Some r | _ => None end) = Some 400 /\
  enrolled "admin" (users (handle_exchange (demo_env [1]) "127.0.0.1" admin_disable admin_state).1) = true.
Proof.
  split; [vm_compute; reflexivity|].
  assert (enrolled "admin" (users admin_state) = true) as Hp by (vm_compute; reflexivity).
  assert (require_2fa (security (config_of admin_state)) = true) as Hr by (vm_compute; reflexivity).
  destruct (second_factor_required_stays (demo_env [1]) "127.0.0.1" admin_disable admin_state "admin" admin_state_ok Hr Hp)
    as [H|H]; [exact H|]. exfalso. revert H. vm_compute. discriminate.
Defined.

Lemma restriction_lifted_only_by_enrolment_witness :
  exists sess, sessions (demo_run [1] carol_confirm carol_enrolling) !! lit "07" = Some sess /\
    Sessions.needs_mfa_setup sess = false /\
    enrolled (Sessions.sess_username sess) (users (demo_run [1] carol_confirm carol_enrolling)) = true.
Proof.
  exists (Sessions.mkSession "carol" false (demo_now + 12 * ns_per_hour)).
  assert (sessions (demo_run [1] carol_confirm carol_enrolling) !! lit "07" =
            Some (Sessions.mkSession "carol" false (demo_now + 12 * ns_per_hour))) as Hs by (vm_compute; reflexivity).
  assert (sessions carol_enrolling !! lit "07" = Some (Sessions.mkSession "carol" true (demo_now + 12 * ns_per_hour))) as Ho
    by (vm_compute; reflexivity).
  split; [exact Hs|]. split; [reflexivity|].
  exact (proj2 (proj2 (restriction_lifted_only_by_enrolment (demo_env [1]) "127.0.0.1" carol_confirm carol_enrolling
    (lit "07") _ _ Ho eq_refl ltac:(vm_compute; discriminate) Hs eq_refl))).
Defined.

(** ** Deleting an account leaves its sessions alone *)

Definition delete_carol : AdminExchange := demo_exchange "DELETE" "/api/users/carol" "atomwall_session=09" "".

(** Carol's account is gone, her session still answers for her. *)
Example deleted_account_keeps_its_session :
  let s := demo_run [1] delete_carol admin_state in
  Users.find "carol" (users s) = None /\
  session_of demo_now (x_header carol_setup) s = Some (Sessions.mkInfo "carol" true).
Proof. vm_compute. split; reflexivity. Qed.
