(* ===== verification/AdminValid.v ===== *)
(** * AdminValid: what the admin API keeps true of the configuration

    The well-formedness of a configuration as the components downstream rely
    on it, kept by every request; and the error behaviour of the API: what a
    request changes of configuration and bans, it acknowledges. *)
From S2P Require Import Prelude Text Net Config Checks Json Numeric Totp Passwords Users EventLogs Cbor Webauthn Sites.
From S2P Require Import BlacklistOps AdminBase JsonView AdminAuth AdminLogin AdminConfig Admin Interleave AdminSteps AdminSafety AdminDemo.
From S2P Require IpBlocks RequestLog ConfigStore Files.
From Stdlib Require Import SpecFloat.

(** ** Well-formed configurations *)

Definition port_ok (p : Z) : Prop := 0 < p < 65536.

(** A coordinate is absent or within its bound. *)
Definition coordinate_ok (bound : Z) (v : option spec_float) : Prop :=
  forall d, v = Some d -> SFltb d (double_of_Z (- bound)) = false /\ SFltb (double_of_Z bound) d = false.

(** A setter whose value the invariant does not restrict, or restricts in a
    way the checks before it ensure. *)
Ltac setter := intros; intros []; split; cbn; try assumption; try done.

Section valid.
Context `{Asio : AsioIp}.

Record config_ok (c : RuntimeConfig) : Prop := {
  ok_sites : sites_ok (sites c);
  ok_site_ports : Forall (fun s => port_ok (upstream_port (site_upstream s))) (sites c);
  ok_pages : pages_ok (status_pages (pages c));
  ok_lists : lists_ok c;
  ok_ban : 0 < threshold (ban c) /\ 0 < ban_duration_hours (ban c) <= kMaxBanDurationHours;
  ok_speed : 0 < max_requests (speed_check c) /\ 0 < window_seconds (speed_check c);
  ok_body_limit : 0 <= max_body_size_bytes (blacklist c);
  ok_globe : port_ok (public_port (globe c)) /\ 0 < history_size (globe c) /\
             coordinate_ok 90 (server_lat (globe c)) /\ coordinate_ok 180 (server_lon (globe c)) }.

Lemma config_ok_default : config_ok default_config.
Proof.
  split; cbn; [by split; constructor|done|by split; constructor|apply lists_ok_default|..]; unfold port_ok, kMaxBanDurationHours;
    split_and?; try lia; by intros ?.
Qed.

(** A mutator that leads from well-formed configurations to well-formed ones,
    whether it throws or not. *)
Definition ok_kept (c c' : RuntimeConfig) : Prop := config_ok c -> config_ok c'.
#[local] Instance ok_kept_preorder : PreOrder ok_kept.
Proof. split; [by intros c H|]. intros a b c H1 H2 Ha. by apply H2, H1. Qed.

Lemma kept_mutate f : (forall c, ok_kept c (f c)) -> keeps ok_kept (mutate f).
Proof. intros Hf c. apply Hf. Qed.
Lemma kept_mutate_or_throw f : (forall c c', f c = Ok c' -> ok_kept c c') -> keeps ok_kept (mutate_or_throw f).
Proof. intros Hf c. unfold mutate_or_throw. destruct (f c) eqn:E; [by apply Hf|done]. Qed.
Lemma kept_assign {A} (field : option A) set : (forall v c, ok_kept c (set v c)) -> keeps ok_kept (assign field set).
Proof. intros Hs. destruct field; [by apply kept_mutate|apply keeps_ret; apply _]. Qed.
Lemma kept_assign_checked {A} (field : option A) bad msg set :
  (forall v c, bad v = false -> ok_kept c (set v c)) -> keeps ok_kept (assign_checked field bad msg set).
Proof.
  intros Hs. destruct field as [v|]; [|apply keeps_ret; apply _]. cbn. destruct (bad v) eqn:E; [apply keeps_throw; apply _|].
  apply kept_mutate. eauto.
Qed.

Lemma kept_ban b : keeps ok_kept (ban_mutator b).
Proof.
  unfold ban_mutator. cbv zeta. apply (keeps_bind _); [apply kept_assign; setter|intros _].
  apply (keeps_bind _); [apply kept_assign_checked; setter; lia|intros _].
  apply (keeps_bind _); [apply kept_assign_checked; setter; lia|intros _].
  apply kept_assign. intros members. induction members as [|[name points] members IH]; intros c; [done|]. cbn [foldl].
  etransitivity; [|apply IH]. destruct (number_of points); [setter|done].
Qed.

Lemma kept_speed b : keeps ok_kept (speed_mutator b).
Proof.
  unfold speed_mutator. cbv zeta. apply (keeps_bind _); [apply kept_assign; setter|intros _].
  apply (keeps_bind _); [|intros _]; apply kept_assign_checked; setter; lia.
Qed.

Lemma kept_methods b : keeps ok_kept (method_mutator b).
Proof.
  unfold method_mutator. apply (keeps_bind _); [apply kept_assign; setter|intros _].
  destruct (jfind b _) as [[]|]; try (apply keeps_ret; apply _). intros c. unfold set_methods.
  cbv zeta. destruct (_ && _); [done|]. cbn [fst]. setter.
Qed.

Lemma kept_coordinate v bound msg set :
  (forall d c, coordinate_ok bound d -> ok_kept c (set d c)) -> keeps ok_kept (assign_coordinate v bound msg set).
Proof.
  intros Hs. unfold assign_coordinate. assert (keeps ok_kept (mutate (set None))) as Hn by (apply kept_mutate; intros; by apply Hs).
  assert (forall value, keeps ok_kept match number_of value with
      | Some d => if SFltb d (double_of_Z (- bound)) || SFltb (double_of_Z bound) d
                  then throwM (InvalidArgument msg) else mutate (set (Some d))
      | None => mret tt end) as Hv.
  { intros value. destruct (number_of value) as [d|]; [|apply keeps_ret; apply _].
    destruct (_ || _) eqn:Hd; [apply keeps_throw; apply _|]. apply orb_false_iff in Hd.
    apply kept_mutate. intros c. apply Hs. by intros ? [= <-]. }
  destruct v as [[]|]; try apply Hv; [done|apply keeps_ret; apply _].
Qed.

Lemma good_port v : bad_port v = false -> port_ok (wrap16 v).
Proof. unfold bad_port, port_ok, wrap16. intros H. rewrite Z.mod_small by lia. lia. Qed.

Lemma kept_globe b : keeps ok_kept (globe_mutator b).
Proof.
  unfold globe_mutator. cbv zeta.
  repeat (apply (keeps_bind _); [first [ apply kept_assign | apply kept_assign_checked | apply kept_coordinate ]|intros _]);
    [..|apply kept_assign_checked].
  all: setter; split_and?; try naive_solver.
  - by apply good_port.
  - lia.
Qed.

(** *** Lists *)

(** What the list operations leave alone. *)
Definition same_rest (c c' : RuntimeConfig) : Prop :=
  sites c' = sites c /\ pages c' = pages c /\ ban c' = ban c /\ speed_check c' = speed_check c /\ globe c' = globe c /\
  max_body_size_bytes (blacklist c') = max_body_size_bytes (blacklist c) /\ emergency_off c' = emergency_off c.
#[local] Instance same_rest_preorder : PreOrder same_rest.
Proof. split; [done|]. intros a b c (?&?&?&?&?&?&?) (?&?&?&?&?&?&?). split_and!; congruence. Qed.

Lemma lists_kept c c' : same_rest c c' -> (lists_ok c -> lists_ok c') -> ok_kept c c'.
Proof. intros (Es&Ep&Eb&Ev&Eg&Em&_) Hl []. split; rewrite ?Es, ?Ep, ?Eb, ?Ev, ?Eg, ?Em; auto. Qed.

Lemma rest_add l now v by_ src : keeps same_rest (op_add l now v by_ src).
Proof.
  intros c. destruct l as [category| |]; cbn [op_add].
  - unfold add_blacklist_entry. destruct v as [|front v]; [done|].
    destruct category; cbn; unfold add_ip; try case_match; try done; by case_match.
  - unfold add_whitelist_entry. destruct v as [|front v]; [done|]. by destruct (add_ip_to _ _ _ _ _ _).
  - unfold add_whitelist_route_entry. by destruct v.
Qed.

Lemma rest_import l clock by_ i lines acc :
  keeps same_rest (import_lines (fun i line => op_add l (clock i) line by_ "list") i lines acc).
Proof.
  revert i acc. induction lines as [|line lines IH]; intros i acc c; [done|]. cbn [import_lines].
  pose proof (rest_add l (clock i) line by_ "list" c) as Ha.
  destruct (op_add l (clock i) line by_ "list" c) as [c' [u|[]]]; cbn [fst] in *;
    first [etransitivity; [exact Ha|apply IH]|exact Ha].
Qed.

Lemma kept_add l now v by_ src : keeps ok_kept (op_add l now v by_ src).
Proof. intros c. apply lists_kept; [apply rest_add|apply add_lists_ok]. Qed.

Lemma kept_remove l v c : ok_kept c (op_remove l v c).
Proof. apply lists_kept; [by destruct l as [[]| |]|apply remove_lists_ok]. Qed.

Lemma kept_clear l c : ok_kept c (op_clear l c).
Proof. apply lists_kept; [by destruct l as [[]| |]|apply clear_lists_ok]. Qed.

Lemma kept_import l clock text by_ : keeps ok_kept (op_import l clock text by_).
Proof.
  intros c. rewrite op_import_lines. apply lists_kept; [apply rest_import|].
  intros Hok. by apply import_lines_effect.
Qed.

(** *** Sites and pages *)

Lemma kept_sites c l : (config_ok c -> sites_ok l /\ Forall (fun s => port_ok (upstream_port (site_upstream s))) l) -> ok_kept c (set_sites l c).
Proof. intros Hl Hc. destruct (Hl Hc), Hc. by split. Qed.

Lemma kept_pages c l : (config_ok c -> pages_ok l) -> ok_kept c (set_pages (set_status_pages l (pages c)) c).
Proof. intros Hl Hc. specialize (Hl Hc). destruct Hc. by split. Qed.

Lemma add_site_sites config site config' :
  add_site config site = Ok config' -> config' = set_sites (sites config ++ [set_domain (to_lower (domain site)) site]) config.
Proof.
  unfold add_site. destruct (_ || _); [done|]. destruct (find_site _ _); [done|]. by intros [= <-].
Qed.

Lemma kept_add_site site : port_ok (upstream_port (site_upstream site)) ->
  keeps ok_kept (mutate_or_throw (fun c => add_site c site)).
Proof.
  intros Hp. apply kept_mutate_or_throw. intros c c' Ha. pose proof (add_site_sites _ _ _ Ha) as ->. apply kept_sites.
  intros Hok. split.
  - exact (sites_ok_add c site _ (ok_sites _ Hok) Ha).
  - apply Forall_app. split; [apply (ok_site_ports _ Hok)|]. apply Forall_singleton. by destruct site.
Qed.

Lemma kept_update_site d u : (forall p, u_upstream_port u = Some p -> port_ok p) ->
  keeps ok_kept (mutate_or_throw (fun c => update_site c d u)).
Proof.
  intros Hp. apply kept_mutate_or_throw. intros c c'. unfold update_site. destruct (find_site d (sites c)); [|done].
  intros [= <-]. apply kept_sites. intros Hok. split; [apply sites_ok_alter, Hok|].
  apply Forall_alter; [apply (ok_site_ports _ Hok)|]. intros s _ Hs. cbn. destruct (u_upstream_port u) eqn:E; [by apply Hp|done].
Qed.

Lemma kept_remove_site d : keeps ok_kept (mutate_or_throw (fun c => remove_site c d)).
Proof.
  apply kept_mutate_or_throw. intros c c'. unfold remove_site. destruct (find_site d (sites c)); [|done].
  intros [= <-]. apply kept_sites. intros Hok. split; [apply sites_ok_delete, Hok|apply Forall_delete, (ok_site_ports _ Hok)].
Qed.

Lemma alter_codes page i (l : list StatusPageEntry) :
  code <$> alter (fun e => mkStatusPage (code e) page (sp_created_at e)) i l = code <$> l.
Proof. revert i. induction l as [|e l IH]; intros [|i]; simpl; [done..|]. f_equal. apply IH. Qed.

Lemma kept_add_page now c page : keeps ok_kept (mutate_or_throw (fun config => add_status_page now config c page)).
Proof.
  apply kept_mutate_or_throw. intros config config'. unfold add_status_page, validate_code.
  destruct (_ || _) eqn:Hc; [done|]. cbn. destruct (find_status_page c _) eqn:Hf; [done|]. intros [= <-].
  apply kept_pages. intros [_ _ [H1 H2] _ _ _ _ _]. split.
  - apply Forall_app. split; [done|]. apply Forall_singleton. cbn. lia.
  - rewrite fmap_app. apply NoDup_app. split_and!; [done| |apply NoDup_singleton].
    intros x Hx ->%list_elem_of_singleton. cbn in Hx. apply list_elem_of_fmap in Hx as (e & He & Hin).
    unfold find_status_page in Hf. apply fmap_None, list_find_None in Hf. rewrite Forall_forall in Hf. by apply (Hf e).
Qed.

Lemma kept_update_page c page : keeps ok_kept (mutate_or_throw (fun config => update_status_page config c page)).
Proof.
  apply kept_mutate_or_throw. intros config config'. unfold update_status_page. destruct (find_status_page _ _); [|done].
  intros [= <-]. apply kept_pages. intros [_ _ [H1 H2] _ _ _ _ _]. split; [|by rewrite alter_codes].
  apply Forall_alter; [done|]. by intros.
Qed.

Lemma kept_remove_page c : keeps ok_kept (mutate_or_throw (fun config => remove_status_page config c)).
Proof.
  apply kept_mutate_or_throw. intros config config'. unfold remove_status_page. destruct (find_status_page _ _); [|done].
  intros [= <-]. apply kept_pages. intros [_ _ [H1 H2] _ _ _ _ _]. split; [by apply Forall_delete|].
  eapply sublist_NoDup; [exact H2|]. apply fmap_sublist, sublist_delete.
Qed.
End valid.

(** ** Whole requests *)

Section exchanges.
Context `{Asio : AsioIp} `{Kdf : Pbkdf2} `{Hmac : HmacSha1} `{Sha : Sha256} `{Lib : LibCbor} `{E : Evp} `{J : JsonText}.
Context `{Fs : Files.StaticFiles.FileSystem}.

Definition config_kept (s s' : AdminState) : Prop := ok_kept (config_of s) (config_of s').
#[local] Instance config_kept_preorder : PreOrder config_kept.
Proof. split; [by intros s H|]. intros a b c H1 H2 Ha. by apply H2, H1. Qed.
#[local] Existing Instance ok_kept_preorder.

Lemma config_kept_same s s' : config_store s' = config_store s -> config_kept s s'.
Proof. unfold config_kept, config_of. by intros ->. Qed.

Lemma on_config_kept {A} (m : M RuntimeConfig A) : keeps ok_kept m -> keeps config_kept (on_config m).
Proof.
  intros Hm s. specialize (Hm (config_of s)). unfold on_config, ConfigStore.update, config_kept, config_of in *.
  destruct (m _) as [c [a|e]]; [exact Hm|done].
Qed.

Lemma kept_remove_entry category v : keeps ok_kept (remove_blacklist_entry category v).
Proof. intros c. apply (kept_remove (LBlack category) v c). Qed.
Lemma kept_clear_category category : keeps ok_kept (clear_blacklist_category category).
Proof. intros c. apply (kept_clear (LBlack category) c). Qed.
Hint Resolve kept_ban kept_speed kept_methods kept_globe kept_remove_entry kept_clear_category : atomwall.

Ltac kept_leaf :=
  first
  [ (apply config_kept_same; reflexivity)
  | solve [auto with atomwall nocore]
  | apply (kept_add (LBlack _)) | apply (kept_add LWhiteIps) | apply (kept_add LWhiteRoutes)
  | apply (kept_import (LBlack _)) | apply (kept_import LWhiteIps) | apply (kept_import LWhiteRoutes)
  | apply kept_mutate, (kept_remove LWhiteIps) | apply kept_mutate, (kept_remove LWhiteRoutes)
  | apply kept_mutate, (kept_clear LWhiteIps) | apply kept_mutate, (kept_clear LWhiteRoutes)
  | apply kept_remove_site | apply kept_add_page | apply kept_update_page | apply kept_remove_page
  | (first [ apply kept_assign | apply kept_mutate ]; setter) ].

Ltac kept_step :=
  lazymatch goal with
  | |- keeps ok_kept _ => first [ keeps_step | kept_leaf ]
  | |- keeps _ (on_config _) => apply on_config_kept
  | |- _ => first [ keeps_step | config_step | frame_leaf ]
  end.
Ltac kept_handler := autounfold with handlers; repeat kept_step; try kept_leaf.

Lemma sites_create_kept body : keeps config_kept (handle_sites_create body).
Proof.
  unfold handle_sites_create. destruct (parse_json_object body) as [b|]; [|keeps_step].
  do 2 (destruct (json_string_field b _); [|keeps_step]). destruct (json_int_field b _) as [port|]; [|keeps_step].
  destruct (bad_port port) eqn:Hb; [keeps_step|]. cbv zeta. unfold answer.
  keeps_step; [|by repeat keeps_step]. config_step. apply on_config_kept, kept_add_site. by apply good_port.
Qed.

Lemma sites_update_kept d body : keeps config_kept (handle_sites_update d body).
Proof.
  unfold handle_sites_update. destruct (parse_json_object body) as [b|]; [|keeps_step]. cbv zeta.
  generalize (json_int_field b "upstream_port") as port. intros port. destruct (default false _) eqn:Hb; [keeps_step|]. unfold answer.
  keeps_step; [|by repeat keeps_step]. config_step. apply on_config_kept, kept_update_site. cbn.
  intros p (v & Hv & ->)%fmap_Some. rewrite Hv in Hb. by apply good_port.
Qed.

Lemma body_limit_kept body : keeps config_kept (handle_body_size_limit_update body).
Proof.
  unfold handle_body_size_limit_update. destruct (match parse_json_object body with _ => _ end) as [n|]; [|keeps_step].
  destruct (Z.ltb_spec n 0); [keeps_step|]. repeat keeps_step. apply on_config_kept, kept_mutate. setter.
Qed.

Lemma valid_rows env request user ip s :
  Forall (fun row => row.1 = true -> config_kept s (row.2 s).1)
    (import_routes env request user ++ routes env request user ip).
Proof.
  each_row.
  all: lazymatch goal with |- ?R ?s (?m ?s).1 => cut (keeps R m); [intros Hk; exact (Hk s)|] end.
  all: first [ apply sites_create_kept | apply sites_update_kept | apply body_limit_kept | kept_handler ].
Qed.

Lemma valid_steps env request user ip :
  Forall (fun row => row.1 = true -> steps_by config_kept row.2) (auth_steps env request user ip).
Proof. each_step_row. all: steps_to_keeps; kept_handler. Qed.

Lemma request_config_kept env request user ip keep s : config_kept s (handle_request env request user ip keep s).1.
Proof. apply handle_request_elim; [reflexivity|]. apply valid_rows. Qed.
Lemma exchange_config_kept env ip x s : config_kept s (handle_exchange env ip x s).1.
Proof. apply handle_exchange_elim; [reflexivity|]. intros user body keep _ _. apply valid_rows. Qed.

(** C13: The configuration is well formed after every history of requests to the
    admin API: domains and status codes stay unique, ports, thresholds,
    windows and ban durations positive and in range, and the lists free of
    duplicates and of texts that do not parse. *)
Theorem config_stays_valid history s0 :
  config_ok (config_of s0) -> config_ok (config_of (after history s0)).
Proof.
  intros H0. induction history as [|v history IH] using rev_ind; [done|].
  rewrite after_snoc. by apply exchange_config_kept.
Qed.

(** ** Refusals change nothing *)

(** The call succeeds with a 200 answer. *)
Definition succeeds (m : M AdminState Response) : Prop :=
  forall s, exists s' r, m s = (s', Ok r) /\ status r = 200.

(** The call succeeds, or leaves configuration and bans as they were. *)
Definition settled (m : M AdminState Response) : Prop :=
  forall s, untouched s (m s).1 \/ exists r, (m s).2 = Ok r /\ status r = 200.

Lemma succeeds_ret r : status r = 200 -> succeeds (mret r).
Proof. intros Hr s. by exists s, r. Qed.
Lemma succeeds_get k : (forall a, succeeds (k a)) -> succeeds (getM ≫= k).
Proof. intros Hk s. rewrite bind_get. apply Hk. Qed.
Lemma succeeds_ip_blocks {A} (f : _ -> _ * A) k : (forall a, succeeds (k a)) -> succeeds (on_ip_blocks f ≫= k).
Proof. intros Hk s. unfold on_ip_blocks, mbind, M_bind. destruct (f (ip_blocks s)). apply Hk. Qed.
Lemma succeeds_500 {A} (m : M RuntimeConfig A) k : (forall a, succeeds (k a)) -> succeeds (update_or_500 m ≫= k).
Proof. intros Hk s. unfold update_or_500, mbind, M_bind. destruct (on_config m s) as [s' [a|e]]; apply Hk. Qed.

Lemma succeeds_settled m : succeeds m -> settled m.
Proof. intros Hm s. right. destruct (Hm s) as (s' & r & -> & Hr). by exists r. Qed.
Lemma keeps_settled m : keeps untouched m -> settled m.
Proof. intros Hm s. left. apply Hm. Qed.

Lemma settled_bind {A} (m : M AdminState A) k : keeps untouched m -> (forall a, settled (k a)) -> settled (m ≫= k).
Proof.
  intros Hm Hk s. specialize (Hm s). unfold mbind, M_bind. destruct (m s) as [s' [a|e]]; [|by left].
  destruct (Hk a s') as [H|H]; [left; by etransitivity|by right].
Qed.

Lemma on_config_throws {A} (m : M RuntimeConfig A) s s' e : on_config m s = (s', Throw e) -> untouched s s'.
Proof.
  unfold on_config, ConfigStore.update. destruct (m _) as [c [a|e']]; [done|]. intros [= <- _]. by split.
Qed.

Lemma settled_config {A} (m : M RuntimeConfig A) k : (forall a, succeeds (k a)) -> settled (on_config m ≫= k).
Proof.
  intros Hk s. unfold mbind, M_bind. destruct (on_config m s) as [s' [a|e]] eqn:He.
  - right. destruct (Hk a s') as (s2 & r & -> & Hr). by exists r.
  - left. by eapply on_config_throws.
Qed.

(** An update that may be refused, then a view of the result. *)
Definition update_settles {A} (m : M AdminState (A + Response)) : Prop :=
  forall s, (exists s' a, m s = (s', Ok (inl a))) \/ untouched s (m s).1.

Lemma settled_update {A} (m : M AdminState (A + Response)) k :
  update_settles m -> (forall a, succeeds (k (inl a))) -> (forall r, keeps untouched (k (inr r))) -> settled (m ≫= k).
Proof.
  intros Hm Hk Hr s. unfold mbind, M_bind. destruct (Hm s) as [(s' & a & ->)|H].
  - destruct (Hk a s') as (s2 & r & -> & Hst). right. by exists r.
  - destruct (m s) as [s' [[a|r]|e]]; [| |by left].
    + right. destruct (Hk a s') as (s2 & r & -> & Hst). by exists r.
    + left. etransitivity; [exact H|apply Hr].
Qed.

Lemma update_settles_all {A} st (m : M RuntimeConfig A) :
  update_settles (update_or st m) /\ update_settles (update_or_refuse m) /\ update_settles (update_or_500 m).
Proof.
  split_and!; intros s; unfold update_or, update_or_refuse, update_or_500;
    destruct (on_config m s) as [s' [a|e]] eqn:He; [by left; eauto| |by left; eauto| |by left; eauto|];
    apply on_config_throws in He; right; by destruct e.
Qed.

Lemma update_or_settles {A} st (m : M RuntimeConfig A) : update_settles (update_or st m).
Proof. apply (update_settles_all st m). Qed.
Lemma update_or_refuse_settles {A} (m : M RuntimeConfig A) : update_settles (update_or_refuse m).
Proof. apply (update_settles_all 0 m). Qed.
Lemma update_or_500_settles {A} (m : M RuntimeConfig A) : update_settles (update_or_500 m).
Proof. apply (update_settles_all 0 m). Qed.
End exchanges.

Ltac succeeds_step :=
  lazymatch goal with
  | |- forall _, _ => intros ?
  | |- succeeds (mret _) => apply succeeds_ret; reflexivity
  | |- succeeds (getM ≫= _) => apply succeeds_get
  | |- succeeds (on_ip_blocks _ ≫= _) => apply succeeds_ip_blocks
  | |- succeeds (update_or_500 _ ≫= _) => apply succeeds_500
  | |- succeeds (match ?x with _ => _ end) => destruct x
  | |- succeeds (let '_ := ?x in _) => destruct x
  end.

(** Walks down to the update of a handler; what is left only reads, or
    answers 200. *)
Ltac settled_step :=
  lazymatch goal with
  | |- forall _, _ => intros ?
  | |- succeeds _ => succeeds_step
  | |- update_settles _ => first [ apply update_or_settles | apply update_or_refuse_settles | apply update_or_500_settles ]
  | |- keeps _ (match ?x with _ => _ end) => destruct x
  | |- keeps _ _ => keeps_step
  | |- settled (match ?x with _ => _ end) => destruct x
  | |- settled (let '_ := ?x in _) => destruct x
  | |- settled (match ?x with _ => _ end ≫= _) => destruct x
  | |- settled (on_config _ ≫= _) => apply settled_config
  | |- settled (on_ip_blocks _ ≫= _) => apply succeeds_settled
  | |- settled (?m ≫= _) => first [ apply settled_update | apply settled_bind ]
  | |- settled _ => apply keeps_settled
  end.
Ltac settled_handler := autounfold with handlers; repeat settled_step.

Section refusals.
Context `{Asio : AsioIp} `{Kdf : Pbkdf2} `{Hmac : HmacSha1} `{Sha : Sha256} `{Lib : LibCbor} `{E : Evp} `{J : JsonText}.
Context `{Fs : Files.StaticFiles.FileSystem}.

Lemma settled_rows env request user ip :
  Forall (fun row => row.1 = true -> settled row.2) (import_routes env request user ++ routes env request user ip).
Proof.
  each_row.
  all: first [ solve [settled_handler] | apply keeps_settled; keeps_handler ].
Qed.

(** The answer that acknowledges a change. *)
Definition acknowledged (served : outcome Served) : Prop :=
  exists r keep_alive, served = Ok (Answered r keep_alive) /\ status r = 200.

(** C15: Refusals change nothing: a request that changes the configuration or the
    bans is answered 200. One that is refused with any other status, ends in
    an exception, opens a stream or fails to arrive leaves both as they were,
    however far its handler got. *)
Theorem changes_are_acknowledged env ip x s :
  let '(s', served) := handle_exchange env ip x s in
  (config_store s' = config_store s /\ ip_blocks s' = ip_blocks s) \/ acknowledged served.
Proof.
  unfold handle_exchange. rewrite bind_get. destruct (session_gate env (x_header x) s) as [r|user]; [by left|].
  destruct (x_read x _) as [[body keep]|]; [|by left]. unfold handle_request. cbv zeta.
  do 2 (destruct (_ && _); [by left|]).
  pose proof (settled_rows env (mkAdminRequest (x_header x) body) user ip) as [Hi Hr]%Forall_app.
  assert (settled (dispatch (import_routes env (mkAdminRequest (x_header x) body) user)
                     (route env (mkAdminRequest (x_header x) body) user ip))) as Hs.
  { apply (dispatch_rows settled); [exact Hi|]. apply (dispatch_rows settled); [exact Hr|]. by apply keeps_settled, (keeps_ret _). }
  specialize (Hs s). unfold mbind, M_bind. destruct (dispatch _ _ s) as [s' [r|e]]; cbn [fst snd] in Hs.
  - destruct Hs as [H|(r' & [= <-] & Hst)]; [by left|right]. by exists r, keep.
  - left. destruct Hs as [H|(r' & Hr' & _)]; [exact H|discriminate].
Qed.
End refusals.

(** ** Witness: the demo server *)

Lemma config_stays_valid_witness :
  config_ok (config_of demo_admin) /\ config_ok (config_of (after demo_history demo_admin)).
Proof.
  assert (config_ok (config_of demo_admin)) as H0.
  { destruct config_ok_default. by split. }
  split; [exact H0|]. exact (config_stays_valid demo_history demo_admin H0).
Defined.

(** ** The method check can be switched on with no method allowed

    [set_methods] refuses an empty list while the check is on; switching the
    check on looks at no list. *)
Definition empty_methods : AdminExchange := demo_exchange "PUT" "/api/method-check" "atomwall_session=09" "no methods".
Definition methods_on : AdminExchange := demo_exchange "PUT" "/api/method-check" "atomwall_session=09" "off".

Example every_request_blocked :
  let s := demo_run [1] methods_on (demo_run [1] empty_methods admin_state) in
  mc_enabled (method_check (config_of s)) = true /\ allowed_methods (method_check (config_of s)) = [].
Proof. vm_compute. split; reflexivity. Qed.
