(* ===== verification/Timestamps.v ===== *)
(** * Timestamps: the dates of the configuration file

    Models [format_timestamp] and [parse_timestamp] of
    [config/yaml_codec.cpp], with the part of [sscanf] and the [timegm] they
    use; [gmtime_r] is in [Csv]. An integer beyond the range that [sscanf] can
    store, and a year beyond that of [int], are undefined in C++; here they
    wrap around, as they do where the program runs. *)
From S2P Require Import Prelude Text Csv.
From S2P Require Totp.

(** ** The C library *)

(** [timegm]: fields beyond their ranges are carried over. *)
Definition timegm (t : tm) : Z :=
  let y0 := tm_year t + 1900 + tm_mon t / 12 in
  let m := tm_mon t mod 12 in
  let y := if m <=? 1 then y0 - 1 else y0 in
  let era := y / 400 in
  let yoe := y - era * 400 in
  let mp := (m + 10) mod 12 in
  let doy := (153 * mp + 2) / 5 + tm_mday t - 1 in
  let days := era * 146097 + 365 * yoe + yoe / 4 - yoe / 100 + doy - 719468 in
  days * 86400 + tm_hour t * 3600 + tm_min t * 60 + tm_sec t.

Fixpoint skip_space (s : str) : str :=
  match s with
  | c :: s' => if isspace c then skip_space s' else s
  | [] => []
  end.

Definition scan_sign (s : str) : Z * list ascii :=
  match s with
  | c :: s' => if c == "-"%char then (-1, s') else if c == "+"%char then (1, s') else (1, s)
  | [] => (1, [])
  end.

(** [%d]: blanks, a sign, digits. *)
Definition scan_d (s : str) : option (Z * list ascii) :=
  let '(sign, s1) := scan_sign (skip_space s) in
  if (if s1 is c :: _ then digit_val c else None) is Some _ then
    let '(v, rest) := scan_digits s1 0 in
    Some (swrap32 (Z.max INT64_MIN (Z.min INT64_MAX (sign * v))), rest)
  else None.

(** A literal character of the format. *)
Definition scan_char (c : ascii) (s : str) : option str :=
  match s with c' :: s' => if c' == c then Some s' else None | [] => None end.

(** The text before the first NUL. *)
Definition c_str (s : str) : str :=
  match find_char nul s with Some i => take i s | None => s end.

(** ** [format_timestamp], [parse_timestamp] *)

Definition format_timestamp (tp : time_point) : str :=
  let t := gmtime (Z.quot tp ns_per_s) in
  take 31 (pad 4 (tm_year t + 1900) ++ lit "-" ++ pad 2 (tm_mon t + 1) ++ lit "-" ++ pad 2 (tm_mday t) ++ lit "T" ++
    pad 2 (tm_hour t) ++ lit ":" ++ pad 2 (tm_min t) ++ lit ":" ++ pad 2 (tm_sec t) ++ lit "Z").

(** The six conversions must succeed; the [Z] after them need not. *)
Definition parse_timestamp (text : str) : option time_point :=
  '(year, s) ← scan_d (c_str text);
  s ← scan_char "-" s;
  '(mon, s) ← scan_d s;
  s ← scan_char "-" s;
  '(mday, s) ← scan_d s;
  s ← scan_char "T" s;
  '(hour, s) ← scan_d s;
  s ← scan_char ":" s;
  '(min, s) ← scan_d s;
  s ← scan_char ":" s;
  '(sec, _) ← scan_d s;
  Some (swrap64 (timegm (mkTm (swrap32 (year - 1900)) (swrap32 (mon - 1)) mday hour min sec) * ns_per_s)).

Example timestamp_lenient :
  parse_timestamp "2024-02-30T12:00:00 and so on" = parse_timestamp "2024-03-01T12:00:00Z".
Proof. vm_compute. reflexivity. Qed.

(** ** [timegm] inverts [gmtime_r] *)

Ltac div_lia := Z.div_mod_to_equations; lia.

Lemma year_of_era doe :
  0 <= doe <= 146096 ->
  let yoe := (doe - doe / 1460 + doe / 36524 - doe / 146096) / 365 in
  0 <= yoe <= 399 /\ 0 <= doe - (365 * yoe + yoe / 4 - yoe / 100) <= 366.
Proof. intros H yoe. subst yoe. split; div_lia. Qed.

Lemma month_of_year doy : 0 <= doy <= 366 ->
  let mp := (5 * doy + 2) / 153 in 0 <= mp <= 11 /\ 1 <= doy - (153 * mp + 2) / 5 + 1 <= 31.
Proof. intros H mp. subst mp. split; div_lia. Qed.

Lemma clock_of_day s : 0 <= s < 86400 ->
  0 <= s / 3600 <= 23 /\ 0 <= s mod 3600 / 60 <= 59 /\ 0 <= s mod 60 <= 59 /\
  s / 3600 * 3600 + s mod 3600 / 60 * 60 + s mod 60 = s.
Proof. intros H. split_and!; div_lia. Qed.

(** The fields are in their ranges, and [timegm] reads them back. *)
Lemma gmtime_spec t :
  let d := gmtime t in
  (0 <= tm_mon d <= 11 /\ 1 <= tm_mday d <= 31 /\ 0 <= tm_hour d <= 23 /\ 0 <= tm_min d <= 59 /\ 0 <= tm_sec d <= 59) /\
  timegm d = t.
Proof.
  unfold gmtime. cbv zeta. set (z := t / 86400 + 719468). set (doe := z - z / 146097 * 146097).
  assert (0 <= doe <= 146096) as Hdoe by (subst doe; div_lia).
  destruct (year_of_era doe Hdoe) as [Hyoe Hdoy]. cbv zeta in Hyoe, Hdoy.
  set (yoe := (doe - doe / 1460 + doe / 36524 - doe / 146096) / 365) in *.
  set (doy := doe - (365 * yoe + yoe / 4 - yoe / 100)) in *.
  destruct (month_of_year doy Hdoy) as [Hmp Hd]. cbv zeta in Hmp, Hd. set (mp := (5 * doy + 2) / 153) in *.
  destruct (clock_of_day (t mod 86400) ltac:(apply Z.mod_pos_bound; lia)) as (Hh & Hm & Hs & Ht).
  unfold timegm. cbn [tm_year tm_mon tm_mday tm_hour tm_min tm_sec].
  assert (exists m, (if mp <? 10 then mp + 3 else mp - 9) = m /\ 1 <= m <= 12 /\ (m - 1 + 10) mod 12 = mp)
    as (m & -> & Hmr & Hmm) by (eexists; split; [done|]; destruct (Z.ltb_spec mp 10); split; div_lia).
  split; [split_and!; lia|].
  assert ((m - 1) / 12 = 0) as -> by (apply Z.div_small; lia). rewrite (Z.mod_small (m - 1) 12) by lia.
  rewrite Hmm.
  set (y := yoe + z / 146097 * 400 + (if m <=? 2 then 1 else 0) - 1900 + 1900 + 0).
  assert ((if m - 1 <=? 1 then y - 1 else y) = z / 146097 * 400 + yoe) as ->
    by (subst y; destruct (Z.leb_spec m 2), (Z.leb_spec (m - 1) 1); lia).
  assert ((z / 146097 * 400 + yoe) / 400 = z / 146097) as ->
    by (rewrite Z.div_add_l by lia; rewrite (Z.div_small yoe 400); lia).
  replace (z / 146097 * 400 + yoe - z / 146097 * 400) with yoe by lia.
  subst doy. pose proof (Z.div_mod t 86400 ltac:(lia)). subst doe z. lia.
Qed.

(** ** Reading what was printed *)

Lemma scan_digits_zeros k s : scan_digits (replicate k "0"%char ++ s) 0 = scan_digits s 0.
Proof. induction k as [|k IH]; [done|]. exact IH. Qed.

Lemma digit_not_space c : is_Some (digit_val c) -> isspace c = false /\ c <> "-"%char /\ c <> "+"%char.
Proof.
  unfold digit_val, isspace. cbv zeta. intros H. destruct (_ && _) eqn:E; [|by destruct H].
  apply andb_true_iff in E as [E1%Z.leb_le E2%Z.leb_le]. split_and!; [|by intros ->..].
  destruct (Z.eqb_spec (byte_of c) 32), (Z.leb_spec 9 (byte_of c)), (Z.leb_spec (byte_of c) 13); try done; lia.
Qed.

Lemma scan_d_digits c s v rest :
  is_Some (digit_val c) -> scan_digits (c :: s) 0 = (v, rest) -> 0 <= v <= INT_MAX -> scan_d (c :: s) = Some (v, rest).
Proof.
  intros Hc Hs Hv. destruct (digit_not_space c Hc) as (Hb & Hm & Hp). unfold scan_d. cbn [skip_space]. rewrite Hb.
  unfold scan_sign. rewrite !bool_decide_eq_false_2 by done. destruct Hc as [d ->]. rewrite Hs. do 2 f_equal.
  rewrite swrap32_small; unfold INT_MIN, INT_MAX, INT64_MIN, INT64_MAX in *; lia.
Qed.

Lemma scan_pad w n rest :
  0 <= n <= INT_MAX -> (if rest is c :: _ then digit_val c else None) = None ->
  scan_d (pad w n ++ rest) = Some (n, rest).
Proof.
  intros Hn Hr. unfold pad, to_dec. destruct (Z.ltb_spec n 0); [lia|].
  pose proof (from_chars_dec INT_MAX n rest Hn Hr) as Hd.
  destruct (dec_nat n) as [|c s]; [by destruct rest as [|c r]; [|cbn in Hd; rewrite Hr in Hd]|]. cbn [from_chars_u app] in Hd.
  destruct (digit_val c) as [d|] eqn:Hc; [|done].
  destruct (scan_digits (c :: s ++ rest) 0) as [v r] eqn:Hs. destruct (v <=? INT_MAX); [|done]. injection Hd as -> ->.
  rewrite <- app_assoc. destruct (w - length (c :: s))%nat as [|k]; cbn [replicate app].
  - by apply scan_d_digits.
  - apply scan_d_digits; [by eexists| |done]. exact (eq_trans (scan_digits_zeros (S k) (c :: s ++ rest)) Hs).
Qed.

Lemma pad_length w n :
  0 <= n < 10 ^ Z.of_nat w -> (0 < w)%nat -> length (pad w n) = w.
Proof.
  intros Hn Hw. unfold pad, to_dec. destruct (Z.ltb_spec n 0); [lia|]. destruct w as [|w]; [lia|].
  pose proof (Totp.dec_go_length (S (Z.to_nat (Z.log2 n))) n [] w Hn) as Hl. fold (dec_nat n) in Hl. cbn [length] in Hl.
  rewrite length_app, length_replicate. lia.
Qed.

Lemma no_nul_pad w n : nul ∉ pad w n.
Proof.
  unfold pad. intros [H|H]%elem_of_app.
  - by apply elem_of_replicate in H as [? _].
  - pose proof (to_dec_chars n) as Hc. rewrite Forall_forall in Hc. specialize (Hc _ H).
    apply (bool_decide_eq_true_2 (nul ∈ dec_chars)) in Hc. discriminate Hc.
Qed.

(** The year of a clock reading has four digits. *)
Lemma gmtime_year t : 0 <= t <= 9223372036 -> 0 <= tm_year (gmtime t) + 1900 <= 9999.
Proof.
  intros Ht. unfold gmtime. cbv zeta. cbn [tm_year].
  set (z := t / 86400 + 719468). set (doe := z - z / 146097 * 146097).
  assert (0 <= doe <= 146096) as Hdoe by (subst doe; div_lia).
  destruct (year_of_era doe Hdoe) as [Hyoe _]. cbv zeta in Hyoe.
  set (yoe := (doe - doe / 1460 + doe / 36524 - doe / 146096) / 365) in *.
  assert (4 <= z / 146097 <= 5) by (subst z; div_lia).
  destruct (_ <=? 2); lia.
Qed.

Lemma whole_second_range tp : 0 <= tp <= INT64_MAX -> 0 <= Z.quot tp ns_per_s <= 9223372036.
Proof. unfold INT64_MAX, ns_per_s. intros H. rewrite Z.quot_div_nonneg by lia. div_lia. Qed.

(** What [format_timestamp] writes is not cut off. *)
Lemma format_timestamp_full tp : 0 <= tp <= INT64_MAX ->
  let t := gmtime (Z.quot tp ns_per_s) in
  format_timestamp tp = pad 4 (tm_year t + 1900) ++ lit "-" ++ pad 2 (tm_mon t + 1) ++ lit "-" ++ pad 2 (tm_mday t) ++
    lit "T" ++ pad 2 (tm_hour t) ++ lit ":" ++ pad 2 (tm_min t) ++ lit ":" ++ pad 2 (tm_sec t) ++ lit "Z".
Proof.
  intros Htp t. pose proof (gmtime_year _ (whole_second_range tp Htp)) as Hy.
  destruct (gmtime_spec (Z.quot tp ns_per_s)) as [(Hmo & Hd & Hh & Hmi & Hs) _]. fold t in Hy, Hmo, Hd, Hh, Hmi, Hs.
  apply take_ge. rewrite !length_app, !pad_length by (lia || (split; [lia|cbn; lia])). cbn. lia.
Qed.

Lemma c_str_no_nul s : nul ∉ s -> c_str s = s.
Proof.
  intros H. unfold c_str, find_char. destruct (list_find _ s) as [[i c]|] eqn:E; [|done].
  apply list_find_Some in E as (Hi & <- & _). apply list_elem_of_lookup_2 in Hi. done.
Qed.

(** A time stamp that is written reads back, to the second. *)
Theorem timestamp_round_trip tp :
  0 <= tp <= INT64_MAX -> parse_timestamp (format_timestamp tp) = Some (Z.quot tp ns_per_s * ns_per_s).
Proof.
  intros Htp. pose proof (whole_second_range tp Htp) as Hq. pose proof (gmtime_year _ Hq) as Hy.
  destruct (gmtime_spec (Z.quot tp ns_per_s)) as [(Hmo & Hd & Hh & Hmi & Hs) Ht].
  unfold parse_timestamp. rewrite format_timestamp_full by done. cbv zeta.
  set (t := gmtime (Z.quot tp ns_per_s)) in *. unfold INT_MAX.
  rewrite c_str_no_nul.
  2: { rewrite !not_elem_of_app. split_and!; try apply no_nul_pad; by intros [=]%list_elem_of_singleton. }
  repeat (rewrite scan_pad by (unfold INT_MAX; (lia || done)); cbn [mbind option_bind]; cbn [lit app scan_char String.list_ascii_of_string];
          try (rewrite bool_decide_eq_true_2 by done); cbn [mbind option_bind]).
  rewrite !swrap32_small by (unfold INT_MIN, INT_MAX; lia).
  replace (tm_year t + 1900 - 1900) with (tm_year t) by lia. replace (tm_mon t + 1 - 1) with (tm_mon t) by lia.
  assert (mkTm (tm_year t) (tm_mon t) (tm_mday t) (tm_hour t) (tm_min t) (tm_sec t) = t) as -> by (by destruct t).
  rewrite Ht. f_equal. apply swrap64_small. unfold INT64_MIN, INT64_MAX, ns_per_s in *. lia.
Qed.
