(* ===== verification/Yaml.v ===== *)
(** * Yaml: the part of yaml-cpp that the program relies on

    [tree] is what the program builds and emits: scalars made of typed values,
    sequences, and maps in the order of their first assignments. Loaded
    documents are values of the type [node], known by the operations on them;
    [Yaml] is the interface, [YamlLaws] the documented relation between the
    two, over the texts that a document can hold. *)
From S2P Require Import Prelude.
From Stdlib Require Import SpecFloat.

Inductive tree :=
  | TNull
  | TBool (b : bool)
  | TInt (z : Z)
  | TDouble (d : spec_float)
  | TStr (s : str)
  | TSeq (l : list tree)
  | TMap (m : list (str * tree)).

(** [Load] and the operations on nodes throw [YAML::Exception]s only. The
    conversion to an integer type takes its bounds. *)
Class Yaml := {
  node : Type;
  yaml_load : str -> outcome node;
  yaml_emit : tree -> str;
  subscript : node -> str -> outcome node;
  is_defined : node -> bool;
  is_scalar : node -> bool;
  is_null : node -> bool;
  elements : node -> list node;
  entries : node -> list (node * node);
  as_string : node -> outcome (list ascii);
  as_bool : node -> outcome bool;
  as_integer : Z -> Z -> node -> outcome Z;
  as_double : node -> outcome spec_float }.

(** [as<T>(fallback)]: a node that is missing or does not convert gives the
    fallback. *)
Definition as_or {A} (fallback : A) (o : outcome A) : A := match o with Ok v => v | Throw _ => fallback end.

Fixpoint tfind (m : list (str * tree)) (key : str) : option tree :=
  match m with
  | [] => None
  | (k, t) :: m' => if k == key then Some t else tfind m' key
  end.

(** A double that is a number. *)
Definition is_number (d : spec_float) : bool :=
  valid_binary 53 1024 d && match d with S754_nan | S754_infinity _ => false | _ => true end.

(** The trees whose texts a document can hold. *)
Section storable.
Context (storable : str -> Prop).

Fixpoint tree_ok (t : tree) : Prop :=
  match t with
  | TNull | TBool _ | TInt _ => True
  | TDouble d => is_number d = true
  | TStr s => storable s
  | TSeq l => (fix all l := match l with [] => True | t :: l => tree_ok t /\ all l end) l
  | TMap m => NoDup (map fst m) /\
      (fix all m := match m with [] => True | (k, t) :: m => storable k /\ tree_ok t /\ all m end) m
  end.

Lemma tree_ok_seq l : Forall tree_ok l -> tree_ok (TSeq l).
Proof. induction 1; done. Qed.
Lemma tree_ok_map m : NoDup (map fst m) -> Forall (fun p => storable p.1 /\ tree_ok p.2) m -> tree_ok (TMap m).
Proof. intros Hn Hm. split; [done|]. clear Hn. induction Hm as [|[k t] m [H1 H2] _ IH]; done. Qed.
Lemma tree_ok_elements l : tree_ok (TSeq l) -> Forall tree_ok l.
Proof. cbn. induction l as [|t l IH]; [constructor|]. intros [H1 H2]. constructor; auto. Qed.
End storable.

(** [loaded t] is the node of [t] in the document that was emitted;
    [missing] what a lookup in vain gives. *)
Class YamlLaws (Y : Yaml) := {
  storable : str -> Prop;
  loaded : tree -> node;
  missing : node;
  load_emit t : tree_ok storable t -> yaml_load (yaml_emit t) = Ok (loaded t);
  load_seq l : Forall (tree_ok storable) l -> elements (loaded (TSeq l)) = map loaded l;
  load_map m : tree_ok storable (TMap m) ->
    entries (loaded (TMap m)) = map (fun p => (loaded (TStr p.1), loaded p.2)) m;
  load_subscript m key : tree_ok storable (TMap m) ->
    subscript (loaded (TMap m)) key = Ok (default missing (loaded <$> tfind m key));
  load_defined t : is_defined (loaded t) = true;
  load_missing : is_defined missing = false;
  load_scalar t : is_scalar (loaded t) = match t with TNull | TSeq _ | TMap _ => false | _ => true end;
  load_is_null t : is_null (loaded t) = match t with TNull => true | _ => false end;
  load_null : elements (loaded TNull) = [] /\ entries (loaded TNull) = [];
  load_string s : storable s -> as_string (loaded (TStr s)) = Ok s;
  load_bool b : as_bool (loaded (TBool b)) = Ok b;
  load_integer lo hi z : lo <= z <= hi -> as_integer lo hi (loaded (TInt z)) = Ok z;
  load_double d : is_number d = true -> as_double (loaded (TDouble d)) = Ok d }.

(** ** A document format for witnesses

    A tree is written as the digits of its number in an enumeration of all
    trees; nodes are trees. *)

Module DemoYaml.
Definition leaf : Type := (bool + Z) + (str + (bool + bool + unit) + (bool * positive * Z)).

Fixpoint to_gen (t : tree) : gen_tree leaf :=
  match t with
  | TNull => GenNode 0 []
  | TBool b => GenLeaf (inl (inl b))
  | TInt z => GenLeaf (inl (inr z))
  | TDouble (S754_zero s) => GenLeaf (inr (inl (inr (inl (inl s)))))
  | TDouble (S754_infinity s) => GenLeaf (inr (inl (inr (inl (inr s)))))
  | TDouble S754_nan => GenLeaf (inr (inl (inr (inr tt))))
  | TDouble (S754_finite s m e) => GenLeaf (inr (inr (s, m, e)))
  | TStr s => GenLeaf (inr (inl (inl s)))
  | TSeq l => GenNode 1 (map to_gen l)
  | TMap m => GenNode 2 (map (fun p => GenNode 3 [GenLeaf (inr (inl (inl p.1))); to_gen p.2]) m)
  end.

Definition leaf_tree (l : leaf) : tree :=
  match l with
  | inl (inl b) => TBool b
  | inl (inr z) => TInt z
  | inr (inl (inr (inl (inl s)))) => TDouble (S754_zero s)
  | inr (inl (inr (inl (inr s)))) => TDouble (S754_infinity s)
  | inr (inl (inr (inr tt))) => TDouble S754_nan
  | inr (inr (s, m, e)) => TDouble (S754_finite s m e)
  | inr (inl (inl s)) => TStr s
  end.

(** A node of kind 3 is read as the map of its one pair. *)
Fixpoint of_gen (g : gen_tree leaf) : tree :=
  match g with
  | GenLeaf l => leaf_tree l
  | GenNode 0 _ => TNull
  | GenNode 1 gs => TSeq (map of_gen gs)
  | GenNode 2 gs => TMap (flat_map (fun g => match of_gen g with TMap m => m | _ => [] end) gs)
  | GenNode _ [GenLeaf (inr (inl (inl k))); g] => TMap [(k, of_gen g)]
  | GenNode _ _ => TNull
  end.

Lemma of_to_gen : forall t, of_gen (to_gen t) = t.
Proof.
  fix IH 1. intros [|b|z|[]|s|l|m]; try reflexivity.
  - cbn [to_gen of_gen]. f_equal. induction l as [|t l IHl]; [reflexivity|]. cbn [map]. rewrite IH, IHl. reflexivity.
  - cbn [to_gen of_gen]. f_equal. induction m as [|[k t] m IHm]; [reflexivity|]. cbn [map flat_map of_gen fst snd app]. rewrite IH, IHm. reflexivity.
Qed.

#[export] Instance tree_eq_dec : EqDecision tree.
Proof.
  intros a b. destruct (decide (to_gen a = to_gen b)) as [E|E].
  - left. by rewrite <- (of_to_gen a), E, of_to_gen.
  - right. by intros ->.
Defined.

#[export] Instance tree_countable : Countable tree.
Proof. apply (inj_countable' to_gen of_gen), of_to_gen. Defined.

Fixpoint digits_of (p : positive) : str :=
  match p with
  | xH => []
  | xO p => "0"%char :: digits_of p
  | xI p => "1"%char :: digits_of p
  end.
Fixpoint of_digits (s : str) : positive :=
  match s with
  | [] => 1
  | c :: s' => if c == "1"%char then xI (of_digits s') else xO (of_digits s')
  end.
Lemma of_digits_of p : of_digits (digits_of p) = p.
Proof. induction p as [p IH|p IH|]; cbn; [by rewrite IH|by rewrite IH|done]. Qed.

Definition yaml_error : exn := RuntimeError "yaml-cpp: bad conversion".
Definition check {A} (o : option A) : outcome A := match o with Some a => Ok a | None => Throw yaml_error end.

#[export] Instance demo_yaml : Yaml := {|
  node := option tree;
  yaml_load text := check (Some <$> decode (of_digits text));
  yaml_emit t := digits_of (encode t);
  subscript n key := match n with
                     | Some (TMap m) => Ok (tfind m key)
                     | Some (TBool _ | TInt _ | TDouble _ | TStr _) => Throw yaml_error
                     | _ => Ok None
                     end;
  is_defined n := bool_decide (is_Some n);
  is_scalar n := match n with Some (TBool _ | TInt _ | TDouble _ | TStr _) => true | _ => false end;
  is_null n := match n with Some TNull => true | _ => false end;
  elements n := match n with Some (TSeq l) => map Some l | _ => [] end;
  entries n := match n with Some (TMap m) => map (fun p => (Some (TStr p.1), Some p.2)) m | _ => [] end;
  as_string n := match n with Some (TStr s) => Ok s | _ => Throw yaml_error end;
  as_bool n := match n with Some (TBool b) => Ok b | _ => Throw yaml_error end;
  as_integer lo hi n := match n with
                        | Some (TInt z) => if (lo <=? z) && (z <=? hi) then Ok z else Throw yaml_error
                        | _ => Throw yaml_error
                        end;
  as_double n := match n with Some (TDouble d) => Ok d | _ => Throw yaml_error end |}.

#[export] Instance demo_yaml_laws : YamlLaws demo_yaml.
Proof.
  refine {| storable := fun _ => True; loaded := (Some : tree -> node); missing := (None : node) |}; cbn; try done.
  - intros t _. by rewrite of_digits_of, decode_encode.
  - intros m key _. by destruct (tfind m key).
  - intros lo hi z Hz. by destruct (Z.leb_spec lo z), (Z.leb_spec z hi); try lia.
Defined.
End DemoYaml.
