(* ===== verification/YamlLookup.v ===== *)
(** * YamlLookup: reading members of documents

    The few ways in which the program reads a node's members
    ([n["key"].as<T>()], with and without a fallback, and
    [if (auto n = root["key"])]), shared by [YamlConfig] and [YamlUsers], and
    what they give on a document that was emitted: the lemmas and tactics that
    carry the round trips. *)
From S2P Require Import Prelude Yaml.
From Stdlib Require Import SpecFloat.

Section reading.
Context `{Y : Yaml}.

(** [n[key].as<T>(fallback)] and [n[key].as<T>()]. *)
Definition get_or {A} (n : node) (key : str) (conv : node -> outcome A) (fallback : A) : outcome A :=
  v ← subscript n key; mret (as_or fallback (conv v)).
Definition get {A} (n : node) (key : str) (conv : node -> outcome A) : outcome A := v ← subscript n key; conv v.

(** [if (auto n = root[key]) { ... }] *)
Definition section {A} (root : node) (key : str) (read : node -> A -> outcome A) (config : A) : outcome A :=
  n ← subscript root key;
  if is_defined n then read n config else mret config.

Definition as_port : node -> outcome Z := as_integer 0 65535.
Definition as_size_t : node -> outcome Z := as_integer 0 SIZE_MAX.
Definition as_int : node -> outcome Z := as_integer INT_MIN INT_MAX.
Definition as_long_long : node -> outcome Z := as_integer INT64_MIN INT64_MAX.
End reading.

Definition port_ok (p : Z) : Prop := 0 <= p <= 65535.

Section lookups.
Context `{Laws : YamlLaws}.
Notation ok_tree := (tree_ok storable).

(** *** Looking up what was written *)

Lemma tree_ok_find m key t : ok_tree (TMap m) -> tfind m key = Some t -> ok_tree t.
Proof.
  intros [_ Hm]. induction m as [|[k t'] m IH]; [done|]. destruct Hm as (_ & Ht & Hm). cbn [tfind].
  destruct (k == key); [by intros [= <-]|by apply IH].
Qed.

Lemma subscript_found m key t :
  ok_tree (TMap m) -> tfind m key = Some t -> subscript (loaded (TMap m)) key = Ok (loaded t).
Proof. intros Hm Ht. by rewrite load_subscript, Ht. Qed.

Lemma get_or_found {A} m key t (conv : node -> outcome A) fallback v :
  ok_tree (TMap m) -> tfind m key = Some t -> conv (loaded t) = Ok v ->
  get_or (loaded (TMap m)) key conv fallback = Ok v.
Proof. intros Hm Ht Hc. unfold get_or. rewrite (subscript_found _ _ _ Hm Ht). cbn. by rewrite Hc. Qed.

Lemma get_found {A} m key t (conv : node -> outcome A) v :
  ok_tree (TMap m) -> tfind m key = Some t -> conv (loaded t) = Ok v -> get (loaded (TMap m)) key conv = Ok v.
Proof. intros Hm Ht Hc. unfold get. rewrite (subscript_found _ _ _ Hm Ht). exact Hc. Qed.

Lemma get_or_bind {A B} m key t (conv : node -> outcome A) fallback v (k : A -> outcome B) r :
  ok_tree (TMap m) -> tfind m key = Some t -> (ok_tree t -> conv (loaded t) = Ok v) -> k v = r ->
  (get_or (loaded (TMap m)) key conv fallback ≫= k) = r.
Proof. intros Hm Ht Hc Hk. rewrite (get_or_found _ _ _ _ fallback v Hm Ht); [done|]. apply Hc. by eapply tree_ok_find. Qed.

Lemma get_bind {A B} m key t (conv : node -> outcome A) v (k : A -> outcome B) r :
  ok_tree (TMap m) -> tfind m key = Some t -> (ok_tree t -> conv (loaded t) = Ok v) -> k v = r ->
  (get (loaded (TMap m)) key conv ≫= k) = r.
Proof. intros Hm Ht Hc Hk. rewrite (get_found _ _ _ _ v Hm Ht); [done|]. apply Hc. by eapply tree_ok_find. Qed.

Lemma section_bind {A B} m key t (read : node -> A -> outcome A) c v (k : A -> outcome B) r :
  ok_tree (TMap m) -> tfind m key = Some t -> (ok_tree t -> read (loaded t) c = Ok v) -> k v = r ->
  (section (loaded (TMap m)) key read c ≫= k) = r.
Proof.
  intros Hm Ht Hc Hk. unfold section. rewrite (subscript_found _ _ _ Hm Ht). cbn [mbind outcome_bind].
  rewrite load_defined, Hc; [done|]. by eapply tree_ok_find.
Qed.

Lemma subscript_bind {B} m key t (k : node -> outcome B) r :
  ok_tree (TMap m) -> tfind m key = Some t -> (ok_tree t -> k (loaded t) = r) ->
  (subscript (loaded (TMap m)) key ≫= k) = r.
Proof. intros Hm Ht Hk. rewrite (subscript_found _ _ _ Hm Ht). apply Hk. by eapply tree_ok_find. Qed.

Lemma subscript_in_vain {B} m key (k : node -> outcome B) r :
  ok_tree (TMap m) -> tfind m key = None -> k missing = r -> (subscript (loaded (TMap m)) key ≫= k) = r.
Proof. intros Hm Ht Hk. by rewrite load_subscript, Ht. Qed.

Lemma find_next k t m key t' : k <> key -> tfind m key = Some t' -> tfind ((k, t) :: m) key = Some t'.
Proof. intros Hk Hm. cbn [tfind]. by rewrite bool_decide_eq_false_2. Qed.
Lemma find_here key t m : tfind ((key, t) :: m) key = Some t.
Proof. cbn [tfind]. by rewrite bool_decide_eq_true_2. Qed.

(** *** Sequences *)

Lemma elements_mapM {A B} (f : A -> tree) (read : node -> outcome B) (g : A -> B) l :
  Forall (fun a => ok_tree (f a) -> read (loaded (f a)) = Ok (g a)) l -> ok_tree (TSeq (map f l)) ->
  mapM read (elements (loaded (TSeq (map f l)))) = Ok (map g l).
Proof.
  intros Hl Hs. pose proof (tree_ok_elements _ _ Hs) as Ht. rewrite load_seq by done.
  clear Hs. induction Hl as [|a l Ha Hl IH]; [done|]. cbn [map] in *. apply Forall_cons in Ht as [Ht1 Ht2].
  cbn [mapM]. rewrite (Ha Ht1), (IH Ht2). done.
Qed.
End lookups.

(** Finds a key among those of a map that is spelled out. *)
Ltac find_key := repeat first [ apply find_here | apply find_next; [discriminate|] ].
(** Converts a leaf. *)
Ltac conv_leaf :=
  first [ intros _; exact (load_bool _)
        | let Hs := fresh in intros Hs; exact (load_string _ Hs)
        | intros _; apply load_integer; unfold port_ok, INT_MIN, INT_MAX, INT64_MIN, INT64_MAX, SIZE_MAX in *; lia ].
(** The next member of a map that is spelled out. *)
Ltac member Hm :=
  first [ eapply (get_or_bind _ _ _ _ _ _ _ _ Hm); [find_key|conv_leaf|]
        | eapply (get_bind _ _ _ _ _ _ _ Hm); [find_key|conv_leaf|] ]; cbv beta.
(** A node that is looked up for its own sake. *)
Ltac lookup Hm Hs := eapply (subscript_bind _ _ _ _ _ Hm); [find_key|intros Hs]; cbv beta.

(** ** Results of chains *)

Lemma bind_inv {A B} (o : outcome A) (k : A -> outcome B) r : (o ≫= k) = Ok r -> exists v, o = Ok v /\ k v = Ok r.
Proof. destruct o as [v|]; [by exists v|done]. Qed.

(** Splits what a chain of binds returned. *)
Ltac binds H := repeat (let v := fresh "v" in let E := fresh "E" in apply bind_inv in H as (v & E & H); cbv beta in H).

Lemma mapM_inv {A B} (f : A -> outcome B) l k : mapM f l = Ok k -> Forall (fun b => exists a, f a = Ok b) k.
Proof.
  revert k. induction l as [|a l IH]; intros k H; [injection H as [= <-]; constructor|].
  cbn [mapM] in H. binds H. injection H as [= <-]. constructor; [by exists a|by apply IH].
Qed.
