(* ===== verification/YamlConfig.v ===== *)
(** * YamlConfig: the configuration file

    Models [config/yaml_codec.cpp]: [parse_yaml_config], which reads a document
    section by section over the defaults, and [to_yaml_config]. The clock is read once for every entry; the tree that
    [to_yaml_config] fills by assignments is written out in the order of the
    first assignment to each key. *)
From S2P Require Import Prelude Text Net Config Timestamps Yaml YamlLookup.
From S2P Require JsonView.
From Stdlib Require Import SpecFloat.

Section codec.
Context `{Asio : AsioIp} `{Y : Yaml}.

(** ** Reading *)

(** *** Lists *)

Record RawEntry := mkRaw { raw_value : str; raw_created_at : time_point; raw_created_by : str; raw_source : str }.

Definition is_blank (text : str) : bool := forallb isspace text.

(** The [try] block of [read_raw_entry]. *)
Definition raw_entry (now : time_point) (item : node) : outcome RawEntry :=
  if is_scalar item then
    text ← as_string item;
    mret (mkRaw text now [] "manual")
  else
    text ← get item "value" as_string;
    ts ← subscript item "created_at";
    created_at ← (if is_defined ts then stamp ← as_string ts; mret (default now (parse_timestamp stamp)) else mret now);
    by_ ← subscript item "created_by";
    created_by ← (if is_defined by_ then as_string by_ else mret []);
    src ← subscript item "source";
    source ← (if is_defined src then as_string src else mret (lit "manual"));
    mret (mkRaw text created_at created_by source).

Definition read_raw_entry (now : time_point) (item : node) : option RawEntry :=
  match raw_entry now item with
  | Ok entry => if is_blank (raw_value entry) then None else Some entry
  | Throw _ => None
  end.

Definition entry_of (raw : RawEntry) : BlacklistEntry :=
  mkEntry (raw_value raw) (raw_created_at raw) (raw_created_by raw) (raw_source raw).

(** The usable items of a list, each with its clock reading. *)
Definition raw_entries (clock : nat -> time_point) (n : node) : list RawEntry :=
  omap id (imap (fun i item => read_raw_entry (clock i) item) (elements n)).

Definition read_entry_list (clock : nat -> time_point) (n : node) : list BlacklistEntry :=
  if negb (is_defined n) then [] else map entry_of (raw_entries clock n).

Definition read_ip_item (out : list BlacklistEntry * list CidrRange) (raw : RawEntry)
    : list BlacklistEntry * list CidrRange :=
  if bool_decide (is_Some (find_char "/" (raw_value raw))) then
    match parse_cidr 0 (raw_value raw) with
    | Some range => (out.1, out.2 ++ [mkCidrRange (cidr_prefix range) (cidr_prefix_len range) (cidr_text range)
                                        (raw_created_at raw) (raw_source raw)])
    | None => out
    end
  else match make_address (raw_value raw) with
       | None => out
       | Some _ => (out.1 ++ [entry_of raw], out.2)
       end.

Definition read_ip_list (clock : nat -> time_point) (n : node) : list BlacklistEntry * list CidrRange :=
  if negb (is_defined n) then ([], []) else foldl read_ip_item ([], []) (raw_entries clock n).

(** *** Sections *)

Definition read_http (n : node) (c : HttpListenerConfig) : outcome HttpListenerConfig :=
  enabled ← get_or n "enabled" as_bool (http_enabled c);
  bind_host ← get_or n "bind" as_string (http_bind_host c);
  port ← get_or n "port" as_port (http_port c);
  mret (mkHttp enabled bind_host port).

Definition read_https (n : node) (c : HttpsListenerConfig) : outcome HttpsListenerConfig :=
  enabled ← get_or n "enabled" as_bool (https_enabled c);
  bind_host ← get_or n "bind" as_string (https_bind_host c);
  port ← get_or n "port" as_port (https_port c);
  cert ← get_or n "cert_file" as_string (https_cert_file c);
  key ← get_or n "key_file" as_string (https_key_file c);
  mret (mkHttps enabled bind_host port cert key).

Definition read_upstream (n : node) (c : UpstreamConfig) : outcome UpstreamConfig :=
  host ← get_or n "host" as_string (upstream_host c);
  port ← get_or n "port" as_port (upstream_port c);
  mret (mkUpstream host port).

Definition read_site (item : node) : outcome (option SiteConfig) :=
  domain ← get_or item "domain" as_string [];
  match to_lower domain with
  | [] => mret None
  | domain =>
      enabled ← get_or item "enabled" as_bool true;
      cert ← get_or item "cert_file" as_string [];
      key ← get_or item "key_file" as_string [];
      up ← section item "upstream" read_upstream (site_upstream default_site);
      mret (Some (mkSite domain enabled cert key up))
  end.

Definition read_sites (n : node) (_ : list SiteConfig) : outcome (list SiteConfig) :=
  found ← mapM read_site (elements n); mret (omap id found).

Definition read_admin (n : node) (c : AdminConfig) : outcome AdminConfig :=
  enabled ← get_or n "enabled" as_bool (admin_enabled c);
  bind_host ← get_or n "bind" as_string (admin_bind_host c);
  port ← get_or n "port" as_port (admin_port c);
  dir ← get_or n "static_dir" as_string (static_dir c);
  cert ← get_or n "tls_cert_file" as_string (tls_cert_file c);
  key ← get_or n "tls_key_file" as_string (tls_key_file c);
  mret (mkAdmin enabled bind_host port dir cert key).

Definition read_limits (n : node) (c : LimitsConfig) : outcome LimitsConfig :=
  header ← get_or n "max_header_bytes" as_size_t (max_header_bytes c);
  body ← get_or n "max_body_bytes" as_size_t (max_body_bytes c);
  connect ← get_or n "upstream_connect_timeout_seconds" as_long_long (upstream_connect_timeout c);
  request ← get_or n "request_timeout_seconds" as_long_long (request_timeout c);
  mret (mkLimits header body connect request).

Definition read_blacklist (clock : str -> nat -> time_point) (n : node) (c : BlacklistConfig) : outcome BlacklistConfig :=
  ips ← subscript n "ips";
  routes ← subscript n "routes";
  countries ← subscript n "countries";
  isps ← subscript n "isps";
  user_agents ← subscript n "user_agents";
  referrers ← subscript n "referrers";
  body_patterns ← subscript n "body_patterns";
  fake_routes ← subscript n "fake_routes";
  limit ← get_or n "max_body_size_bytes" as_size_t (max_body_size_bytes c);
  let '(exact, cidrs) := read_ip_list (clock (lit "blacklist")) ips in
  mret (mkBlacklist exact cidrs
          (read_entry_list (clock (lit "blacklist.routes")) routes)
          (read_entry_list (clock (lit "blacklist.countries")) countries)
          (read_entry_list (clock (lit "blacklist.isps")) isps)
          (read_entry_list (clock (lit "blacklist.user_agents")) user_agents)
          (read_entry_list (clock (lit "blacklist.referrers")) referrers)
          (read_entry_list (clock (lit "blacklist.body_patterns")) body_patterns)
          (read_entry_list (clock (lit "blacklist.fake_routes")) fake_routes) limit).

Definition read_whitelist (clock : str -> nat -> time_point) (n : node) (c : WhitelistConfig) : outcome WhitelistConfig :=
  ips ← subscript n "ips";
  routes ← subscript n "routes";
  let '(exact, cidrs) := read_ip_list (clock (lit "whitelist")) ips in
  mret (mkWhitelist exact cidrs (read_entry_list (clock (lit "whitelist.routes")) routes)).

Definition read_score (entry : node * node) : outcome (str * Z) :=
  points ← as_int entry.2; name ← as_string entry.1; mret (name, points).

Definition read_scores (n : node) (_ : gmap str Z) : outcome (gmap str Z) :=
  scores ← mapM read_score (entries n);
  mret (foldl (fun m kv => <[kv.1 := kv.2]> m) ∅ scores).

Definition read_ban (n : node) (c : BanConfig) : outcome BanConfig :=
  enabled ← get_or n "enabled" as_bool (ban_enabled c);
  threshold ← get_or n "threshold" as_int (threshold c);
  hours ← get_or n "ban_duration_hours" as_int (ban_duration_hours c);
  scores ← section n "scores" read_scores (scores c);
  mret (mkBan enabled threshold hours scores).

Definition read_security (n : node) (c : SecurityConfig) : outcome SecurityConfig :=
  required ← get_or n "require_2fa" as_bool (require_2fa c); mret (mkSecurity required).

Definition read_method_check (n : node) (c : MethodCheckConfig) : outcome MethodCheckConfig :=
  enabled ← get_or n "enabled" as_bool (mc_enabled c);
  methods ← section n "allowed_methods" (fun methods _ => mapM as_string (elements methods)) (allowed_methods c);
  mret (mkMethodCheck enabled methods).

Definition read_emergency_off (n : node) (c : EmergencyOffConfig) : outcome EmergencyOffConfig :=
  enabled ← get_or n "enabled" as_bool (eo_enabled c); mret (mkEmergency enabled).

Definition read_speed_check (n : node) (c : SpeedCheckConfig) : outcome SpeedCheckConfig :=
  enabled ← get_or n "enabled" as_bool (sc_enabled c);
  requests ← get_or n "max_requests" as_int (max_requests c);
  window ← get_or n "window_seconds" as_int (window_seconds c);
  mret (mkSpeed enabled requests window).

Definition read_status_page (now : time_point) (item : node) : outcome StatusPageEntry :=
  code ← get item "code" as_int;
  html ← get item "html" as_string;
  ts ← subscript item "created_at";
  created_at ← (if is_defined ts then stamp ← as_string ts; mret (default now (parse_timestamp stamp)) else mret now);
  mret (mkStatusPage code html created_at).

Definition read_pages (clock : str -> nat -> time_point) (n : node) (c : ResponsePagesConfig) : outcome ResponsePagesConfig :=
  blocked ← get_or n "blocked_html" as_string (blocked_html c);
  banned ← get_or n "banned_html" as_string (banned_html c);
  pages ← section n "status_pages" (fun items _ =>
            mapM (fun p => read_status_page (clock (lit "pages") p.1) p.2) (imap pair (elements items))) (status_pages c);
  mret (mkPages blocked banned pages).

Definition read_robots_txt (n : node) (c : RobotsTxtConfig) : outcome RobotsTxtConfig :=
  content ← get_or n "custom_content" as_string (custom_content c); mret (mkRobots content).

Definition read_request_log (n : node) (c : RequestLogConfig) : outcome RequestLogConfig :=
  enabled ← get_or n "enabled" as_bool (rl_enabled c);
  path ← get_or n "csv_path" as_string (csv_path c);
  mret (mkRequestLogConfig enabled path).

Definition read_geoip (n : node) (c : GeoIpConfig) : outcome GeoIpConfig :=
  path ← get_or n "mmdb_path" as_string (mmdb_path c);
  asn_path ← get_or n "asn_mmdb_path" as_string (asn_mmdb_path c);
  mret (mkGeoIp path asn_path).

(** [if (auto v = n[key]; v && !v.IsNull())] *)
Definition read_coordinate (n : node) (key : str) (fallback : option spec_float) : outcome (option spec_float) :=
  v ← subscript n key;
  if is_defined v && negb (is_null v) then d ← as_double v; mret (Some d) else mret fallback.

Definition read_globe (n : node) (c : GlobeConfig) : outcome GlobeConfig :=
  enabled ← get_or n "public_enabled" as_bool (public_enabled c);
  bind_host ← get_or n "public_bind" as_string (public_bind_host c);
  port ← get_or n "public_port" as_port (public_port c);
  cert ← get_or n "public_tls_cert_file" as_string (public_tls_cert_file c);
  key ← get_or n "public_tls_key_file" as_string (public_tls_key_file c);
  lat ← read_coordinate n "server_lat" (server_lat c);
  lon ← read_coordinate n "server_lon" (server_lon c);
  auto_detect ← get_or n "auto_detect_server_location" as_bool (auto_detect_server_location c);
  size ← get_or n "history_size" as_size_t (history_size c);
  mret (mkGlobe enabled bind_host port cert key lat lon auto_detect size).

Definition parse_yaml_config (clock : str -> nat -> time_point) (yaml_text : str) : outcome RuntimeConfig :=
  root ← yaml_load yaml_text;
  http ← section root "http" read_http default_http;
  https ← section root "https" read_https default_https;
  upstream ← section root "upstream" read_upstream default_upstream;
  sites ← section root "sites" read_sites [];
  admin ← section root "admin" read_admin default_admin;
  limits ← section root "limits" read_limits default_limits;
  blacklist ← section root "blacklist" (read_blacklist clock) default_blacklist;
  whitelist ← section root "whitelist" (read_whitelist clock) default_whitelist;
  ban ← section root "ban" read_ban default_ban;
  security ← section root "security" read_security default_security;
  method_check ← section root "method_check" read_method_check default_method_check;
  emergency_off ← section root "emergency_off" read_emergency_off default_emergency_off;
  speed_check ← section root "speed_check" read_speed_check default_speed_check;
  pages ← section root "pages" (read_pages clock) default_pages;
  robots_txt ← section root "robots_txt" read_robots_txt (mkRobots []);
  request_log ← section root "request_log" read_request_log default_request_log;
  geoip ← section root "geoip" read_geoip (mkGeoIp [] []);
  globe ← section root "globe" read_globe default_globe;
  mret (mkRuntime http https upstream sites admin limits blacklist whitelist ban speed_check method_check
          emergency_off pages request_log robots_txt geoip globe security).

(** ** Writing *)

Definition entry_tree (entry : BlacklistEntry) : tree := TMap [
  (lit "value", TStr (value entry)); (lit "created_at", TStr (format_timestamp (created_at entry)));
  (lit "created_by", TStr (created_by entry)); (lit "source", TStr (source entry))].

Definition cidr_tree (range : CidrRange) : tree := TMap [
  (lit "value", TStr (cidr_text range)); (lit "created_at", TStr (format_timestamp (cidr_created_at range)));
  (lit "source", TStr (cidr_source range))].

Definition write_entry_list (values : list BlacklistEntry) : tree := TSeq (map entry_tree values).
Definition write_ip_list (exact : list BlacklistEntry) (cidrs : list CidrRange) : tree :=
  TSeq (map entry_tree exact ++ map cidr_tree cidrs).

Definition upstream_tree (c : UpstreamConfig) : tree := TMap [
  (lit "host", TStr (upstream_host c)); (lit "port", TInt (upstream_port c))].

Definition site_tree (site : SiteConfig) : tree := TMap [
  (lit "domain", TStr (domain site)); (lit "enabled", TBool (site_enabled site));
  (lit "cert_file", TStr (cert_file site)); (lit "key_file", TStr (key_file site));
  (lit "upstream", upstream_tree (site_upstream site))].

Definition page_tree (entry : StatusPageEntry) : tree := TMap [
  (lit "code", TInt (code entry)); (lit "html", TStr (html entry));
  (lit "created_at", TStr (format_timestamp (sp_created_at entry)))].

#[local] Existing Instance JsonView.key_le_dec.

(** A node that nothing was assigned to is null. *)
Definition scores_tree (scores : gmap str Z) : tree :=
  match merge_sort JsonView.key_le (map_to_list scores) with
  | [] => TNull
  | sorted => TMap (map (fun kv => (kv.1, TInt kv.2)) sorted)
  end.

Definition coordinate_tree (v : option spec_float) : tree := match v with Some d => TDouble d | None => TNull end.

Definition http_tree (c : HttpListenerConfig) : tree := TMap [
  (lit "enabled", TBool (http_enabled c)); (lit "bind", TStr (http_bind_host c));
  (lit "port", TInt (http_port c))].

Definition https_tree (c : HttpsListenerConfig) : tree := TMap [
  (lit "enabled", TBool (https_enabled c)); (lit "bind", TStr (https_bind_host c));
  (lit "port", TInt (https_port c)); (lit "cert_file", TStr (https_cert_file c));
  (lit "key_file", TStr (https_key_file c))].

Definition admin_tree (c : AdminConfig) : tree := TMap [
  (lit "enabled", TBool (admin_enabled c)); (lit "bind", TStr (admin_bind_host c));
  (lit "port", TInt (admin_port c)); (lit "static_dir", TStr (static_dir c));
  (lit "tls_cert_file", TStr (tls_cert_file c));
  (lit "tls_key_file", TStr (tls_key_file c))].

Definition limits_tree (c : LimitsConfig) : tree := TMap [
  (lit "max_header_bytes", TInt (max_header_bytes c));
  (lit "max_body_bytes", TInt (max_body_bytes c));
  (lit "upstream_connect_timeout_seconds", TInt (upstream_connect_timeout c));
  (lit "request_timeout_seconds", TInt (request_timeout c))].

Definition blacklist_tree (c : BlacklistConfig) : tree := TMap [
  (lit "ips", write_ip_list (ip_exact c) (ip_cidrs c));
  (lit "routes", write_entry_list (routes c));
  (lit "max_body_size_bytes", TInt (max_body_size_bytes c));
  (lit "countries", write_entry_list (countries c));
  (lit "isps", write_entry_list (isps c));
  (lit "user_agents", write_entry_list (user_agents c));
  (lit "referrers", write_entry_list (referrers c));
  (lit "body_patterns", write_entry_list (body_patterns c));
  (lit "fake_routes", write_entry_list (fake_routes c))].

Definition whitelist_tree (c : WhitelistConfig) : tree := TMap [
  (lit "ips", write_ip_list (wl_ip_exact c) (wl_ip_cidrs c));
  (lit "routes", write_entry_list (wl_routes c))].

Definition ban_tree (c : BanConfig) : tree := TMap [
  (lit "enabled", TBool (ban_enabled c)); (lit "threshold", TInt (threshold c));
  (lit "ban_duration_hours", TInt (ban_duration_hours c));
  (lit "scores", scores_tree (scores c))].

Definition security_tree (c : SecurityConfig) : tree := TMap [(lit "require_2fa", TBool (require_2fa c))].

Definition speed_check_tree (c : SpeedCheckConfig) : tree := TMap [
  (lit "enabled", TBool (sc_enabled c));
  (lit "max_requests", TInt (max_requests c));
  (lit "window_seconds", TInt (window_seconds c))].

Definition method_check_tree (c : MethodCheckConfig) : tree := TMap [
  (lit "enabled", TBool (mc_enabled c));
  (lit "allowed_methods", TSeq (map TStr (allowed_methods c)))].

Definition emergency_off_tree (c : EmergencyOffConfig) : tree := TMap [(lit "enabled", TBool (eo_enabled c))].

Definition pages_tree (c : ResponsePagesConfig) : tree := TMap [
  (lit "blocked_html", TStr (blocked_html c)); (lit "banned_html", TStr (banned_html c));
  (lit "status_pages", TSeq (map page_tree (status_pages c)))].

Definition request_log_tree (c : RequestLogConfig) : tree := TMap [
  (lit "enabled", TBool (rl_enabled c)); (lit "csv_path", TStr (csv_path c))].

Definition robots_txt_tree (c : RobotsTxtConfig) : tree := TMap [(lit "custom_content", TStr (custom_content c))].

Definition geoip_tree (c : GeoIpConfig) : tree := TMap [
  (lit "mmdb_path", TStr (mmdb_path c)); (lit "asn_mmdb_path", TStr (asn_mmdb_path c))].

Definition globe_tree (c : GlobeConfig) : tree := TMap [
  (lit "public_enabled", TBool (public_enabled c));
  (lit "public_bind", TStr (public_bind_host c));
  (lit "public_port", TInt (public_port c));
  (lit "public_tls_cert_file", TStr (public_tls_cert_file c));
  (lit "public_tls_key_file", TStr (public_tls_key_file c));
  (lit "server_lat", coordinate_tree (server_lat c));
  (lit "server_lon", coordinate_tree (server_lon c));
  (lit "auto_detect_server_location", TBool (auto_detect_server_location c));
  (lit "history_size", TInt (history_size c))].

Definition config_tree (config : RuntimeConfig) : tree := TMap [
  (lit "http", http_tree (http config));
  (lit "https", https_tree (https config));
  (lit "upstream", upstream_tree (upstream config));
  (lit "sites", TSeq (map site_tree (sites config)));
  (lit "admin", admin_tree (admin config));
  (lit "limits", limits_tree (limits config));
  (lit "blacklist", blacklist_tree (blacklist config));
  (lit "whitelist", whitelist_tree (whitelist config));
  (lit "ban", ban_tree (ban config));
  (lit "security", security_tree (security config));
  (lit "speed_check", speed_check_tree (speed_check config));
  (lit "method_check", method_check_tree (method_check config));
  (lit "emergency_off", emergency_off_tree (emergency_off config));
  (lit "pages", pages_tree (pages config));
  (lit "request_log", request_log_tree (request_log config));
  (lit "robots_txt", robots_txt_tree (robots_txt config));
  (lit "geoip", geoip_tree (geoip config));
  (lit "globe", globe_tree (globe config))].

Definition to_yaml_config (config : RuntimeConfig) : str := yaml_emit (config_tree config).

(** *** [ConfigStore::load_or_create]

    [file] is the text of the file, if there is one; [written] the result of
    writing the defaults. Returns the text the file then holds and what is
    published. *)
Definition load_or_create (clock : str -> nat -> time_point) (file : option str) (written : outcome unit)
    : outcome (list ascii * RuntimeConfig) :=
  text ← match file with
         | Some text => mret text
         | None => _ ← written; mret (to_yaml_config default_config)
         end;
  config ← parse_yaml_config clock text;
  mret (text, config).
End codec.
