(* ===== verification/YamlRound.v ===== *)
(** * YamlRound: the configuration file, there and back

    What survives when [to_yaml_config] writes a configuration and
    [parse_yaml_config] reads the document: everything but the fractions of
    the seconds, for the configurations that [persistable] describes; and what
    every file that loads can be relied on for, whoever wrote it. *)
From S2P Require Import Prelude Text Net Config Timestamps Yaml YamlLookup YamlConfig.
From S2P Require BlacklistOps JsonView Users.
From Stdlib Require Import SpecFloat.

(** ** What the file preserves *)

Definition entry_at_seconds (e : BlacklistEntry) : BlacklistEntry :=
  mkEntry (value e) (Users.whole_seconds (created_at e)) (created_by e) (source e).
Definition cidr_at_seconds (r : CidrRange) : CidrRange :=
  mkCidrRange (cidr_prefix r) (cidr_prefix_len r) (cidr_text r) (Users.whole_seconds (cidr_created_at r)) (cidr_source r).
Definition page_at_seconds (e : StatusPageEntry) : StatusPageEntry :=
  mkStatusPage (code e) (html e) (Users.whole_seconds (sp_created_at e)).

Definition blacklist_at_seconds (c : BlacklistConfig) : BlacklistConfig :=
  let l := map entry_at_seconds in
  mkBlacklist (l (ip_exact c)) (map cidr_at_seconds (ip_cidrs c)) (l (routes c)) (l (countries c)) (l (isps c))
    (l (user_agents c)) (l (referrers c)) (l (body_patterns c)) (l (fake_routes c)) (max_body_size_bytes c).
Definition whitelist_at_seconds (c : WhitelistConfig) : WhitelistConfig :=
  mkWhitelist (map entry_at_seconds (wl_ip_exact c)) (map cidr_at_seconds (wl_ip_cidrs c)) (map entry_at_seconds (wl_routes c)).
Definition pages_at_seconds (c : ResponsePagesConfig) : ResponsePagesConfig :=
  mkPages (blocked_html c) (banned_html c) (map page_at_seconds (status_pages c)).

(** The configuration with its times cut to whole seconds. *)
Definition at_seconds (c : RuntimeConfig) : RuntimeConfig :=
  mkRuntime (http c) (https c) (upstream c) (sites c) (admin c) (limits c) (blacklist_at_seconds (blacklist c))
    (whitelist_at_seconds (whitelist c)) (ban c) (speed_check c) (method_check c) (emergency_off c)
    (pages_at_seconds (pages c)) (request_log c) (robots_txt c) (geoip c) (globe c) (security c).

Definition limits_ok (c : LimitsConfig) : Prop :=
  0 <= max_header_bytes c <= SIZE_MAX /\ 0 <= max_body_bytes c <= SIZE_MAX /\
  INT64_MIN <= upstream_connect_timeout c <= INT64_MAX /\ INT64_MIN <= request_timeout c <= INT64_MAX.
Definition speed_ok (c : SpeedCheckConfig) : Prop :=
  INT_MIN <= max_requests c <= INT_MAX /\ INT_MIN <= window_seconds c <= INT_MAX.
Definition globe_ok (c : GlobeConfig) : Prop := port_ok (public_port c) /\ 0 <= history_size c <= SIZE_MAX.

Definition time_ok (t : time_point) : Prop := 0 <= t <= INT64_MAX.
Definition site_ok (s : SiteConfig) : Prop :=
  domain s <> [] /\ to_lower (domain s) = domain s /\ port_ok (upstream_port (site_upstream s)).
Definition page_ok (e : StatusPageEntry) : Prop := INT_MIN <= code e <= INT_MAX /\ time_ok (sp_created_at e).
Definition ban_ok (c : BanConfig) : Prop :=
  INT_MIN <= threshold c <= INT_MAX /\ INT_MIN <= ban_duration_hours c <= INT_MAX /\
  map_Forall (fun _ points => INT_MIN <= points <= INT_MAX) (scores c).

(** An entry that a reader does not skip. *)
Definition entry_ok (e : BlacklistEntry) : Prop := is_blank (value e) = false /\ time_ok (created_at e).

Section lists_ok.
Context `{Asio : AsioIp}.

Definition exact_ok (e : BlacklistEntry) : Prop :=
  (entry_ok e /\ BlacklistOps.has_slash (value e) = false) /\ is_Some (make_address (value e)).
Definition range_ok (r : CidrRange) : Prop := BlacklistOps.range_from_text r /\ time_ok (cidr_created_at r).

Definition blacklist_ok (c : BlacklistConfig) : Prop :=
  Forall exact_ok (ip_exact c) /\ Forall range_ok (ip_cidrs c) /\
  Forall (Forall entry_ok) [routes c; countries c; isps c; user_agents c; referrers c; body_patterns c; fake_routes c] /\
  0 <= max_body_size_bytes c <= SIZE_MAX.
Definition whitelist_ok (c : WhitelistConfig) : Prop :=
  Forall exact_ok (wl_ip_exact c) /\ Forall range_ok (wl_ip_cidrs c) /\ Forall entry_ok (wl_routes c).
End lists_ok.

Section sections.
Context `{Asio : AsioIp} `{Laws : YamlLaws}.
Notation ok_tree := (tree_ok storable).

(** *** The sections without lists *)

Lemma http_back c d : ok_tree (http_tree c) -> port_ok (http_port c) -> read_http (loaded (http_tree c)) d = Ok c.
Proof. intros Hm Hp. unfold read_http, http_tree in *. repeat member Hm. by destruct c. Qed.

Lemma https_back c d : ok_tree (https_tree c) -> port_ok (https_port c) -> read_https (loaded (https_tree c)) d = Ok c.
Proof. intros Hm Hp. unfold read_https, https_tree in *. repeat member Hm. by destruct c. Qed.

Lemma upstream_back c d :
  ok_tree (upstream_tree c) -> port_ok (upstream_port c) -> read_upstream (loaded (upstream_tree c)) d = Ok c.
Proof. intros Hm Hp. unfold read_upstream, upstream_tree in *. repeat member Hm. by destruct c. Qed.

Lemma admin_back c d : ok_tree (admin_tree c) -> port_ok (admin_port c) -> read_admin (loaded (admin_tree c)) d = Ok c.
Proof. intros Hm Hp. unfold read_admin, admin_tree in *. repeat member Hm. by destruct c. Qed.

Lemma limits_back c d : ok_tree (limits_tree c) -> limits_ok c -> read_limits (loaded (limits_tree c)) d = Ok c.
Proof. intros Hm (? & ? & ? & ?). unfold read_limits, limits_tree in *. repeat member Hm. by destruct c. Qed.

Lemma security_back c d : ok_tree (security_tree c) -> read_security (loaded (security_tree c)) d = Ok c.
Proof. intros Hm. unfold read_security, security_tree in *. repeat member Hm. by destruct c. Qed.

Lemma speed_check_back c d :
  ok_tree (speed_check_tree c) -> speed_ok c -> read_speed_check (loaded (speed_check_tree c)) d = Ok c.
Proof. intros Hm [? ?]. unfold read_speed_check, speed_check_tree in *. repeat member Hm. by destruct c. Qed.

Lemma emergency_off_back c d : ok_tree (emergency_off_tree c) -> read_emergency_off (loaded (emergency_off_tree c)) d = Ok c.
Proof. intros Hm. unfold read_emergency_off, emergency_off_tree in *. repeat member Hm. by destruct c. Qed.

Lemma request_log_back c d : ok_tree (request_log_tree c) -> read_request_log (loaded (request_log_tree c)) d = Ok c.
Proof. intros Hm. unfold read_request_log, request_log_tree in *. repeat member Hm. by destruct c. Qed.

Lemma robots_txt_back c d : ok_tree (robots_txt_tree c) -> read_robots_txt (loaded (robots_txt_tree c)) d = Ok c.
Proof. intros Hm. unfold read_robots_txt, robots_txt_tree in *. repeat member Hm. by destruct c. Qed.

Lemma geoip_back c d : ok_tree (geoip_tree c) -> read_geoip (loaded (geoip_tree c)) d = Ok c.
Proof. intros Hm. unfold read_geoip, geoip_tree in *. repeat member Hm. by destruct c. Qed.

(** A coordinate that is not there is written as null, and null is skipped. *)
Lemma coordinate_back m key v {B} (k : option spec_float -> outcome B) r :
  ok_tree (TMap m) -> tfind m key = Some (coordinate_tree v) -> k v = r ->
  (read_coordinate (loaded (TMap m)) key None ≫= k) = r.
Proof.
  intros Hm Ht Hk. unfold read_coordinate. pose proof (tree_ok_find _ _ _ Hm Ht) as Hd.
  rewrite (subscript_found _ _ _ Hm Ht). cbn [mbind outcome_bind]. rewrite load_defined, load_is_null.
  destruct v as [d|]; cbn [coordinate_tree andb negb]; [|exact Hk]. by rewrite (load_double d Hd).
Qed.

Lemma globe_back c :
  ok_tree (globe_tree c) -> globe_ok c -> read_globe (loaded (globe_tree c)) default_globe = Ok c.
Proof.
  intros Hm [? ?]. unfold read_globe, globe_tree in *. do 5 member Hm. cbn [server_lat server_lon default_globe].
  do 2 (eapply (coordinate_back _ _ _ _ _ Hm); [find_key|]). repeat member Hm. by destruct c.
Qed.

Lemma site_back s : site_ok s -> ok_tree (site_tree s) -> read_site (loaded (site_tree s)) = Ok (Some s).
Proof.
  intros (Hne & Hl & Hp) Hm. unfold read_site, site_tree in *. member Hm. rewrite Hl.
  destruct (domain s) as [|c l] eqn:Hd; [done|]. repeat member Hm.
  eapply (section_bind _ _ _ _ _ _ _ _ Hm); [find_key|intros Hs; by apply upstream_back|].
  cbv beta. rewrite <- Hd. by destruct s.
Qed.

Lemma sites_back l d :
  Forall site_ok l -> ok_tree (TSeq (map site_tree l)) -> read_sites (loaded (TSeq (map site_tree l))) d = Ok l.
Proof.
  intros Hl Hs. unfold read_sites. rewrite (elements_mapM site_tree read_site Some l); [|by eapply Forall_impl; [exact Hl|]; intros s; apply site_back|done].
  cbn. f_equal. clear. induction l as [|s l IH]; [done|]. cbn. by rewrite IH.
Qed.

Lemma method_check_back c d :
  ok_tree (method_check_tree c) -> read_method_check (loaded (method_check_tree c)) d = Ok c.
Proof.
  intros Hm. unfold read_method_check, method_check_tree in *. member Hm.
  eapply (section_bind _ _ _ _ _ (allowed_methods c) _ _ Hm); [find_key|intros Hs|by destruct c].
  rewrite (elements_mapM TStr as_string id); [by rewrite map_id| |done].
  apply Forall_forall. intros x _ Hx. exact (load_string _ Hx).
Qed.

(** The reader of the stamps, on what was written. *)
Lemma stamp_back m key t now {B} (k : time_point -> outcome B) r :
  ok_tree (TMap m) -> tfind m key = Some (TStr (format_timestamp t)) -> time_ok t -> k (Users.whole_seconds t) = r ->
  (ts ← subscript (loaded (TMap m)) key;
   (if is_defined ts then stamp ← as_string ts; mret (default now (parse_timestamp stamp)) else mret now) ≫= k) = r.
Proof.
  intros Hm Ht Hok Hk. eapply (subscript_bind _ _ _ _ _ Hm Ht). intros Hs. rewrite load_defined, (load_string _ Hs).
  cbn [mbind outcome_bind mret outcome_ret]. by rewrite timestamp_round_trip.
Qed.

Lemma page_back now e :
  page_ok e -> ok_tree (page_tree e) -> read_status_page now (loaded (page_tree e)) = Ok (page_at_seconds e).
Proof.
  intros [? ?] Hm. unfold read_status_page, page_tree in *. do 2 member Hm.
  eapply (stamp_back _ _ _ _ _ _ Hm); [find_key|done|done].
Qed.

Lemma clocked_mapM {A B} (f : A -> tree) (read : time_point -> node -> outcome B) (g : A -> B) l (clock : nat -> time_point) (h : nat -> nat) :
  Forall (fun a => forall now, read now (loaded (f a)) = Ok (g a)) l ->
  mapM (fun p => read (clock p.1) p.2) (imap (fun i n => (h i, n)) (map loaded (map f l))) = Ok (map g l).
Proof.
  intros Hl. revert h. induction Hl as [|a l Ha Hl IH]; intros h; [done|].
  cbn [map]. rewrite imap_cons. cbn [mapM fst snd]. rewrite Ha. cbn [mbind outcome_bind].
  unfold compose at 1. rewrite (IH (fun i => h (S i))). done.
Qed.

Lemma pages_back clock c d :
  Forall page_ok (status_pages c) -> ok_tree (pages_tree c) ->
  read_pages clock (loaded (pages_tree c)) d = Ok (pages_at_seconds c).
Proof.
  intros Hp Hm. unfold read_pages, pages_tree in *. do 2 member Hm.
  eapply (section_bind _ _ _ _ _ (map page_at_seconds (status_pages c)) _ _ Hm); [find_key|intros Hs|done].
  pose proof (tree_ok_elements _ _ Hs) as Ht. rewrite load_seq by done.
  apply (clocked_mapM page_tree read_status_page page_at_seconds _ (clock (lit "pages")) id).
  rewrite !Forall_forall in *. intros e He now. apply page_back; [by apply Hp|]. apply Ht. by apply (list_elem_of_fmap_2 page_tree).
Qed.

(** *** The table of points *)

#[local] Existing Instance JsonView.key_le_dec.

Lemma scores_perm (m : gmap str Z) : merge_sort JsonView.key_le (map_to_list m) ≡ₚ map_to_list m.
Proof. apply merge_sort_Permutation. Qed.

Lemma insert_all (l : list (str * Z)) :
  foldl (fun m kv => <[kv.1 := kv.2]> m) ∅ l = list_to_map (reverse l) :> gmap str Z.
Proof.
  induction l as [|[k v] l IH] using rev_ind; [done|]. rewrite foldl_app, reverse_app. cbn. by rewrite IH.
Qed.

Lemma insert_all_scores (m : gmap str Z) l : l ≡ₚ map_to_list m -> foldl (fun m kv => <[kv.1 := kv.2]> m) ∅ l = m.
Proof.
  intros Hl. rewrite insert_all. rewrite <- (list_to_map_to_list m) at 1. apply list_to_map_proper.
  - rewrite (Permutation_map fst (Permutation_trans (reverse_Permutation l) Hl)). apply NoDup_fst_map_to_list.
  - by rewrite reverse_Permutation.
Qed.

Lemma scores_entries l :
  Forall (fun kv : str * Z => storable kv.1 /\ INT_MIN <= kv.2 <= INT_MAX) l ->
  mapM read_score (map (fun p => (loaded (TStr p.1), loaded p.2)) (map (fun kv => (kv.1, TInt kv.2)) l)) = Ok l.
Proof.
  induction 1 as [|[k v] l [Hk Hv] Hl IH]; [done|]. cbn [map mapM fst snd] in *.
  assert (read_score (loaded (TStr k), loaded (TInt v)) = Ok (k, v)) as ->.
  { unfold read_score, as_int. cbn [fst snd]. by rewrite (load_integer _ _ _ Hv), (load_string _ Hk). }
  cbn [mbind outcome_bind]. by rewrite IH.
Qed.

Lemma scores_back m d :
  ok_tree (scores_tree m) -> map_Forall (fun _ points => INT_MIN <= points <= INT_MAX) m ->
  read_scores (loaded (scores_tree m)) d = Ok m.
Proof.
  intros Hok Hm. unfold read_scores, scores_tree in *. pose proof (scores_perm m) as Hp.
  destruct (merge_sort JsonView.key_le (map_to_list m)) as [|kv l] eqn:E.
  - destruct load_null as [_ ->]. cbn. f_equal. exact (insert_all_scores m [] Hp).
  - rewrite <- E in *. rewrite load_map by done. destruct Hok as [_ Hok]. rewrite scores_entries.
    + cbn [mbind outcome_bind mret outcome_ret]. by rewrite (insert_all_scores m).
    + clear -Hok Hm Hp. rewrite map_Forall_to_list, <- Hp in Hm. clear Hp.
      induction (merge_sort _ _) as [|[k v] l IH]; [constructor|]. destruct Hok as (H1 & _ & H2).
      apply Forall_cons in Hm as [Hv Hm]. constructor; [done|by apply IH].
Qed.

Lemma ban_back c d : ok_tree (ban_tree c) -> ban_ok c -> read_ban (loaded (ban_tree c)) d = Ok c.
Proof.
  intros Hm (? & ? & Hs). unfold read_ban, ban_tree in *. repeat member Hm.
  eapply (section_bind _ _ _ _ _ (scores c) _ _ Hm); [find_key|intros Ht; by apply scores_back|by destruct c].
Qed.

(** *** Entries *)

Lemma load_scalar_map m : is_scalar (loaded (TMap m)) = false.
Proof. by rewrite load_scalar. Qed.

Definition raw_of_entry (e : BlacklistEntry) : RawEntry :=
  mkRaw (value e) (Users.whole_seconds (created_at e)) (created_by e) (source e).
Definition raw_of_cidr (r : CidrRange) : RawEntry :=
  mkRaw (cidr_text r) (Users.whole_seconds (cidr_created_at r)) [] (cidr_source r).

Lemma entry_back now e :
  entry_ok e -> ok_tree (entry_tree e) -> read_raw_entry now (loaded (entry_tree e)) = Some (raw_of_entry e).
Proof.
  intros [Hb Ht] Hm. unfold read_raw_entry. replace (raw_entry _ _) with (Ok (raw_of_entry e)); [by cbn [raw_value raw_of_entry raw_of_cidr]; rewrite Hb|].
  symmetry. unfold raw_entry, entry_tree in *. rewrite load_scalar_map. member Hm.
  eapply (stamp_back _ _ _ _ _ _ Hm); [find_key|done|].
  do 2 (let Hs := fresh in lookup Hm Hs; rewrite load_defined, (load_string _ Hs); cbn [mbind outcome_bind mret outcome_ret]).
  done.
Qed.

Lemma cidr_back now r :
  is_blank (cidr_text r) = false -> time_ok (cidr_created_at r) -> ok_tree (cidr_tree r) ->
  read_raw_entry now (loaded (cidr_tree r)) = Some (raw_of_cidr r).
Proof.
  intros Hb Ht Hm. unfold read_raw_entry. replace (raw_entry _ _) with (Ok (raw_of_cidr r)); [by cbn [raw_value raw_of_entry raw_of_cidr]; rewrite Hb|].
  symmetry. unfold raw_entry, cidr_tree in *. rewrite load_scalar_map. member Hm.
  eapply (stamp_back _ _ _ _ _ _ Hm); [find_key|done|].
  eapply (subscript_in_vain _ _ _ _ Hm); [done|]. rewrite load_missing. cbn [mbind outcome_bind mret outcome_ret].
  lookup Hm Hs. by rewrite load_defined, (load_string _ Hs).
Qed.

Lemma raw_entries_back ts raws clock :
  Forall2 (fun t raw => forall now, read_raw_entry now (loaded t) = Some raw) ts raws -> ok_tree (TSeq ts) ->
  raw_entries clock (loaded (TSeq ts)) = raws.
Proof.
  intros Hr Hs. unfold raw_entries. rewrite load_seq by exact (tree_ok_elements _ _ Hs). clear Hs.
  revert clock. induction Hr as [|t raw ts raws Ht Hr IH]; intros clock; [done|].
  cbn [map]. rewrite imap_cons, Ht. cbn [omap list_omap id]. f_equal. apply (IH (fun i => clock (S i))).
Qed.

Lemma entries_back l :
  Forall entry_ok l -> Forall ok_tree (map entry_tree l) ->
  Forall2 (fun t raw => forall now, read_raw_entry now (loaded t) = Some raw) (map entry_tree l) (map raw_of_entry l).
Proof.
  induction 1 as [|e l He Hl IH]; intros Ht; [constructor|]. apply Forall_cons in Ht as [Ht Hts].
  constructor; [intros now; by apply entry_back|by apply IH].
Qed.

Lemma entry_list_back clock l :
  Forall entry_ok l -> ok_tree (write_entry_list l) ->
  read_entry_list clock (loaded (write_entry_list l)) = map entry_at_seconds l.
Proof.
  intros Hl Hs. unfold read_entry_list, write_entry_list in *. rewrite load_defined. cbn [negb].
  rewrite (raw_entries_back _ (map raw_of_entry l)); [by rewrite map_map|by apply entries_back, tree_ok_elements|done].
Qed.

(** *** Lists of addresses and ranges *)

Lemma parse_cidr_text now v r : parse_cidr now v = Some r -> cidr_text r = v.
Proof. unfold parse_cidr. intros H. repeat case_match; by simplify_eq. Qed.

Lemma slash_not_blank v : BlacklistOps.has_slash v = true -> is_blank v = false.
Proof.
  unfold BlacklistOps.has_slash, find_char. intros H. apply bool_decide_eq_true in H as [i H].
  apply fmap_Some in H as ([j c] & H & _). apply list_find_Some in H as (Hi & Hc & _). cbn in Hc. subst c.
  apply not_true_iff_false. unfold is_blank. rewrite forallb_forall. intros Hb.
  specialize (Hb "/"%char). rewrite <- list_elem_of_In in Hb. by specialize (Hb (list_elem_of_lookup_2 _ _ _ Hi)).
Qed.

Lemma read_exact out l :
  Forall exact_ok l ->
  foldl read_ip_item out (map raw_of_entry l) = (out.1 ++ map entry_at_seconds l, out.2).
Proof.
  intros Hl. revert out. induction Hl as [|e l [[_ Hs] [a Ha]] Hl IH]; intros [exact cidrs]; [by rewrite app_nil_r|].
  cbn [map foldl]. unfold read_ip_item at 2. cbn [raw_value raw_of_entry]. unfold BlacklistOps.has_slash in Hs.
  rewrite Hs, Ha, IH. cbn [fst snd]. by rewrite <- app_assoc.
Qed.

Lemma read_ranges out l :
  Forall range_ok l ->
  foldl read_ip_item out (map raw_of_cidr l) = (out.1, out.2 ++ map cidr_at_seconds l).
Proof.
  intros Hl. revert out. induction Hl as [|r l [[Hs (r0 & Hp & Hpre & Hlen)] _] Hl IH]; intros [exact cidrs]; [by rewrite app_nil_r|].
  cbn [map foldl]. unfold read_ip_item at 2. cbn [raw_value raw_of_cidr]. unfold BlacklistOps.has_slash in Hs.
  rewrite Hs, Hp, IH. cbn [fst snd]. rewrite <- app_assoc, <- Hpre, <- Hlen, (parse_cidr_text _ _ _ Hp). done.
Qed.

Lemma cidrs_back l :
  Forall range_ok l -> Forall ok_tree (map cidr_tree l) ->
  Forall2 (fun t raw => forall now, read_raw_entry now (loaded t) = Some raw) (map cidr_tree l) (map raw_of_cidr l).
Proof.
  induction 1 as [|r l [[Hs _] Ht] Hl IH]; intros H; [constructor|]. apply Forall_cons in H as [Hr Hrs].
  constructor; [intros now; apply cidr_back; [by apply slash_not_blank|done|done]|by apply IH].
Qed.

Lemma ip_list_back clock exact cidrs :
  Forall exact_ok exact -> Forall range_ok cidrs -> ok_tree (write_ip_list exact cidrs) ->
  read_ip_list clock (loaded (write_ip_list exact cidrs)) = (map entry_at_seconds exact, map cidr_at_seconds cidrs).
Proof.
  intros He Hr Hs. unfold read_ip_list, write_ip_list in *. rewrite load_defined. cbn [negb].
  pose proof (tree_ok_elements _ _ Hs) as Ht. apply Forall_app in Ht as [Ht1 Ht2].
  rewrite (raw_entries_back _ (map raw_of_entry exact ++ map raw_of_cidr cidrs)); [| |done].
  - by rewrite foldl_app, read_exact, read_ranges.
  - apply Forall2_app; [apply entries_back; [|done]|by apply cidrs_back].
    eapply Forall_impl; [exact He|]. by intros e [[? _] _].
Qed.

Lemma blacklist_back clock c d :
  ok_tree (blacklist_tree c) -> blacklist_ok c ->
  read_blacklist clock (loaded (blacklist_tree c)) d = Ok (blacklist_at_seconds c).
Proof.
  intros Hm (Hx & Hr & Hl & ?). rewrite !Forall_cons in Hl. destruct Hl as (? & ? & ? & ? & ? & ? & ? & _).
  unfold read_blacklist, blacklist_tree in *.
  do 8 (let Hs := fresh "Hs" in lookup Hm Hs). member Hm.
  rewrite ip_list_back, !entry_list_back by done. done.
Qed.

Lemma whitelist_back clock c d :
  ok_tree (whitelist_tree c) -> whitelist_ok c ->
  read_whitelist clock (loaded (whitelist_tree c)) d = Ok (whitelist_at_seconds c).
Proof.
  intros Hm (Hx & Hr & ?). unfold read_whitelist, whitelist_tree in *.
  do 2 (let Hs := fresh "Hs" in lookup Hm Hs). by rewrite ip_list_back, entry_list_back.
Qed.

#[local] Create HintDb yaml_back.
#[local] Hint Resolve http_back https_back upstream_back sites_back admin_back limits_back blacklist_back whitelist_back
  ban_back security_back method_check_back emergency_off_back speed_check_back pages_back robots_txt_back
  request_log_back geoip_back globe_back : yaml_back.

(** ** The round trip *)

(** A configuration that the file holds as it is: its integers fit the types
    they are read as, its ranges are those of their texts, and no reader skips
    its entries. *)
Record persistable (c : RuntimeConfig) : Prop := {
  fits_document : ok_tree (config_tree c);
  fits_http : port_ok (http_port (http c));
  fits_https : port_ok (https_port (https c));
  fits_upstream : port_ok (upstream_port (upstream c));
  fits_sites : Forall site_ok (sites c);
  fits_admin : port_ok (admin_port (admin c));
  fits_limits : limits_ok (limits c);
  fits_blacklist : blacklist_ok (blacklist c);
  fits_whitelist : whitelist_ok (whitelist c);
  fits_ban : ban_ok (ban c);
  fits_speed_check : speed_ok (speed_check c);
  fits_pages : Forall page_ok (status_pages (pages c));
  fits_globe : globe_ok (globe c) }.

Lemma saved_config_loads clock c :
  persistable c -> parse_yaml_config clock (to_yaml_config c) = Ok (at_seconds c).
Proof.
  intros [Hm ? ? ? ? ? ? ? ? ? ? ? ?]. unfold parse_yaml_config, to_yaml_config. rewrite load_emit by done.
  cbn [mbind outcome_bind]. unfold config_tree in *.
  do 18 (eapply (section_bind _ _ _ _ _ _ _ _ Hm); [find_key|intros Hs; by eauto with yaml_back|]).
  done.
Qed.

(** C29: a configuration that the file can hold is, written to the file and
    loaded again, the same configuration, its times cut to whole seconds: no
    entry, site, page, point or switch is lost or altered, whatever the clock
    reads. What the file can hold is [persistable]: integers in the ranges of
    their types and times after 1970, texts that YAML can spell, domains
    lower-case and not empty, listed addresses that parse, ranges that are
    those of their texts, and no blank entry, which the reader would skip. *)
Theorem config_round_trip clock c :
  persistable c -> parse_yaml_config clock (to_yaml_config c) = Ok (at_seconds c).
Proof. apply saved_config_loads. Qed.
End sections.

Section first_start.
Context `{Asio : AsioIp} `{Laws : YamlLaws}.

Lemma default_scores_fit : map_Forall (fun _ points => INT_MIN <= points <= INT_MAX) default_scores.
Proof.
  assert (forallb (fun kv => bool_decide (INT_MIN <= kv.2 <= INT_MAX)) (map_to_list default_scores) = true) as H
    by (vm_compute; reflexivity).
  rewrite forallb_forall in H. apply map_Forall_to_list, Forall_forall. intros [k v] Hkv.
  exact (bool_decide_eq_true_1 _ (H (k, v) (proj1 (list_elem_of_In _ _) Hkv))).
Qed.

Lemma default_persistable : tree_ok storable (config_tree default_config) -> persistable default_config.
Proof.
  intros Hm. split; [exact Hm|..].
  9: by split_and!; [..|apply default_scores_fit].
  all: by repeat constructor.
Qed.

(** The first start publishes the defaults, and so does every start after it. *)
Theorem first_start_defaults clock clock' :
  tree_ok storable (config_tree default_config) ->
  exists text, load_or_create clock None (Ok tt) = Ok (text, default_config) /\
               forall written, load_or_create clock' (Some text) written = Ok (text, default_config).
Proof.
  intros Hm%default_persistable. exists (to_yaml_config default_config).
  unfold load_or_create. cbn [mbind outcome_bind mret outcome_ret].
  assert (forall k, parse_yaml_config k (to_yaml_config default_config) = Ok default_config) as H
    by (intros k; rewrite saved_config_loads; [done|exact Hm]).
  by rewrite !H.
Qed.
End first_start.

(** ** What every file that loads gives *)

Section loading.
Context `{Asio : AsioIp} `{Y : Yaml}.

Lemma section_inv {A} root key (read : node -> A -> outcome A) c v :
  section root key read c = Ok v -> v = c \/ exists n, read n c = Ok v.
Proof.
  intros H. apply bind_inv in H as (n & _ & H). destruct (is_defined n); [right; by exists n|].
  left. by injection H as [= <-].
Qed.
End loading.

Section soundness.
Context `{Asio : AsioIp} `{Y : Yaml}.

Lemma raw_entries_filled clock n : Forall (fun raw => is_blank (raw_value raw) = false) (raw_entries clock n).
Proof.
  apply Forall_forall. intros raw Hr. unfold raw_entries in Hr. apply list_elem_of_omap in Hr as (o & Ho & E).
  apply elem_of_lookup_imap in Ho as (i & item & -> & _). unfold id, read_raw_entry in E.
  destruct (raw_entry _ item) as [raw'|]; [|done]. destruct (is_blank (raw_value raw')) eqn:Eb; [done|]. by injection E as [= <-].
Qed.

Lemma read_entry_list_filled clock n : Forall (fun e => is_blank (value e) = false) (read_entry_list clock n).
Proof.
  unfold read_entry_list. destruct (is_defined n); [|constructor]. apply Forall_map, raw_entries_filled.
Qed.

(** What a loaded list of addresses and ranges can be relied on for. *)
Definition sound_ips (p : list BlacklistEntry * list CidrRange) : Prop :=
  BlacklistOps.ips_ok p /\
  Forall (fun v => is_blank v = false /\ BlacklistOps.valid_ip_text v = true) (BlacklistOps.ip_texts p).

Lemma read_ip_item_sound out raw : is_blank (raw_value raw) = false -> sound_ips out -> sound_ips (read_ip_item out raw).
Proof.
  intros Hb [[H1 H2] H3]. unfold read_ip_item, sound_ips, BlacklistOps.ips_ok, BlacklistOps.ip_texts in *.
  destruct (bool_decide (is_Some (find_char "/" (raw_value raw)))) eqn:Hs; [destruct (parse_cidr 0 (raw_value raw)) as [r|] eqn:Hp; [|done]
    |destruct (make_address (raw_value raw)) as [a|] eqn:Ha; [|done]]; cbn [fst snd].
  - pose proof (parse_cidr_text _ _ _ Hp) as Ht. split; [split; [done|]|].
    + apply Forall_app. split; [done|]. repeat constructor; cbn [cidr_text cidr_prefix cidr_prefix_len]; rewrite Ht.
      * exact Hs.
      * by exists r.
    + rewrite map_app, app_assoc. apply Forall_app. split; [done|]. repeat constructor; cbn [map cidr_text]; rewrite Ht; [done|].
      unfold BlacklistOps.valid_ip_text, BlacklistOps.has_slash. by rewrite Hs, Hp.
  - split; [split; [|done]|].
    + apply Forall_app. split; [done|]. repeat constructor. exact Hs.
    + rewrite map_app, <- app_assoc. apply Forall_app in H3 as [H3 H4]. rewrite !Forall_app. split_and!; [done| |done].
      repeat constructor; cbn [map entry_of value]; [done|].
      unfold BlacklistOps.valid_ip_text, BlacklistOps.has_slash. by rewrite Hs, Ha.
Qed.

Lemma read_ip_list_sound clock n : sound_ips (read_ip_list clock n).
Proof.
  unfold read_ip_list. destruct (is_defined n); cbn [negb]; [|by repeat constructor].
  assert (sound_ips ([], [])) as H by (by repeat constructor). revert H. generalize (([], []) : list BlacklistEntry * list CidrRange).
  induction (raw_entries_filled clock n) as [|raw raws Hb Hr IH]; intros out H; [done|]. cbn [foldl].
  by apply IH, read_ip_item_sound.
Qed.

Lemma read_site_sound item s : read_site item = Ok (Some s) -> domain s <> [] /\ to_lower (domain s) = domain s.
Proof.
  unfold read_site. intros H. apply bind_inv in H as (d & _ & H). pose proof (to_lower_idemp d) as Hl.
  destruct (to_lower d) as [|c l]; [done|]. binds H. injection H as [= <-]. done.
Qed.

Lemma read_sites_sound n d l :
  read_sites n d = Ok l -> Forall (fun s => domain s <> [] /\ to_lower (domain s) = domain s) l.
Proof.
  unfold read_sites. intros H. binds H. injection H as [= <-]. apply mapM_inv in E.
  induction E as [|[s|] l [item Hi] _ IH]; cbn; [constructor| |done]. constructor; [by eapply read_site_sound|done].
Qed.

Definition sound_blacklist (b : BlacklistConfig) : Prop :=
  sound_ips (ip_exact b, ip_cidrs b) /\
  Forall (Forall (fun e => is_blank (value e) = false))
    [routes b; countries b; isps b; user_agents b; referrers b; body_patterns b; fake_routes b].

Lemma read_blacklist_sound clock n d b : read_blacklist clock n d = Ok b -> sound_blacklist b.
Proof.
  unfold read_blacklist. intros H. binds H. pose proof (read_ip_list_sound (clock (lit "blacklist")) v) as Hs.
  destruct (read_ip_list _ v) as [exact cidrs]. injection H as [= <-]. split; [exact Hs|].
  repeat (apply Forall_cons_2; [apply read_entry_list_filled|]). constructor.
Qed.

Lemma read_whitelist_sound clock n d w :
  read_whitelist clock n d = Ok w ->
  sound_ips (wl_ip_exact w, wl_ip_cidrs w) /\ Forall (fun e => is_blank (value e) = false) (wl_routes w).
Proof.
  unfold read_whitelist. intros H. binds H. pose proof (read_ip_list_sound (clock (lit "whitelist")) v) as Hs.
  destruct (read_ip_list _ v) as [exact cidrs]. injection H as [= <-]. split; [exact Hs|].
  apply read_entry_list_filled.
Qed.

(** The lists that do not ask for a leading slash take every text that is not blank. *)
Lemma filled_valid l v : is_blank v = false -> l <> BlacklistOps.LBlack BlacklistOps.FakeRoutes -> l <> BlacklistOps.LBlack BlacklistOps.Ips -> l <> BlacklistOps.LWhiteIps -> BlacklistOps.valid l v = true.
Proof. intros Hv H1 H2 H3. destruct v as [|c v]; [done|]. by destruct l as [[]| |]. Qed.

Lemma loaded_sections clock text c :
  parse_yaml_config clock text = Ok c ->
  Forall (fun s => domain s <> [] /\ to_lower (domain s) = domain s) (sites c) /\ sound_blacklist (blacklist c) /\
  sound_ips (wl_ip_exact (whitelist c), wl_ip_cidrs (whitelist c)) /\
  Forall (fun e => is_blank (value e) = false) (wl_routes (whitelist c)).
Proof.
  unfold parse_yaml_config. intros H. binds H. injection H as [= <-]. cbn [sites blacklist whitelist].
  split_and!.
  - apply section_inv in E3 as [->|[n E3]]; [constructor|by eapply read_sites_sound].
  - apply section_inv in E6 as [->|[n E6]]; [by repeat constructor|by eapply read_blacklist_sound].
  - apply section_inv in E7 as [->|[n E7]]; [by repeat constructor|by eapply read_whitelist_sound].
  - apply section_inv in E7 as [->|[n E7]]; [constructor|by eapply read_whitelist_sound].
Qed.

(** C30: whatever the configuration file holds, a configuration that loads from
    it blocks and exempts nothing by accident: no entry of any list is blank,
    every exact address and every range parses, each range is the one its text
    denotes, and site domains are lower-case and not empty. *)
Theorem loaded_config_sound clock text c :
  parse_yaml_config clock text = Ok c ->
  (forall l v, v ∈ BlacklistOps.texts_of l c -> is_blank v = false /\ (l <> BlacklistOps.LBlack BlacklistOps.FakeRoutes -> BlacklistOps.valid l v = true)) /\
  BlacklistOps.ips_ok (BlacklistOps.black_ips c) /\ BlacklistOps.ips_ok (BlacklistOps.white_ips c) /\
  Forall (fun s => domain s <> [] /\ to_lower (domain s) = domain s) (sites c).
Proof.
  intros H. apply loaded_sections in H as (Hs & [Hi Hl] & Hwi & Hwr).
  split_and!; [|exact (proj1 Hi)|exact (proj1 Hwi)|exact Hs].
  rewrite !Forall_cons in Hl. destruct Hl as (? & ? & ? & ? & ? & ? & ? & _).
  destruct Hi as [_ Hi], Hwi as [_ Hwi]. rewrite Forall_forall in Hi, Hwi.
  assert (forall es v, Forall (fun e => is_blank (value e) = false) es -> v ∈ map value es -> is_blank v = false) as Hes.
  { intros es v Hes (e & -> & He)%list_elem_of_fmap. by rewrite Forall_forall in Hes; apply Hes. }
  intros [[]| |] v Hv; cbn [BlacklistOps.texts_of BlacklistOps.list_for] in Hv;
    try (destruct (Hi v Hv) || destruct (Hwi v Hv)); try (split; [|intros ?; apply filled_valid; [|done..]]; by eauto).
  all: split; [done|intros _; by destruct v].
Qed.
End soundness.

(** ** A configuration and its file *)

Module DemoConfig.
Import DemoYaml.
#[local] Existing Instance text_asio.

Definition demo_range : CidrRange :=
  default (mkCidrRange (addr_v4 []) 0 [] 0 []) (parse_cidr (1700000000 * ns_per_s) "10.1.160.7/20").
Definition demo_entry (text : str) : BlacklistEntry := mkEntry text (1700000000 * ns_per_s + 5) "admin" "manual".

Definition demo_config : RuntimeConfig :=
  set_sites [mkSite "example.com" true [] [] (mkUpstream "127.0.0.1" 8080)] $
  set_pages (mkPages [] [] [mkStatusPage 404 "gone" (1700000000 * ns_per_s)]) $
  set_globe (set_server_lat (Some (S754_finite false 4503599627370496 (-53))) default_globe) $
  set_ban (set_scores {[ lit "speed_check" := 40 ]} default_ban) $
  set_whitelist (mkWhitelist [demo_entry "10.0.0.9"] [] [demo_entry "/health"]) $
  set_blacklist (set_ip_exact [demo_entry "10.0.0.1"] (set_ip_cidrs [demo_range] (set_routes [demo_entry "/wp-admin"] default_blacklist)))
  default_config.

(** A file edited by hand: a blank route, a number, a list in place of an
    address, an address that is none. *)
Definition demo_file : str := yaml_emit (TMap [
  (lit "sites", TSeq [TMap [(lit "domain", TStr "Example.COM")]; TMap []]);
  (lit "blacklist", TMap [
     (lit "routes", TSeq [TStr "  "; TMap [(lit "value", TStr "/wp-admin")]; TInt 5]);
     (lit "ips", TSeq [TStr "10.0.0.1"; TStr "10.0.0.999"; TSeq []; TStr "10.1.0.0/16"; TStr "10.1.0.0/99"])])]).

Definition demo_loaded : outcome RuntimeConfig := parse_yaml_config (fun _ _ => 0) demo_file.

Example demo_file_loads :
  (fun c => (map domain (sites c), map value (routes (blacklist c)), BlacklistOps.ip_texts (BlacklistOps.black_ips c))) <$>
    match demo_loaded with Ok c => Some c | Throw _ => None end =
  Some ([lit "example.com"], [lit "/wp-admin"], [lit "10.0.0.1"; lit "10.1.0.0/16"]).
Proof. vm_compute. reflexivity. Qed.

(** An entry of blanks is refused by no list operation, matches every path
    that holds a space, and does not survive the file. *)
Example blank_entry_accepted :
  let added := BlacklistOps.op_add (BlacklistOps.LBlack BlacklistOps.Routes) 0 " " "admin" "manual" default_config in
  added.2 = Ok tt /\ map value (routes (blacklist added.1)) = [lit " "] /\
  read_raw_entry 0 (loaded (YamlLaws := demo_yaml_laws) (entry_tree (mkEntry " " 0 "admin" "manual"))) = None.
Proof. vm_compute. done. Qed.
End DemoConfig.

Lemma demo_range_fits : range_ok (Asio := text_asio) DemoConfig.demo_range.
Proof.
  split; [|by vm_compute]. split; [by vm_compute|]. eexists. by vm_compute.
Qed.

(** Decides the side conditions of a closed configuration, list by list. *)
Ltac fits := repeat lazymatch goal with
  | |- Forall ?P ?l => let l' := eval vm_compute in l in change (Forall P l'); rewrite ?Forall_cons, ?Forall_nil
  | |- _ /\ _ => split
  | |- range_ok _ => exact demo_range_fits
  | |- is_Some _ => vm_compute; eexists; reflexivity
  | |- True => exact I
  | |- _ => first [reflexivity | vm_compute; first [reflexivity | discriminate]]
  end.

Lemma config_round_trip_witness :
  persistable (Laws := DemoYaml.demo_yaml_laws) (Asio := text_asio) DemoConfig.demo_config /\
  parse_yaml_config (Y := DemoYaml.demo_yaml) (Asio := text_asio) (fun _ _ => 7)
    (to_yaml_config (Y := DemoYaml.demo_yaml) DemoConfig.demo_config) = Ok (at_seconds DemoConfig.demo_config).
Proof.
  assert (persistable (Laws := DemoYaml.demo_yaml_laws) (Asio := text_asio) DemoConfig.demo_config) as Hp.
  { split.
    1: by vm_compute; split_and?; try (apply (bool_decide_unpack _); vm_compute; exact I).
    9: { split_and!; [vm_compute; discriminate..|]. apply map_Forall_singleton. split; vm_compute; discriminate. }
    all: unfold site_ok, limits_ok, blacklist_ok, whitelist_ok, exact_ok, entry_ok, speed_ok, page_ok, globe_ok, time_ok, port_ok; fits. }
  split; [exact Hp|]. by apply (config_round_trip (Laws := DemoYaml.demo_yaml_laws) (Asio := text_asio)).
Defined.

Lemma loaded_config_sound_witness :
  exists c, DemoConfig.demo_loaded = Ok c /\
    BlacklistOps.ips_ok (Asio := text_asio) (BlacklistOps.black_ips c) /\
    (is_blank (lit "/wp-admin") = false /\
     (BlacklistOps.LBlack BlacklistOps.Routes <> BlacklistOps.LBlack BlacklistOps.FakeRoutes ->
      BlacklistOps.valid (Asio := text_asio) (BlacklistOps.LBlack BlacklistOps.Routes) "/wp-admin" = true)).
Proof.
  pose proof DemoConfig.demo_file_loads as Hf. destruct DemoConfig.demo_loaded as [c|e] eqn:E; [|discriminate Hf]. exists c.
  pose proof (loaded_config_sound (Asio := text_asio) _ _ _ E) as (Hl & Hi & _). split; [done|]. split; [exact Hi|].
  apply Hl. injection Hf as [= _ Hr _]. cbn [BlacklistOps.texts_of BlacklistOps.list_for]. rewrite Hr. by left.
Defined.
