(* ===== verification/YamlUsers.v ===== *)
(** * YamlUsers: the file of accounts

    The document behind [Users.load] and [Users.save_locked]
    ([auth/user_store.cpp]): the tree that saving emits, with its optional
    members, and the reader, which fills the list account by account, so that
    a document that turns out to be malformed leaves those before it. The
    round trip is what lets [Users] keep the file as a list of accounts. *)
From S2P Require Import Prelude Text Bits Codec Passwords Users Timestamps Yaml YamlLookup.

Section users_file.
Context `{Y : Yaml}.

(** ** Reading *)

Definition as_uint32 : node -> outcome Z := as_integer 0 UINT32_MAX.

(** [time_point(seconds(n))] *)
Definition of_seconds (n : Z) : time_point := swrap64 (n * ns_per_s).

Definition read_totp (n : node) : outcome (option str) :=
  totp_node ← subscript n "totp";
  if is_defined totp_node then secret ← get totp_node "secret_base32" as_string; mret (Some secret) else mret None.

Definition read_code (n : node) : outcome BackupCode :=
  salt ← get n "salt" as_string;
  hash ← get n "hash" as_string;
  iterations ← get n "iterations" as_int;
  used ← get_or n "used" as_bool false;
  mret (mkBackupCode (mkPasswordHash salt hash iterations) used).

Definition read_codes (n : node) : outcome (list BackupCode) :=
  codes_node ← subscript n "backup_codes";
  if is_defined codes_node then mapM read_code (elements codes_node) else mret [].

Definition read_handle (n : node) : outcome (option str) :=
  handle_node ← subscript n "webauthn_user_handle";
  if is_defined handle_node then handle ← as_string handle_node; mret (Some handle) else mret None.

Definition read_credential (n : node) : outcome WebAuthnCredential :=
  id ← get n "id" as_string;
  label ← get_or n "label" as_string [];
  text ← get n "public_key" as_string;
  public_key ← base64url_decode text;
  sign_count ← get_or n "sign_count" as_uint32 0;
  ts ← subscript n "created_at_epoch";
  created_at ← (if is_defined ts then seconds ← as_long_long ts; mret (of_seconds seconds) else mret 0);
  mret (mkCredential id label public_key sign_count created_at).

Definition read_credentials (n : node) : outcome (list WebAuthnCredential) :=
  creds_node ← subscript n "webauthn_credentials";
  if is_defined creds_node then mapM read_credential (elements creds_node) else mret [].

Definition read_user (n : node) : outcome UserRecord :=
  username ← get n "username" as_string;
  salt ← get n "salt" as_string;
  hash ← get n "hash" as_string;
  iterations ← get n "iterations" as_int;
  seconds ← get n "created_at_epoch" as_long_long;
  totp ← read_totp n;
  codes ← read_codes n;
  handle ← read_handle n;
  credentials ← read_credentials n;
  mret (mkUser username salt hash iterations (of_seconds seconds) totp codes credentials handle).

(** The accounts read before the first one that cannot be. *)
Fixpoint read_users (nodes : list node) : list UserRecord * outcome unit :=
  match nodes with
  | [] => ([], Ok tt)
  | n :: nodes' =>
      match read_user n with
      | Throw e => ([], Throw e)
      | Ok u => let '(us, r) := read_users nodes' in (u :: us, r)
      end
  end.

(** [load], on the text of the file, if there is one. *)
Definition load_document (text : option str) : M UserStore unit := fun s =>
  let cleared := with_users [] s in
  match text with
  | None => (cleared, Ok tt)
  | Some text =>
      match (root ← yaml_load text; subscript root "users") with
      | Throw e => (cleared, Throw e)
      | Ok list =>
          if negb (is_defined list) then (cleared, Ok tt)
          else let '(us, r) := read_users (elements list) in (with_users us s, r)
      end
  end.

(** ** Writing *)

Definition seconds_of (t : time_point) : Z := t ÷ ns_per_s.

(** A member that is assigned only when there is something to assign. *)
Definition option_member (key : str) (t : option tree) : list (str * tree) :=
  match t with Some t => [(key, t)] | None => [] end.

(** A list that is left out when it is empty. *)
Definition sequence {A} (f : A -> tree) (l : list A) : option tree :=
  match l with [] => None | _ => Some (TSeq (map f l)) end.

Definition code_tree (c : BackupCode) : tree := TMap [
  (lit "salt", TStr (salt_hex (bc_hash c))); (lit "hash", TStr (hash_hex (bc_hash c)));
  (lit "iterations", TInt (iterations (bc_hash c))); (lit "used", TBool (used c))].

Definition credential_tree (c : WebAuthnCredential) : tree := TMap [
  (lit "id", TStr (id_b64url c)); (lit "label", TStr (cred_label c));
  (lit "public_key", TStr (base64url_encode (cose_public_key c)));
  (lit "sign_count", TInt (sign_count c)); (lit "created_at_epoch", TInt (seconds_of (cred_created_at c)))].

Definition user_tree (u : UserRecord) : tree := TMap (
  (lit "username", TStr (username u)) :: (lit "salt", TStr (u_salt_hex u)) ::
  (lit "hash", TStr (u_hash_hex u)) :: (lit "iterations", TInt (u_iterations u)) ::
  (lit "created_at_epoch", TInt (seconds_of (created_at u))) ::
  option_member "totp" ((fun secret => TMap [(lit "secret_base32", TStr secret)]) <$> totp u) ++
  option_member "backup_codes" (sequence code_tree (backup_codes u)) ++
  option_member "webauthn_user_handle" (TStr <$> webauthn_user_handle_b64 u) ++
  option_member "webauthn_credentials" (sequence credential_tree (webauthn_credentials u))).

Definition users_tree (us : list UserRecord) : tree := TMap [(lit "users", TSeq (map user_tree us))].

(** The text that [save_locked] writes. *)
Definition save_document (us : list UserRecord) : str := yaml_emit (users_tree us).
End users_file.

(** ** The round trip *)

Definition seconds_ok (t : time_point) : Prop := INT64_MIN <= t <= INT64_MAX.
Definition int_ok (n : Z) : Prop := INT_MIN <= n <= INT_MAX.
Definition credential_ok (c : WebAuthnCredential) : Prop :=
  Forall byte_val (cose_public_key c) /\ 0 <= sign_count c <= UINT32_MAX /\ seconds_ok (cred_created_at c).

(** The integers of an account fit the types they are read as. *)
Definition user_ok (u : UserRecord) : Prop :=
  int_ok (u_iterations u) /\ seconds_ok (created_at u) /\
  Forall (fun c => int_ok (iterations (bc_hash c))) (backup_codes u) /\
  Forall credential_ok (webauthn_credentials u).

Lemma seconds_of_range t : seconds_ok t -> INT64_MIN <= seconds_of t <= INT64_MAX.
Proof. unfold seconds_ok, seconds_of, INT64_MIN, INT64_MAX, ns_per_s. intros H. Z.quot_rem_to_equations. lia. Qed.

Lemma of_seconds_of t : seconds_ok t -> of_seconds (seconds_of t) = whole_seconds t.
Proof.
  intros H. unfold of_seconds, whole_seconds, seconds_of. apply swrap64_small.
  unfold seconds_ok, INT64_MIN, INT64_MAX, ns_per_s in *. Z.quot_rem_to_equations. lia.
Qed.

Section round_trip.
Context `{Laws : YamlLaws}.
Notation ok_tree := (tree_ok storable).

(** *** Optional members *)

Lemma tfind_skip k t m key o : k <> key -> tfind m key = o -> tfind ((k, t) :: m) key = o.
Proof. intros Hk Hm. cbn [tfind]. by rewrite bool_decide_eq_false_2. Qed.
Lemma tfind_option key o m : tfind m key = None -> tfind (option_member key o ++ m) key = o.
Proof. intros Hm. destruct o as [t|]; [|done]. cbn. by rewrite bool_decide_eq_true_2. Qed.
Lemma tfind_option_skip k o m key o' : k <> key -> tfind m key = o' -> tfind (option_member k o ++ m) key = o'.
Proof. intros Hk Hm. destruct o as [t|]; [by apply tfind_skip|done]. Qed.

Lemma tfind_only key o : tfind (option_member key o) key = o.
Proof. rewrite <- (app_nil_r (option_member key o)). by apply tfind_option. Qed.
Lemma tfind_not_only k o key : k <> key -> tfind (option_member k o) key = None.
Proof. intros Hk. rewrite <- (app_nil_r (option_member k o)). by apply tfind_option_skip. Qed.

Lemma optional_bind {B} m key o (k : node -> outcome B) r :
  ok_tree (TMap m) -> tfind m key = o -> (option_Forall ok_tree o -> k (default missing (loaded <$> o)) = r) ->
  (subscript (loaded (TMap m)) key ≫= k) = r.
Proof.
  intros Hm Ho Hk. rewrite load_subscript, Ho by done. apply Hk.
  destruct o as [t|]; constructor. by eapply tree_ok_find.
Qed.

(** *** Codes and credentials *)

Lemma code_back c : int_ok (iterations (bc_hash c)) -> ok_tree (code_tree c) -> read_code (loaded (code_tree c)) = Ok c.
Proof.
  unfold int_ok. intros Hi Hm. unfold read_code, code_tree in *. repeat member Hm. by destruct c as [[] ?].
Qed.

Lemma credential_back c :
  credential_ok c -> ok_tree (credential_tree c) ->
  read_credential (loaded (credential_tree c)) =
  Ok (mkCredential (id_b64url c) (cred_label c) (cose_public_key c) (sign_count c) (whole_seconds (cred_created_at c))).
Proof.
  intros (Hk & Hs & Ht) Hm. unfold read_credential, as_uint32, credential_tree in *. do 3 member Hm.
  rewrite base64url_round_trip by done. cbn [mbind outcome_bind]. member Hm.
  lookup Hm Hz. rewrite load_defined. unfold as_long_long.
  rewrite load_integer by (by apply seconds_of_range). cbn [mbind outcome_bind mret outcome_ret]. by rewrite of_seconds_of.
Qed.

(** A sequence that is there only when it has elements. *)
Lemma sequence_back {A B} (f : A -> tree) (read : node -> outcome B) (g : A -> B) l :
  Forall (fun a => ok_tree (f a) -> read (loaded (f a)) = Ok (g a)) l -> option_Forall ok_tree (sequence f l) ->
  let n := default missing (loaded <$> sequence f l) in
  (if is_defined n then mapM read (elements n) else mret []) = Ok (map g l).
Proof.
  intros Hl Ht. cbv zeta. destruct l as [|a l]; cbn [sequence] in *.
  - cbn [fmap option_fmap option_map from_option id]. by rewrite load_missing.
  - inversion Ht as [|? Ht' E]; subst. cbn [fmap option_fmap option_map from_option id]. rewrite load_defined.
    by rewrite (elements_mapM f read g (a :: l)).
Qed.
End round_trip.

(** Finds an optional member among those of an account. *)
Ltac find_option :=
  repeat first [ apply tfind_only | apply tfind_not_only; discriminate | apply tfind_option
               | apply tfind_skip; [discriminate|] | apply tfind_option_skip; [discriminate|] ].

Section accounts.
Context `{Laws : YamlLaws}.
Notation ok_tree := (tree_ok storable).

Lemma totp_back m o :
  ok_tree (TMap m) -> tfind m "totp" = (fun secret => TMap [(lit "secret_base32", TStr secret)]) <$> o ->
  read_totp (loaded (TMap m)) = Ok o.
Proof.
  intros Hm Ho. eapply (optional_bind _ _ _ _ _ Hm Ho). intros Ht.
  destruct o as [secret|]; cbn [fmap option_fmap option_map from_option id] in *; [|by rewrite load_missing].
  inversion Ht as [|? Hs E]; subst. rewrite load_defined. by member Hs.
Qed.

Lemma handle_back m o :
  ok_tree (TMap m) -> tfind m "webauthn_user_handle" = TStr <$> o -> read_handle (loaded (TMap m)) = Ok o.
Proof.
  intros Hm Ho. eapply (optional_bind _ _ _ _ _ Hm Ho). intros Ht.
  destruct o as [handle|]; cbn [fmap option_fmap option_map from_option id] in *; [|by rewrite load_missing].
  inversion Ht as [|? Hs E]; subst. by rewrite load_defined, (load_string _ Hs).
Qed.

Lemma codes_back m l :
  ok_tree (TMap m) -> tfind m "backup_codes" = sequence code_tree l ->
  Forall (fun c => int_ok (iterations (bc_hash c))) l -> read_codes (loaded (TMap m)) = Ok l.
Proof.
  intros Hm Ho Hl. eapply (optional_bind _ _ _ _ _ Hm Ho). intros Ht. rewrite <- (map_id l) at 3.
  apply (sequence_back code_tree read_code id); [|done].
  eapply Forall_impl; [exact Hl|]. intros c. apply code_back.
Qed.

Definition credential_on_disk (c : WebAuthnCredential) : WebAuthnCredential :=
  mkCredential (id_b64url c) (cred_label c) (cose_public_key c) (sign_count c) (whole_seconds (cred_created_at c)).

Lemma credentials_back m l :
  ok_tree (TMap m) -> tfind m "webauthn_credentials" = sequence credential_tree l ->
  Forall credential_ok l -> read_credentials (loaded (TMap m)) = Ok (map credential_on_disk l).
Proof.
  intros Hm Ho Hl. eapply (optional_bind _ _ _ _ _ Hm Ho). intros Ht.
  apply (sequence_back credential_tree read_credential credential_on_disk); [|done].
  eapply Forall_impl; [exact Hl|]. intros c. apply credential_back.
Qed.

Lemma user_back u : user_ok u -> ok_tree (user_tree u) -> read_user (loaded (user_tree u)) = Ok (on_disk u).
Proof.
  intros (Hi & Ht & Hc & Hk) Hm. pose proof (seconds_of_range _ Ht) as Hr.
  unfold int_ok in Hi. unfold read_user, user_tree in *. do 5 member Hm.
  rewrite (totp_back _ _ Hm ltac:(find_option)). cbn [mbind outcome_bind].
  rewrite (codes_back _ _ Hm ltac:(find_option) Hc). cbn [mbind outcome_bind].
  rewrite (handle_back _ _ Hm ltac:(find_option)). cbn [mbind outcome_bind].
  rewrite (credentials_back _ _ Hm ltac:(find_option) Hk). cbn [mbind outcome_bind mret outcome_ret].
  by rewrite of_seconds_of.
Qed.

Lemma read_users_back us :
  Forall user_ok us -> Forall ok_tree (map user_tree us) ->
  read_users (map loaded (map user_tree us)) = (map on_disk us, Ok tt).
Proof.
  induction 1 as [|u us Hu Hus IH]; intros Ht; [done|]. apply Forall_cons in Ht as [Ht Hts].
  cbn [map read_users]. by rewrite (user_back _ Hu Ht), (IH Hts).
Qed.

Lemma load_saved us s :
  Forall user_ok us -> ok_tree (users_tree us) ->
  load_document (Some (save_document us)) s = (with_users (map on_disk us) s, Ok tt).
Proof.
  intros Hu Hm. unfold load_document, save_document. cbv zeta. rewrite (load_emit _ Hm). cbn [mbind outcome_bind].
  unfold users_tree in *. rewrite (subscript_found _ _ _ Hm ltac:(find_key)).
  rewrite load_defined. cbn [negb]. pose proof (tree_ok_elements _ _ (tree_ok_find _ _ _ Hm ltac:(find_key))) as Ht.
  by rewrite load_seq, read_users_back.
Qed.

(** C36: what saving writes is what loading reads: after the accounts were
    saved, a store that parses the document has every account with its
    password hash, secret, codes, used marks and keys, times cut to whole
    seconds; and that is what [Users.load], which keeps the file as a list of
    accounts, gives. *)
Theorem accounts_file_refines us s :
  Forall user_ok us -> ok_tree (users_tree us) ->
  let saved := (save_locked (Ok tt) (with_users us s)).1 in
  load_document (Some (save_document us)) saved = (with_users (map on_disk us) saved, Ok tt) /\
  Users.load saved = load_document (Some (save_document us)) saved.
Proof. intros Hu Hm saved. rewrite load_saved by done. by subst saved. Qed.
End accounts.

(** ** A file of accounts *)

Module DemoAccounts.
Import DemoYaml.

Definition demo_accounts : list UserRecord := [
  mkUser "admin" "00ff" "abcd" 200000 (1700000000 * ns_per_s + 3) (Some (lit "JBSWY3DPEHPK3PXP"))
    [mkBackupCode (mkPasswordHash "01" "02" 1000) true]
    [mkCredential "aWQ" "phone" [1; 2; 255] 7 (1700000001 * ns_per_s)] (Some (lit "aGFuZGxl"));
  mkUser "second" "11" "22" 200000 0 None [] [] None].

(** The first account loads before the second turns out to have no hash. *)
Example accounts_before_the_error :
  let text := yaml_emit (TMap [(lit "users", TSeq [
    user_tree (mkUser "admin" "00" "11" 1 0 None [] [] None); TMap [(lit "username", TStr "second")]])]) in
  (fun r => (map username (users_ r.1), is_ok r.2)) (load_document (Some text) users_init) = ([lit "admin"], false).
Proof. vm_compute. reflexivity. Qed.
End DemoAccounts.

Lemma accounts_file_refines_witness :
  let saved := (save_locked (Ok tt) (with_users DemoAccounts.demo_accounts users_init)).1 in
  load_document (Y := DemoYaml.demo_yaml) (Some (save_document (Y := DemoYaml.demo_yaml) DemoAccounts.demo_accounts)) saved =
    (with_users (map on_disk DemoAccounts.demo_accounts) saved, Ok tt) /\
  Users.load saved = load_document (Y := DemoYaml.demo_yaml) (Some (save_document (Y := DemoYaml.demo_yaml) DemoAccounts.demo_accounts)) saved.
Proof.
  apply (accounts_file_refines (Laws := DemoYaml.demo_yaml_laws)).
  - repeat constructor; vm_compute; done.
  - vm_compute. split_and?; try (apply (bool_decide_unpack _); vm_compute; exact I).
Defined.
