(* ===== verification/TlsSites.v ===== *)
(** * TlsSites: certificates per site

    Models [listener/tls_site_contexts.cpp], [listener/tls_context.hpp] and the
    server-name callback of [listener/tls_listener.cpp]. [current] is called
    inside TLS handshakes on several threads: a call is a thread that moves
    from one critical section or piece of file work to the next, and a run is
    any interleaving of such moves. What a call reads from the disk is given by
    the state of the disk at each read, so that files may change at any time. *)
From S2P Require Import Prelude Text Net Config.

(** ** OpenSSL and the file system *)

Class TlsFiles := {
  disk : Type;
  tls_context : Type;
  tls_context_eq_dec :: EqDecision tls_context;
  (** The time of a file; a missing file has the minimum. *)
  last_write_time : disk -> str -> Z;
  tls_server : list string -> tls_context;
  use_certificate_chain_file : disk -> str -> tls_context -> outcome tls_context;
  use_private_key_file : disk -> str -> tls_context -> outcome tls_context }.

Section contexts.
Context `{Tls : TlsFiles}.

Definition make_tls_server_context (at_cert at_key : disk) (cert_file key_file : str) : outcome tls_context :=
  ctx ← use_certificate_chain_file at_cert cert_file
          (tls_server ["default_workarounds"; "no_sslv2"; "no_sslv3"; "no_tlsv1"; "no_tlsv1_1"; "single_dh_use"]%string);
  use_private_key_file at_key key_file ctx.

(** ** Fingerprints and maps *)

Definition has_own_cert (site : SiteConfig) : bool := negb (cert_file site == []) && negb (key_file site == []).

(** What the two loops over the sites look at. *)
Record OwnCert := mkOwnCert { oc_domain : str; oc_cert_file : str; oc_key_file : str }.
Definition own_certs (config : RuntimeConfig) : list OwnCert :=
  map (fun site => mkOwnCert (domain site) (cert_file site) (key_file site))
    (filter (fun site => has_own_cert site = true) (sites config)).

Record SiteFingerprint := mkFingerprint { sf_own : OwnCert; sf_cert_mtime : Z; sf_key_mtime : Z }.
#[export] Instance OwnCert_eq_dec : EqDecision OwnCert.
Proof. solve_decision. Defined.
#[export] Instance SiteFingerprint_eq_dec : EqDecision SiteFingerprint.
Proof. solve_decision. Defined.

(** [seen i] is the disk at the [i]-th read. *)
Definition fingerprints (seen : nat -> disk) (l : list OwnCert) : list SiteFingerprint :=
  imap (fun i o => mkFingerprint o (last_write_time (seen (2 * i)%nat) (oc_cert_file o))
                                   (last_write_time (seen (2 * i + 1)%nat) (oc_key_file o))) l.
Definition fingerprint_of (seen : nat -> disk) (config : RuntimeConfig) : list SiteFingerprint :=
  fingerprints seen (own_certs config).

(** A certificate that does not load leaves its domain without an entry. *)
Definition load_one (seen : nat -> disk) (built : gmap str tls_context) (p : nat * OwnCert) : gmap str tls_context :=
  let '(i, o) := p in
  match make_tls_server_context (seen (2 * i)%nat) (seen (2 * i + 1)%nat) (oc_cert_file o) (oc_key_file o) with
  | Ok ctx => <[oc_domain o := ctx]> built
  | Throw _ => built
  end.
Definition load_all (seen : nat -> disk) (l : list OwnCert) : gmap str tls_context :=
  foldl (load_one seen) ∅ (imap pair l).
Definition build (seen : nat -> disk) (config : RuntimeConfig) : gmap str tls_context :=
  load_all seen (own_certs config).

(** ** [current], step by step

    A snapshot of the configuration is known by its address, which
    [checked_config_] keeps from being used again. *)
Context (deref : nat -> RuntimeConfig).

Record TlsSiteContexts := mkContexts {
  checked_config_ : option nat;
  built_fingerprint_ : list SiteFingerprint;
  contexts_ : option (gmap str tls_context);
  refreshing_ : bool }.

Definition no_contexts : TlsSiteContexts := mkContexts None [] None false.

(** The [return] statement that ended a call. *)
Inductive return_site := RChecked | RBusy | RUnchanged | RRebuilt.

Inductive phase :=
  | PEnter (p : nat)
  | PStat (p : nat)
  | PCompare (p : nat) (fingerprint : list SiteFingerprint)
  | PBuild (p : nat) (fingerprint : list SiteFingerprint)
  | PPublish (p : nat) (fingerprint : list SiteFingerprint) (built : gmap str tls_context)
  | PRelease (p : nat) (r : return_site) (result : gmap str tls_context)
  | PDone (p : nat) (r : return_site) (result : gmap str tls_context).

Definition set_refreshing (b : bool) (st : TlsSiteContexts) : TlsSiteContexts :=
  mkContexts (checked_config_ st) (built_fingerprint_ st) (contexts_ st) b.

Definition enter (p : nat) (st : TlsSiteContexts) : TlsSiteContexts * phase :=
  match contexts_ st with
  | Some m =>
      if checked_config_ st == Some p then (st, PDone p RChecked m)
      else if refreshing_ st then (st, PDone p RBusy m)
      else (set_refreshing true st, PStat p)
  | None =>
      if refreshing_ st then (st, PDone p RBusy ∅)
      else (set_refreshing true st, PStat p)
  end.

Definition compare (p : nat) (fp : list SiteFingerprint) (st : TlsSiteContexts) : TlsSiteContexts * phase :=
  match contexts_ st with
  | Some m =>
      if fp == built_fingerprint_ st
      then (mkContexts (Some p) (built_fingerprint_ st) (contexts_ st) (refreshing_ st), PRelease p RUnchanged m)
      else (st, PBuild p fp)
  | None => (st, PBuild p fp)
  end.

Definition advance (seen : nat -> disk) (ph : phase) (st : TlsSiteContexts) : TlsSiteContexts * phase :=
  match ph with
  | PEnter p => enter p st
  | PStat p => (st, PCompare p (fingerprint_of seen (deref p)))
  | PCompare p fp => compare p fp st
  | PBuild p fp => (st, PPublish p fp (build seen (deref p)))
  | PPublish p fp built => (mkContexts (Some p) fp (Some built) (refreshing_ st), PRelease p RRebuilt built)
  | PRelease p r m => (set_refreshing false st, PDone p r m)
  | PDone p r m => (st, ph)
  end.

(** ** Runs *)

Record World := mkWorld { store : TlsSiteContexts; calls : gmap nat phase }.

Inductive event := Call (t p : nat) | Advance (t : nat) (seen : nat -> disk).

Inductive step : event -> World -> World -> Prop :=
  | step_call t p st ts : ts !! t = None -> step (Call t p) (mkWorld st ts) (mkWorld st (<[t := PEnter p]> ts))
  | step_advance t seen ph st ts st' ph' :
      ts !! t = Some ph -> advance seen ph st = (st', ph') ->
      step (Advance t seen) (mkWorld st ts) (mkWorld st' (<[t := ph']> ts)).

Inductive run : list event -> World -> World -> Prop :=
  | run_nil w : run [] w w
  | run_cons e es w w1 w2 : step e w w1 -> run es w1 w2 -> run (e :: es) w w2.

Definition started : World := mkWorld no_contexts ∅.

(** ** Server names *)

(** [select_tls_context_for_sni]: [None] keeps the default context. *)
Definition select_tls_context_for_sni (servername : option str) (contexts : gmap str tls_context) : option tls_context :=
  match servername with
  | None => None
  | Some name => contexts !! to_lower name
  end.

(** ** What a map holds *)




(** ** What a call returns *)

(** After the events [es], the call [t] was for snapshot [p] and found its
    files with the fingerprint [fp]; and it loaded [m] for that snapshot. *)
Definition printed (es : list event) (t : nat) (fp : list SiteFingerprint) (p : nat) : Prop :=
  Call t p ∈ es /\ exists seen, Advance t seen ∈ es /\ fp = fingerprint_of seen (deref p).
Definition loaded (es : list event) (t : nat) (m : gmap str tls_context) (p : nat) : Prop :=
  exists seen, Advance t seen ∈ es /\ m = build seen (deref p).

(** Every way to return but the busy one gives a map that some call [b] loaded
    when the files had the fingerprint that a call [c] for the same snapshot
    found: [c] is the call itself unless another one had checked the snapshot
    before, and so is [b] when it rebuilt the map. *)
Definition served (es : list event) (t p : nat) (r : return_site) (m : gmap str tls_context) : Prop :=
  match r with
  | RBusy => m = ∅ \/ exists b q, loaded es b m q
  | _ => exists b c fp q, printed es b fp q /\ loaded es b m q /\ printed es c fp p /\
           (r <> RChecked -> c = t) /\ (r = RRebuilt -> b = t)
  end.

Definition phase_ok (es : list event) (t : nat) (ph : phase) : Prop :=
  match ph with
  | PEnter p | PStat p => Call t p ∈ es
  | PCompare p fp | PBuild p fp => printed es t fp p
  | PPublish p fp m => printed es t fp p /\ loaded es t m p
  | PRelease p r m | PDone p r m => served es t p r m
  end.

Definition store_ok (es : list event) (st : TlsSiteContexts) : Prop :=
  (forall m, contexts_ st = Some m -> exists b q, printed es b (built_fingerprint_ st) q /\ loaded es b m q) /\
  (forall q, checked_config_ st = Some q -> exists c, printed es c (built_fingerprint_ st) q).

(** What has happened stays so. *)
Lemma printed_later es es' t fp p : es ⊆ es' -> printed es t fp p -> printed es' t fp p.
Proof. intros H [Hc (seen & Hs & ->)]. split; [by apply H|]. exists seen. auto. Qed.
Lemma loaded_later es es' t m p : es ⊆ es' -> loaded es t m p -> loaded es' t m p.
Proof. intros H (seen & Hs & ->). exists seen. auto. Qed.
#[local] Hint Resolve printed_later loaded_later : core.

Lemma phase_later es es' t ph : es ⊆ es' -> phase_ok es t ph -> phase_ok es' t ph.
Proof.
  intros H. destruct ph as [p|p|p fp|p fp|p fp m|p r m|p r m]; cbn [phase_ok]; try by (intros; eauto).
  - intros []; eauto.
  - destruct r; cbn [served]; [| |..]; try (intros (b & c & fp & q & ? & ? & ? & ? & ?); exists b, c, fp, q; by split_and!; eauto).
    intros [->|(b & q & ?)]; eauto.
  - destruct r; cbn [served]; [| |..]; try (intros (b & c & fp & q & ? & ? & ? & ? & ?); exists b, c, fp, q; by split_and!; eauto).
    intros [->|(b & q & ?)]; eauto.
Qed.

Lemma store_later es es' st : es ⊆ es' -> store_ok es st -> store_ok es' st.
Proof.
  intros H [Hc Hq]. split.
  - intros m (b & q & ? & ?)%Hc. eauto 6.
  - intros q (c & ?)%Hq. eauto.
Qed.

Lemma enter_ok es t p st st' ph' :
  store_ok es st -> Call t p ∈ es -> enter p st = (st', ph') -> store_ok es st' /\ phase_ok es t ph'.
Proof.
  intros Hst Hcall. unfold enter. destruct (contexts_ st) as [m|] eqn:Hm.
  - destruct (proj1 Hst m Hm) as (b & q & Hb & Hl).
    case_bool_decide as Hc; [|destruct (refreshing_ st)]; intros [= <- <-]; split; try done; cbn [phase_ok served]; [|by eauto].
    destruct (proj2 Hst p Hc) as [c Hp]. by exists b, c, (built_fingerprint_ st), q.
  - destruct (refreshing_ st); intros [= <- <-]; split; try done. by left.
Qed.

Lemma compare_ok es t p fp st st' ph' :
  store_ok es st -> printed es t fp p -> compare p fp st = (st', ph') -> store_ok es st' /\ phase_ok es t ph'.
Proof.
  intros Hst Hp. unfold compare. destruct (contexts_ st) as [m|] eqn:Hm; [|by intros [= <- <-]].
  case_bool_decide as He; intros [= <- <-]; [|done]. subst fp. destruct (proj1 Hst m Hm) as (b & q & Hb & Hl). split.
  - split; cbn; [by rewrite <- Hm; apply Hst|]. intros q' [= <-]. by exists t.
  - cbn [phase_ok served]. by exists b, t, (built_fingerprint_ st), q.
Qed.

Lemma advance_ok es t seen ph st st' ph' :
  Advance t seen ∈ es -> store_ok es st -> phase_ok es t ph -> advance seen ph st = (st', ph') ->
  store_ok es st' /\ phase_ok es t ph'.
Proof.
  intros Hin Hst Hph. destruct ph as [p|p|p fp|p fp|p fp m|p r m|p r m]; cbn [advance phase_ok] in *.
  - by apply enter_ok.
  - intros [= <- <-]. split; [done|]. split; [done|]. by exists seen.
  - by apply compare_ok.
  - intros [= <- <-]. split; [done|]. split; [done|]. by exists seen.
  - intros [= <- <-]. destruct Hph as [Hp Hm]. split.
    + split; cbn; [intros ? [= <-]; by exists t, p|intros q [= <-]; by exists t].
    + cbn [served]. by exists t, t, fp, p.
  - by intros [= <- <-].
  - by intros [= <- <-].
Qed.

(** *** One refresh at a time *)

Definition is_refreshing (ph : phase) : bool := match ph with PEnter _ | PDone _ _ _ => false | _ => true end.

(** A step keeps the flag, takes it when it is free, or gives it back. *)
Lemma advance_flag seen ph st st' ph' :
  advance seen ph st = (st', ph') ->
  (is_refreshing ph' = is_refreshing ph /\ refreshing_ st' = refreshing_ st) \/
  (refreshing_ st = false /\ is_refreshing ph' = true /\ refreshing_ st' = true) \/
  (is_refreshing ph = true /\ is_refreshing ph' = false /\ refreshing_ st' = false).
Proof.
  destruct ph; cbn [advance]; unfold enter, compare; intros H; repeat case_match; simplify_eq; cbn; try tauto.
Qed.

Definition owned (w : World) (owner : option nat) : Prop :=
  refreshing_ (store w) = bool_decide (is_Some owner) /\
  forall t, (exists ph, calls w !! t = Some ph /\ is_refreshing ph = true) <-> owner = Some t.

Record world_ok (es : list event) (w : World) : Prop := {
  ok_store : store_ok es (store w);
  ok_phases : map_Forall (phase_ok es) (calls w);
  ok_owner : exists owner, owned w owner }.

Lemma started_ok : world_ok [] started.
Proof.
  split; [by split|apply map_Forall_empty|]. exists None. split; [done|]. intros t. split; [|done].
  intros (ph & H & _). cbn in H. by rewrite lookup_empty in H.
Qed.

Lemma owned_call t p st ts owner :
  ts !! t = None -> owned (mkWorld st ts) owner -> owned (mkWorld st (<[t := PEnter p]> ts)) owner.
Proof.
  intros Ht [Hf Ho]. split; [done|]. intros t'. rewrite <- Ho. cbn [calls].
  destruct (decide (t = t')) as [<-|Hne]; [rewrite lookup_insert_eq|by rewrite lookup_insert_ne].
  split; [by intros (ph & [= <-] & H)|]. intros (ph & H & _). congruence.
Qed.

Lemma owned_advance t ph ph' st st' ts owner :
  ts !! t = Some ph ->
  (is_refreshing ph' = is_refreshing ph /\ refreshing_ st' = refreshing_ st) \/
  (refreshing_ st = false /\ is_refreshing ph' = true /\ refreshing_ st' = true) \/
  (is_refreshing ph = true /\ is_refreshing ph' = false /\ refreshing_ st' = false) ->
  owned (mkWorld st ts) owner -> exists owner', owned (mkWorld st' (<[t := ph']> ts)) owner'.
Proof.
  intros Ht Hcase [Hf Ho]. cbn [store calls] in *.
  assert (forall t' b, (exists ph0, <[t := ph']> ts !! t' = Some ph0 /\ is_refreshing ph0 = b) <->
            (t' = t /\ is_refreshing ph' = b) \/ (t' <> t /\ exists ph0, ts !! t' = Some ph0 /\ is_refreshing ph0 = b)) as Hins.
  { intros t' b. destruct (decide (t' = t)) as [->|Hne]; [rewrite lookup_insert_eq|rewrite lookup_insert_ne by done].
    - split; [intros (? & [= <-] & H); by left|]. intros [[_ H]|[H _]]; [by eauto|done].
    - split; [by right|]. by intros [[-> _]|[_ H]]. }
  destruct Hcase as [[Hp Hs]|[(Hs & Hp & Hs')|(Hp & Hp' & Hs')]].
  - exists owner. split; [cbn; by rewrite Hs|]. intros t'. cbn [calls]. rewrite Hins, Hp, <- Ho. split.
    + intros [[-> H]|[_ H]]; [by exists ph|done].
    + intros (ph0 & H0 & H1). destruct (decide (t' = t)) as [->|Hne]; [left|right; by eauto]. split; [done|congruence].
  - exists (Some t). split; [cbn; by rewrite Hs'|]. intros t'. cbn [calls]. rewrite Hins.
    rewrite Hs in Hf. symmetry in Hf. apply bool_decide_eq_false in Hf.
    split; [|by intros [= ->]; left]. intros [[-> _]|[_ H]]; [done|]. apply Ho in H. subst owner. by destruct Hf.
  - exists None. split; [done|]. intros t'. cbn [calls]. rewrite Hins.
    assert (owner = Some t) as -> by (apply Ho; eauto). split; [|done].
    intros [[_ H]|[Hne H]]; [congruence|]. apply Ho in H. congruence.
Qed.

Lemma step_ok es e w w' : step e w w' -> world_ok es w -> world_ok (es ++ [e]) w'.
Proof.
  intros Hstep [Hst Hph [owner Ho]].
  assert (es ⊆ es ++ [e]) as Hle by set_solver. assert (e ∈ es ++ [e]) as Hin by set_solver.
  assert (map_Forall (phase_ok (es ++ [e])) (calls w)) as Hph' by (intros t ph Ht; eapply phase_later; [exact Hle|by apply Hph]).
  apply (store_later _ _ _ Hle) in Hst.
  destruct Hstep as [t p st ts Ht|t seen ph st ts st' ph' Ht Ha]; cbn [store calls] in *.
  - split; [done|by apply map_Forall_insert_2|]. exists owner. by apply owned_call.
  - destruct (advance_ok _ _ _ _ _ _ _ Hin Hst (Hph' t ph Ht) Ha) as [H1 H2].
    split; [done|by apply map_Forall_insert_2|]. eapply owned_advance; [done|by eapply advance_flag|done].
Qed.

Lemma run_ok es0 es w w' : run es w w' -> world_ok es0 w -> world_ok (es0 ++ es) w'.
Proof.
  intros Hr. revert es0. induction Hr as [|e es w w1 w2 Hs _ IH]; intros es0 Hw; [by rewrite app_nil_r|].
  rewrite (app_assoc es0 [e] es : es0 ++ e :: es = _). by eapply IH, step_ok.
Qed.

(** *** Calls return *)

(** How many more steps a call takes. *)
Definition rank (ph : phase) : nat :=
  match ph with
  | PEnter _ => 6 | PStat _ => 5 | PCompare _ _ => 4 | PBuild _ _ => 3 | PPublish _ _ _ => 2
  | PRelease _ _ _ => 1 | PDone _ _ _ => 0
  end.

Lemma advance_rank seen ph st : (rank (advance seen ph st).2 <= rank ph - 1)%nat.
Proof. destruct ph; cbn [advance]; unfold enter, compare; repeat case_match; cbn; lia. Qed.

(** The steps of one thread in a run. *)
Fixpoint own_steps (t : nat) (es : list event) : nat :=
  match es with
  | [] => 0
  | Advance t' _ :: es' => if bool_decide (t' = t) then S (own_steps t es') else own_steps t es'
  | Call _ _ :: es' => own_steps t es'
  end.

Lemma step_other e w w' t ph :
  step e w w' -> calls w !! t = Some ph ->
  exists ph', calls w' !! t = Some ph' /\ (rank ph' <= rank ph - own_steps t [e])%nat.
Proof.
  intros [t' p st ts Ht'|t' seen ph0 st ts st' ph' Ht' Ha] Ht; cbn [calls own_steps] in *.
  - exists ph. rewrite lookup_insert_ne by congruence. split; [done|lia].
  - case_bool_decide as E.
    + subst t'. exists ph'. rewrite lookup_insert_eq. split; [done|].
      pose proof (advance_rank seen ph0 st) as Hr. rewrite Ha in Hr. cbn in Hr. by simplify_eq.
    + exists ph. rewrite lookup_insert_ne by done. split; [done|lia].
Qed.

Lemma own_steps_cons t e es : own_steps t (e :: es) = (own_steps t [e] + own_steps t es)%nat.
Proof. destruct e; cbn; [done|]. by case_bool_decide. Qed.

Lemma run_rank es w w' t ph :
  run es w w' -> calls w !! t = Some ph ->
  exists ph', calls w' !! t = Some ph' /\ (rank ph' <= rank ph - own_steps t es)%nat.
Proof.
  intros Hr. revert ph. induction Hr as [|e es w w1 w2 Hs _ IH]; intros ph Ht; [exists ph; split; [done|cbn; lia]|].
  destruct (step_other _ _ _ _ _ Hs Ht) as (ph1 & H1 & R1). destruct (IH _ H1) as (ph2 & H2 & R2).
  exists ph2. split; [done|]. rewrite own_steps_cons. lia.
Qed.

(** No handshake waits for another one: whatever the other calls do, a call
    can always take its next step, and after six steps of its own at the
    latest it has returned; and never do two calls reload certificates at the
    same time. *)
Theorem handshakes_never_wait es w t ph :
  run es started w -> calls w !! t = Some ph ->
  (forall seen, exists w', step (Advance t seen) w w') /\
  (forall es' w', run es' w w' -> (6 <= own_steps t es')%nat -> exists p r m, calls w' !! t = Some (PDone p r m)) /\
  (forall t' ph', calls w !! t' = Some ph' -> is_refreshing ph = true -> is_refreshing ph' = true -> t' = t).
Proof.
  intros Hr Ht. split_and!.
  - intros seen. destruct w as [st ts]. destruct (advance seen ph st) as [st' ph'] eqn:E.
    exists (mkWorld st' (<[t := ph']> ts)). by eapply step_advance.
  - intros es' w' Hr' Hn. destruct (run_rank _ _ _ _ _ Hr' Ht) as (ph' & H' & R).
    assert (rank ph <= 6)%nat by (destruct ph; cbn; lia).
    destruct ph'; cbn in R; try lia. by eauto.
  - intros t' ph' Ht' H1 H2. destruct (run_ok [] _ _ _ Hr started_ok) as [_ _ [owner [_ Ho]]].
    assert (owner = Some t) by (apply Ho; eauto). assert (owner = Some t') by (apply Ho; eauto). congruence.
Qed.

(** *** Names and certificates *)







(** *** Renewed files *)

(** A call by itself. *)
Definition current (p : nat) (seen1 seen2 : nat -> disk) (st : TlsSiteContexts) : TlsSiteContexts * phase :=
  foldl (fun w seen => advance seen w.2 w.1) (st, PEnter p) [seen1; seen1; seen2; seen2; seen2; seen2].

(** A call by itself for a snapshot that was not the last one checked reloads
    when, and only when, a path or a file time differs. *)
Theorem current_reloads p seen1 seen2 st m :
  refreshing_ st = false -> checked_config_ st <> Some p -> contexts_ st = Some m ->
  current p seen1 seen2 st =
  if fingerprint_of seen1 (deref p) == built_fingerprint_ st
  then (mkContexts (Some p) (built_fingerprint_ st) (Some m) false, PDone p RUnchanged m)
  else let m' := build seen2 (deref p) in
       (mkContexts (Some p) (fingerprint_of seen1 (deref p)) (Some m') false, PDone p RRebuilt m').
Proof.
  destruct st as [q fp cs rf]. cbn [refreshing_ checked_config_ contexts_ built_fingerprint_]. intros -> Hq ->.
  unfold current. cbn [foldl fst snd].
  assert (advance seen1 (PEnter p) (mkContexts q fp (Some m) false) = (mkContexts q fp (Some m) true, PStat p)) as ->
    by (cbn; unfold enter; cbn; by rewrite bool_decide_eq_false_2).
  cbn [advance fst snd]. unfold compare. cbn [contexts_ built_fingerprint_].
  by destruct (bool_decide (fingerprint_of seen1 (deref p) = fp)).
Qed.

(** For the snapshot that was checked last it looks at no file. *)
Lemma current_checked p seen1 seen2 st m :
  checked_config_ st = Some p -> contexts_ st = Some m -> current p seen1 seen2 st = (st, PDone p RChecked m).
Proof.
  destruct st as [q fp cs rf]. cbn [checked_config_ contexts_]. intros -> ->. unfold current. cbn [foldl fst snd].
  assert (advance seen1 (PEnter p) (mkContexts (Some p) fp (Some m) rf) = (mkContexts (Some p) fp (Some m) rf, PDone p RChecked m)) as ->
    by (cbn; unfold enter; cbn; by rewrite bool_decide_eq_true_2).
  done.
Qed.
End contexts.
(** ** Two handshakes and a renewed certificate *)

Module DemoTls.

(** A file has a time and a number for its contents; a context lists what was
    loaded into it. *)
#[export] Instance demo_files : TlsFiles := {|
  disk := gmap (list ascii) (Z * Z);
  tls_context := list Z;
  last_write_time d f := match d !! f with Some (t, _) => t | None => INT64_MIN end;
  tls_server _ := [];
  use_certificate_chain_file d f c := match d !! f with Some (_, n) => Ok (c ++ [n]) | None => Throw (RuntimeError "no such file") end;
  use_private_key_file d f c := match d !! f with Some (_, n) => Ok (c ++ [n]) | None => Throw (RuntimeError "no such file") end |}.

Definition demo_site (d cert key : str) : SiteConfig := mkSite d true cert key default_upstream.
Definition demo_sites : RuntimeConfig :=
  set_sites [demo_site "a.example" "a.crt" "a.key"; demo_site "plain.example" [] [];
             demo_site "broken.example" "b.crt" "b.key"] default_config.
Definition demo_deref (p : nat) : RuntimeConfig := if bool_decide (p = 0%nat) then default_config else demo_sites.

Definition disk1 : gmap (list ascii) (Z * Z) := {[ lit "a.crt" := (1, 10); lit "a.key" := (1, 11) ]}.
Definition disk2 : gmap (list ascii) (Z * Z) := {[ lit "a.crt" := (2, 20); lit "a.key" := (2, 21) ]}.
Definition seen1 : nat -> gmap (list ascii) (Z * Z) := fun _ => disk1.

(** Thread 1 refreshes; thread 2 arrives meanwhile. *)
Definition demo_events : list event :=
  [Call 1 1; Advance 1 seen1; Advance 1 seen1; Call 2 1; Advance 2 seen1; Advance 1 seen1; Advance 1 seen1;
   Advance 1 seen1; Advance 1 seen1].

(** Steps are functions of the event. *)
Definition step_fun (e : event) (w : World) : option World :=
  match e with
  | Call t p => if bool_decide (calls w !! t = None) then Some (mkWorld (store w) (<[t := PEnter p]> (calls w))) else None
  | Advance t seen =>
      match calls w !! t with
      | Some ph => let '(st, ph') := advance demo_deref seen ph (store w) in Some (mkWorld st (<[t := ph']> (calls w)))
      | None => None
      end
  end.
Fixpoint run_fun (es : list event) (w : World) : option World :=
  match es with [] => Some w | e :: es' => w1 ← step_fun e w; run_fun es' w1 end.

Lemma run_fun_run es w w' : run_fun es w = Some w' -> run demo_deref es w w'.
Proof.
  revert w. induction es as [|e es IH]; intros w H; cbn [run_fun] in H; [injection H as <-; constructor|].
  destruct (step_fun e w) as [w1|] eqn:E; [|done]. cbn in H. econstructor; [|by apply IH].
  destruct w as [st ts], e as [t p|t seen]; cbn [step_fun store calls] in E.
  - case_bool_decide; [|done]. injection E as <-. by constructor.
  - destruct (ts !! t) as [ph|] eqn:Ht; [|done]. destruct (advance demo_deref seen ph st) as [st' ph'] eqn:Ea.
    injection E as <-. by eapply step_advance.
Qed.

Definition demo_world : World := default started (run_fun demo_events started).
Lemma demo_run : run demo_deref demo_events started demo_world.
Proof.
  apply run_fun_run. unfold demo_world. destruct (run_fun demo_events started) as [w|] eqn:E; [done|].
  assert (bool_decide (is_Some (run_fun demo_events started)) = true) as H by (vm_compute; reflexivity).
  rewrite E in H. discriminate H.
Qed.

(** How a call ended, and the certificate it would present for a name. *)
Definition ending (ph : option phase) (name : str) : option (nat * return_site * option (list Z)) :=
  match ph with
  | Some (PDone p r m) => Some (p, r, select_tls_context_for_sni (Some name) m)
  | _ => None
  end.

Lemma ending_inv ph name p r c :
  ending ph name = Some (p, r, c) -> exists m, ph = Some (PDone p r m) /\ select_tls_context_for_sni (Some name) m = c.
Proof. destruct ph as [[]|]; cbn; try done. intros [= -> -> <-]. eauto. Qed.

Example demo_endings :
  ending (calls demo_world !! 1%nat) "A.example" = Some (1%nat, RRebuilt, Some [10; 11]) /\
  ending (calls demo_world !! 1%nat) "broken.example" = Some (1%nat, RRebuilt, None) /\
  ending (calls demo_world !! 2%nat) "a.example" = Some (1%nat, RBusy, None).
Proof. split_and!; vm_compute; reflexivity. Qed.


(** A certificate that is renewed in place is not picked up while the
    configuration stays the same, by however many handshakes, although the
    header says that it is. *)
Example renewed_certificate_not_noticed :
  let st := (current demo_deref 1 seen1 seen1 no_contexts).1 in
  ending (Some (current demo_deref 1 (fun _ => disk2) (fun _ => disk2) st).2) "a.example" =
    Some (1%nat, RChecked, Some [10; 11]) /\
  ending (Some (current demo_deref 2 (fun _ => disk2) (fun _ => disk2) st).2) "a.example" =
    Some (2%nat, RRebuilt, Some [20; 21]).
Proof. split; vm_compute; reflexivity. Qed.
End DemoTls.
#[local] Existing Instance DemoTls.demo_files.


Lemma handshakes_never_wait_witness :
  run DemoTls.demo_deref DemoTls.demo_events started DemoTls.demo_world /\
  exists ph, calls DemoTls.demo_world !! 2%nat = Some ph /\
    forall seen, exists w', step DemoTls.demo_deref (Advance 2 seen) DemoTls.demo_world w'.
Proof.
  split; [exact DemoTls.demo_run|].
  destruct (DemoTls.ending_inv _ _ _ _ _ (proj2 (proj2 DemoTls.demo_endings))) as (m & H & _).
  exists (PDone 1 RBusy m). split; [exact H|].
  exact (proj1 (handshakes_never_wait DemoTls.demo_deref _ _ _ _ DemoTls.demo_run H)).
Defined.
