(* ===== verification/Upstream.v ===== *)
(** * Upstream: the way of a request to its origin

    Models [forward_to_upstream] of [upstream/upstream.cpp] whole: what is
    sent, the steps on the network with their limits, and what the session
    makes of a failure. The network and Beast's parser are inputs
    ([OriginNetwork]). *)
From S2P Require Import Prelude Text Net Config Checks Robots Sites EventLogs Session.
From S2P Require RequestLog.

(** ** The network, as one call meets it *)

(** How the response is read: the size of the header buffer, [parser.skip]
    and [parser.body_limit]. *)
Record ReadLimits := mkReadLimits { header_buffer : Z; skip_body : bool; body_limit : Z }.

(** Each step fails with an exception, a timeout included, whose length the
    step is given. *)
Record OriginNetwork (Endpoints : Type) := mkOrigin {
  async_resolve : str -> str -> outcome Endpoints;
  async_connect : Endpoints -> Z -> outcome unit;
  async_write : Request -> Z -> outcome unit;
  async_read : ReadLimits -> outcome Response }.
Arguments async_resolve {Endpoints}.
Arguments async_connect {Endpoints}.
Arguments async_write {Endpoints}.
Arguments async_read {Endpoints}.

(** What Beast documents of its parser: a skipped body is not read, and a
    body beyond the limit is an error. *)
Record reads_within {Endpoints} (net : OriginNetwork Endpoints) : Prop := {
  read_skips limits r : async_read net limits = Ok r -> skip_body limits = true -> rs_body r = [];
  read_bounded limits r : async_read net limits = Ok r -> size (rs_body r) <= body_limit limits }.

(** ** [forward_to_upstream] *)

Section upstream.
Context {Endpoints : Type}.
Implicit Types net : OriginNetwork Endpoints.

(** From the resolution of the host on, for a request as it is sent. *)
Definition exchange_with_origin net (request : Request) (upstream : UpstreamConfig) (limits : LimitsConfig)
  : outcome Response :=
  let is_head := method_string (rq_header request) == lit "HEAD" in
  endpoints ← async_resolve net (upstream_host upstream) (to_dec (upstream_port upstream));
  _ ← async_connect net endpoints (upstream_connect_timeout limits);
  _ ← async_write net request (request_timeout limits);
  async_read net (mkReadLimits (max_header_bytes limits) is_head (max_body_bytes limits)).

Definition forward_to_upstream net (request : Request) (upstream : UpstreamConfig) (limits : LimitsConfig)
    (client_ip client_scheme : str) : outcome Response :=
  exchange_with_origin net (origin_request request client_ip client_scheme) upstream limits.

(** The [try] around the call in [run_http_session]: any failure leaves
    [upstream_response] empty. The request is the one with the proxy's fields
    already set. *)
Definition caught {A} (o : outcome A) : option A := match o with Ok a => Some a | Throw _ => None end.
Definition origin_over net (limits : LimitsConfig) (request : Request) (upstream : UpstreamConfig) : option Response :=
  caught (exchange_with_origin net request upstream limits).

(** An exchange whose origin is reached over [net]. *)
Definition over net (limits : LimitsConfig) (x : Exchange) : Exchange :=
  mkExchange (header x) (body x) (origin_over net limits) (clock x).
End upstream.

(** ** What comes back *)

Section answers.
Context {Endpoints : Type}.
Implicit Types net : OriginNetwork Endpoints.

(** A response is returned exactly when every step succeeds, in order: the
    host and port of the site are resolved, the connection made within the
    connect timeout, and the request with the proxy's own forwarding fields
    written and the response read within the request timeout and the limits;
    the first step that fails is what is thrown. *)
Lemma forward_to_upstream_exact net request upstream limits ip scheme r :
  forward_to_upstream net request upstream limits ip scheme = Ok r <->
  exists endpoints,
    async_resolve net (upstream_host upstream) (to_dec (upstream_port upstream)) = Ok endpoints /\
    async_connect net endpoints (upstream_connect_timeout limits) = Ok tt /\
    async_write net (origin_request request ip scheme) (request_timeout limits) = Ok tt /\
    async_read net (mkReadLimits (max_header_bytes limits) (method_string (rq_header request) == lit "HEAD")
      (max_body_bytes limits)) = Ok r.
Proof.
  unfold forward_to_upstream, exchange_with_origin. cbn [origin_request rq_header method_string].
  destruct (async_resolve net _ _) as [endpoints|e]; cbn; [|by split; [|intros (? & ? & _)]].
  destruct (async_connect net endpoints _) as [[]|e] eqn:Hc; cbn; [|split; [done|intros (? & [= <-] & ? & _); congruence]].
  destruct (async_write net _ _) as [[]|e] eqn:Hw; cbn; [|split; [done|intros (? & _ & _ & ? & _); congruence]].
  split; [intros H; by exists endpoints|by intros (? & _ & _ & _ & ?)].
Qed.

(** A response that comes back is within the limits, and a HEAD request gets
    none of the body its origin announces. *)
Lemma upstream_bounded net request upstream limits ip scheme r :
  reads_within net -> forward_to_upstream net request upstream limits ip scheme = Ok r ->
  size (rs_body r) <= max_body_bytes limits /\
  (method_string (rq_header request) = lit "HEAD" -> rs_body r = []).
Proof.
  intros [Hs Hb] (endpoints & _ & _ & _ & Hr)%forward_to_upstream_exact. split; [exact (Hb _ _ Hr)|].
  intros Hm. apply (Hs _ _ Hr). cbn. by apply bool_decide_eq_true.
Qed.

(** C20: What a client is sent for a forwarded request, the network included: with
    every step of the exchange with the origin done in its limits, the origin's
    status and, unless a page is configured for that status, its fields and
    body; when any step fails - resolution, connection, a timeout, a header or
    body beyond the limit - a 502 page, and the connection is closed. *)
Theorem forwarded_answer `{Asio : AsioIp} net conn config x s s' served request up :
  handle_request conn config (over net (limits config) x) s = (s', Ok served) ->
  forwarded served = Some (request, up) ->
  exists request_body keep_alive response,
    body x = Some (request_body, keep_alive) /\ sent served = Some response /\
    match forward_to_upstream net (mkRequest (header x) request_body keep_alive) up (limits config)
            (to_string (client_ip conn)) (listener_label conn) with
    | Ok r =>
        rs_status response = rs_status r /\ rs_keep_alive response = keep_alive /\
        match find_status_page_html (status_pages (pages config)) (rs_status r) with
        | Some page => rs_body response = page
        | None => rs_body response = rs_body r /\ rs_fields response = rs_fields r
        end /\
        (reads_within net -> find_status_page_html (status_pages (pages config)) (rs_status r) = None ->
           size (rs_body response) <= max_body_bytes (limits config))
    | Throw _ => response = make_html_response kBadGatewayHtml 502 /\ next served = Close
    end.
Proof.
  intros H Hf. pose proof H as H0. rewrite handle_request_decides in H0.
  destruct (perform_forwarded _ _ _ _ _ _ _ _ H0 Hf) as (site & b & ka & Hd & Hp). injection Hp as -> Hup.
  apply decide_forward in Hd as (_ & _ & _ & Hb & _).
  destruct (origin_answer_relayed _ _ _ _ _ _ _ _ H Hf) as (ka' & response & Hb' & Hsent & Hr).
  cbn [over body header] in *. rewrite Hb in Hb'. injection Hb' as <-.
  exists b, ka, response. split; [exact Hb|]. split; [exact Hsent|]. revert Hr. cbn [over origin].
  unfold origin_over. fold (forward_to_upstream net (mkRequest (header x) b ka) up (limits config) (to_string (client_ip conn)) (listener_label conn)).
  destruct (forward_to_upstream _ _ _ _ _ _) as [r|e] eqn:Hu; cbn [caught]; [|done].
  intros (Hst & Hka & _ & Hpage). destruct (find_status_page_html _ _); [split_and!; try done; by apply Hpage|].
  destruct Hpage as [Hbody Hfields]. split_and!; try done. intros Hnet _. rewrite Hbody.
  by destruct (upstream_bounded _ _ _ _ _ _ _ Hnet Hu).
Qed.
End answers.

(** ** A network *)

Module DemoOrigin.
Definition demo_net : OriginNetwork (list ascii) := {|
  async_resolve host _ := if host == lit "127.0.0.1" then Ok host else Throw (RuntimeError "Host not found");
  async_connect _ timeout := if 0 <? timeout then Ok tt else Throw (RuntimeError "timed out");
  async_write _ _ := Ok tt;
  async_read l :=
    let body := if skip_body l then [] else lit "no" in
    if size body <=? body_limit l then Ok (mkResponse 404 [] body false) else Throw (RuntimeError "body limit exceeded") |}.

Lemma demo_net_within : reads_within demo_net.
Proof.
  split; intros l r; cbn [demo_net async_read]; destruct (Z.leb_spec (size (if skip_body l then [] else lit "no")) (body_limit l));
    intros [= <-]; [|done]. by intros ->.
Qed.

(** A page for 404 answers of the origin. *)
Definition paged_config : RuntimeConfig :=
  set_pages (set_status_pages [mkStatusPage 404 "<p>gone</p>" 0] (pages default_config)) default_config.
Definition asks (method : str) : Exchange :=
  let h := plain_header (Some (lit "firefox")) in
  mkExchange (mkHeader 11 method (target h) (header_find h)) (Some ([], true)) hello_origin (clock_at 5).
Definition answer_to (config : RuntimeConfig) (method : str) : option (Session.Response * Next) :=
  match (handle_request (Asio := text_asio) visitor config (over demo_net (limits config) (asks method)) app0).2 with
  | Ok served => match sent served with Some r => Some (r, next served) | None => None end
  | Throw _ => None
  end.

(** The configured page replaces the body of the answer to a HEAD request
    too, which then has one although the connection stays open. *)
Theorem head_answered_with_body :
  (rs_body <$> (fst <$> answer_to default_config "HEAD")) = Some [] /\
  answer_to paged_config "HEAD" =
    Some (mkResponse 404 [(lit "Content-Type", lit "text/html; charset=utf-8")] "<p>gone</p>" true, KeepAlive).
Proof. by vm_compute. Qed.

Definition asked (s : AppState) : AppState * outcome Served :=
  handle_request (Asio := text_asio) visitor default_config (over demo_net (limits default_config) (asks "GET")) s.

(** The origin can be asked, and what it says. *)
Lemma demo_net_answers request limits ip scheme :
  0 < upstream_connect_timeout limits -> forward_to_upstream demo_net request default_upstream limits ip scheme =
    async_read demo_net (mkReadLimits (max_header_bytes limits) (method_string (rq_header request) == lit "HEAD") (max_body_bytes limits)).
Proof.
  intros Ht. unfold forward_to_upstream, exchange_with_origin, demo_net. cbn [async_connect async_resolve async_write].
  change (upstream_host default_upstream == lit "127.0.0.1") with true. cbn [mbind outcome_bind].
  by rewrite (proj2 (Z.ltb_lt _ _) Ht).
Qed.

Lemma forwarded_answer_witness :
  reads_within demo_net /\
  exists s' served request response,
    asked app0 = (s', Ok served) /\ forwarded served = Some (request, default_upstream) /\ sent served = Some response /\
    rs_status response = 404 /\ rs_body response = lit "no" /\ size (rs_body response) <= max_body_bytes (limits default_config).
Proof.
  split; [exact demo_net_within|].
  assert (match (asked app0).2 with
          | Ok v => match forwarded v with Some (_, up) => (upstream_host up == lit "127.0.0.1") && (upstream_port up =? 8000) | None => false end
          | Throw _ => false end = true) as Hok by (vm_compute; reflexivity).
  destruct (asked app0) as [s' [served|e]] eqn:E; cbn [snd] in Hok; [|discriminate Hok].
  destruct (forwarded served) as [[request up]|] eqn:F; [|discriminate Hok]. 
  apply andb_true_iff in Hok as [Hh%bool_decide_eq_true Hp%Z.eqb_eq].
  assert (up = default_upstream) as -> by (destruct up; cbn in Hh, Hp; by subst).
  destruct (forwarded_answer (Asio := text_asio) demo_net visitor default_config (asks "GET") app0 s' served request
    default_upstream E F) as (b & ka & response & _ & Hs & H).
  exists s', served, request, response. split; [reflexivity|]. split; [exact F|]. split; [exact Hs|].
  rewrite demo_net_answers in H by reflexivity.
  destruct H as (Hst & _ & [Hb _] & Hsize). split; [exact Hst|]. split; [exact Hb|]. exact (Hsize demo_net_within eq_refl).
Defined.
End DemoOrigin.
