(* ===== verification/Concurrent.v ===== *)
(** * Concurrent: the request handler under interleaving

    [run_http_session] of [listener/http_session.hpp] once more, as a program
    of atomic actions: the trackers and histories lock for the length of one
    call, so between two calls of one request those of any others may run.
    Run alone it is [Session.handle_request]. *)
From S2P Require Import Prelude Text Net Config Checks Robots Sites EventLogs Session Interleave.
From S2P Require RateTracker ScoreTracker IpBlocks RequestLog.

(** ** The steps of a request *)

Definition award_score_steps (config : RuntimeConfig) (ip : address) (ip_text check_name : str) (c : Clock)
  : prog AppState unit :=
  if negb (ban_enabled (ban config)) then mret tt
  else match Config.scores (ban config) !! check_name with
       | None => mret tt
       | Some points =>
           if points <=? 0 then mret tt
           else
             total ← act (on_scores (ScoreTracker.add_points ip_text points));
             if total >=? threshold (ban config) then
               _ ← act (on_blocks (IpBlocks.add (at_add c) (score_block config ip ip_text total (at_award c))));
               act (on_scores (fun t => (ScoreTracker.reset ip_text t, Ok tt)))
             else mret tt
       end.

Definition record_events_steps (g : option GeoLocation) (event : RequestEvent) : prog AppState unit :=
  _ ← match g with
      | Some l => act (on_globe (EventLogs.record (mkArc 0 (ev_timestamp event) (geo_lat l) (geo_lon l) (ev_blocked event))))
      | None => mret tt
      end;
  act (on_request_log (RequestLog.record event)).

Definition answer_steps (g : option GeoLocation) (event : RequestEvent) (served : Served) : prog AppState Served :=
  _ ← record_events_steps g event; mret served.

Section steps.
Context `{Asio : AsioIp}.

(** What follows the decision. *)
Definition perform_steps (conn : Connection) (config : RuntimeConfig) (x : Exchange) (st : stage)
  : prog AppState Served :=
  let ip_text := to_string (client_ip conn) in
  let event := first_event conn ip_text x in
  let finished blocked why extra response :=
    finish_event blocked why (extra + size (rs_body response)) (swrap32 (rs_status response)) event in
  match st with
  | Refused why r => answer_steps (geo conn) (finished true why 0 r) (mkServed None (Some r) Close)
  | Blocked result extra =>
      let r := refused_page config in
      _ ← award_score_steps config (client_ip conn) ip_text (check_name result) (clock x);
      answer_steps (geo conn) (finished true (block_reason_of result) extra r) (mkServed None (Some r) Close)
  | Robots r => answer_steps (geo conn) (finished false [] 0 r) (mkServed None (Some r) Close)
  | ReadFailed => mret (mkServed None None Abort)
  | Forward site request_body keep_alive =>
      let request := origin_request (mkRequest (header x) request_body keep_alive) ip_text (listener_label conn) in
      let fwd := Some (request, rs_upstream site) in
      match origin x request (rs_upstream site) with
      | None =>
          let r := make_html_response kBadGatewayHtml 502 in
          answer_steps (geo conn) (finished false [] (size request_body) r) (mkServed fwd (Some r) Close)
      | Some r =>
          let response :=
            match find_status_page_html (status_pages (pages config)) (rs_status r) with
            | Some html => mkResponse (rs_status r)
                             (set_field "Content-Type" "text/html; charset=utf-8" (rs_fields r)) html keep_alive
            | None => mkResponse (rs_status r) (rs_fields r) (rs_body r) keep_alive
            end in
          answer_steps (geo conn) (finished false [] (size request_body) response)
            (mkServed fwd (Some response) (if keep_alive then KeepAlive else Close))
      end
  end.

Definition look_up_ban (conn : Connection) (x : Exchange) : prog AppState bool :=
  act (fun s => (s, Ok (banned conn x s))).

(** The checks after the gates on shared state, which read nothing but the
    request and the configuration. *)
Definition judge (conn : Connection) (config : RuntimeConfig) (x : Exchange) (rate : CheckResult) : stage :=
  let strict := negb (bypasses conn config x) in
  if strict && blocked rate then Blocked rate 0
  else
  let method := check_method_allowlist (method_check config) (method_string (header x)) in
  if strict && blocked method then Blocked method 0
  else if strict && blocked (header_result conn config x) then Blocked (header_result conn config x) 0
  else if serves_robots config (header x) (path_of x) then
    Robots (make_robots_txt_response
      (build_robots_txt_body (custom_content (robots_txt config)) (fake_routes (blacklist config)))
      (method_string (header x)))
  else
  match body x with
  | None => ReadFailed
  | Some (request_body, keep_alive) =>
      let content := evaluate_body_checks (blacklist config) request_body in
      if strict && blocked content then Blocked content (size request_body)
      else Forward (site_of config x) request_body keep_alive
  end.

Definition banned_stage (config : RuntimeConfig) : stage :=
  Refused "banned: temporarily blocked (manual or score threshold)" (banned_page config).

(** The gates in their order. A whitelisted request does not look at the
    bans; every request that gets that far is counted. *)
Definition handle_request_steps (conn : Connection) (config : RuntimeConfig) (x : Exchange) : prog AppState Served :=
  let perform := perform_steps conn config x in
  if eo_enabled (emergency_off config) then
    perform (Refused "emergency off" (make_html_response kEmergencyOffHtml 503))
  else if negb (rs_enabled (site_of config x)) then perform (Refused "site disabled" (refused_page config))
  else
  is_banned ← (if bypasses conn config x then mret false else look_up_ban conn x);
  if (is_banned : bool) then perform (banned_stage config)
  else
  rate ← act (on_rate (rate_check conn config x));
  perform (judge conn config x rate).

Lemma decide_judge conn config x s rate :
  decide_request conn config x s rate =
  if eo_enabled (emergency_off config) then Refused "emergency off" (make_html_response kEmergencyOffHtml 503)
  else if negb (rs_enabled (site_of config x)) then Refused "site disabled" (refused_page config)
  else if negb (bypasses conn config x) && banned conn x s then banned_stage config
  else judge conn config x rate.
Proof. done. Qed.

(** A connection in a program that has the configuration and the trackers
    somewhere in its state: the configuration is read anew for each request.
    The result lists, for every request, the configuration it was judged by
    and what was done with it. *)
Fixpoint session_steps {T} (get_config : T -> RuntimeConfig) (on_proxy : forall X, M AppState X -> M T X)
    (conn : Connection) (xs : list Exchange) : prog T (list (RuntimeConfig * Served)) :=
  match xs with
  | [] => mret []
  | x :: rest =>
      config ← act (fun s => (s, Ok (get_config s)));
      served ← hoist on_proxy (handle_request_steps conn config x);
      match next served with
      | KeepAlive =>
          more ← session_steps get_config on_proxy conn rest;
          mret ((config, served) :: more)
      | _ => mret [(config, served)]
      end
  end.
End steps.

(** ** Alone, the steps are the handler *)

Lemma bind_outcome {S A B} (m : M S A) (k : A -> M S B) s :
  (m ≫= k) s = match m s with (s', Ok a) => k a s' | (s', Throw e) => (s', Throw e) end.
Proof. done. Qed.

Lemma run_award config ip text check c s :
  run (award_score_steps config ip text check c) s = award_score config ip text check c s.
Proof.
  unfold award_score_steps, award_score. destruct (negb _); [done|].
  destruct (Config.scores _ !! _) as [p|]; [|done]. destruct (p <=? 0); [done|].
  rewrite run_bind, bind_outcome, run_act.
  destruct (on_scores _ s) as [s1 [total|e]]; [|done]. destruct (total >=? _); [|done].
  rewrite run_bind, bind_outcome, run_act.
  destruct (on_blocks _ s1) as [s2 [?|e]]; [|done]. by rewrite run_act.
Qed.

Lemma run_record g e s : run (record_events_steps g e) s = (logged g e s, Ok tt).
Proof.
  rewrite <- record_events_logged. unfold record_events_steps, record_events. rewrite run_bind, bind_outcome.
  destruct g as [l|]; [rewrite run_act|].
  - destruct (on_globe _ s) as [s1 [?|err]]; [by rewrite run_act|done].
  - cbn [run mret prog_ret M_ret]. by rewrite run_act.
Qed.

Lemma run_answer g e served s : run (answer_steps g e served) s = (logged g e s, Ok served).
Proof. unfold answer_steps. by rewrite run_bind, run_record. Qed.

Section alone.
Context `{Asio : AsioIp}.

Lemma run_perform conn config x st s : run (perform_steps conn config x st) s = perform conn config x st s.
Proof.
  destruct st as [why r|r extra|r| |site b ka]; unfold perform_steps, perform.
  - by rewrite run_answer, answer_and_close_logged.
  - unfold block_request. rewrite run_bind, bind_outcome, run_award.
    destruct (award_score _ _ _ _ _ s) as [s1 [?|e]]; [|done]. by rewrite run_answer, answer_and_close_logged.
  - by rewrite run_answer, answer_and_close_logged.
  - done.
  - unfold forward_request. destruct (origin _ _ _) as [r|].
    + by rewrite run_answer, bind_outcome, record_events_logged.
    + by rewrite run_answer, answer_and_close_logged.
Qed.

(** The steps of a request, with nothing in between, are the handler that
    the theorems about single requests are about. *)
Theorem run_handle_request conn config x s :
  run (handle_request_steps conn config x) s = handle_request conn config x s.
Proof.
  rewrite handle_request_decides, decide_judge. unfold handle_request_steps, after_rate, reaches_checks, rate_verdict.
  destruct (rate_check_returns conn config x (rate_tracker s)) as (t' & r & Hr).
  destruct (eo_enabled _); [apply run_perform|]. destruct (rs_enabled _); [|apply run_perform]. cbn [negb andb].
  rewrite run_bind. unfold look_up_ban.
  destruct (bypasses conn config x); cbn [negb andb orb]; [cbn [run mret prog_ret M_ret]|rewrite run_act].
  2: destruct (banned conn x s); [apply run_perform|]; cbn [negb].
  all: rewrite run_bind, run_act; unfold on_rate; rewrite Hr; cbn [fst snd]; apply run_perform.
Qed.
End alone.

(** ** Under interleaving *)

(** Adding the block of a crossed threshold. *)
Definition with_blocks (t : IpBlocks.IpBlockTracker) (s : AppState) : AppState :=
  mkApp (scores s) t (rate_tracker s) (request_log s) (globe_events s).

Section interleaved.
Context `{Asio : AsioIp}.

(** What is done with a request in each stage. *)
Definition served_of (conn : Connection) (config : RuntimeConfig) (x : Exchange) (st : stage) : Served :=
  match st with
  | Refused _ r | Robots r => mkServed None (Some r) Close
  | Blocked _ _ => mkServed None (Some (refused_page config)) Close
  | ReadFailed => mkServed None None Abort
  | Forward site request_body keep_alive =>
      let request := origin_request (mkRequest (header x) request_body keep_alive) (to_string (client_ip conn))
                       (listener_label conn) in
      match origin x request (rs_upstream site) with
      | None => mkServed (Some (request, rs_upstream site)) (Some (make_html_response kBadGatewayHtml 502)) Close
      | Some r =>
          mkServed (Some (request, rs_upstream site))
            (Some match find_status_page_html (status_pages (pages config)) (rs_status r) with
                  | Some html => mkResponse (rs_status r)
                      (set_field "Content-Type" "text/html; charset=utf-8" (rs_fields r)) html keep_alive
                  | None => mkResponse (rs_status r) (rs_fields r) (rs_body r) keep_alive
                  end) (if keep_alive then KeepAlive else Close)
      end
  end.

Section invariant.
Context (J : AppState -> Prop).
(** An invariant of the bans. *)
Context (J_blocks : forall s s', ip_blocks s' = ip_blocks s -> J s -> J s').

Lemma keep_op {A} (Q : A -> Prop) (op : M AppState A) :
  (forall s, ip_blocks (op s).1 = ip_blocks s /\ forall a, (op s).2 = Ok a -> Q a) -> safe J Q (act op).
Proof. intros H. apply safe_act. intros s Hs. destruct (H s) as [Hb Ha]. split; [by apply (J_blocks s)|done]. Qed.

Lemma on_scores_blocks {A} (m : M ScoreTracker.ScoreTracker A) s : ip_blocks (on_scores m s).1 = ip_blocks s.
Proof. unfold on_scores. by destruct (m (scores s)). Qed.

Lemma on_rate_blocks {A} (m : M RateTracker.RequestRateTracker A) s : ip_blocks (on_rate m s).1 = ip_blocks s.
Proof. unfold on_rate. by destruct (m (rate_tracker s)). Qed.

Lemma safe_answer (Q : Served -> Prop) g e served : Q served -> safe J Q (answer_steps g e served).
Proof.
  intros HQ. unfold answer_steps, record_events_steps. apply safe_bind, safe_bind.
  destruct g; [apply keep_op; intros s; split; [done|intros _ _]|]; apply keep_op; done.
Qed.

Lemma safe_award config ip text check c (Q : unit -> Prop) :
  Q tt ->
  (forall s total, J s -> J (with_blocks (IpBlocks.add (at_add c) (score_block config ip text total (at_award c)) (ip_blocks s)) s)) ->
  safe J Q (award_score_steps config ip text check c).
Proof.
  intros HQ Hadd. unfold award_score_steps. destruct (negb _); [done|].
  destruct (Config.scores _ !! _) as [p|]; [|done]. destruct (p <=? 0); [done|].
  apply safe_bind, keep_op. intros s. split; [apply on_scores_blocks|]. intros total _.
  destruct (total >=? _); [|done]. apply safe_bind, safe_act. intros s1 Hs1. split; [by apply Hadd|]. intros [] _.
  apply keep_op. intros s2. split; [done|by intros []].
Qed.

Lemma safe_perform conn config x st (Q : Served -> Prop) :
  Q (served_of conn config x st) ->
  (forall result extra s total, st = Blocked result extra -> J s ->
     J (with_blocks (IpBlocks.add (at_add (clock x))
          (score_block config (client_ip conn) (to_string (client_ip conn)) total (at_award (clock x))) (ip_blocks s)) s)) ->
  safe J Q (perform_steps conn config x st).
Proof.
  intros HQ Hadd. destruct st as [why r|r extra|r| |site b ka]; unfold perform_steps; cbn [served_of] in HQ.
  - by apply safe_answer.
  - apply safe_bind, safe_award; [by apply safe_answer|]. intros s total. by eapply Hadd.
  - by apply safe_answer.
  - done.
  - destruct (origin _ _ _); by apply safe_answer.
Qed.

(** However other threads come in between, a request is dealt with as the
    decision says on the state its ban gate finds and some verdict on its
    rate. *)
Lemma safe_handle conn config x (Q : Served -> Prop) s0 :
  J s0 ->
  (forall s rate, J s -> Q (served_of conn config x (decide_request conn config x s rate))) ->
  (forall s rate result extra, J s -> decide_request conn config x s rate = Blocked result extra ->
     forall s total, J s -> J (with_blocks (IpBlocks.add (at_add (clock x))
       (score_block config (client_ip conn) (to_string (client_ip conn)) total (at_award (clock x))) (ip_blocks s)) s)) ->
  safe J Q (handle_request_steps conn config x).
Proof.
  intros H0 HQ Hadd.
  assert (forall s rate st, J s -> decide_request conn config x s rate = st -> safe J Q (perform_steps conn config x st)) as Hst.
  { intros s rate st Hs <-. apply safe_perform; [by apply HQ|]. intros result extra s' total Hd Hs'. exact (Hadd s rate result extra Hs Hd s' total Hs'). }
  unfold handle_request_steps.
  destruct (eo_enabled _) eqn:He; [apply (Hst s0 allow); by rewrite ?decide_judge, ?He|].
  destruct (rs_enabled _) eqn:Hr; cbn [negb]; [|apply (Hst s0 allow); by rewrite ?decide_judge, ?He, ?Hr].
  apply safe_bind. destruct (bypasses conn config x) eqn:Hb.
  - apply safe_bind, keep_op. intros s. split; [apply on_rate_blocks|]. intros rate _.
    apply (Hst s0 rate); by rewrite ?decide_judge, ?He, ?Hr, ?Hb.
  - unfold look_up_ban. intros s Hs. split; [done|]. intros b [= <-]. destruct (banned conn x s) eqn:Hban.
    + apply (Hst s allow); by rewrite ?decide_judge, ?He, ?Hr, ?Hb, ?Hban.
    + apply safe_bind, keep_op. intros s1. split; [apply on_rate_blocks|]. intros rate _.
      apply (Hst s rate); by rewrite ?decide_judge, ?He, ?Hr, ?Hb, ?Hban.
Qed.
End invariant.

(** *** What a request adds to the request log *)

Definition ring_adds (s : AppState) (es : list RequestEvent) (s' : AppState) : Prop :=
  RequestLog.ring (request_log s') = foldl (fun r e => EventLogs.record e r) (RequestLog.ring (request_log s)) es.

(** One event for an answer, with its status, for this client and target; a
    refusal was not forwarded and closes the connection. Nothing for a read
    that failed. *)
Definition recorded (ip : address) (x : Exchange) (served : Served) (es : list RequestEvent) : Prop :=
  match sent served with
  | Some response => exists e, es = [e] /\
      ev_client_ip e = to_string ip /\ ev_path e = target (header x) /\
      ev_timestamp e = at_event (clock x) /\ ev_status_code e = swrap32 (rs_status response) /\
      (ev_blocked e = true -> forwarded served = None /\ next served = Close)
  | None => es = []
  end.

Section log.
Context {B : Type} (P : list RequestEvent -> option B -> Prop) (P_raise : forall es, P es None).

(** An action that leaves the request log alone. *)
Lemma emits_quiet {A} (op : M AppState A) (k : A -> prog AppState B) acc :
  (forall s, request_log (op s).1 = request_log s) -> (forall a, emits ring_adds P acc (k a)) ->
  emits ring_adds P acc (act op ≫= k).
Proof.
  intros Hq Hk s. exists []. split; [unfold ring_adds; by rewrite Hq|].
  destruct (op s).2; rewrite app_nil_r; [apply Hk|apply P_raise].
Qed.

Lemma emits_record event (k : unit -> prog AppState B) acc :
  emits ring_adds P (acc ++ [event]) (k tt) ->
  emits ring_adds P acc (act (on_request_log (RequestLog.record event)) ≫= k).
Proof.
  intros Hk s. exists [event]. split; [|done]. unfold ring_adds, on_request_log, RequestLog.record.
  cbn [fst request_log foldl]. destruct (RequestLog.csv_path_ _); [done|]. by case_match.
Qed.
End log.

Lemma emits_ret {A} (P : list RequestEvent -> option A -> Prop) (p : prog AppState A) acc :
  emits ring_adds P acc (p ≫= mret) -> emits ring_adds P acc p.
Proof.
  revert acc. induction p as [a|e|X op k IH]; intros acc; [done..|]. intros H s.
  destruct (H s) as (es & Ha & Hr). exists es. split; [done|]. destruct (op s).2; [by apply IH|done].
Qed.

Lemma emits_answer (P : list RequestEvent -> option Served -> Prop) g e served acc :
  (forall es, P es None) -> P (acc ++ [e]) (Some served) -> emits ring_adds P acc (answer_steps g e served).
Proof.
  intros Hr HP. unfold answer_steps, record_events_steps. apply emits_bind, emits_bind.
  assert (emits ring_adds (fun es r => match r with Some a => emits ring_adds P es (mret served) | None => P es None end)
            acc (act (on_request_log (RequestLog.record e)))) as Hrec.
  { apply emits_ret, emits_record. exact HP. }
  destruct g as [l|]; [|exact Hrec]. apply emits_ret, emits_quiet; [done|done|]. intros [].
  exact Hrec.
Qed.

Lemma emits_award config ip text check c (k : unit -> prog AppState Served) P acc :
  (forall es, P es None) -> emits ring_adds P acc (k tt) ->
  emits ring_adds P acc (award_score_steps config ip text check c ≫= k).
Proof.
  intros Hr Hk. apply emits_bind. unfold award_score_steps. destruct (negb _); [done|].
  destruct (Config.scores _ !! _) as [p|]; [|done]. destruct (p <=? 0); [done|].
  assert (forall A (m : M ScoreTracker.ScoreTracker A) s, request_log (on_scores m s).1 = request_log s) as Hq.
  { intros A m s. unfold on_scores. by destruct (m (scores s)). }
  apply emits_quiet; [auto|auto|]. intros total. destruct (total >=? _); [|done].
  apply emits_quiet; [auto|auto|]. intros []. apply emits_ret, emits_quiet; [auto|auto|]. by intros [].
Qed.

Lemma emits_perform conn config x st (P : list RequestEvent -> option Served -> Prop) acc :
  (forall es, P es None) ->
  (forall served es, recorded (client_ip conn) x served es -> P (acc ++ es) (Some served)) ->
  emits ring_adds P acc (perform_steps conn config x st).
Proof.
  intros Hr HP. unfold perform_steps. destruct st as [why r|r extra|r| |site b ka].
  2: apply emits_award; [done|].
  1-3: apply emits_answer; [done|]; apply HP; cbn [recorded sent]; eexists; split_and!; done.
  - rewrite <- (app_nil_r acc). by apply HP.
  - destruct (origin _ _ _); apply emits_answer; try done; apply HP; cbn [recorded sent]; eexists; split_and!; done.
Qed.

Lemma emits_handle conn config x (P : list RequestEvent -> option Served -> Prop) acc :
  (forall es, P es None) ->
  (forall served es, recorded (client_ip conn) x served es -> P (acc ++ es) (Some served)) ->
  emits ring_adds P acc (handle_request_steps conn config x).
Proof.
  intros Hr HP. unfold handle_request_steps.
  destruct (eo_enabled _); [by apply emits_perform|]. destruct (negb _); [by apply emits_perform|].
  assert (emits ring_adds P acc (rate ← act (on_rate (rate_check conn config x)); perform_steps conn config x (judge conn config x rate))) as Hrest.
  { apply emits_quiet; [done| |intros; by apply emits_perform]. intros s. unfold on_rate. by destruct (rate_check _ _ _ _). }
  destruct (bypasses conn config x); [exact Hrest|]. apply emits_quiet; [done|done|].
  intros [|]; [by apply emits_perform|exact Hrest].
Qed.

(** *** How many moves a request takes *)

Lemma within_answer g e served : within 2 (answer_steps g e served).
Proof. by destruct g. Qed.

Lemma within_perform conn config x st : within 5 (perform_steps conn config x st).
Proof.
  assert (forall g e served, within 5 (answer_steps g e served)) as Ha
    by (intros; eapply within_le; [|apply within_answer]; lia).
  unfold perform_steps. destruct st; try apply Ha; [|done|destruct (origin _ _ _); apply Ha].
  change 5%nat with (3 + 2)%nat. apply within_bind; [|intros; apply within_answer].
  unfold award_score_steps. destruct (negb _); [done|]. destruct (Config.scores _ !! _); [|done].
  destruct (_ <=? 0); [done|]. intros total. cbn. by destruct (total >=? _).
Qed.

Lemma within_handle conn config x : within 7 (handle_request_steps conn config x).
Proof.
  assert (forall st, within 7 (perform_steps conn config x st)) as Hp
    by (intros; eapply within_le; [|apply within_perform]; lia).
  unfold handle_request_steps. destruct (eo_enabled _); [apply Hp|]. destruct (negb _); [apply Hp|].
  change 7%nat with (1 + 6)%nat. apply within_bind; [by destruct (bypasses _ _ _)|]. intros [].
  - eapply within_le; [|apply within_perform]; lia.
  - change 6%nat with (1 + 5)%nat. apply within_bind; [done|]. intros. apply within_perform.
Qed.
End interleaved.
