(* ===== verification/Globe.v ===== *)
(** * Globe: the public listener and the accept loops

    Models [globe/globe_server.cpp], the HTTP server without authentication
    that feeds the embedded globe, [resolve_server_location] of [main.cpp],
    which gives it the position of the server, and what its accept loop shares
    with the other listeners ([listener/accept_util.hpp],
    [client_address_of]). Sockets and TLS handshakes are inputs. *)
From S2P Require Import Prelude Text Net Config Json EventLogs AdminBase JsonView.
From S2P Require Files UrlFetch AdminConfig.

(** ** Accepting *)

Inductive accept_result (S : Type) := Accepted (socket : S) | Failed (aborted : bool).
Arguments Accepted {S}.
Arguments Failed {S}.

(** [accept_next] on the results of [async_accept], with the pauses it made;
    [None] while it is still waiting. *)
Fixpoint accept_next {S} (results : list (accept_result S)) (pauses : nat) : option (nat * outcome S) :=
  match results with
  | [] => None
  | Accepted socket :: _ => Some (pauses, Ok socket)
  | Failed true :: _ => Some (pauses, Throw (RuntimeError "Operation canceled"))
  | Failed false :: results' => accept_next results' (1 + pauses)
  end.

Section globe.
Context `{Asio : AsioIp} `{Fs : Files.StaticFiles.FileSystem}.

(** [remote_endpoint] fails on a socket that is already disconnected. *)
Definition client_address_of (remote_endpoint : option address) : option address :=
  match remote_endpoint with
  | None => make_address "0.0.0.0"
  | Some a => Some (normalize_client_address a)
  end.

(** ** The server's position *)

(** [while (!body.empty() && isspace(body.back())) body.pop_back();] *)
Fixpoint drop_spaces (s : str) : str :=
  match s with c :: s' => if isspace c then drop_spaces s' else s | [] => [] end.
Definition strip_trailing_spaces (s : str) : str := rev (drop_spaces (rev s)).

(** [geoip]: the database, whether it is loaded, and its lookups. What is
    returned is stored; [None] leaves the position unset. *)
Definition resolve_server_location (config : RuntimeConfig) (geoip : option (bool * (address -> option GeoLocation)))
    (network : UrlFetch.Network) : option GeoLocation :=
  match server_lat (globe config), server_lon (globe config) with
  | Some lat, Some lon => Some (mkGeo lat lon [])
  | _, _ =>
      match geoip with
      | Some (true, lookup) =>
          if negb (auto_detect_server_location (globe config)) then None
          else let fetched := (UrlFetch.fetch_url network "https://api.ipify.org" 64).1 in
               if negb (UrlFetch.ok fetched) then None
               else match make_address (strip_trailing_spaces (UrlFetch.body fetched)) with
                    | None => None
                    | Some a => lookup a
                    end
      | _ => None
      end
  end.

(** ** Requests *)

Definition kDefaultSnapshotLimit : Z := 200.
Definition kEmbedScriptFile : str := "/globe-embed.js".
Definition kVendorPrefix : str := "/vendor/".

(** The services that the handlers query. *)
Record GlobeState := mkGlobeState {
  g_static_dir : str;
  g_events : Ring GlobeArcEvent;
  g_location : option GeoLocation;
  g_geoip : option bool;
  g_path_of : str -> list (list ascii);
  g_contents : list (list ascii) -> str }.

Record GlobeRequest := mkGlobeRequest { g_method : str; g_target : str; g_keep_alive : bool }.

Definition add_cors_header (r : Response) : Response := set_field "Access-Control-Allow-Origin" "*" r.

Definition file_response (s : GlobeState) (content_type : str) (path : list (list ascii)) : Response :=
  add_cors_header (mkResponse 200 [(lit "Server", lit "atomwall-globe"); (lit "Content-Type", content_type);
                                   (lit "X-Content-Type-Options", lit "nosniff")] (BFile (g_contents s path))).

Definition handle_embed_script (s : GlobeState) : outcome Response :=
  resolved ← Files.StaticFiles.resolve_static_path (g_path_of s (g_static_dir s)) kEmbedScriptFile;
  match resolved with
  | None => mret (add_cors_header (error_response 404 "globe embed script not found"))
  | Some path => mret (file_response s "text/javascript; charset=utf-8" path)
  end.

Definition handle_vendor_asset (s : GlobeState) (target : str) : outcome Response :=
  resolved ← Files.StaticFiles.resolve_static_path (g_path_of s (g_static_dir s)) target;
  match resolved with
  | None => mret (add_cors_header (error_response 404 "not found"))
  | Some path => mret (file_response s (Files.StaticFiles.mime_type_for path) path)
  end.

Definition handle_snapshot (s : GlobeState) (target : str) : Response :=
  let limit := Files.HttpUtil.query_param_size_t target "limit" kDefaultSnapshotLimit in
  add_cors_header (json_response 200 (JObj [
    (lit "events", globe_events_to_json (AdminConfig.recent_up_to limit (g_events s)));
    (lit "server_location", server_location_to_json (g_location s));
    (lit "geoip_ready", JBool (match g_geoip s with Some loaded => loaded | None => false end))])).

Definition route (s : GlobeState) (request : GlobeRequest) : outcome Response :=
  let target := g_target request in
  if negb (g_method request == lit "GET") then mret (add_cors_header (error_response 405 "method not allowed"))
  else if target == lit "/globe.js" then handle_embed_script s
  else if starts_with target kVendorPrefix then handle_vendor_asset s target
  else if take (length (lit "/globe/snapshot")) target == lit "/globe/snapshot" then mret (handle_snapshot s target)
  else mret (add_cors_header (error_response 404 "not found")).

Inductive GlobeServed := GAnswered (response : Response) | GStream.

(** The loop of [handle_connection]: each exchange is the state at that moment
    and the request, [None] when reading it fails. *)
Fixpoint handle_connection (xs : list (GlobeState * option GlobeRequest)) : list GlobeServed :=
  match xs with
  | [] => []
  | (_, None) :: _ => []
  | (s, Some request) :: xs' =>
      if (g_method request == lit "GET") && (g_target request == lit "/globe/stream") then [GStream]
      else match route s request with
           | Throw _ => []
           | Ok response => GAnswered response :: if g_keep_alive request then handle_connection xs' else []
           end
  end.

(** The checks of [run_globe_server]: whether it starts, and with TLS. *)
Definition globe_may_start (config : RuntimeConfig) : outcome bool :=
  let bind_host := public_bind_host (globe config) in
  let use_tls := negb (public_tls_cert_file (globe config) == []) && negb (public_tls_key_file (globe config) == []) in
  match make_address bind_host with
  | None => Throw (RuntimeError (lit "globe.public_bind is not a valid address: '" ++ bind_host ++ lit "'"))
  | Some _ => Ok use_tls
  end.
End globe.

(** ** What the listener gives away *)

Section exposure.
Context `{Asio : AsioIp} `{Fs : Files.StaticFiles.FileSystem}.
Import Files.StaticFiles.

Lemma build_relative_extends segments rel out : build_relative segments rel = Some out -> rel `prefix_of` out.
Proof.
  revert rel. induction segments as [|seg segs IH]; intros rel; cbn [build_relative]; [by intros [= ->]|].
  destruct ((seg == []) || (seg == lit ".")); [apply IH|]. destruct (seg == lit ".."); [done|].
  intros H%IH. by etransitivity; [apply prefix_app_r, reflexivity|].
Qed.

Lemma before_char_cons c x s : x <> c -> before_char c (x :: s) = x :: before_char c s.
Proof.
  intros Hx. unfold before_char, find_char. cbn [list_find]. rewrite decide_False by congruence.
  by destruct (list_find _ s) as [[i y]|].
Qed.

(** Characters that start no escape decode to themselves. *)
Lemma percent_decode_plain c s : c <> "%"%char ->
  percent_decode (c :: s) = (out ← percent_decode s; mret (c :: out)).
Proof. intros Hc. destruct s as [|a [|b s]]; [done|done|]. cbn [percent_decode]. by rewrite bool_decide_eq_false_2. Qed.

(** A target under the prefix decodes to a path whose first segment is the
    directory of that name, whatever follows. *)
Lemma vendor_segments target decoded rel :
  starts_with target kVendorPrefix = true -> percent_decode (before_char "?" target) = Ok decoded ->
  build_relative (getlines "/" decoded []) [] = Some rel -> exists rest, rel = lit "vendor" :: rest.
Proof.
  intros Ht Hd Hr. unfold starts_with in Ht. apply bool_decide_eq_true in Ht.
  rewrite <- (take_drop (length kVendorPrefix) target), Ht in Hd. cbn [kVendorPrefix lit String.list_ascii_of_string app] in Hd.
  rewrite !before_char_cons, !percent_decode_plain in Hd by done.
  destruct (percent_decode (before_char "?" _)) as [d|]; [|done]. cbn in Hd. injection Hd as <-.
  cbn [getlines] in Hr. repeat first [rewrite bool_decide_eq_false_2 in Hr by done | rewrite bool_decide_eq_true_2 in Hr by done].
  cbn [rev app build_relative] in Hr. apply build_relative_extends in Hr as [rest ->]. by exists rest.
Qed.

Lemma cors_present r : (lit "Access-Control-Allow-Origin", lit "*") ∈ fields (add_cors_header r).
Proof. unfold add_cors_header, set_field. cbn [fields]. apply elem_of_app. right. by left. Qed.

(** The public listener, which asks for no session, gives away nothing but
    the embed: every request is answered; with contents of a file only if the
    file is the embed script, or lies under the vendor directory of the web
    root and is named by plain segments (so that the pages and scripts of the
    admin interface are out of reach, whatever escapes and dot segments the
    target uses); and every answer may be read from any origin. *)
Theorem globe_gives_only_the_embed s request :
  exists r, route s request = Ok r /\ (lit "Access-Control-Allow-Origin", lit "*") ∈ fields r /\
    forall contents, rbody r = BFile contents ->
      g_method request = lit "GET" /\
      exists croot rel path, weakly_canonical (g_path_of s (g_static_dir s)) = Some croot /\
        weakly_canonical (croot ++ rel) = Some path /\ croot `prefix_of` path /\ is_regular_file path = Some true /\
        contents = g_contents s path /\ Forall plain_segment rel /\
        (rel = [lit "globe-embed.js"] \/ exists rest, rel = lit "vendor" :: rest).
Proof.
  unfold route. destruct (bool_decide_reflect (g_method request = lit "GET")) as [Hget|Hget]; cbn [negb].
  2: { eexists. split; [done|]. split; [apply cors_present|done]. }
  case_bool_decide as Hjs.
  { unfold handle_embed_script. destruct (resolve_static_path_spec (g_path_of s (g_static_dir s)) kEmbedScriptFile) as (decoded & r & Hd & -> & H).
    cbn [mbind outcome_bind]. destruct r as [path|]; eexists; (split; [done|]; split; [apply cors_present|]); [|done].
    intros contents [= <-]. destruct (H path eq_refl) as (Hnul & rel & croot & Hrel & H1 & H2 & H3 & H4).
    vm_compute in Hd. injection Hd as <-. vm_compute in Hrel. injection Hrel as <-.
    split; [done|]. exists croot, [lit "globe-embed.js"], path. split_and!; try done; [|by left].
    apply Forall_singleton. unfold plain_segment. split_and!; try done; refine (bool_decide_unpack _ _); vm_compute; exact I. }
  destruct (starts_with (g_target request) kVendorPrefix) eqn:Hv.
  { unfold handle_vendor_asset. destruct (resolve_static_path_spec (g_path_of s (g_static_dir s)) (g_target request)) as (decoded & r & Hd & -> & H).
    cbn [mbind outcome_bind]. destruct r as [path|]; eexists; (split; [done|]; split; [apply cors_present|]); [|done].
    intros contents [= <-]. destruct (H path eq_refl) as (Hnul & rel & croot & Hrel & H1 & H2 & H3 & H4).
    destruct (vendor_segments _ _ _ Hv Hd Hrel) as [rest Hrest]. rewrite bool_decide_eq_false_2 in H2 by (by rewrite Hrest).
    split; [done|]. exists croot, rel, path. split_and!; try done; [by eapply build_relative_plain|by right; exists rest]. }
  case_bool_decide; (eexists; split; [done|]; split; [apply cors_present|done]).
Qed.
End exposure.

(** Failures to accept that are not the closing of the acceptor only cost
    their pauses: the loop goes on to the next connection. *)
Theorem accept_survives {S} n (r : accept_result S) rs k :
  accept_next (replicate n (Failed false) ++ r :: rs) k =
  match r with
  | Accepted socket => Some ((n + k)%nat, Ok socket)
  | Failed true => Some ((n + k)%nat, Throw (RuntimeError "Operation canceled"))
  | Failed false => accept_next rs (1 + (n + k))
  end.
Proof.
  revert k. induction n as [|n IH]; intros k; [by destruct r as [|[]]|]. cbn [replicate app accept_next]. rewrite IH.
  by replace (n + (1 + k))%nat with (1 + n + k)%nat by lia.
Qed.

(** A position that is configured is used as it is, and nothing is contacted. *)
Lemma configured_location `{Asio : AsioIp} config geoip network lat lon :
  server_lat (globe config) = Some lat -> server_lon (globe config) = Some lon ->
  resolve_server_location config geoip network = Some (mkGeo lat lon []).
Proof. unfold resolve_server_location. by intros -> ->. Qed.

(** ** A web root *)

Module DemoGlobe.
Import Files.StaticFiles.

Definition web_root : list str := [lit "srv"; lit "webui"].
Definition demo_paths : list (list (list ascii)) :=
  [web_root; web_root ++ [lit "index.html"]; web_root ++ [lit "globe-embed.js"];
   web_root ++ [lit "vendor"; lit "globe.gl.js"]].

#[local] Instance demo_fs : FileSystem := {|
  weakly_canonical p := Some p;
  is_regular_file p := Some (existsb (fun q => q == p) (tail demo_paths)) |}.

Definition demo_globe : GlobeState :=
  mkGlobeState "webui" (ring_init 10) None (Some true) (fun _ => web_root) (fun p => default [] (last p)).

Definition fetched (target : str) : option (Z * response_body) :=
  match route demo_globe (mkGlobeRequest "GET" target true) with Ok r => Some (status r, rbody r) | Throw _ => None end.

Example vendor_only :
  fetched "/vendor/globe.gl.js?x" = Some (200, BFile "globe.gl.js") /\
  fetched "/globe.js" = Some (200, BFile "globe-embed.js") /\
  (fst <$> fetched "/vendor/%2e%2e/index.html") = Some 404 /\ (fst <$> fetched "/index.html") = Some 404 /\
  (fst <$> fetched "/globe/snapshot?limit=5") = Some 200.
Proof. by vm_compute. Qed.
End DemoGlobe.
