(* ===== verification/GeoIp.v ===== *)
(** * GeoIp: the two MaxMind databases and what a connection looks up

    Models [geoip/geoip_service.cpp] and [geoip/asn_service.cpp], and the
    lookups at the top of [run_http_session]. libmaxminddb is the interface
    [MaxMindDb]: what opening a file gives, what looking an address up gives,
    and the value found under a path of keys. *)
From S2P Require Import Prelude Text Net Config Checks EventLogs Session.
From S2P Require RequestLog.
From Stdlib Require Import SpecFloat.

(** ** libmaxminddb *)

(** An [MMDB_entry_data_s] that has data, with its type; types the code does
    not look at are one constructor. *)
Inductive entry_data :=
  | DataUtf8 (s : str)
  | DataDouble (d : spec_float)
  | DataFloat (f : spec_float)
  | DataUint16 (n : Z)
  | DataUint32 (n : Z)
  | DataOther.

Class MaxMindDb := {
  MMDB_s : Type;
  MMDB_entry_s : Type;
  MMDB_open : str -> MMDB_s + Z;
  MMDB_lookup_string : MMDB_s -> str -> Z * Z * option MMDB_entry_s;
  MMDB_get_value : MMDB_entry_s -> list str -> option entry_data }.

Definition MMDB_SUCCESS : Z := 0.

(** [c_str()] ends at the first null character. *)
Definition c_str (s : str) : str := before_char nul s.

(** ** GeoIpService *)

(** [static_cast<double>(float)]: exact, the number in the wider format. *)
Definition double_of_float (f : spec_float) : spec_float :=
  match f with
  | S754_finite s m e => binary_normalize 53 1024 (cond_Zopp s (Zpos m)) e s
  | _ => f
  end.

Definition entry_as_double (entry : option entry_data) : option spec_float :=
  match entry with
  | Some (DataDouble d) => Some d
  | Some (DataFloat f) => Some (double_of_float f)
  | _ => None
  end.

Section services.
Context `{Mmdb : MaxMindDb}.

(** A service is its database, when one is loaded; both constructors open the
    same way. *)
Record Service := mkService { db_ : option MMDB_s }.

Definition loaded (s : Service) : bool := bool_decide (is_Some (db_ s)).

Definition open_service (mmdb_path : str) : Service :=
  match mmdb_path with
  | [] => mkService None
  | _ => match MMDB_open (c_str mmdb_path) with
         | inl db => mkService (Some db)
         | inr status => mkService None
         end
  end.
Definition GeoIpService (mmdb_path : str) : Service := open_service mmdb_path.
Definition AsnService (mmdb_path : str) : Service := open_service mmdb_path.

(** The entry both lookups start from. *)
Definition find_entry (text : str) (s : Service) : option MMDB_entry_s :=
  match db_ s with
  | None => None
  | Some db =>
      let '(gai_error, mmdb_error, found) := MMDB_lookup_string db (c_str text) in
      if negb (gai_error =? 0) || negb (mmdb_error =? MMDB_SUCCESS) then None else found
  end.

(** [std::string(data.utf8_string, data.data_size)] of an entry of that type. *)
Definition utf8_of (data : option entry_data) : option (list ascii) :=
  match data with Some (DataUtf8 s) => Some s | _ => None end.

Definition location_of (entry : MMDB_entry_s) : option GeoLocation :=
  match entry_as_double (MMDB_get_value entry [lit "location"; lit "latitude"]),
        entry_as_double (MMDB_get_value entry [lit "location"; lit "longitude"]) with
  | Some lat, Some lon =>
      Some (mkGeo lat lon (default [] (utf8_of (MMDB_get_value entry [lit "country"; lit "iso_code"]))))
  | _, _ => None
  end.

Definition geo_lookup `{Asio : AsioIp} (a : address) (s : Service) : option GeoLocation :=
  find_entry (to_string a) s ≫= location_of.

(** ** AsnService *)

Fixpoint string_from_first_match (entry : MMDB_entry_s) (keys : list (list ascii)) : option (list ascii) :=
  match keys with
  | [] => None
  | key :: keys' =>
      match MMDB_get_value entry [key] with
      | Some (DataUtf8 s) => Some s
      | _ => string_from_first_match entry keys'
      end
  end.

Fixpoint uint32_from_first_match (entry : MMDB_entry_s) (keys : list (list ascii)) : option Z :=
  match keys with
  | [] => None
  | key :: keys' =>
      match MMDB_get_value entry [key] with
      | None => uint32_from_first_match entry keys'
      | Some (DataUint32 n) => Some n
      | Some (DataUint16 n) => Some n
      | Some _ => uint32_from_first_match entry keys'
      end
  end.

Definition organization_keys : list (list ascii) :=
  map lit ["autonomous_system_organization"; "as_org"; "org"; "isp"; "organization"]%string.
Definition asn_keys : list (list ascii) := map lit ["autonomous_system_number"; "as_number"; "asn"]%string.

Definition asn_of (entry : MMDB_entry_s) : option AsnInfo :=
  let organization := string_from_first_match entry organization_keys in
  let asn := uint32_from_first_match entry asn_keys in
  match organization, asn with
  | None, None => None
  | _, _ => Some (mkAsn (default 0 asn) (default [] organization))
  end.

Definition asn_lookup `{Asio : AsioIp} (a : address) (s : Service) : option AsnInfo :=
  find_entry (to_string a) s ≫= asn_of.

(** ** A connection: [run_http_session] looks its address up once *)

Definition connect `{Asio : AsioIp} (geoip asn : Service) (ip : address) (label : str) : Connection :=
  mkConnection ip (geo_lookup ip geoip) (asn_lookup ip asn) label.
End services.

(** ** Lookups *)

Section lookups.
Context `{Mmdb : MaxMindDb} `{Asio : AsioIp}.

(** The loops are searches for the first key with data of the type. *)
Lemma string_from_first_match_spec e keys :
  string_from_first_match e keys = head (omap (fun key => utf8_of (MMDB_get_value e [key])) keys).
Proof. induction keys as [|key keys IH]; [done|]. cbn. by destruct (MMDB_get_value e [key]) as [[]|]. Qed.

Definition uint32_of (data : option entry_data) : option Z :=
  match data with Some (DataUint32 n) | Some (DataUint16 n) => Some n | _ => None end.

Lemma uint32_from_first_match_spec e keys :
  uint32_from_first_match e keys = head (omap (fun key => uint32_of (MMDB_get_value e [key])) keys).
Proof. induction keys as [|key keys IH]; [done|]. cbn. by destruct (MMDB_get_value e [key]) as [[]|]. Qed.

Lemma find_entry_spec text s e :
  find_entry text s = Some e <->
  exists db, db_ s = Some db /\ MMDB_lookup_string db (c_str text) = (0, MMDB_SUCCESS, Some e).
Proof.
  unfold find_entry. destruct (db_ s) as [db|]; [|naive_solver].
  destruct (MMDB_lookup_string db (c_str text)) as [[g m] found] eqn:E. split.
  - destruct (Z.eqb_spec g 0) as [->|]; [|done]. destruct (Z.eqb_spec m MMDB_SUCCESS) as [->|]; [|done].
    cbn. intros ->. by exists db.
  - intros (db' & [= <-] & H). rewrite H in E. by injection E as <- <- <-.
Qed.

Lemma unloaded_finds_nothing text s : db_ s = None -> find_entry text s = None.
Proof. unfold find_entry. by intros ->. Qed.

(** An address has a position exactly when a database is loaded, the lookup
    finds an entry without error, and the entry holds both coordinates as
    floating point numbers; the country is the entry's, or empty. *)
Theorem geo_lookup_exact a s l :
  geo_lookup a s = Some l <->
  exists db e, db_ s = Some db /\ MMDB_lookup_string db (c_str (to_string a)) = (0, MMDB_SUCCESS, Some e) /\
    entry_as_double (MMDB_get_value e [lit "location"; lit "latitude"]) = Some (geo_lat l) /\
    entry_as_double (MMDB_get_value e [lit "location"; lit "longitude"]) = Some (geo_lon l) /\
    geo_country l = default [] (utf8_of (MMDB_get_value e [lit "country"; lit "iso_code"])).
Proof.
  unfold geo_lookup. rewrite bind_Some. split.
  - intros (e & (db & Hdb & He)%find_entry_spec & Hl). exists db, e. revert Hl. unfold location_of.
    destruct (entry_as_double _) as [lat|]; [|done]. destruct (entry_as_double _) as [lon|]; [|done].
    by intros [= <-].
  - intros (db & e & Hdb & He & Hlat & Hlon & Hc). exists e. split; [apply find_entry_spec; by exists db|].
    unfold location_of. rewrite Hlat, Hlon, <- Hc. by destruct l.
Qed.

(** The network of an address is read under the first of the known keys that
    holds data of the right type, whatever the keys before it hold; it is
    absent exactly when neither a name nor a number is found. *)
Theorem asn_lookup_exact a s i :
  asn_lookup a s = Some i <->
  exists db e, db_ s = Some db /\ MMDB_lookup_string db (c_str (to_string a)) = (0, MMDB_SUCCESS, Some e) /\
    let names := omap (fun key => utf8_of (MMDB_get_value e [key])) organization_keys in
    let numbers := omap (fun key => uint32_of (MMDB_get_value e [key])) asn_keys in
    (names <> [] \/ numbers <> []) /\
    asn_organization i = default [] (head names) /\ asn_number i = default 0 (head numbers).
Proof.
  unfold asn_lookup. rewrite bind_Some. split.
  - intros (e & (db & Hdb & He)%find_entry_spec & Hi). exists db, e. revert Hi. unfold asn_of.
    rewrite string_from_first_match_spec, uint32_from_first_match_spec. cbv zeta.
    destruct (omap _ organization_keys), (omap _ asn_keys); cbn; intros [= <-]; split_and!; auto.
  - intros (db & e & Hdb & He & Hsome & Ho & Hn). exists e. split; [apply find_entry_spec; by exists db|].
    revert Hsome Ho Hn. unfold asn_of. rewrite string_from_first_match_spec, uint32_from_first_match_spec. cbv zeta.
    destruct (omap _ organization_keys), (omap _ asn_keys), i; cbn; intros [?|?]; intros -> ->; done.
Qed.
End lookups.

(** ** What the databases may change *)

(** What the verdict on a request can depend on: the trackers. *)
Record trackers_agree (s s' : AppState) : Prop := {
  ta_scores : scores s = scores s';
  ta_blocks : ip_blocks s = ip_blocks s';
  ta_rate : rate_tracker s = rate_tracker s' }.

#[export] Instance trackers_agree_equiv : Equivalence trackers_agree.
Proof.
  split; [done|by intros s s' []|]. intros a b c [A1 A2 A3] [B1 B2 B3]. split; congruence.
Qed.

Lemma logged_trackers g g' e e' s s' : trackers_agree s s' -> trackers_agree (logged g e s) (logged g' e' s').
Proof. intros []. by split. Qed.

Section display_only.
Context `{Asio : AsioIp}.

(** Connections that a request cannot tell apart. *)
Definition same_client (conn conn' : Connection) : Prop :=
  client_ip conn = client_ip conn' /\ asn_info conn = asn_info conn' /\ listener_label conn = listener_label conn'.

Lemma decide_same conn conn' config x s s' rate :
  same_client conn conn' -> ip_blocks s = ip_blocks s' ->
  decide_request conn config x s rate = decide_request conn' config x s' rate.
Proof.
  intros (Hip & Hasn & _) Hb.
  unfold decide_request, bypasses, banned, header_result, is_whitelisted, isp_of. by rewrite Hip, Hasn, Hb.
Qed.

Lemma award_same config ip text check c s s' :
  trackers_agree s s' ->
  (award_score config ip text check c s).2 = (award_score config ip text check c s').2 /\
  trackers_agree (award_score config ip text check c s).1 (award_score config ip text check c s').1.
Proof.
  intros [Hs Hb Hr]. unfold award_score. destruct (negb _); [done|].
  destruct (Config.scores _ !! _) as [p|]; [|done]. destruct (p <=? 0); [done|].
  unfold mbind, M_bind, on_scores, on_blocks. rewrite Hs.
  destruct (ScoreTracker.add_points text p (scores s')) as [t [total|e]]; [|done].
  destruct (total >=? _); cbn; rewrite ?Hb; done.
Qed.

Lemma perform_same conn conn' config x st s s' :
  same_client conn conn' -> trackers_agree s s' ->
  (perform conn config x st s).2 = (perform conn' config x st s').2 /\
  trackers_agree (perform conn config x st s).1 (perform conn' config x st s').1.
Proof.
  intros (Hip & _ & Hl) Ht. destruct st as [why r|r extra|r| |site b ka]; unfold perform.
  - rewrite !answer_and_close_logged. split; [done|by apply logged_trackers].
  - unfold block_request, mbind, M_bind. rewrite Hip.
    pose proof (award_same config (client_ip conn') (to_string (client_ip conn')) (check_name r) (clock x) s s' Ht) as [E Ht'].
    destruct (award_score _ _ _ _ _ s) as [s1 o1], (award_score _ _ _ _ _ s') as [s2 o2]. cbn [fst snd] in *. subst o2.
    destruct o1; [rewrite !answer_and_close_logged; split; [done|by apply logged_trackers]|done].
  - rewrite !answer_and_close_logged. split; [done|by apply logged_trackers].
  - done.
  - unfold forward_request. rewrite Hip, Hl. case_match.
    + unfold mbind, M_bind. rewrite !record_events_logged. split; [done|by apply logged_trackers].
    + rewrite !answer_and_close_logged. split; [done|by apply logged_trackers].
Qed.

Lemma after_rate_same conn conn' config x s s' :
  same_client conn conn' -> trackers_agree s s' ->
  rate_verdict conn config x s = rate_verdict conn' config x s' /\
  trackers_agree (after_rate conn config x s) (after_rate conn' config x s').
Proof.
  intros (Hip & _) [Hs Hb Hr]. unfold rate_verdict, after_rate, reaches_checks, rate_check, bypasses, banned, is_whitelisted.
  rewrite Hip, Hb, Hr. split; [done|]. by case_match.
Qed.

Lemma judged_alike conn conn' config x s s' :
  same_client conn conn' -> trackers_agree s s' ->
  (handle_request conn config x s).2 = (handle_request conn' config x s').2 /\
  trackers_agree (handle_request conn config x s).1 (handle_request conn' config x s').1.
Proof.
  intros Hc Ht. rewrite !handle_request_decides.
  destruct (after_rate_same conn conn' config x s s' Hc Ht) as [-> Ht'].
  rewrite (decide_same conn conn' config x s s') by (done || apply Ht). by apply perform_same.
Qed.

(** C33: Geolocation is for display only: whichever City database is loaded, or
    none, and whatever the histories hold, every request of a connection gets
    the same answer, goes to the same origin, and leaves the same scores, bans
    and rates behind. *)
Theorem geolocation_never_decides `{Mmdb : MaxMindDb} geoip geoip' asn ip label exchanges s s' :
  trackers_agree s s' ->
  let '(t, served) := run_http_session (connect geoip asn ip label) exchanges s in
  let '(t', served') := run_http_session (connect geoip' asn ip label) exchanges s' in
  served = served' /\ trackers_agree t t'.
Proof.
  revert s s'. induction exchanges as [|[config x] rest IH]; intros s s' Ht; [done|]. cbn [run_http_session].
  unfold mbind, M_bind.
  destruct (judged_alike (connect geoip asn ip label) (connect geoip' asn ip label) config x s s') as [E Ht']; [done|done|].
  destruct (handle_request _ _ _ s) as [s1 o], (handle_request _ _ _ s') as [s2 o']. cbn [fst snd] in *. subst o'.
  destruct o as [served|e]; [|done]. destruct (next served); [|done..].
  specialize (IH s1 s2 Ht').
  destruct (run_http_session (connect geoip _ _ _) rest s1) as [t1 o1],
    (run_http_session (connect geoip' _ _ _) rest s2) as [t2 o2]. destruct IH as [<- IH]. by destruct o1.
Qed.
End display_only.

(** ** A small database *)

Module DemoDb.
#[local] Instance demo_db : MaxMindDb := {|
  MMDB_s := unit; MMDB_entry_s := bool;
  MMDB_open path := if path == lit "city.mmdb" then inl tt else inr 1;
  MMDB_lookup_string _ text := (0, 0, if text == lit "203.0.113.7" then Some true else None);
  MMDB_get_value _ keys :=
    if keys == [lit "location"; lit "latitude"] then Some (DataDouble (S754_finite false 5 0))
    else if keys == [lit "location"; lit "longitude"] then Some (DataFloat (S754_finite true 3 (-1)))
    else if keys == [lit "country"; lit "iso_code"] then Some (DataUtf8 "DE")
    else if keys == [lit "as_org"] then Some (DataUint32 9)
    else if keys == [lit "org"] then Some (DataUtf8 "Example Net")
    else if keys == [lit "asn"] then Some (DataUint16 64500) else None |}.

(** A key with data of another type is passed over. *)
Example demo_lookups :
  asn_lookup (Asio := text_asio) (addr_v4 [203; 0; 113; 7]) (AsnService "city.mmdb") = Some (mkAsn 64500 "Example Net") /\
  (geo_country <$> geo_lookup (Asio := text_asio) (addr_v4 [203; 0; 113; 7]) (GeoIpService "city.mmdb")) = Some (lit "DE") /\
  geo_lookup (Asio := text_asio) (addr_v4 [203; 0; 113; 8]) (GeoIpService "city.mmdb") = None /\
  geo_lookup (Asio := text_asio) (addr_v4 [203; 0; 113; 7]) (GeoIpService "other.mmdb") = None.
Proof. by vm_compute. Qed.

Lemma geolocation_never_decides_witness :
  trackers_agree app0 app0 /\
  let located := connect (Asio := text_asio) (GeoIpService "city.mmdb") (AsnService []) (client_ip visitor) "http" in
  let unknown := connect (Asio := text_asio) (GeoIpService []) (AsnService []) (client_ip visitor) "http" in
  is_Some (geo located) /\ geo unknown = None /\
  (run_http_session (Asio := text_asio) located [(strict_config, visit "firefox" 5)] app0).2 =
  (run_http_session (Asio := text_asio) unknown [(strict_config, visit "firefox" 5)] app0).2.
Proof.
  split; [reflexivity|]. cbv zeta. split; [vm_compute; eexists; reflexivity|]. split; [reflexivity|].
  pose proof (geolocation_never_decides (Asio := text_asio) (Mmdb := demo_db) (GeoIpService "city.mmdb") (GeoIpService [])
    (AsnService []) (client_ip visitor) "http" [(strict_config, visit "firefox" 5)] app0 app0 ltac:(reflexivity)) as H.
  destruct (run_http_session _ _ app0) as [t r], (run_http_session _ _ app0) as [t' r'].
  exact (proj1 H).
Defined.
End DemoDb.
