(* ===== verification/Privacy.v ===== *)
(** * Privacy: what the public globe can tell

    The globe's listener asks for no session, because its events carry no
    identity ([globe/globe_server.hpp], [history/globe_event_log.hpp]). Stated
    as non-interference: two histories of requests that look the same from far
    away (when, from where on the map, let through or not) leave a globe that
    answers every request alike, whoever the visitors were, whatever they asked
    for and whatever the configuration was. *)
From S2P Require Import Prelude Text Net Config Checks Sites EventLogs Session JsonView GeoIp.
From S2P Require Globe Files RequestLog.

Section privacy.
Context `{Asio : AsioIp}.

(** A request as the proxy comes to serve it. *)
Definition Visit : Type := Connection * RuntimeConfig * Exchange.

Definition turned_down (st : stage) : bool :=
  match st with Refused _ _ | Blocked _ _ => true | _ => false end.

(** What a request shows from far away: nothing if its client is nowhere on
    the map or was not answered; else the time, the position and the verdict. *)
Definition sight (v : Visit) (s : AppState) : option GlobeArcEvent :=
  let '(conn, config, x) := v in
  match geo conn, (handle_request conn config x s).2 with
  | Some l, Ok (mkServed _ (Some _) _) =>
      Some (mkArc 0 (at_event (clock x)) (geo_lat l) (geo_lon l)
              (turned_down (decide_request conn config x s (rate_verdict conn config x s))))
  | _, _ => None
  end.

Definition serve (s : AppState) (v : Visit) : AppState :=
  let '(conn, config, x) := v in (handle_request conn config x s).1.

Fixpoint sights (history : list Visit) (s : AppState) : list GlobeArcEvent :=
  match history with
  | [] => []
  | v :: rest => option_list (sight v s) ++ sights rest (serve s v)
  end.

(** ** A request shows its sight, and nothing else *)

Lemma award_globe config ip text check c s : globe_events (award_score config ip text check c s).1 = globe_events s.
Proof.
  unfold award_score. destruct (negb _); [done|]. destruct (Config.scores _ !! _); [|done]. destruct (_ <=? 0); [done|].
  unfold mbind, M_bind, on_scores, on_blocks. destruct (ScoreTracker.add_points _ _ _) as [t [total|e]]; [|done].
  by destruct (total >=? _).
Qed.

Lemma after_rate_globe conn config x s : globe_events (after_rate conn config x s) = globe_events s.
Proof. unfold after_rate. by destruct (reaches_checks _ _ _ _). Qed.

Lemma logged_globe conn b why n x r s :
  globe_events (logged (geo conn) (finish_event b why n (swrap32 (rs_status r)) (first_event conn (to_string (client_ip conn)) x)) s) =
  foldl (fun g a => EventLogs.record a g) (globe_events s)
    (option_list (match geo conn with
                  | Some l => Some (mkArc 0 (at_event (clock x)) (geo_lat l) (geo_lon l) b)
                  | None => None
                  end)).
Proof. unfold logged. cbn [globe_events]. by destruct (geo conn). Qed.

Lemma serve_shows v s :
  globe_events (serve s v) = foldl (fun g a => EventLogs.record a g) (globe_events s) (option_list (sight v s)).
Proof.
  destruct v as [[conn config] x]. unfold serve, sight. rewrite handle_request_decides.
  set (rate := rate_verdict conn config x s).
  rewrite <- (after_rate_globe conn config x s).
  generalize (decide_request conn config x s rate), (after_rate conn config x s). clear rate s. intros st s.
  destruct st as [why r|r extra|r| |site b ka]; unfold perform; cbn [turned_down].
  - rewrite answer_and_close_logged. apply logged_globe.
  - unfold block_request, mbind, M_bind.
    pose proof (award_globe config (client_ip conn) (to_string (client_ip conn)) (check_name r) (clock x) s) as Hg.
    destruct (award_score _ _ _ _ _ s) as [s1 [[]|e]]; cbn [fst] in Hg.
    + rewrite answer_and_close_logged, <- Hg. apply logged_globe.
    + cbn. by destruct (geo conn).
  - rewrite answer_and_close_logged. apply logged_globe.
  - cbn. by destruct (geo conn).
  - unfold forward_request. case_match.
    + unfold mbind, M_bind. rewrite record_events_logged. apply logged_globe.
    + rewrite answer_and_close_logged. apply logged_globe.
Qed.

Lemma history_shows history s :
  globe_events (foldl serve s history) = foldl (fun g a => EventLogs.record a g) (globe_events s) (sights history s).
Proof.
  revert s. induction history as [|v rest IH]; intros s; [done|]. cbn [foldl sights]. by rewrite IH, serve_shows, foldl_app.
Qed.

(** ** What an onlooker learns *)

Context `{Fs : Files.StaticFiles.FileSystem}.

(** The globe's listener over a history of events. *)
Definition with_events (g : Globe.GlobeState) (s : AppState) : Globe.GlobeState :=
  Globe.mkGlobeState (Globe.g_static_dir g) (globe_events s) (Globe.g_location g) (Globe.g_geoip g)
    (Globe.g_path_of g) (Globe.g_contents g).

(** C17: The public globe gives away nothing about visitors but their sights. Two
    histories of requests with the same sights, by whatever clients, for
    whatever hosts and paths, under whatever configurations and from whatever
    trackers and request log, cannot be told apart by any request to the
    globe's listener, nor on its event stream, which sends what [events_since]
    returns. *)
Theorem globe_shows_only_sights history history' s s' g request since limit :
  globe_events s = globe_events s' -> sights history s = sights history' s' ->
  let seen := foldl serve s history in
  let seen' := foldl serve s' history' in
  Globe.route (with_events g seen) request = Globe.route (with_events g seen') request /\
  events_since since limit (globe_events seen) = events_since since limit (globe_events seen') /\
  latest_seq (globe_events seen) = latest_seq (globe_events seen').
Proof.
  intros Hg Hs. cbv zeta.
  assert (globe_events (foldl serve s history) = globe_events (foldl serve s' history')) as E
    by (by rewrite !history_shows, Hg, Hs).
  unfold with_events. by rewrite E.
Qed.
End privacy.

(** ** Two visitors who look alike *)

Section witness.
#[local] Existing Instances text_asio Globe.DemoGlobe.demo_fs.

Definition here : option GeoLocation := Some (mkGeo (S754_finite false 5 0) (S754_finite true 3 (-1)) "DE").
Definition first_visit : Visit :=
  (mkConnection (addr_v4 [203; 0; 113; 7]) here None "http", strict_config, visit "BadBot/1.0" 5).
Definition second_visit : Visit :=
  (mkConnection (addr_v4 [198; 51; 100; 9]) here (Some (mkAsn 64500 "Example Net")) "https",
   set_emergency_off (mkEmergency true) default_config, visit "firefox" 5).

Definition snapshot : Globe.GlobeRequest := Globe.mkGlobeRequest "GET" "/globe/snapshot" true.

(** A bad bot turned down by its user agent, and a browser turned away by the
    emergency switch. *)
Lemma globe_shows_only_sights_witness :
  sights [first_visit] app0 = sights [second_visit] app0 /\ sights [first_visit] app0 <> [] /\
  Globe.route (with_events Globe.DemoGlobe.demo_globe (foldl serve app0 [first_visit])) snapshot =
  Globe.route (with_events Globe.DemoGlobe.demo_globe (foldl serve app0 [second_visit])) snapshot.
Proof.
  assert (sights [first_visit] app0 = sights [second_visit] app0) as Hs by (vm_compute; reflexivity).
  refine (conj Hs (conj _ _)); [vm_compute; discriminate|].
  exact (proj1 (globe_shows_only_sights [first_visit] [second_visit] app0 app0 Globe.DemoGlobe.demo_globe snapshot 0 10 eq_refl Hs)).
Defined.
End witness.
