(* ===== verification/System.v ===== *)
(** * System: the proxy, the admin server and the globe on one state

    [AppState] of [app_state.hpp] as all parts of the program share it, and
    the program as a pool of threads over it: one for each connection to the
    proxy, request to the admin server, connection to the public globe and
    round of the background threads. Proxy requests interleave at the calls
    of the trackers and histories ([Concurrent]), requests to the
    authentication handlers of the admin server at the calls of their stores
    ([AdminSteps]). Any other admin request is two steps, the session gate and
    the handler, for its body is read between them. *)
From S2P Require Import Prelude Text Net Config Checks Json Totp Passwords Users EventLogs Cbor Webauthn.
From S2P Require Import Session GeoIp Interleave Concurrent AdminBase AdminAuth AdminLogin AdminConfig AdminSteps.
From S2P Require Admin Globe Files ConfigStore RequestLog IpBlocks ScoreTracker RateTracker.

(** ** The shared state *)

Section world.
Context `{Mmdb : MaxMindDb}.

(** [server] holds what the admin server works on, the histories and the bans
    among it; the rest is what only the proxy, or only the globe, uses. *)
Record World := mkWorld {
  server : AdminState;
  w_scores : ScoreTracker.ScoreTracker;
  w_rates : RateTracker.RequestRateTracker;
  geoip : Service;
  asn : Service;
  server_location : option GeoLocation }.

Definition config (w : World) : RuntimeConfig := config_of (server w).

(** The part of the state that the proxy works on. *)
Definition proxy_of (w : World) : Session.AppState :=
  mkApp (w_scores w) (AdminBase.ip_blocks (server w)) (w_rates w) (AdminBase.request_log (server w))
    (AdminBase.globe_events (server w)).

Definition with_histories (s : Session.AppState) (a : AdminState) : AdminState :=
  mkState (config_store a) (users a) (sessions a) (pending_mfa a) (pending_totp a) (webauthn_challenges a)
    (login_history a) (Session.ip_blocks s) (Session.request_log s) (Session.globe_events s).

Definition with_proxy (s : Session.AppState) (w : World) : World :=
  mkWorld (with_histories s (server w)) (scores s) (rate_tracker s) (geoip w) (asn w) (server_location w).

Definition with_server (a : AdminState) (w : World) : World :=
  mkWorld a (w_scores w) (w_rates w) (geoip w) (asn w) (server_location w).

Definition on_proxy (X : Type) (m : M Session.AppState X) : M World X := fun w =>
  let '(s, r) := m (proxy_of w) in (with_proxy s w, r).
Definition reads {X} (f : World -> X) : M World X := fun w => (w, Ok (f w)).

Lemma proxy_of_with s w : proxy_of (with_proxy s w) = s.
Proof. by destruct s. Qed.

(** ** The background threads *)

(** The writer of the request log. *)
Inductive log_chore := LogOpen | LogOpenFails | LogWake | LogWrite | LogExit.

Definition log_step (c : log_chore) (l : RequestLog.RequestLog) : RequestLog.RequestLog :=
  match c, RequestLog.writer l with
  | LogOpen, Some RequestLog.WriterOpening => RequestLog.open_file l
  | LogOpenFails, Some RequestLog.WriterOpening => RequestLog.set_writer RequestLog.WriterFailed l
  | LogWake, Some RequestLog.WriterWaiting =>
      match RequestLog.write_queue_ l with [] => l | _ => RequestLog.take_queue l end
  | LogWrite, Some (RequestLog.WriterWriting batches) => RequestLog.write_batches batches l
  | LogExit, Some RequestLog.WriterWaiting =>
      match RequestLog.write_queue_ l with
      | [] => if RequestLog.stop_ l then RequestLog.set_writer RequestLog.WriterExited l else l
      | _ => l
      end
  | _, _ => l
  end.

(** The writer of the configuration and the poll for edits of its file; the
    events of [update] belong to the admin's requests. *)
Definition background (e : ConfigStore.event (C := RuntimeConfig)) : bool :=
  match e with ConfigStore.EUpdateCopy _ | ConfigStore.EUpdatePublish | ConfigStore.EUpdateQueue => false | _ => true end.

Inductive chore :=
  | ConfigChore (e : ConfigStore.event (C := RuntimeConfig))
  | LogChore (c : log_chore)
  | SetLocation (l : GeoLocation).

Definition on_store (f : ConfigStore.ConfigStore -> ConfigStore.ConfigStore) (a : AdminState) : AdminState :=
  mkState (f (config_store a)) (users a) (sessions a) (pending_mfa a) (pending_totp a) (webauthn_challenges a)
    (login_history a) (AdminBase.ip_blocks a) (AdminBase.request_log a) (AdminBase.globe_events a).
Definition on_log (f : RequestLog.RequestLog -> RequestLog.RequestLog) (a : AdminState) : AdminState :=
  mkState (config_store a) (users a) (sessions a) (pending_mfa a) (pending_totp a) (webauthn_challenges a)
    (login_history a) (AdminBase.ip_blocks a) (f (AdminBase.request_log a)) (AdminBase.globe_events a).

Definition do_chore (c : chore) : M World unit := fun w =>
  (match c with
   | ConfigChore e =>
       if background e
       then with_server (on_store (fun st => default st (ConfigStore.step e st)) (server w)) w else w
   | LogChore c => with_server (on_log (log_step c) (server w)) w
   | SetLocation l => mkWorld (server w) (w_scores w) (w_rates w) (geoip w) (asn w) (Some l)
   end, Ok tt).

(** ** The threads *)

Inductive Result :=
  | Proxied (log : list (RuntimeConfig * Session.Served))
  | Administered (served : list Admin.Served)
  | Watched (served : list Globe.GlobeServed)
  | Done.

Context `{Asio : AsioIp} `{Kdf : Pbkdf2} `{Hmac : HmacSha1} `{Sha : Sha256} `{Lib : LibCbor} `{E : Evp} `{J : JsonText}.
Context `{Fs : Files.StaticFiles.FileSystem}.

(** Where the globe's handlers find what they show. *)
Definition globe_state (path_of : str -> list (list ascii)) (contents : list (list ascii) -> str) (w : World)
  : Globe.GlobeState :=
  Globe.mkGlobeState (static_dir (admin (config w))) (AdminBase.globe_events (server w)) (server_location w)
    (Some (loaded (geoip w))) path_of contents.

(** The loop of a connection to the public globe. *)
Fixpoint globe_steps (state : World -> Globe.GlobeState) (xs : list (option Globe.GlobeRequest))
  : prog World (list Globe.GlobeServed) :=
  match xs with
  | [] | None :: _ => mret []
  | Some request :: rest =>
      if (Globe.g_method request == lit "GET") && (Globe.g_target request == lit "/globe/stream")
      then mret [Globe.GStream]
      else
        answer ← act (reads (fun w => Globe.route (state w) request));
        match answer with
        | Throw e => mret []
        | Ok response =>
            if Globe.g_keep_alive request
            then more ← globe_steps state rest; mret (Globe.GAnswered response :: more)
            else mret [Globe.GAnswered response]
        end
  end.

(** The loop of a connection to the admin server. The gate looks at the header;
    by the time the body has been read the state may be another one. *)
Definition env_in (env : Env) (w : World) : Env :=
  mkEnv (t_gate env) (t_pending env) (t_challenge env) (t_verify env) (t_create env) (t_record env) (t_data env)
    (t_list env) (rnd_token env) (rnd_challenge env) (rnd_login_token env) (rnd_secret env) (rnd_salt env)
    (rnd_salts env) (rnd_codes env) (rnd_handle env) (users_written env) (network env) (upload_saved env)
    (config_dir env) (loaded (geoip w)) (loaded (asn w)) (server_location w) (path_of env) (file_contents env).

Definition handle_in (env : Env) (request : AdminRequest) (user ip : str) (keep : bool) : M World (outcome Admin.Served) :=
  fun w =>
    let '(a, served) := Admin.handle_request (env_in env w) request user ip keep (server w) in
    (with_server a w, Ok served).

Definition on_server (X : Type) (m : M AdminState X) : M World X := fun w =>
  let '(a, r) := m (server w) in (with_server a w, r).

Definition answered (keep : bool) (o : outcome Response) : outcome Admin.Served :=
  match o with Ok r => Ok (Admin.Answered r keep) | Throw e => Throw e end.

(** What follows the reading of the body. *)
Definition request_steps (env : Env) (request : AdminRequest) (user ip : str) (keep : bool)
    : prog World (outcome Admin.Served) :=
  match pick (auth_steps env request user ip) with
  | Some p => answer ← try_prog (hoist on_server p); mret (answered keep answer)
  | None => act (handle_in env request user ip keep)
  end.

Fixpoint admin_steps (ip : str) (xs : list (Env * Admin.AdminExchange)) : prog World (list Admin.Served) :=
  match xs with
  | [] => mret []
  | (env, x) :: rest =>
      gate ← act (reads (fun w => Admin.session_gate env (Admin.x_header x) (server w)));
      match gate with
      | Admin.Rejected response => mret [Admin.Answered response false]
      | Admin.Passed user =>
          match Admin.x_read x (Admin.body_limit (Admin.x_header x)) with
          | None => mret [Admin.ReadFailed]
          | Some (body, keep) =>
              served ← request_steps env (mkAdminRequest (Admin.x_header x) body) user ip keep;
              match served with
              | Throw e => mret []
              | Ok (Admin.Answered r true) => more ← admin_steps ip rest; mret (Admin.Answered r true :: more)
              | Ok last => mret [last]
              end
          end
      end
  end.

(** The address that a login is recorded with. *)
Definition admin_client_text (remote : option address) : str :=
  match remote with Some a => to_string a | None => "unknown" end.

(** Who comes: a connection to the proxy (the address of its socket, the
    listener, its requests), to the admin server or to the globe, or a round of a background thread. *)
Inductive client :=
  | Visitor (remote : option address) (label : str) (xs : list Exchange)
  | Operator (remote : option address) (xs : list (Env * Admin.AdminExchange))
  | Onlooker (path_of : str -> list (list ascii)) (contents : list (list ascii) -> str)
      (xs : list (option Globe.GlobeRequest))
  | Background (c : chore).

(** An event stream ends the thread: what it sends is [EventLogs]. *)
Definition program_of (c : client) : prog World Result :=
  match c with
  | Visitor remote label xs =>
      match Globe.client_address_of remote with
      | None => Raise (InvalidArgument "make_address")
      | Some ip =>
          conn ← act (reads (fun w => connect (geoip w) (asn w) ip label));
          log ← session_steps config on_proxy conn xs;
          mret (Proxied log)
      end
  | Operator remote xs =>
      served ← admin_steps (admin_client_text remote) xs; mret (Administered served)
  | Onlooker path_of contents xs =>
      served ← globe_steps (globe_state path_of contents) xs; mret (Watched served)
  | Background c => _ ← act (do_chore c); mret Done
  end.

(** ** Runs *)

Inductive event :=
  | Arrives (c : client)
  | Goes (i : nat).

Definition move_of (e : event) : move World Result :=
  match e with Arrives c => Spawn (program_of c) | Goes i => Run i end.

Definition arrivals (es : list event) : list client := omap (fun e => match e with Arrives c => Some c | Goes _ => None end) es.

(** From [w], with no thread running. *)
Definition run_system (w : World) (es : list event) : World * list (prog World Result) :=
  schedule (w, []) (map move_of es).

Lemma spawned_arrivals es : spawned (map move_of es) = map program_of (arrivals es).
Proof. induction es as [|[c|i] es IH]; cbn; [done|by f_equal|done]. Qed.

(** The states before each event of a run. *)
Definition worlds (w : World) (es : list event) : list World := past (w, []) (map move_of es).

(** A system whose threads all keep an invariant but in some states keeps it
    unless it goes through such a state, and every thread that ends has the
    result promised for its client. *)
Lemma run_system_safe_unless (I bad : World -> Prop) (Q : client -> Result -> Prop) w es :
  I w -> Forall (fun c => safe_unless I bad (Q c) (program_of c)) (arrivals es) ->
  Exists bad (worlds w es) \/
  (I (run_system w es).1 /\
   forall i c r, arrivals es !! i = Some c -> (run_system w es).2 !! i = Some (Ret r) -> Q c r).
Proof.
  intros HI Hc. unfold run_system, worlds.
  destruct (schedule_safe_unless I bad (w, []) (map move_of es) [] (map Q (arrivals es))) as [Hb|[HI' Hs]]; [done|done| |by left|].
  { rewrite spawned_arrivals. rewrite Forall2_fmap. apply Forall_Forall2_diag. exact Hc. }
  right. split; [done|]. intros i c r Hi Hr. cbn [app] in Hs.
  destruct (Forall2_lookup_r _ _ _ _ _ Hs Hr) as (q & Hq & Hsafe).
  rewrite list_lookup_fmap, Hi in Hq. by injection Hq as <-.
Qed.

Lemma run_system_safe (I : World -> Prop) (Q : client -> Result -> Prop) w es :
  I w -> Forall (fun c => safe I (Q c) (program_of c)) (arrivals es) ->
  I (run_system w es).1 /\
  forall i c r, arrivals es !! i = Some c -> (run_system w es).2 !! i = Some (Ret r) -> Q c r.
Proof.
  intros HI Hc. destruct (run_system_safe_unless I (fun _ => False) Q w es) as [Hb|H]; [done| | |exact H].
  - eapply Forall_impl; [exact Hc|]. intros c. apply safe_safe_unless.
  - by apply Exists_exists in Hb as (? & _ & []).
Qed.

(** A request that nothing interrupts is [Admin.handle_request]. *)
Lemma run_request_steps env request user ip keep w :
  run (request_steps env request user ip keep) w = handle_in env request user ip keep w.
Proof.
  unfold request_steps.
  pose proof (picked_row _ _ (Admin.config_routes (env_in env w) request ++ Admin.list_routes (env_in env w) request user)
    (mret (error_response 405 "method not allowed")) (auth_steps_alone env request user ip)) as Hrow.
  destruct (pick _) as [p|]; [|by rewrite run_act]. destruct Hrow as [Hrow Hex].
  destruct (auth_guards_apart _ _ _ _ Hex) as (H1 & H2 & H3).
  rewrite run_bind, run_try, (run_hoist on_server server with_server) by (intros; by repeat match goal with w : World |- _ => destruct w end).
  unfold handle_in, Admin.handle_request. cbv zeta. rewrite H1, H2.
  assert (forall rows otherwise, Forall (fun row => row.1 = false) rows -> Admin.dispatch rows otherwise = otherwise) as Hskip.
  { intros rows o. induction 1 as [|[g m] rows Hg _ IH]; [done|]. cbn in Hg. by subst g. }
  rewrite Hskip by exact H3. rewrite bind_runs. change (Admin.route (env_in env w) request user ip (server w)) with
    (Admin.dispatch (Admin.auth_routes env request user ip ++ Admin.config_routes (env_in env w) request ++
       Admin.list_routes (env_in env w) request user) (mret (error_response 405 "method not allowed")) (server w)).
  rewrite Hrow. by destruct (run p (server w)) as [a [r|e]].
Qed.

(** A connection to the admin server that nothing interrupts is
    [Admin.handle_connection]. *)
Lemma run_admin_steps ip xs w :
  run (admin_steps ip xs) w =
  let '(a, served) := Admin.handle_connection ip (map (fun e => (env_in e.1 w, e.2)) xs) (server w) in
  (with_server a w, Ok served).
Proof.
  revert w. induction xs as [|[env x] rest IH]; intros w; [by destruct w|].
  cbn [admin_steps map Admin.handle_connection fst snd]. unfold Admin.handle_exchange. rewrite bind_get.
  change (Admin.session_gate (env_in env w) (Admin.x_header x) (server w)) with (Admin.session_gate env (Admin.x_header x) (server w)).
  rewrite run_bind, run_act. unfold reads. destruct (Admin.session_gate env (Admin.x_header x) (server w)) as [r|user]; [by destruct w|].
  destruct (Admin.x_read x _) as [[body keep]|]; [|by destruct w].
  rewrite run_bind, run_request_steps. unfold handle_in.
  destruct (Admin.handle_request _ _ _ _ _ (server w)) as [a [[r [|]| | |]|e]]; try done.
  rewrite run_bind, IH. cbn [with_server server].
  change (map (fun e => (env_in e.1 (with_server a w), e.2)) rest) with (map (fun e => (env_in e.1 w, e.2)) rest).
  by destruct (Admin.handle_connection _ _ _) as [a' served].
Qed.

(** *** Lifting what is known about the proxy's steps *)

Lemma safe_hoist {A} (I : World -> Prop) (Jp : Session.AppState -> Prop) (Q : A -> Prop) p :
  (forall w, I w -> Jp (proxy_of w)) -> (forall w s, I w -> Jp s -> I (with_proxy s w)) ->
  safe Jp Q p -> safe I Q (hoist on_proxy p).
Proof.
  intros H1 H2. induction p as [a|e|X op k IH]; [done..|]. intros H w Hw.
  destruct (H (proxy_of w) (H1 w Hw)) as [HJ Hk]. unfold on_proxy. destruct (op (proxy_of w)) as [s r]. cbn [fst snd] in *.
  split; [by apply H2|]. intros x Hx. by apply IH, Hk.
Qed.

(** An invariant that every request to the admin server keeps. *)
Definition sends (x : Admin.AdminExchange) (request : AdminRequest) : Prop :=
  rq_header request = Admin.x_header x /\
  exists keep, Admin.x_read x (Admin.body_limit (Admin.x_header x)) = Some (rq_body request, keep).

Lemma handle_in_elim (P : World -> Prop) env request user ip keep w :
  P (with_server (Admin.handle_request (env_in env w) request user ip keep (server w)).1 w) ->
  P (handle_in env request user ip keep w).1.
Proof. unfold handle_in. by destruct (Admin.handle_request _ _ _ _ _ _). Qed.

(** What every step of an authentication handler keeps. *)
Definition steps_keep (I : World -> Prop) (p : prog AdminState Response) : Prop :=
  steps_by (fun s s' => forall w, I (with_server s w) -> I (with_server s' w)) p.

Lemma picked_row_in {A} (P : A -> Prop) (rows : list (bool * A)) p :
  Forall (fun row => row.1 = true -> P row.2) rows -> pick rows = Some p -> P p.
Proof. induction 1 as [|[[] q] rows Hq _ IH]; cbn; [done|by intros [= <-]; apply Hq|done]. Qed.

Lemma safe_request (I : World -> Prop) env request user ip keep :
  (forall w, I w -> I (with_server (Admin.handle_request (env_in env w) request user ip keep (server w)).1 w)) ->
  Forall (fun row => row.1 = true -> steps_keep I row.2) (auth_steps env request user ip) ->
  safe I (fun _ => True) (request_steps env request user ip keep).
Proof.
  intros Hh Hs. unfold request_steps. destruct (pick _) as [p|] eqn:Hp.
  - apply safe_bind. apply (safe_steps I (fun w w' => I w -> I w')); [by auto|]. apply steps_by_try.
    eapply steps_by_hoist; [|exact (picked_row_in _ _ _ Hs Hp)]. intros X op w Hop Hw. unfold on_server.
    specialize (Hop (server w) w). destruct (op (server w)) as [a r]. apply Hop. by destruct w.
  - apply safe_act. intros w Hw. split; [by apply handle_in_elim, Hh|done].
Qed.

Lemma safe_admin (I : World -> Prop) ip xs :
  (forall env x request user keep w, (env, x) ∈ xs -> sends x request -> I w ->
     I (with_server (Admin.handle_request (env_in env w) request user ip keep (server w)).1 w)) ->
  (forall env x request user, (env, x) ∈ xs -> sends x request ->
     Forall (fun row => row.1 = true -> steps_keep I row.2) (auth_steps env request user ip)) ->
  safe I (fun _ => True) (admin_steps ip xs).
Proof.
  induction xs as [|[env x] rest IH]; intros H Hs; [done|]. cbn [admin_steps].
  apply safe_bind, safe_act. intros w Hw. split; [done|]. intros [response|user] _; [done|].
  destruct (Admin.x_read x _) as [[body keep]|] eqn:Hx; [|done].
  assert (sends x (mkAdminRequest (Admin.x_header x) body)) as Hsends by (split; [done|by exists keep]).
  apply safe_bind. eapply safe_mono; [|apply safe_request; [intros; eapply H; [by left|done|done]|eapply Hs; [by left|done]]].
  intros served _. destruct served as [[r [|]| | |]|e]; try done. apply safe_bind.
  eapply safe_mono; [|apply IH; [intros; eapply H; [by right|done|done]|intros; eapply Hs; [by right|done]]]. done.
Qed.

Lemma safe_session (I : World -> Prop) conn xs (Q : Exchange -> RuntimeConfig -> Session.Served -> Prop) :
  (forall x c w, x ∈ xs -> I w -> c = config w ->
     safe I (Q x c) (hoist on_proxy (handle_request_steps conn c x))) ->
  safe I (fun log => Forall2 (fun x r => Q x r.1 r.2) (take (length log) xs) log) (session_steps config on_proxy conn xs).
Proof.
  induction xs as [|x xs IH]; intros H; [by constructor|]. cbn [session_steps].
  apply safe_bind, safe_act. intros w Hw. split; [done|]. intros c [= <-].
  apply safe_bind. eapply safe_mono; [|apply (H x (config w) w); [by left|done|done]].
  intros served HQ. destruct (next served); [|cbn; by constructor..].
  apply safe_bind. eapply safe_mono; [|apply IH; intros; apply (H _ _ w0); [by right|done|done]].
  intros log Hlog. cbn. by constructor.
Qed.
End world.
