(* ===== verification/Program.v ===== *)
(** * Program: start-up

    Models [main] of [main.cpp] and what the four servers check before they
    accept ([run_http_listener], [run_tls_listener], [run_admin_server],
    [run_globe_server]): the services built from the configuration, which
    servers run, and how the program ends when it cannot start. Files, sockets
    and certificates are inputs ([Machine]). *)
From S2P Require Import Prelude Text Net Config Yaml YamlConfig YamlUsers TlsSites Users EventLogs.
From S2P Require Import Session GeoIp AdminBase System.
From S2P Require Admin Globe Files ConfigStore RequestLog IpBlocks ScoreTracker RateTracker.
From S2P Require Import AdminConfig.

(** ** Paths *)

(** [path.parent_path()]: the text before the last name and the slashes in
    front of it, the root its own parent. *)
Fixpoint drop_name (reversed : str) : str :=
  match reversed with
  | [] => []
  | c :: rest => if c == "/"%char then reversed else drop_name rest
  end.
Fixpoint drop_slashes (reversed : str) : str :=
  match reversed with
  | c :: rest => if c == "/"%char then drop_slashes rest else reversed
  | [] => []
  end.
Definition parent_path (p : str) : str :=
  let dir := drop_name (rev p) in
  match drop_slashes dir with [] => match dir with [] => [] | _ => lit "/" end | kept => rev kept end.

Definition default_config_path : str := "config/atomwall.yaml".
Definition users_path (config_path : str) : str := path_join (parent_path config_path) "users.yaml".

(** ** Start-up *)

Section program.
Context `{Mmdb : MaxMindDb} `{Y : Yaml} `{Asio : AsioIp} `{Tls : TlsFiles}.

(** The machine the program starts on: the text of its files, the result of
    writing one, the certificates as the disk has them, whether an address
    and port can be bound, the time of the configuration file, and the clock
    the codec reads. *)
Record Machine := mkMachine {
  file_text : str -> option (list ascii);
  file_written : str -> outcome unit;
  at_start : disk;
  can_bind : address -> Z -> bool;
  config_mtime : Z;
  codec_clock : str -> nat -> time_point }.

Inductive Listener := HttpListener | TlsListener | AdminServer | GlobeServer.
#[export] Instance Listener_eq_dec : EqDecision Listener.
Proof. solve_decision. Defined.

(** [if (config->...enabled) co_spawn(...)], in order. *)
Definition enabled_listeners (config : RuntimeConfig) : list Listener :=
  (if http_enabled (http config) then [HttpListener] else []) ++
  (if https_enabled (https config) then [TlsListener] else []) ++
  (if admin_enabled (admin config) then [AdminServer] else []) ++
  (if public_enabled (globe config) then [GlobeServer] else []).

Definition bind_to (m : Machine) (a : address) (port : Z) : outcome unit :=
  if can_bind m a port then Ok tt else Throw (RuntimeError "bind").

(** [make_address] without an error code throws. *)
Definition address_or_throw (host : str) : outcome address :=
  match make_address host with Some a => Ok a | None => Throw (RuntimeError "make_address") end.

(** What each server does before it accepts: whether it serves TLS, or what
    it throws. *)
Definition server_context (m : Machine) (cert key : str) : outcome bool :=
  _ ← make_tls_server_context (at_start m) (at_start m) cert key; mret true.

Definition run_http_listener (m : Machine) (config : RuntimeConfig) : outcome bool :=
  a ← address_or_throw (http_bind_host (http config));
  _ ← bind_to m a (http_port (http config));
  mret false.

Definition run_tls_listener (m : Machine) (config : RuntimeConfig) : outcome bool :=
  tls ← server_context m (https_cert_file (https config)) (https_key_file (https config));
  a ← address_or_throw (https_bind_host (https config));
  _ ← bind_to m a (https_port (https config));
  mret tls.

Definition run_admin_server (m : Machine) (config : RuntimeConfig) : outcome bool :=
  use_tls ← Admin.admin_may_start config;
  a ← address_or_throw (admin_bind_host (admin config));
  _ ← bind_to m a (admin_port (admin config));
  if (use_tls : bool) then server_context m (tls_cert_file (admin config)) (tls_key_file (admin config)) else mret false.

Definition run_globe_server (m : Machine) (config : RuntimeConfig) : outcome bool :=
  use_tls ← Globe.globe_may_start config;
  a ← address_or_throw (public_bind_host (globe config));
  _ ← bind_to m a (public_port (globe config));
  if (use_tls : bool) then server_context m (public_tls_cert_file (globe config)) (public_tls_key_file (globe config))
  else mret false.

Definition start_listener (m : Machine) (config : RuntimeConfig) (l : Listener) : outcome bool :=
  match l with
  | HttpListener => run_http_listener m config
  | TlsListener => run_tls_listener m config
  | AdminServer => run_admin_server m config
  | GlobeServer => run_globe_server m config
  end.

(** [fatal_on_error]: a server that throws ends the program. *)
Fixpoint start_all (m : Machine) (config : RuntimeConfig) (ls : list Listener) : outcome (list (Listener * bool)) :=
  match ls with
  | [] => mret []
  | l :: ls' => tls ← start_listener m config l; rest ← start_all m config ls'; mret ((l, tls) :: rest)
  end.

(** The state of a freshly started program. *)
Definition initial_world (m : Machine) (config : RuntimeConfig) (accounts : UserStore) : World :=
  let log_path := if rl_enabled (Config.request_log config) then csv_path (Config.request_log config) else [] in
  mkWorld
    (mkState (ConfigStore.init config (config_mtime m)) accounts ∅ ∅ ∅ Tokens.Challenges.challenges_init
       (ring_init 200) (IpBlocks.blocks_init ns_per_min)
       (RequestLog.log_init 5000 log_path (default [] (file_text m log_path)))
       (ring_init (Z.to_nat (history_size (globe config)))))
    (ScoreTracker.score_init ScoreTracker.kDefaultMaxTrackedIps) RateTracker.rate_init
    (GeoIpService (mmdb_path (Config.geoip config))) (AsnService (asn_mmdb_path (Config.geoip config))) None.

(** How [main] goes on: it returns a code, an exception escapes it (of the
    file of accounts), or it serves. *)
Inductive started :=
  | Returns (code : Z)
  | Terminates (e : exn)
  | Serves (w : World) (servers : list (Listener * bool)).

Definition main (m : Machine) (arguments : list (list ascii)) : started :=
  let config_path := default default_config_path (arguments !! 1%nat) in
  match load_or_create (codec_clock m) (file_text m config_path) (file_written m config_path) with
  | Throw e => Returns 1
  | Ok (_, config) =>
      match load_document (file_text m (users_path config_path)) users_init with
      | (_, Throw e) => Terminates e
      | (accounts, Ok _) =>
          match start_all m config (enabled_listeners config) with
          | Throw e => Returns 1
          | Ok servers => Serves (initial_world m config accounts) servers
          end
      end
  end.


(** ** What runs, and with what *)




End program.

(** ** A first start *)

Module DemoProgram.
#[local] Existing Instances DemoYaml.demo_yaml DemoTls.demo_files DemoDb.demo_db text_asio.

(** No file at all: the defaults are written and loaded. *)
Definition fresh_machine (bindable : bool) : Machine := {|
  file_text _ := None; file_written _ := Ok tt; at_start := {[ lit "certs/dev.crt" := (1, 10); lit "certs/dev.key" := (1, 11) ]}; can_bind _ _ := bindable;
  config_mtime := 0; codec_clock _ _ := 0 |}.

Definition servers_of (s : started) : option (list (Listener * bool)) :=
  match s with Serves _ servers => Some servers | _ => None end.

Example first_start :
  servers_of (main (fresh_machine true) [lit "atomwall"]) = Some [(HttpListener, false); (TlsListener, true); (AdminServer, false)] /\
  main (fresh_machine false) [lit "atomwall"] = Returns 1 /\
  users_path "config/atomwall.yaml" = lit "config/users.yaml" /\ users_path "atomwall.yaml" = lit "users.yaml" /\
  users_path "/atomwall.yaml" = lit "/users.yaml".
Proof. by vm_compute. Qed.
End DemoProgram.
