(* ===== verification/SystemDemo.v ===== *)
(** * SystemDemo: a small system for the witnesses

    The operator of [AdminDemo], logged in, next to a proxy that bans for 24
    hours whoever calls as a bad bot; no databases. *)
From S2P Require Import Prelude Text Net Config Checks Json Totp Passwords Users EventLogs Cbor Webauthn.
From S2P Require Import Session GeoIp Interleave Concurrent AdminBase Admin System.
From S2P Require Export AdminDemo.
From S2P Require Files ConfigStore RequestLog IpBlocks ScoreTracker RateTracker.

#[local] Existing Instance DemoDb.demo_db.

Definition banned_ip : address := addr_v4 [203; 0; 113; 7].

(** What the operator sends: a ban of ten years, or the emergency switch. *)
Definition orders : JsonText := {|
  json_parse text :=
    if text == lit "ban" then Some (JObj [(lit "value", JStr "203.0.113.7"); (lit "duration_hours", JInt 87600)])
    else if text == lit "off" then Some (JObj [(lit "enabled", JBool true)])
    else None |}.

#[local] Existing Instance orders.

Definition demo_world : World :=
  mkWorld (on_store (fun _ => ConfigStore.init strict_config 0) admin_state)
    (ScoreTracker.score_init 10) RateTracker.rate_init (GeoIpService []) (AsnService []) None.

Definition operator_exchange (method target body : string) : AdminExchange :=
  demo_exchange method target "atomwall_session=09" body.
Definition ban_request : AdminExchange := operator_exchange "POST" "/api/blacklist/ips" "ban".
Definition sent_by (x : AdminExchange) : AdminRequest :=
  mkAdminRequest (x_header x) (match x_read x (body_limit (x_header x)) with Some (body, _) => body | None => [] end).
Definition operator (x : AdminExchange) : client := Operator (Some (addr_v4 [127; 0; 0; 1])) [(demo_env [1], x)].
Definition caller (agent : str) : client := Visitor (Some banned_ip) "http" [visit agent demo_now].

Definition blocked_in (w : World) (hours : Z) : bool :=
  IpBlocks.is_blocked (demo_now + hours * ns_per_hour) banned_ip (AdminBase.ip_blocks (server w)).
