(* ===== verification/SystemLog.v ===== *)
(** * SystemLog: every answer is accounted for, and no thread waits

    What holds of all runs of [System] whatever their schedule: the request log
    is a shuffle of what each connection did, one event for an answer; and each
    thread needs a bounded number of its own steps. *)
From S2P Require Import Prelude Text Net Config Checks Json Totp Passwords Users EventLogs Cbor Webauthn.
From S2P Require Import Session GeoIp Interleave Concurrent AdminBase AdminAuth AdminLogin AdminConfig AdminSteps System SystemDemo.
From S2P Require Admin Globe Files ConfigStore RequestLog IpBlocks ScoreTracker RateTracker.
Import Admin.

Section log.
Context `{Mmdb : MaxMindDb}.
Context `{Asio : AsioIp} `{Kdf : Pbkdf2} `{Hmac : HmacSha1} `{Sha : Sha256} `{Lib : LibCbor} `{E : Evp} `{J : JsonText}.
Context `{Fs : Files.StaticFiles.FileSystem}.

(** ** The admin server does not write the request log *)

Definition same_histories (s s' : AdminState) : Prop :=
  AdminBase.request_log s' = AdminBase.request_log s /\ AdminBase.globe_events s' = AdminBase.globe_events s.
#[local] Instance same_histories_preorder : PreOrder same_histories.
Proof. split; [done|]. intros a b c [] []. split; congruence. Qed.

Lemma histories_rows env request user ip s :
  Forall (fun row => row.1 = true -> same_histories s (row.2 s).1)
    (import_routes env request user ++ routes env request user ip).
Proof. each_row. all: by_keeps. Qed.

Lemma request_histories env request user ip keep s : same_histories s (handle_request env request user ip keep s).1.
Proof. apply handle_request_elim; [done|]. apply histories_rows. Qed.

Lemma histories_steps env request user ip :
  Forall (fun row => row.1 = true -> steps_by same_histories row.2) (auth_steps env request user ip).
Proof. each_step_row. all: steps_to_keeps; keeps_handler. Qed.

(** ** What each thread adds to the request log *)

(** The events recorded between two states, as the ring holds them. *)
Definition adds (w : World) (es : list RequestEvent) (w' : World) : Prop := ring_adds (proxy_of w) es (proxy_of w').

Lemma adds_refl w : adds w [] w.
Proof. done. Qed.
Lemma adds_trans w1 es1 w2 es2 w3 : adds w1 es1 w2 -> adds w2 es2 w3 -> adds w1 (es1 ++ es2) w3.
Proof. unfold adds, ring_adds. intros H1 H2. by rewrite H2, H1, foldl_app. Qed.

(** The events of a connection, request by request. *)
Inductive accounted_for (ip : address) : list Exchange -> list (RuntimeConfig * Session.Served) -> list RequestEvent -> Prop :=
  | no_more xs : accounted_for ip xs [] []
  | one_more x xs c served log es es' :
      recorded ip x served es -> accounted_for ip xs log es' ->
      accounted_for ip (x :: xs) ((c, served) :: log) (es ++ es').

(** What a client's thread has added once it has ended. *)
Definition owes (c : client) (es : list RequestEvent) (r : option Result) : Prop :=
  match c, r with
  | Visitor remote _ xs, Some (Proxied log) =>
      exists ip, Globe.client_address_of remote = Some ip /\ accounted_for ip xs log es
  | Visitor _ _ _, _ => True
  | _, _ => es = []
  end.

Lemma emits_hoist {A} (P : list RequestEvent -> option A -> Prop) (p : prog Session.AppState A) acc :
  emits ring_adds P acc p -> emits adds P acc (hoist on_proxy p).
Proof.
  revert acc. induction p as [a|e|X op k IH]; intros acc; [done..|]. intros H w.
  destruct (H (proxy_of w)) as (es & Ha & Hr). exists es. unfold on_proxy. destruct (op (proxy_of w)) as [s r]. cbn [fst snd] in *.
  split; [unfold adds; by rewrite proxy_of_with|]. destruct r; [by apply IH|done].
Qed.

(** A step that records nothing. *)
Lemma emits_silent {A X} (P : list RequestEvent -> option A -> Prop) (op : M World X) (k : X -> prog World A) acc :
  (forall w, AdminBase.request_log (server (op w).1) = AdminBase.request_log (server w) \/
             RequestLog.ring (AdminBase.request_log (server (op w).1)) = RequestLog.ring (AdminBase.request_log (server w))) ->
  (forall es, es = acc -> P es None) -> (forall x, emits adds P acc (k x)) -> emits adds P acc (act op ≫= k).
Proof.
  intros Hq Hr Hk w. exists []. split.
  - unfold adds, ring_adds. cbn. by destruct (Hq w) as [->| ->].
  - rewrite app_nil_r. destruct (op w).2; [apply Hk|by apply Hr].
Qed.

Lemma emits_session conn xs acc (P : list RequestEvent -> option (list (RuntimeConfig * Session.Served)) -> Prop) :
  (forall es, P es None) ->
  (forall log es, accounted_for (client_ip conn) xs log es -> P (acc ++ es) (Some log)) ->
  emits adds P acc (session_steps config on_proxy conn xs).
Proof.
  revert acc P. induction xs as [|x xs IH]; intros acc P Hr HP.
  { cbn. rewrite <- (app_nil_r acc). apply HP. constructor. }
  cbn [session_steps]. apply emits_silent; [by left|auto|]. intros c.
  apply emits_bind, emits_hoist, emits_handle; [auto|]. intros served es Hes.
  assert (emits adds P (acc ++ es) (mret [(c, served)])) as Hlast.
  { cbn. rewrite <- (app_nil_r es). apply HP. constructor; [done|constructor]. }
  destruct (next served); [|exact Hlast..]. apply emits_bind, IH; [auto|]. intros log es' Hlog. cbn.
  rewrite <- app_assoc. apply HP. by constructor.
Qed.

Lemma emits_globe state xs (P : list RequestEvent -> option (list Globe.GlobeServed) -> Prop) acc :
  (forall r, P acc r) -> emits adds P acc (globe_steps state xs).
Proof.
  revert P. induction xs as [|[request|] xs IH]; intros P HP; cbn [globe_steps]; [apply HP| |apply HP].
  destruct (_ && _); [apply HP|]. apply emits_silent; [by left|intros; subst; apply HP|]. intros [response|e]; [|apply HP].
  destruct (Globe.g_keep_alive request); [|apply HP]. apply emits_bind, IH. intros [|]; apply HP.
Qed.

(** A step after which the log is the same. *)
Definition log_kept (w w' : World) : Prop := AdminBase.request_log (server w') = AdminBase.request_log (server w).

Lemma request_log_kept env request user ip keep : steps_by log_kept (request_steps env request user ip keep).
Proof.
  unfold request_steps. destruct (pick _) as [p|] eqn:Hp.
  - apply steps_by_bind; [|done]. apply steps_by_try. eapply steps_by_hoist; [|exact (picked_row_in _ _ _ (histories_steps _ _ _ _) Hp)].
    intros X op w Hop. unfold on_server, log_kept. destruct (Hop (server w)) as [Hl _]. by destruct (op (server w)).
  - apply steps_by_act. intros w. unfold log_kept. apply handle_in_elim. apply request_histories.
Qed.

Lemma emits_admin ip xs (P : list RequestEvent -> option (list Served) -> Prop) acc :
  (forall r, P acc r) -> emits adds P acc (admin_steps ip xs).
Proof.
  intros HP. apply (emits_steps _ _ log_kept); [|exact HP|].
  - intros w w' H. unfold adds, ring_adds, log_kept in *. cbn. by rewrite H.
  - induction xs as [|[env x] rest IH]; [done|]. cbn [admin_steps]. apply steps_by_bind; [by split|].
    intros [response|user]; [done|]. destruct (x_read x _) as [[body keep]|]; [|done].
    apply steps_by_bind; [apply request_log_kept|]. intros served.
    destruct served as [[r [|]| | |]|e]; try done. by apply steps_by_bind.
Qed.

Lemma log_step_ring c l : RequestLog.ring (log_step c l) = RequestLog.ring l.
Proof. unfold log_step. by repeat case_match. Qed.

Lemma emits_program c : emits adds (owes c) [] (program_of c).
Proof.
  destruct c as [remote label xs|remote xs|path_of contents xs|c]; cbn [program_of].
  - destruct (Globe.client_address_of remote) as [ip|] eqn:Hip; [|done].
    intros w. exists []. split; [done|]. cbn [reads snd app]. apply emits_bind, emits_session; [done|].
    intros log es Hes. by exists ip.
  - apply emits_bind, emits_admin. by intros [].
  - apply emits_bind, emits_globe. by intros [].
  - apply emits_silent; [|by intros|done]. intros w. unfold do_chore. destruct c as [e|c|l].
    + left. by destruct (background e).
    + right. apply log_step_ring.
    + by left.
Qed.

(** C8: In every interleaving of connections, admin requests and background
    threads, the request log is what it was followed by a shuffle of what the
    connections recorded; a connection that has ended recorded, request by
    request, one event for each answer it sent, with the status sent, for its
    own address and target, and nothing for a request it could not read. *)
Theorem every_connection_accounted w es :
  exists log parts,
    RequestLog.ring (AdminBase.request_log (server (run_system w es).1)) =
      foldl (fun r e => EventLogs.record e r) (RequestLog.ring (AdminBase.request_log (server w))) log /\
    log ≡ₚ concat parts /\ length parts = length (arrivals es) /\
    forall i c part r, arrivals es !! i = Some c -> parts !! i = Some part ->
      (run_system w es).2 !! i = Some (Ret r) -> owes c part (Some r).
Proof.
  destruct (schedule_emits adds adds_refl adds_trans (w, []) (map move_of es) [] (map owes (arrivals es)))
    as (log & accs & Hlog & Hf & Hm & Hperm); [done| |].
  { rewrite spawned_arrivals, Forall2_fmap. apply Forall_Forall2_diag, Forall_true. apply emits_program. }
  cbn in Hm, Hperm. exists log, (map snd accs). split_and!; [exact Hlog|done| |].
  - rewrite length_map, <- (length_map fst), Hm. apply length_map.
  - intros i c part r Hc Hp Hr.
    destruct (Forall2_lookup_r _ _ _ _ _ Hf Hr) as ([P acc] & Ha & Hacc). cbn in Hacc.
    change (map ?f ?l) with (f <$> l) in *. rewrite list_lookup_fmap, Ha in Hp. injection Hp as <-.
    apply (f_equal (.!! i)) in Hm. rewrite !list_lookup_fmap, Ha, Hc in Hm. injection Hm as ->. exact Hacc.
Qed.

(** ** No thread waits for another *)

Definition steps_needed (c : client) : nat :=
  match c with
  | Visitor _ _ xs => 1 + 8 * length xs
  | Operator _ xs => 11 * length xs
  | Onlooker _ _ xs => length xs
  | Background _ => 1
  end.

Lemma within_session {T} (get : T -> RuntimeConfig) f conn xs : within (8 * length xs) (session_steps get f conn xs).
Proof.
  induction xs as [|x xs IH]; [done|]. replace (8 * length (x :: xs))%nat with (1 + (7 + 8 * length xs))%nat by (cbn; lia).
  cbn [session_steps]. apply within_bind; [done|]. intros c. apply within_bind; [apply within_hoist, within_handle|].
  intros served. destruct (next served); try done. replace (8 * length xs)%nat with (8 * length xs + 0)%nat by lia.
  by apply within_bind.
Qed.

Lemma within_globe state xs : within (length xs) (globe_steps state xs).
Proof.
  induction xs as [|[request|] xs IH]; [done| |done]. cbn [globe_steps]. destruct (_ && _); [done|].
  change (length (Some request :: xs)) with (1 + length xs)%nat. apply within_bind; [done|]. intros [response|e]; [|done].
  destruct (Globe.g_keep_alive request); [|done]. replace (length xs) with (length xs + 0)%nat by lia. by apply within_bind.
Qed.

Lemma within_request env request user ip keep : within 10 (request_steps env request user ip keep).
Proof.
  unfold request_steps. destruct (pick _) as [p|] eqn:Hp; [|by apply (within_le 1); [lia|]].
  change 10%nat with (10 + 0)%nat. apply within_bind; [|done].
  apply within_try, within_hoist. exact (picked_row_in _ _ _ (auth_steps_within _ _ _ _) Hp).
Qed.

Lemma within_admin ip xs : within (11 * length xs) (admin_steps ip xs).
Proof.
  induction xs as [|[env x] rest IH]; [done|]. cbn [admin_steps].
  replace (11 * length ((env, x) :: rest))%nat with (1 + (10 + 11 * length rest))%nat by (cbn [length]; lia).
  apply within_bind; [done|]. intros [response|user]; [done|]. destruct (x_read x _) as [[body keep]|]; [|done].
  apply within_bind; [apply within_request|]. intros served. destruct served as [[r [|]| | |]|e]; try done.
  replace (11 * length rest)%nat with (11 * length rest + 0)%nat by lia. by apply within_bind.
Qed.

Lemma within_program c : within (steps_needed c) (program_of c).
Proof.
  destruct c as [remote label xs|remote xs|path_of contents xs|c]; cbn [program_of steps_needed].
  - destruct (Globe.client_address_of remote) as [ip|]; [|done]. apply within_bind; [done|]. intros conn.
    replace (8 * length xs)%nat with (8 * length xs + 0)%nat by lia. apply within_bind; [apply within_session|done].
  - replace (11 * length xs)%nat with (11 * length xs + 0)%nat by lia. apply within_bind; [apply within_admin|done].
  - replace (length xs) with (length xs + 0)%nat by lia. apply within_bind; [apply within_globe|done].
  - by change 1%nat with (1 + 0)%nat; apply within_bind.
Qed.

(** A client that arrived is done after a number of steps of its own that
    depends only on how many requests it sends. That a step itself does not
    wait is not a result but the model: a locked call is one step. *)
Theorem no_thread_waits w before c after :
  let i := length (arrivals before) in
  (steps_needed c <= moves_of i (map move_of after))%nat ->
  exists p, (run_system w (before ++ Arrives c :: after)).2 !! i = Some p /\ finished p = true.
Proof.
  intros i Hn. unfold run_system. rewrite map_app, schedule_app. cbn [map]. cbn [schedule foldl move_of].
  set (s1 := schedule (w, []) (map move_of before)).
  assert (length s1.2 = i) as Hi.
  { destruct (schedule_safe (fun _ => True) (w, []) (map move_of before) [] (map (fun _ _ => True) (arrivals before))) as [_ Hs];
      [done|done| |]; [|apply Forall2_length in Hs; cbn in Hs; fold s1 in Hs; by rewrite length_map in Hs].
    rewrite spawned_arrivals, Forall2_fmap. apply Forall_Forall2_diag, Forall_true. intros c'.
    generalize (program_of c'). intros p. induction p; cbn; auto. }
  destruct (schedule_within (make_move s1 (Spawn (program_of c))) (map move_of after) i (program_of c) (steps_needed c))
    as (p & Hp & Hw); [cbn; rewrite <- Hi; by rewrite lookup_app_r, Nat.sub_diag by lia|apply within_program|].
  exists p. split; [exact Hp|]. apply within_finished. by replace (steps_needed c - _)%nat with 0%nat in Hw by lia.
Qed.
End log.

(** ** Witness *)

#[local] Existing Instances DemoDb.demo_db orders.

(** Two callers whose steps alternate. *)
Definition alternating : list event := concat (replicate 9 [Goes 0; Goes 1]).

Lemma no_thread_waits_witness :
  exists p, (run_system demo_world ([Arrives (caller "firefox")] ++ Arrives (caller "BadBot/1.0") :: alternating)).2 !! 1%nat = Some p /\
    finished p = true.
Proof.
  apply (no_thread_waits demo_world [Arrives (caller "firefox")] (caller "BadBot/1.0") alternating).
  apply Nat.leb_le. vm_compute. reflexivity.
Defined.
