(* ===== verification/SystemSafety.v ===== *)
(** * SystemSafety: what an operator's decision does to the traffic

    The emergency switch and the bans, across the admin server and the proxy
    and in every interleaving: what is decided on one side holds on the other
    from then on. *)
From S2P Require Import Prelude Text Net Config Checks Json Totp Passwords Users EventLogs Cbor Webauthn Sites.
From S2P Require Import Session GeoIp Interleave Concurrent BlacklistOps AdminBase JsonView AdminAuth AdminLogin AdminConfig.
From S2P Require Import AdminSteps AdminValid System SystemDemo.
From S2P Require Admin Globe Files ConfigStore RequestLog IpBlocks ScoreTracker RateTracker.
Import Admin.

(** ** The emergency switch *)

Section emergency.
Context `{Asio : AsioIp}.

(** *** Only its own handler turns it *)

Definition same_switch (c c' : RuntimeConfig) : Prop := emergency_off c' = emergency_off c.
#[local] Instance same_switch_preorder : PreOrder same_switch.
Proof. split; [done|]. unfold same_switch. intros a b c H1 H2. congruence. Qed.
#[local] Existing Instance same_rest_preorder.

Lemma switch_mutate f : (forall c, same_switch c (f c)) -> keeps same_switch (mutate f).
Proof. intros Hf c. apply Hf. Qed.
Lemma switch_mutate_or_throw f : (forall c c', f c = Ok c' -> same_switch c c') -> keeps same_switch (mutate_or_throw f).
Proof. intros Hf c. unfold mutate_or_throw. destruct (f c) eqn:E; [by apply Hf|done]. Qed.
Lemma switch_assign {A} (field : option A) set : (forall v c, same_switch c (set v c)) -> keeps same_switch (assign field set).
Proof. intros Hs. destruct field; [by apply switch_mutate|apply keeps_ret; apply _]. Qed.
Lemma switch_assign_checked {A} (field : option A) bad msg set :
  (forall v c, same_switch c (set v c)) -> keeps same_switch (assign_checked field bad msg set).
Proof.
  intros Hs. destruct field as [v|]; [|apply keeps_ret; apply _]. cbn. destruct (bad v); [apply keeps_throw; apply _|].
  by apply switch_mutate.
Qed.
Lemma switch_coordinate v bound msg set : (forall d c, same_switch c (set d c)) -> keeps same_switch (assign_coordinate v bound msg set).
Proof.
  intros Hs. unfold assign_coordinate.
  repeat first [ case_match | apply switch_mutate; intros; apply Hs | apply keeps_ret; apply _ | apply keeps_throw; apply _ ].
Qed.

Lemma switch_ban b : keeps same_switch (ban_mutator b).
Proof.
  unfold ban_mutator. cbv zeta.
  repeat (apply (keeps_bind _); [first [ by apply switch_assign | by apply switch_assign_checked ]|intros _]).
  apply switch_assign. intros members. induction members as [|[name points] members IH]; intros c; [done|]. cbn [foldl].
  etransitivity; [|apply IH]. by destruct (number_of points).
Qed.
Lemma switch_speed b : keeps same_switch (speed_mutator b).
Proof.
  unfold speed_mutator. cbv zeta.
  repeat (apply (keeps_bind _); [first [ by apply switch_assign | by apply switch_assign_checked ]|intros _]).
  by apply switch_assign_checked.
Qed.
Lemma switch_methods b : keeps same_switch (method_mutator b).
Proof.
  unfold method_mutator. apply (keeps_bind _); [by apply switch_assign|intros _].
  destruct (jfind b _) as [[]|]; try (apply keeps_ret; apply _). intros c. unfold set_methods. cbv zeta. by destruct (_ && _).
Qed.
Lemma switch_globe b : keeps same_switch (globe_mutator b).
Proof.
  unfold globe_mutator. cbv zeta.
  repeat (apply (keeps_bind _); [first [ by apply switch_assign | by apply switch_assign_checked | by apply switch_coordinate ]|intros _]);
    [..|by apply switch_assign_checked].
Qed.

Lemma rest_switch c c' : same_rest c c' -> same_switch c c'.
Proof. by intros (_&_&_&_&_&_&?). Qed.
Lemma switch_add l now v by_ src : keeps same_switch (op_add l now v by_ src).
Proof. intros c. apply rest_switch, rest_add. Qed.
Lemma switch_import l clock text by_ : keeps same_switch (op_import l clock text by_).
Proof. intros c. rewrite op_import_lines. apply rest_switch, rest_import. Qed.
Lemma switch_remove_entry category v : keeps same_switch (remove_blacklist_entry category v).
Proof. intros c. by destruct category. Qed.
Lemma switch_clear_category category : keeps same_switch (clear_blacklist_category category).
Proof. intros c. by destruct category. Qed.

Lemma switch_add_site site : keeps same_switch (mutate_or_throw (fun c => add_site c site)).
Proof. apply switch_mutate_or_throw. intros c c'. unfold add_site. repeat case_match; by intros [= <-]. Qed.
Lemma switch_update_site d u : keeps same_switch (mutate_or_throw (fun c => update_site c d u)).
Proof. apply switch_mutate_or_throw. intros c c'. unfold update_site. repeat case_match; by intros [= <-]. Qed.
Lemma switch_remove_site d : keeps same_switch (mutate_or_throw (fun c => remove_site c d)).
Proof. apply switch_mutate_or_throw. intros c c'. unfold remove_site. repeat case_match; by intros [= <-]. Qed.
Lemma switch_add_page now n page : keeps same_switch (mutate_or_throw (fun c => add_status_page now c n page)).
Proof.
  apply switch_mutate_or_throw. intros c c'. unfold add_status_page, validate_code. destruct (_ || _); [done|]. cbn.
  repeat case_match; by intros [= <-].
Qed.
Lemma switch_update_page n page : keeps same_switch (mutate_or_throw (fun c => update_status_page c n page)).
Proof. apply switch_mutate_or_throw. intros c c'. unfold update_status_page. repeat case_match; by intros [= <-]. Qed.
Lemma switch_remove_page n : keeps same_switch (mutate_or_throw (fun c => remove_status_page c n)).
Proof. apply switch_mutate_or_throw. intros c c'. unfold remove_status_page. repeat case_match; by intros [= <-]. Qed.
End emergency.

Create HintDb switch.
#[export] Hint Resolve switch_ban switch_speed switch_methods switch_globe switch_remove_entry switch_clear_category
  switch_add_site switch_update_site switch_remove_site switch_add_page switch_update_page switch_remove_page : switch.

Section traffic.
Context `{Mmdb : MaxMindDb}.
Context `{Asio : AsioIp} `{Kdf : Pbkdf2} `{Hmac : HmacSha1} `{Sha : Sha256} `{Lib : LibCbor} `{E : Evp} `{J : JsonText}.
Context `{Fs : Files.StaticFiles.FileSystem}.

Definition switch_kept (s s' : AdminState) : Prop := same_switch (config_of s) (config_of s').
#[local] Instance switch_kept_preorder : PreOrder switch_kept.
Proof. split; [by intros s|]. unfold switch_kept, same_switch. intros a b c H1 H2. congruence. Qed.
#[local] Existing Instance same_switch_preorder.

Lemma on_config_switch {A} (m : M RuntimeConfig A) : keeps same_switch m -> keeps switch_kept (on_config m).
Proof.
  intros Hm s. specialize (Hm (config_of s)). unfold on_config, ConfigStore.update, switch_kept, config_of in *.
  destruct (m _) as [c [a|e]]; [exact Hm|done].
Qed.

Ltac switch_leaf :=
  first
  [ reflexivity
  | solve [auto with switch nocore]
  | apply (switch_add (LBlack _)) | apply (switch_add LWhiteIps) | apply (switch_add LWhiteRoutes)
  | apply (switch_import (LBlack _)) | apply (switch_import LWhiteIps) | apply (switch_import LWhiteRoutes)
  | (first [ apply switch_assign | apply switch_mutate ]; reflexivity) ].
Ltac switch_step :=
  lazymatch goal with
  | |- keeps same_switch _ => first [ switch_leaf | keeps_step ]
  | |- keeps _ (on_config _) => apply on_config_switch
  | |- _ => first [ keeps_step | config_step | frame_leaf ]
  end.

Definition turns_switch (h : request_header) : bool := on h "PUT" "/api/emergency-off".

Lemma switch_rows env request user ip s :
  turns_switch (rq_header request) = false ->
  Forall (fun row => row.1 = true -> switch_kept s (row.2 s).1)
    (import_routes env request user ++ routes env request user ip).
Proof.
  unfold turns_switch, on. intros Hno. each_row.
  all: first [ congruence | idtac ].
  all: lazymatch goal with |- ?R ?s (?m ?s).1 => cut (keeps R m); [intros Hk; exact (Hk s)|] end.
  all: autounfold with handlers; repeat switch_step.
Qed.

Lemma request_switch env request user ip keep s :
  turns_switch (rq_header request) = false -> switch_kept s (handle_request env request user ip keep s).1.
Proof. intros Hx. apply handle_request_elim; [done|]. by apply switch_rows. Qed.

Lemma switch_steps env request user ip :
  Forall (fun row => row.1 = true -> steps_by switch_kept row.2) (auth_steps env request user ip).
Proof. each_step_row. all: steps_to_keeps; autounfold with handlers; repeat switch_step. Qed.

(** *** The request that turns it *)

Lemma dispatch_skip g m rows otherwise : g = false -> dispatch ((g, m) :: rows) otherwise = dispatch rows otherwise.
Proof. by intros ->. Qed.
Lemma dispatch_take g m rows otherwise : g = true -> dispatch ((g, m) :: rows) otherwise = m.
Proof. by intros ->. Qed.

Lemma emergency_route env v find body user ip :
  let request := mkAdminRequest (mkHeader v "PUT" "/api/emergency-off" find) body in
  dispatch (import_routes env request user) (route env request user ip) = handle_emergency_off_update body.
Proof.
  cbv zeta. unfold route, import_routes, routes, auth_routes, config_routes. cbv zeta. cbn [app].
  repeat rewrite dispatch_skip by (vm_compute; reflexivity).
  by rewrite dispatch_take by (vm_compute; reflexivity).
Qed.

Lemma emergency_handler body enabled b s :
  parse_json_object body = Some b -> json_bool_field b "enabled" = Some enabled ->
  eo_enabled (emergency_off (config_of (handle_emergency_off_update body s).1)) = enabled /\
  exists r, (handle_emergency_off_update body s).2 = Ok r /\ status r = 200.
Proof. intros Hb He. unfold handle_emergency_off_update. rewrite Hb, He. cbn. split; [done|by eexists]. Qed.

(** [PUT /api/emergency-off], asking for the switch to be set to [enabled]. *)
Definition asks_switch (request : AdminRequest) (enabled : bool) : Prop :=
  turns_switch (rq_header request) = true /\
  exists b, parse_json_object (rq_body request) = Some b /\ json_bool_field b "enabled" = Some enabled.

Lemma emergency_request env request user ip keep enabled s s' o :
  asks_switch request enabled -> handle_request env request user ip keep s = (s', o) ->
  eo_enabled (emergency_off (config_of s')) = enabled /\ exists r, o = Ok (Answered r keep) /\ status r = 200.
Proof.
  intros (Hx & b & Hb & He). unfold handle_request. cbv zeta.
  unfold turns_switch, on in Hx. apply andb_true_iff in Hx as [Hm%bool_decide_eq_true Ht%bool_decide_eq_true].
  destruct request as [[v m t find] body]. cbn [method_string target rq_header rq_body] in *. subst m t.
  rewrite bool_decide_eq_false_2 by done. cbn [andb]. rewrite emergency_route.
  destruct (emergency_handler body enabled b s Hb He) as [Hon (r1 & Hr1 & Hst)].
  unfold mbind, M_bind. destruct (handle_emergency_off_update body s) as [s1 o1]. cbn [fst snd] in *. subst o1.
  intros [= <- <-]. split; [done|]. by exists r1.
Qed.

(** *** The traffic *)

Definition off_page : Session.Response := make_html_response kEmergencyOffHtml 503.

(** What else may happen meanwhile: anything but that an operator turns the
    switch again. *)
Definition leaves_switch (c : client) : Prop :=
  match c with Operator _ xs => Forall (fun e => turns_switch (x_header e.2) = false) xs | _ => True end.

(** A poll has read a configuration with the switch on again from the file,
    and will publish it: somebody wrote it there, or it is an older one of the
    store itself that the poll read before the writer had saved the change. *)
Definition publishes (c : client) : bool :=
  match c with Background (ConfigChore ConfigStore.EPollPublish) => true | _ => false end.
Definition polled_open (w : World) : bool :=
  match ConfigStore.polling (config_store (server w)) with
  | ConfigStore.PPublish _ c => negb (eo_enabled (emergency_off c))
  | _ => false
  end.
Definition overtaken (w : World) (es : list event) : bool :=
  existsb publishes (arrivals es) && existsb polled_open (worlds w es).

Definition switched_off (w : World) : Prop := eo_enabled (emergency_off (System.config w)) = true.

Lemma store_step_current e (st st' : ConfigStore.ConfigStore (C := RuntimeConfig)) :
  background e = true -> e <> ConfigStore.EPollPublish -> ConfigStore.step e st = Some st' ->
  ConfigStore.current_ st' = ConfigStore.current_ st.
Proof.
  destruct e; cbn [background]; try done; intros _ He; cbn;
    unfold ConfigStore.writer_take, ConfigStore.writer_write, ConfigStore.writer_fail, ConfigStore.writer_stamp;
    repeat case_match; intros [= <-]; try done; by destruct st.
Qed.

Lemma chore_switch c w :
  switched_off w -> (publishes (Background c) = true /\ polled_open w = true) \/ switched_off (do_chore c w).1.
Proof.
  unfold switched_off, System.config, config_of. intros Hw. destruct c as [e|c|l]; cbn; [|by right..].
  destruct (background e) eqn:Hb; [|by right]. cbn.
  destruct (ConfigStore.step e (config_store (server w))) as [st|] eqn:Hs; [|by right]. cbn.
  assert (e = ConfigStore.EPollPublish \/ e <> ConfigStore.EPollPublish) as [->|He] by (destruct e; by (left + right)).
  - cbn in Hs. unfold polled_open. destruct (ConfigStore.polling _) as [| | |mtime c]; try done. injection Hs as <-. cbn.
    destruct (eo_enabled (emergency_off c)); [by right|by left].
  - right. by rewrite (store_step_current e _ st Hb He Hs).
Qed.

Definition turned_away (c : client) (r : Result) : Prop :=
  match c, r with
  | Visitor _ _ _, Proxied log => Forall (fun e => e.2 = mkServed None (Some off_page) Close) log
  | _, _ => True
  end.

(** Programs of which nothing is asked. *)
Lemma safe_globe (I : World -> Prop) (Q : list Globe.GlobeServed -> Prop) state xs :
  (forall l, Q l) -> safe I Q (globe_steps state xs).
Proof.
  revert Q. induction xs as [|[request|] xs IH]; intros Q HQ; cbn [globe_steps]; [apply HQ| |apply HQ].
  destruct (_ && _); [apply HQ|]. apply safe_bind, safe_act. intros w Hw. split; [done|]. intros [response|e] _; [|apply HQ].
  destruct (Globe.g_keep_alive request); [|apply HQ]. apply safe_bind, IH. intros l. apply HQ.
Qed.

Lemma visitor_safe (I : World -> Prop) (Q : Result -> Prop) remote label xs :
  (forall ip conn, Globe.client_address_of remote = Some ip -> client_ip conn = ip -> listener_label conn = label ->
     safe I (fun log => Q (Proxied log)) (session_steps System.config on_proxy conn xs)) ->
  safe I Q (program_of (Visitor remote label xs)).
Proof.
  intros H. cbn [program_of]. destruct (Globe.client_address_of remote) as [ip|] eqn:Hip; [|done].
  apply safe_bind, safe_act. intros w Hw. split; [done|]. intros conn [= <-]. apply safe_bind.
  eapply safe_mono; [|by apply (H ip)]. done.
Qed.

Lemma operator_safe (I : World -> Prop) (Q : Result -> Prop) remote xs :
  (forall served, Q (Administered served)) ->
  (forall env x request user ip keep w, (env, x) ∈ xs -> sends x request -> I w ->
     I (with_server (handle_request (env_in env w) request user ip keep (server w)).1 w)) ->
  (forall env x request user, (env, x) ∈ xs -> sends x request ->
     Forall (fun row => row.1 = true -> steps_keep I row.2) (auth_steps env request user (admin_client_text remote))) ->
  safe I Q (program_of (Operator remote xs)).
Proof.
  intros HQ H Hs. cbn [program_of]. apply safe_bind.
  eapply safe_mono; [|apply safe_admin; [intros; by eapply H|intros; by eapply Hs]]. intros served _. apply HQ.
Qed.

(** From what the steps of every row keep to an invariant. *)
Lemma rows_keep (R : AdminState -> AdminState -> Prop) (I : World -> Prop) rows :
  (forall s s' w, R s s' -> I (with_server s w) -> I (with_server s' w)) ->
  Forall (fun row : bool * prog AdminState Response => row.1 = true -> steps_by R row.2) rows ->
  Forall (fun row => row.1 = true -> steps_keep I row.2) rows.
Proof.
  intros HR Hrows. eapply Forall_impl; [exact Hrows|]. intros row Hrow Hg. eapply steps_by_mono; [|by apply Hrow].
  intros s s' Hs w. by apply HR.
Qed.

Definition polled_open_in (es : list event) (w : World) : Prop :=
  existsb publishes (arrivals es) = true /\ polled_open w = true.

Lemma off_safe es c :
  c ∈ arrivals es -> leaves_switch c -> safe_unless switched_off (polled_open_in es) (turned_away c) (program_of c).
Proof.
  intros Hin Hc. destruct c as [remote label xs|remote xs|path_of contents xs|c].
  - apply safe_safe_unless, visitor_safe. intros ip conn _ _ _.
    eapply safe_mono; [|apply (safe_session _ conn xs (fun _ _ served => served = mkServed None (Some off_page) Close))].
    + intros log Hlog. eapply Forall2_Forall_r; [exact Hlog|]. by apply Forall_true.
    + intros x c w _ Hw ->. apply (safe_hoist _ (fun _ => True)); [done|done|]. unfold handle_request_steps.
      unfold switched_off in Hw. rewrite Hw. by apply (safe_perform (fun _ => True)).
  - apply safe_safe_unless, operator_safe; [done| |].
    { intros env x request user ip keep w Hx [Hh _] Hw. cbn [leaves_switch] in Hc.
      rewrite Forall_forall in Hc. specialize (Hc _ Hx). cbn in Hc. rewrite <- Hh in Hc.
      pose proof (request_switch (env_in env w) request user ip keep (server w) Hc) as Hs.
      unfold switched_off, System.config, switch_kept, same_switch in *. cbn [with_server server]. by rewrite Hs. }
    intros env x request user _ _. eapply rows_keep; [|apply switch_steps].
    unfold switched_off, System.config, switch_kept, same_switch. intros s s' w Hs. cbn [with_server server]. by rewrite Hs.
  - apply safe_safe_unless, safe_bind. by apply safe_globe.
  - cbn [program_of]. intros w Hw. destruct (chore_switch c w Hw) as [[Hp Ho]|H]; [left|by right].
    split; [|done]. apply existsb_exists. exists (Background c). by rewrite <- list_elem_of_In.
Qed.

(** C3: Once an operator's request to switch everything off is handled, whoever
    sent it and whatever else was in flight, it is answered 200, and every
    request of every connection that arrives from then on, on any listener,
    site and connection and whoever it comes from, is answered with the blank
    503 page and nothing is forwarded, in every interleaving with whatever
    else happens, polls of the configuration file included, until an operator
    turns the switch again or a poll reads a configuration from the file in
    which it is turned back: one that somebody wrote there, or the store's own
    of before, read while the writer had not yet saved the change. *)
Theorem emergency_off_stops_traffic env request user ip keep w es :
  asks_switch request true -> Forall leaves_switch (arrivals es) ->
  let '(w0, answer) := handle_in env request user ip keep w in
  (exists r, answer = Ok (Ok (Answered r keep)) /\ status r = 200) /\
  (overtaken w0 es = false ->
   let '(w', threads) := run_system w0 es in
   eo_enabled (emergency_off (System.config w')) = true /\
   forall i remote label xs log, arrivals es !! i = Some (Visitor remote label xs) ->
     threads !! i = Some (Ret (Proxied log)) ->
     Forall (fun e => e.2 = mkServed None (Some off_page) Close) log).
Proof.
  intros Ha Hes. unfold handle_in. destruct (handle_request _ _ _ _ _ _) as [s' o] eqn:He.
  apply (emergency_request _ _ _ _ _ _ _ _ _ Ha) in He as [Hon (r & -> & Hr)]. split; [by exists r|]. intros Hover.
  destruct (run_system_safe_unless switched_off (polled_open_in es) turned_away (with_server s' w) es) as [Hbad|[Hoff Hlog]];
    [exact Hon| | |].
  - apply Forall_forall. intros c Hc. apply off_safe; [done|]. rewrite Forall_forall in Hes. by apply Hes.
  - exfalso. apply Exists_exists in Hbad as (w1 & Hw1 & Hp & Ho). unfold overtaken in Hover. rewrite Hp in Hover.
    apply not_true_iff_false in Hover. apply Hover, existsb_exists. exists w1. by rewrite <- list_elem_of_In.
  - destruct (run_system (with_server s' w) es) as [w' threads]. split; [exact Hoff|].
    intros i remote label xs log Hi Ht. exact (Hlog i _ _ Hi Ht).
Qed.
End traffic.

(** ** Witness *)

#[local] Existing Instances DemoDb.demo_db orders.

Definition off_request : AdminExchange := operator_exchange "PUT" "/api/emergency-off" "off".
Definition some_traffic : list event := [Arrives (caller "firefox")] ++ replicate 6 (Goes 0).

Example traffic_refused :
  let off_world := (handle_in (demo_env [1]) (sent_by off_request) "admin" "127.0.0.1" true demo_world).1 in
  match (run_system off_world some_traffic).2 !! 0%nat with
  | Some (Ret (Proxied log)) => map snd log = [mkServed None (Some off_page) Close]
  | _ => False
  end.
Proof. by vm_compute. Qed.

(** The writer saves the change; somebody edits the file, the switch as it is;
    a poll publishes the edit; then the visitor calls. *)
Definition off_config : RuntimeConfig := set_emergency_off (mkEmergency true) default_config.
Definition chores : list (ConfigStore.event (C := RuntimeConfig)) :=
  [ConfigStore.EWriterTake; ConfigStore.EWriterWrite 5; ConfigStore.EWriterStamp; ConfigStore.EExternal (Some off_config) 7;
   ConfigStore.EPollStat; ConfigStore.EPollCompare; ConfigStore.EPollRead; ConfigStore.EPollPublish].
Definition polled_traffic : list event :=
  concat (imap (fun i e => [Arrives (Background (ConfigChore e)); Goes i]) chores) ++
  [Arrives (caller "firefox")] ++ replicate 6 (Goes 8).

Lemma emergency_off_stops_traffic_witness :
  let '(w0, answer) := handle_in (demo_env [1]) (sent_by off_request) "admin" "127.0.0.1" true demo_world in
  exists r, answer = Ok (Ok (Answered r true)) /\
    System.config (run_system w0 polled_traffic).1 = off_config /\
    match (run_system w0 polled_traffic).2 !! 8%nat with
    | Some (Ret (Proxied log)) => log <> [] /\ Forall (fun e => e.2 = mkServed None (Some off_page) Close) log
    | _ => False
    end.
Proof.
  assert (asks_switch (sent_by off_request) true) as Hasks by (split; [reflexivity|]; eexists; split; vm_compute; reflexivity).
  pose proof (emergency_off_stops_traffic (demo_env [1]) (sent_by off_request) "admin" "127.0.0.1" true demo_world polled_traffic
    Hasks ltac:(repeat constructor)) as H.
  set (out := handle_in _ _ _ _ _ _) in *.
  assert (overtaken out.1 polled_traffic = false) as Hover by (vm_compute; reflexivity).
  assert (match (run_system out.1 polled_traffic).2 !! 8%nat with
          | Some (Ret (Proxied log)) => (0 <? length log)%nat | _ => false end = true) as Hdone by (vm_compute; reflexivity).
  assert (System.config (run_system out.1 polled_traffic).1 = off_config) as Hc by (vm_compute; reflexivity).
  destruct out as [w0 answer]. cbn [fst] in *. destruct H as [(r & Ha & _) H]. specialize (H Hover).
  exists r. split; [exact Ha|]. split; [exact Hc|].
  destruct (run_system w0 polled_traffic) as [w' threads]. cbn [snd] in *. destruct H as [_ H].
  specialize (H 8%nat (Some banned_ip) (lit "http") [visit "firefox" demo_now]).
  destruct (threads !! 8%nat) as [p|]; [|discriminate Hdone]. destruct p as [result| |]; try discriminate Hdone.
  destruct result as [log| | |]; try discriminate Hdone.
  split; [intros ->; discriminate Hdone|]. exact (H log eq_refl eq_refl).
Defined.

(** ** The connection that was waiting *)

(** A visitor that is connected but has sent nothing, then the operator's
    switch, then the visitor's request. *)
Definition waiting : list event := Arrives (caller "firefox") :: replicate 2 (Goes 0).
Definition then_off : list event := waiting ++ [Arrives (operator off_request); Goes 1; Goes 1].
Definition then_sent : list event := then_off ++ replicate 6 (Goes 0).

(** The one way around the switch: the handler reads the configuration before
    it waits for a request, so that the next request of every connection that
    is open when the switch is acknowledged still goes to the origin, however
    much later, up to the timeout, it is sent. *)
Theorem waiting_connection_gets_one_more :
  eo_enabled (emergency_off (System.config (run_system demo_world then_off).1)) = true /\
  match (run_system demo_world then_off).2 !! 1%nat with
  | Some (Ret (Administered [Answered r _])) => status r = 200 | _ => False end /\
  match (run_system demo_world then_sent).2 !! 0%nat with
  | Some (Ret (Proxied [(_, mkServed (Some _) (Some r) KeepAlive)])) => rs_body r = lit "hello" | _ => False end.
Proof. by vm_compute. Qed.

(** ** The request whose body was on its way *)

Definition logout_request : AdminExchange := operator_exchange "POST" "/api/auth/logout" "".

(** The switch's header arrives, then the same session is logged out on another
    connection, then the switch's body arrives. *)
Definition logged_out : list event :=
  Arrives (operator off_request) :: Goes 0 :: Arrives (operator logout_request) :: replicate 2 (Goes 1).

(** The session gate looks at the header and not again once the body is there:
    a request of a session that has been logged out meanwhile is carried out. *)
Theorem revoked_session_finishes_request :
  (Tokens.Sessions.info_username <$> Tokens.Sessions.validate demo_now (lit "09") (sessions (server demo_world))) = Some (lit "admin") /\
  Tokens.Sessions.validate demo_now (lit "09") (sessions (server (run_system demo_world logged_out).1)) = None /\
  match (run_system demo_world (logged_out ++ [Goes 0])).2 !! 0%nat with
  | Some (Ret (Administered [Answered r _])) => status r = 200 | _ => False end /\
  eo_enabled (emergency_off (System.config (run_system demo_world (logged_out ++ [Goes 0])).1)) = true.
Proof. by vm_compute. Qed.
