(* ===== verification/SystemAccess.v ===== *)
(** * SystemAccess: sessions and second factors in the whole system

    What [AdminSafety] and [AdminAccess] show of histories of exchanges holds in
    every run of the system, where the calls of the authentication handlers
    interleave with each other and with everything else. The evidence for a
    session ([AdminEvidence]) is found in the states that the run went through. *)
From S2P Require Import Prelude Text Net Config Checks Json Totp Passwords Users EventLogs Cbor Webauthn Sites.
From S2P Require Import Session GeoIp Interleave Concurrent BlacklistOps AdminBase JsonView AdminAuth AdminLogin AdminConfig.
From S2P Require Import AdminSteps AdminEvidence AdminAccess System SystemDemo SystemSafety.
From S2P Require Admin Globe Files ConfigStore RequestLog IpBlocks ScoreTracker RateTracker.
Import Admin.

Section access.
Context `{Mmdb : MaxMindDb}.
Context `{Asio : AsioIp} `{Kdf : Pbkdf2} `{Hmac : HmacSha1} `{Sha : Sha256} `{Lib : LibCbor} `{E : Evp} `{J : JsonText}.
Context `{Fs : Files.StaticFiles.FileSystem}.

(** ** What a run goes through *)

(** The states of the admin server before each event of a run. *)
Definition states_of (w : World) (es : list event) : list AdminState := map server (past (w, []) (map move_of es)).

Lemma states_of_lookup w es i :
  (i < length es)%nat -> states_of w es !! i = Some (server (run_system w (take i es)).1).
Proof.
  intros Hi. unfold states_of, run_system. change (map server ?l) with (server <$> l).
  rewrite list_lookup_fmap, past_lookup by by rewrite length_map. cbn. by rewrite firstn_map.
Qed.

(** One of the clients sends it. *)
Definition sent_in (cs : list client) (env : Env) (request : AdminRequest) : Prop :=
  exists remote xs x, Operator remote xs ∈ cs /\ (env, x) ∈ xs /\ sends x request.

(** A poll of the configuration file published what it had read there. *)
Definition edited (cs : list client) : Prop := Background (ConfigChore ConfigStore.EPollPublish) ∈ cs.

(** A request that was sent passed its gate, in some state of the past, with a
    session of the kind [P], of a user who had proved to be that user before. *)
Definition session_used (cs : list client) (hs : list AdminState) (P : Sessions.SessionInfo -> Prop) : Prop :=
  exists i gate env request session, hs !! i = Some gate /\ sent_in cs env request /\
    session_of (t_gate env) (rq_header request) gate = Some session /\ P session /\
    authenticated (sent_in cs) (take i hs) (Sessions.info_username session).

Section of_clients.
Context (cs : list client) (sel : str -> bool) (s0 : AdminState).

(** What is configured, and what authenticates the selected accounts. *)
Definition power_kept (s : AdminState) : Prop :=
  (config_of s = config_of s0 \/ edited cs) /\
  (users_ (users s0) <> [] -> users_ (users s) <> [] /\ selected sel (users_ (users s)) = selected sel (users_ (users s0))).

Definition used (hs : list AdminState) : Prop :=
  session_used cs hs (fun session =>
    Sessions.info_needs_mfa_setup session = false \/ sel (Sessions.info_username session) = true).

(** Every session and pending login is justified by the past; and so is
    everything done to the configuration and the selected accounts. *)
Definition accounted (hs : list AdminState) (s : AdminState) : Prop :=
  justified (sent_in cs) hs s /\ (used hs \/ power_kept s).

Lemma used_later hs hs' : hs `prefix_of` hs' -> used hs -> used hs'.
Proof.
  intros [l ->] (i & gate & env & request & session & Hi & H). exists i, gate, env, request, session.
  assert (i < length hs)%nat by (by eapply lookup_lt_Some).
  split; [by rewrite lookup_app_l|]. by rewrite take_app_le by lia.
Qed.

(** The steps that ask for no account: nothing to justify, nothing changed. *)
Definition idle (s s' : AdminState) : Prop :=
  quiet s s' /\ (config_of s' = config_of s \/ edited cs) /\ users s' = users s.

Lemma idle_same s s' :
  sessions s' = sessions s -> pending_mfa s' = pending_mfa s -> users s' = users s ->
  config_of s' = config_of s \/ edited cs -> idle s s'.
Proof. intros H1 H2 H3 H4. split; [by apply quiet_same|done]. Qed.

Lemma idle_refl s : idle s s.
Proof. apply idle_same; auto. Qed.

Lemma idle_accounted hs s s' : idle s s' -> accounted hs s -> accounted (hs ++ [s]) s'.
Proof.
  intros (Hq & Hc & Hu) [Hj Hp]. split; [by eapply justified_quiet|].
  destruct Hp as [Hp|[Kc Ku]]; [left; eapply used_later; [|exact Hp]; by apply prefix_app_r|right].
  split; [|by rewrite Hu]. destruct Hc as [->|?]; auto.
Qed.

Lemma accounted_stays hs s : accounted hs s -> accounted (hs ++ [s]) s.
Proof. apply idle_accounted, idle_refl. Qed.

(** *** A request that has passed its gate *)

(** The request at [gate], and what it does later, at [s]: it has a session
    without restriction or of a selected user, or it reaches only what
    changes none of this. *)
Lemma gate_reaches env request user gate :
  session_gate env (rq_header request) gate = Passed user ->
  (exists session, session_of (t_gate env) (rq_header request) gate = Some session /\
     (Sessions.info_needs_mfa_setup session = false \/ sel (Sessions.info_username session) = true)) \/
  exists restricted, reachable restricted (target (rq_header request)) = true /\ (restricted = true -> sel user = false).
Proof.
  unfold session_gate. intros Hg.
  destruct (needs_auth _) eqn:Hn; [|right; exists false; unfold reachable; by rewrite Hn].
  destruct (session_of _ _ gate) as [session|]; [|done].
  destruct (Sessions.info_needs_mfa_setup session) eqn:Hm; [|left; exists session; auto].
  destruct (is_mfa_setup_allowed_route _) eqn:Hr; [|done]. injection Hg as <-.
  destruct (sel (Sessions.info_username session)) eqn:Hs; [left; exists session; auto|right].
  exists true. unfold reachable. by rewrite Hr, orb_true_r.
Qed.

Lemma session_of_entry now h s session :
  session_of now h s = Some session ->
  exists token sess, sessions s !! token = Some sess /\ Sessions.sess_username sess = Sessions.info_username session.
Proof.
  unfold session_of, Sessions.validate. destruct (extract_session_token h) as [token|]; [|done].
  destruct (sessions s !! token) as [sess|] eqn:Hs; [|done]. destruct (_ >? _); [done|]. intros [= <-].
  by exists token, sess.
Qed.

Lemma gate_used env request user hs gate :
  accounted hs gate -> sent_in cs env request -> session_gate env (rq_header request) gate = Passed user ->
  used (hs ++ [gate]) \/
  exists restricted, reachable restricted (target (rq_header request)) = true /\ (restricted = true -> sel user = false).
Proof.
  intros [[Js _] _] Hsent Hg. destruct (gate_reaches env request user gate Hg) as [(session & Hs & HP)|?]; [left|by right].
  exists (length hs), gate, env, request, session. rewrite lookup_app_r, Nat.sub_diag, take_app_length by done.
  split_and!; [done..|]. apply session_of_entry in Hs as (token & sess & Hl & <-). by eapply Js.
Qed.

(** Its steps. *)
Definition passed (user : str) (request : AdminRequest) (hs : list AdminState) : Prop :=
  used hs \/ exists restricted, reachable restricted (target (rq_header request)) = true /\ (restricted = true -> sel user = false).

Lemma confined_kept hs s s' :
  confined sel s s' -> used hs \/ power_kept s -> used (hs ++ [s]) \/ power_kept s'.
Proof.
  intros (Hc & _ & Ha) [Hu|[Kc Ku]]; [left; eapply used_later; [|exact Hu]; by apply prefix_app_r|right]. split.
  - unfold config_of. rewrite Hc. exact Kc.
  - intros Hn. destruct (Ku Hn) as [H1 H2]. destruct (Ha H1) as [H3 H4]. split; [done|congruence].
Qed.

Lemma row_accounted user request hs (p : prog AdminState Response) :
  passed user request hs -> recalls (justified (sent_in cs)) (fun _ _ => True) hs p ->
  (forall restricted, reachable restricted (target (rq_header request)) = true -> (restricted = true -> sel user = false) ->
     steps_by (confined sel) p) ->
  recalls accounted (fun _ _ => True) hs p.
Proof.
  intros [Hu|(restricted & Hr & Hsel)] Hj Hp.
  - eapply recalls_weaken; [|exact Hj]. intros before s s' Hle [Hb _]. split; [exact Hb|]. intros Hj'. split; [exact Hj'|].
    left. eapply used_later; [|exact Hu]. etransitivity; [exact Hle|]. by apply prefix_app_r.
  - specialize (Hp restricted Hr Hsel). revert hs Hj. induction p as [a|e|X op k IH]; intros hs Hj; [done..|].
    destruct Hp as [Hop Hk]. intros before s Hle [Hb Hp]. destruct (Hj before s Hle Hb) as [Hb' Hj']. split; [split; [done|]|].
    + by apply confined_kept; [apply Hop|].
    + intros x Hx. apply IH; [apply Hk|by apply Hj'].
Qed.

(** The requests that are one step. *)
Lemma pick_none {A} (rows : list (bool * A)) : pick rows = None -> Forall (fun row => row.1 = false) rows.
Proof. induction rows as [|[[] p] rows IH]; cbn; [by constructor|done|]. intros H. by constructor; [|apply IH]. Qed.

Lemma request_quiet env w request user ip keep s :
  pick (auth_steps env request user ip) = None ->
  quiet s (handle_request (env_in env w) request user ip keep s).1.
Proof.
  intros Hn%pick_none. apply handle_request_elim; [reflexivity|].
  assert (Forall (fun row => row.1 = false) (auth_routes (env_in env w) request user ip)) as Hauth.
  { pose proof (auth_steps_alone env request user ip) as Hrows. clear -Hrows Hn.
    change (auth_routes (env_in env w) request user ip) with (auth_routes env request user ip).
    induction Hrows as [|row row' rows rows' [Hr _] _ IH]; [by constructor|]. inversion_clear Hn.
    constructor; [congruence|by apply IH]. }
  unfold routes. rewrite !Forall_app. split_and!.
  2: { eapply Forall_impl; [exact Hauth|]. intros [g m] H1 H2. cbn in H1, H2. by rewrite H1 in H2. }
  all: unfold import_routes, config_routes, list_routes, on, under; cbv zeta; cbn [app];
    repeat (apply Forall_cons; split; [cbn [fst snd]; intros _|]); [..|by apply Forall_nil].
  all: lazymatch goal with |- ?R ?s (?m ?s).1 => cut (keeps R m); [intros Hk; exact (Hk s)|] end.
  all: keeps_handler; split; first [ by apply same_sessions_inherited | by intros ? ? ].
Qed.

Lemma request_confined env request user ip keep s restricted :
  reachable restricted (target (rq_header request)) = true -> (restricted = true -> sel user = false) ->
  confined sel s (handle_request env request user ip keep s).1.
Proof. intros Hr Hsel. apply handle_request_elim; [by split_and!|]. by eapply reachable_rows. Qed.

(** ** Every thread *)

Definition accounted_in (hs : list World) (w : World) : Prop := accounted (map server hs) (server w).
#[local] Abbreviation untouched := (fun w w' : World => idle (server w) (server w')).

Lemma accounted_in_stays hs w : accounted_in hs w -> accounted_in (hs ++ [w]) w.
Proof. unfold accounted_in. rewrite map_app. apply accounted_stays. Qed.

Lemma recalls_untouched {A} hs (p : prog World A) :
  steps_by untouched p -> recalls accounted_in (fun _ _ => True) hs p.
Proof.
  apply recalls_steps. intros gs w w' Hw H. unfold accounted_in. rewrite map_app. by eapply idle_accounted.
Qed.

Lemma steps_globe state xs : steps_by untouched (globe_steps state xs).
Proof.
  induction xs as [|[request|] xs IH]; [done| |done]. cbn [globe_steps]. destruct (_ && _); [done|].
  apply steps_by_bind; [by split; [intros w; apply idle_refl|]|]. intros [r|e]; [|done].
  destruct (Globe.g_keep_alive request); [|done]. by apply steps_by_bind.
Qed.

Lemma steps_session conn xs : steps_by untouched (session_steps System.config on_proxy conn xs).
Proof.
  induction xs as [|x xs IH]; [done|]. cbn [session_steps].
  apply steps_by_bind; [by split; [intros w; apply idle_refl|]|]. intros c. apply steps_by_bind.
  - apply steps_by_hoist_any. intros X op w. unfold on_proxy. destruct (op (proxy_of w)) as [s r].
    apply idle_same; auto.
  - intros served. destruct (next served); [by apply steps_by_bind|done..].
Qed.

Lemma steps_chore c : Background c ∈ cs -> steps_by untouched (act (do_chore c)).
Proof.
  intros Hc. split; [|done]. intros w. unfold do_chore. destruct c as [e|c|l]; [|apply idle_same; auto..].
  destruct (background e) eqn:Hb; [|apply idle_refl]. apply idle_same; [done..|]. cbn. unfold config_of. cbn.
  destruct (ConfigStore.step e (config_store (server w))) as [st|] eqn:Hs; [|by left].
  assert (e = ConfigStore.EPollPublish \/ e <> ConfigStore.EPollPublish) as [->|He] by (destruct e; auto; by right).
  { by right. }
  left. cbn. by rewrite (store_step_current e _ st Hb He Hs).
Qed.

Lemma recalls_request env request user ip keep hs :
  sent_in cs env request -> passed user request (map server hs) ->
  recalls accounted_in (fun _ _ => True) hs (request_steps env request user ip keep).
Proof.
  intros Hsent Hp. unfold request_steps. destruct (pick _) as [p|] eqn:Hpick.
  - apply recalls_bind. eapply recalls_mono; [|apply (recalls_try _ (fun _ _ => True)); [done|]]; [done|].
    eapply recalls_mono; [|apply (recalls_hoist accounted accounted_in server (fun _ _ => True) on_server)]; [done| | | |].
    + intros gs w H. exact H.
    + intros X op gs w _ H. unfold accounted_in, on_server in *. by destruct (op (server w)).
    + intros X op w. unfold on_server. by destruct (op (server w)).
    + apply (row_accounted user request); [exact Hp| |].
      * exact (picked_row_in _ _ _ (steps_justified _ _ _ _ _ _ Hsent) Hpick).
      * intros restricted Hr Hsel. exact (picked_row_in _ _ _ (reachable_steps _ _ env request user ip Hr Hsel) Hpick).
  - apply recalls_act. intros before w Hle [Hj Hk]. split; [|done]. unfold accounted_in. rewrite map_app.
    apply handle_in_elim. split; [by eapply justified_quiet; [apply request_quiet|]|].
    destruct Hp as [Hu|(restricted & Hr & Hsel)].
    + left. eapply used_later; [|exact Hu]. destruct Hle as [l ->]. rewrite map_app, <- app_assoc. by apply prefix_app_r.
    + by apply confined_kept; [eapply request_confined|].
Qed.

Lemma recalls_admin ip remote (all xs : list (Env * AdminExchange)) hs :
  Operator remote all ∈ cs -> xs ⊆ all -> recalls accounted_in (fun _ _ => True) hs (admin_steps ip xs).
Proof.
  intros Hc. revert hs. induction xs as [|[env x] rest IH]; intros hs Hin; [done|]. cbn [admin_steps].
  apply recalls_bind, recalls_act. intros before w _ Hw. split; [by apply accounted_in_stays|].
  intros [response|user] [= Hgate]; [done|]. destruct (x_read x _) as [[body keep]|] eqn:Hx; [|done].
  set (request := mkAdminRequest (x_header x) body).
  assert (sent_in cs env request) as Hsent.
  { exists remote, all, x. split_and!; [done| |split; [done|by exists keep]]. apply Hin. by left. }
  apply recalls_bind. eapply recalls_mono; [|apply recalls_request; [exact Hsent|]].
  - intros hs' served _. destruct served as [[r [|]| | |]|e]; try done. apply recalls_bind.
    eapply recalls_mono; [|apply IH; set_solver]. done.
  - rewrite map_app. by apply (gate_used env request user).
Qed.

Lemma recalls_client c : c ∈ cs -> recalls accounted_in (fun _ _ => True) [] (program_of c).
Proof.
  intros Hc. destruct c as [remote label xs|remote xs|path_of contents xs|c]; cbn [program_of].
  - destruct (Globe.client_address_of remote) as [ip|]; [|done]. apply recalls_untouched.
    apply steps_by_bind; [by split; [intros w; apply idle_refl|]|]. intros conn.
    apply steps_by_bind; [apply steps_session|done].
  - apply recalls_bind. eapply recalls_mono; [|by eapply recalls_admin]. done.
  - apply recalls_untouched, steps_by_bind; [apply steps_globe|done].
  - apply recalls_untouched, steps_by_bind; [by apply steps_chore|done].
Qed.
End of_clients.

(** ** Every run *)

Lemma run_accounted sel w es :
  sessions (server w) = ∅ -> pending_mfa (server w) = ∅ ->
  accounted (arrivals es) sel (server w) (states_of w es) (server (run_system w es).1).
Proof.
  intros Hs Hp. apply (schedule_recalls (accounted_in (arrivals es) sel (server w)) (w, []) (map move_of es) []).
  - apply accounted_in_stays.
  - split; [split|right; split; auto].
    + intros token sess. cbn. rewrite Hs. by rewrite lookup_empty.
    + intros token e. cbn. rewrite Hp. by rewrite lookup_empty.
  - done.
  - rewrite spawned_arrivals. apply Forall_fmap, Forall_forall. intros c. apply recalls_client.
Qed.

(** C4: Two-factor authentication cannot be bypassed, in any interleaving: whatever
    connections, operators and threads do to the system and in whatever order
    their calls come, a session for [u] goes back to a request of one of these
    connections that proved itself in the states that the run went through,
    in the order of the handler's calls: the first-run setup, the password of an account without a
    second factor, a registered passkey, or a second factor (a TOTP code of an unused step,
    an unused backup code, a passkey of the account) for a pending login; and
    before that login was pending, some request had given the password. *)
Theorem two_factor_enforced_in_every_run w es token sess :
  sessions (server w) = ∅ -> pending_mfa (server w) = ∅ ->
  sessions (server (run_system w es).1) !! token = Some sess ->
  authenticated (sent_in (arrivals es)) (states_of w es) (Sessions.sess_username sess).
Proof. intros Hs Hp H. destruct (run_accounted (fun _ => false) w es Hs Hp) as [[Js _] _]. by eapply Js. Qed.

(** C5: Power needs a login, in any interleaving: in a system that has an account,
    the configuration is what it was, or a poll published what it read from the
    configuration file, or some request had passed its gate with an
    unrestricted session of a user who had proved to be that user before; and
    for every account name, what authenticates it (password, TOTP secret,
    passkeys and backup codes, but for which of those are spent) is what it
    was, or there was such a request, or one with a restricted session of that
    very account. *)
Theorem power_needs_login w es :
  sessions (server w) = ∅ -> pending_mfa (server w) = ∅ -> users_ (users (server w)) <> [] ->
  let w' := (run_system w es).1 in
  (System.config w' = System.config w \/ edited (arrivals es) \/
   session_used (arrivals es) (states_of w es) (fun session => Sessions.info_needs_mfa_setup session = false)) /\
  forall name, let account s := selected (fun n => n == name) (users_ (users s)) in
    account (server w') = account (server w) \/
    session_used (arrivals es) (states_of w es) (fun session =>
      Sessions.info_needs_mfa_setup session = false \/ Sessions.info_username session = name).
Proof.
  intros Hs Hp Hn. cbv zeta. split.
  - destruct (run_accounted (fun _ => false) w es Hs Hp) as [_ [Hu|[[Hc|He] _]]]; [|by left|auto].
    right. right. destruct Hu as (i & g & env & request & session & Hi & Hsent & Hso & [Hm|?] & Ha); [|done].
    by exists i, g, env, request, session.
  - intros name. destruct (run_accounted (fun n => n == name) w es Hs Hp) as [_ [Hu|[_ Ha]]]; [|left; by apply Ha].
    right. destruct Hu as (i & g & env & request & session & Hi & Hsent & Hso & HP & Ha).
    exists i, g, env, request, session. split_and!; try done. destruct HP as [?|He%bool_decide_eq_true]; auto.
Qed.
End access.

(** ** A run: two operators log in, call by call in turns *)

#[local] Existing Instances DemoDb.demo_db demo_bodies.

Definition access_world : World :=
  mkWorld demo_admin (ScoreTracker.score_init 10) RateTracker.rate_init (GeoIpService []) (AsnService []) None.
Definition logs_in (token : list Z) (x : AdminExchange) : client := Operator None [(demo_env token, x)].
Definition turns (n : nat) (who : list nat) : list event := concat (replicate n (Goes <$> who)).
Definition two_logins : list event :=
  [Arrives (logs_in [8] admin_login); Arrives (logs_in [7] carol_login)] ++ turns 5 [0%nat; 1%nat] ++
  [Arrives (logs_in [9] admin_code)] ++ turns 10 [2%nat; 1%nat].

Lemma two_factor_enforced_in_every_run_witness :
  exists sess, sessions (server (run_system access_world two_logins).1) !! lit "09" = Some sess /\
    authenticated (sent_in (arrivals two_logins)) (states_of access_world two_logins) (lit "admin").
Proof.
  assert (sessions (server (run_system access_world two_logins).1) !! lit "09" =
            Some (Sessions.mkSession "admin" false (demo_now + 12 * ns_per_hour))) as Hs by (vm_compute; reflexivity).
  exists (Sessions.mkSession "admin" false (demo_now + 12 * ns_per_hour)). split; [exact Hs|].
  exact (two_factor_enforced_in_every_run access_world two_logins (lit "09") _ eq_refl eq_refl Hs).
Defined.

(** Then the administrator switches the proxy off, and a stranger tries to
    switch it on. *)
Definition switches_off : AdminExchange := demo_exchange "PUT" "/api/emergency-off" "atomwall_session=09" "off".
Definition stranger_on : AdminExchange := demo_exchange "PUT" "/api/emergency-off" "" "on".
Definition two_switches : list event :=
  two_logins ++ [Arrives (logs_in [1] switches_off); Arrives (logs_in [2] stranger_on)] ++ turns 2 [3%nat; 4%nat].

Lemma power_needs_login_witness :
  eo_enabled (emergency_off (System.config access_world)) = false /\
  eo_enabled (emergency_off (System.config (run_system access_world two_switches).1)) = true /\
  session_used (arrivals two_switches) (states_of access_world two_switches)
    (fun session => Sessions.info_needs_mfa_setup session = false).
Proof.
  assert (eo_enabled (emergency_off (System.config access_world)) = false) as H0 by (vm_compute; reflexivity).
  assert (eo_enabled (emergency_off (System.config (run_system access_world two_switches).1)) = true) as H1
    by (vm_compute; reflexivity).
  split; [exact H0|]. split; [exact H1|].
  destruct (power_needs_login access_world two_switches eq_refl eq_refl ltac:(vm_compute; discriminate))
    as [[Hc|[He|Hu]] _]; [|exfalso|exact Hu].
  - exfalso. rewrite Hc, H0 in H1. discriminate H1.
  - unfold edited in He. apply list_elem_of_In in He. cbn in He.
    repeat destruct He as [He|He]; [discriminate He..|exact He].
Defined.
