(* ===== verification/SystemRaces.v ===== *)
(** * SystemRaces: second factors when requests overlap

    A second factor is lost only where a request asks for that: in any
    interleaving, an account with a factor keeps one as long as nobody sends a
    removal. Two removals, though, may both pass the test for the only factor
    before either of them removes: what [AdminFactors] shows of requests that
    run one after the other does not hold of requests that overlap. Nor does
    the rule that the signature counter of a passkey increases: both of two
    assertions are compared with the counter stored before either. *)
From S2P Require Import Prelude Text Net Config Checks Json Codec Totp Passwords Users Tokens EventLogs Cbor Webauthn Sites.
From S2P Require Import Session GeoIp Interleave Concurrent BlacklistOps AdminBase JsonView AdminAuth AdminLogin AdminConfig.
From S2P Require Import AdminSteps AdminFactors System SystemDemo SystemSafety SystemAccess.
From S2P Require Admin Globe Files ConfigStore RequestLog IpBlocks ScoreTracker RateTracker.
Import Admin.

Section races.
Context `{Mmdb : MaxMindDb}.
Context `{Asio : AsioIp} `{Kdf : Pbkdf2} `{Hmac : HmacSha1} `{Sha : Sha256} `{Lib : LibCbor} `{E : Evp} `{J : JsonText}.
Context `{Fs : Files.StaticFiles.FileSystem}.

(** The requests that take a passkey, the TOTP secret or an account away. *)
Definition removal (h : request_header) : bool :=
  under h "DELETE" kApiWebauthnPrefix || on h "POST" "/api/auth/2fa/totp/disable" || under h "DELETE" kApiUsersPrefix.

Definition removes_nothing (c : client) : Prop :=
  match c with
  | Operator _ xs => Forall (fun ex : Env * AdminExchange => removal (x_header ex.2) = false) xs
  | _ => True
  end.

Lemma factor_request env request user ip keep s u :
  removal (rq_header request) = false -> factor_kept u s (handle_request env request user ip keep s).1.
Proof.
  unfold removal, on, under. intros [[H1 H2]%orb_false_iff H3]%orb_false_iff. apply handle_request_elim; [reflexivity|]. each_row.
  all: try congruence.
  all: by_keeps.
Qed.

Lemma factor_steps env request user ip u :
  removal (rq_header request) = false ->
  Forall (fun row => row.1 = true -> steps_by (factor_kept u) row.2) (auth_steps env request user ip).
Proof.
  unfold removal, on, under. intros [[H1 H2]%orb_false_iff H3]%orb_false_iff. each_step_row.
  all: try congruence.
  all: steps_to_keeps; keeps_handler.
Qed.

Definition protected_in (u : str) (w : World) : Prop := protected u (users (server w)).

Lemma factors_safe u c : removes_nothing c -> safe (protected_in u) (fun _ => True) (program_of c).
Proof.
  intros Hc. destruct c as [remote label xs|remote xs|path_of contents xs|c].
  - apply visitor_safe. intros a conn _ _ _.
    eapply safe_mono; [|apply (safe_session _ conn xs (fun _ _ _ => True))]; [done|].
    intros x c w _ Hw _. apply (safe_hoist _ (fun _ => True)); [by intros w1 []|done|].
    by apply (safe_handle (fun _ => True) ltac:(done) conn c x _ (proxy_of w)).
  - cbn in Hc. rewrite Forall_forall in Hc. apply operator_safe; [done| |].
    + intros env x request user ip keep w Hin [Hx _] Hw. apply (factor_request (env_in env w) request user ip keep); [|exact Hw].
      rewrite Hx. by apply (Hc (env, x)).
    + intros env x request user Hin [Hx _]. eapply (rows_keep (factor_kept u)); [by intros s s' w Hk|].
      apply factor_steps. rewrite Hx. by apply (Hc (env, x)).
  - apply safe_bind. by apply safe_globe.
  - apply safe_bind, safe_act. intros w Hw. split; [|done]. destruct c as [e|c|l]; cbn; [|exact Hw..]. by destruct (background e).
Qed.

(** C11: In every interleaving of the whole system, down to the single calls of the
    authentication handlers, an account that has a second factor has one at the
    end, unless somebody sent a request that removes a passkey, switches TOTP
    off or deletes an account: no login, enrolment, new account, import, poll
    or background thread takes it away. *)
Theorem factors_stay_in_every_run w es u :
  Forall removes_nothing (arrivals es) -> enrolled u (users (server w)) = true ->
  enrolled u (users (server (run_system w es).1)) = true.
Proof.
  intros Hes Hu. apply enrolled_protected.
  destruct (run_system_safe (protected_in u) (fun _ _ => True) w es) as [H _]; [by apply enrolled_protected| |exact H].
  eapply Forall_impl; [exact Hes|]. apply factors_safe.
Qed.
End races.

Lemma factors_stay_in_every_run_witness :
  enrolled "admin" (users (server access_world)) = true /\
  enrolled "admin" (users (server (run_system (Mmdb := DemoDb.demo_db) (J := demo_bodies) access_world two_logins).1)) = true.
Proof.
  assert (enrolled "admin" (users (server access_world)) = true) as H by (vm_compute; reflexivity).
  split; [exact H|].
  refine (factors_stay_in_every_run (Mmdb := DemoDb.demo_db) (J := demo_bodies) access_world two_logins "admin" _ H).
  repeat constructor.
Defined.

(** ** Two removals at once *)

#[local] Existing Instances DemoDb.demo_db orders.

Definition passkey (id : string) : WebAuthnCredential := mkCredential (lit id) (lit id) [] 0 demo_now.

(** An account with two passkeys and no TOTP, logged in, under [require_2fa]. *)
Definition two_passkeys : AdminState := {|
  config_store := config_store demo_admin;
  users := (run_all [CCreateIfEmpty (Some demo_salt) 5 (Ok tt) "dora" "staple correct";
                     CAddCredential (Ok tt) "dora" (passkey "phone"); CAddCredential (Ok tt) "dora" (passkey "key")] users_init).1;
  sessions := {[lit "09" := Sessions.mkSession "dora" false (demo_now + 12 * ns_per_hour)]};
  pending_mfa := ∅; pending_totp := ∅; webauthn_challenges := Challenges.challenges_init; login_history := ring_init 5;
  ip_blocks := IpBlocks.blocks_init ns_per_min; request_log := RequestLog.log_init 10 [] []; globe_events := ring_init 5 |}.

Definition passkey_world : World :=
  mkWorld two_passkeys (ScoreTracker.score_init 10) RateTracker.rate_init (GeoIpService []) (AsnService []) None.
Definition removes (id : string) : client :=
  operator (operator_exchange "DELETE" ("/api/auth/2fa/webauthn/" ++ id)%string "").

(** One after the other, the second is refused; in turns, both tests see two
    passkeys, and both passkeys go. *)
Definition removed_in_sequence : list event :=
  [Arrives (removes "phone"); Arrives (removes "key")] ++ replicate 6 (Goes 0) ++ replicate 6 (Goes 1).
Definition removed_in_turns : list event :=
  [Arrives (removes "phone"); Arrives (removes "key")] ++ concat (replicate 6 [Goes 0; Goes 1]).

Definition statuses (w : World * list (prog World Result)) : list (list Z) :=
  map (fun p => match p with
                | Ret (Administered log) => omap (fun served => match served with Answered r _ => Some (status r) | _ => None end) log
                | _ => [] end) w.2.

Example overlapping_removals_leave_no_factor :
  require_2fa (security (System.config passkey_world)) = true /\
  enrolled "dora" (users (server passkey_world)) = true /\
  (statuses (run_system passkey_world removed_in_sequence) = [[200]; [400]] /\
   enrolled "dora" (users (server (run_system passkey_world removed_in_sequence).1)) = true) /\
  (statuses (run_system passkey_world removed_in_turns) = [[200]; [200]] /\
   enrolled "dora" (users (server (run_system passkey_world removed_in_turns).1)) = false).
Proof. vm_compute. split_and!; reflexivity. Qed.

(** ** One signature counter twice *)

(** An assertion of a passkey whose counter is 9, where 8 is stored. *)
Definition assertion : json :=
  let text (data : list Z) := JStr (base64url_encode data) in
  JObj [(lit "credential", JObj [(lit "id", JStr (lit "phone"));
    (lit "response", JObj [(lit "clientDataJSON", text (bytes_of demo_json_text));
       (lit "authenticatorData", text demo_auth_data); (lit "signature", text demo_signature)])])].
Definition assertions : JsonText := {|
  json_parse text :=
    if text == lit "assertion" then Some assertion
    else if text == demo_json_text then Some (JObj [(lit "type", JStr (lit "webauthn.get"));
      (lit "origin", JStr (lit "http://admin.example")); (lit "challenge", JStr (base64url_encode [1; 2; 3; 4]))])
    else None |}.

Definition login_pending (token : string) : Challenges.ChallengeStore -> Challenges.ChallengeStore :=
  Challenges.start demo_now kChallengeTtlMinutes (login_key (lit token)) [1; 2; 3; 4].

Definition counted : AdminState := {|
  config_store := config_store demo_admin;
  users := (run_all [CCreateIfEmpty (Some demo_salt) 5 (Ok tt) "dora" "staple correct";
                     CAddCredential (Ok tt) "dora" (mkCredential "phone" "phone" demo_cose_bytes 8 demo_now)] users_init).1;
  sessions := ∅; pending_mfa := ∅; pending_totp := ∅;
  webauthn_challenges := login_pending "a" (login_pending "b" Challenges.challenges_init); login_history := ring_init 5;
  ip_blocks := IpBlocks.blocks_init ns_per_min; request_log := RequestLog.log_init 10 [] []; globe_events := ring_init 5 |}.
Definition counted_world : World :=
  mkWorld counted (ScoreTracker.score_init 10) RateTracker.rate_init (GeoIpService []) (AsnService []) None.

Definition asserts (token : list Z) (cookie : string) : client :=
  Operator None [(demo_env token, {|
    x_header := mkHeader 11 "POST" "/api/auth/webauthn/login/verify" (fun name =>
      if name == lit "Cookie" then Some (lit cookie) else if name == lit "Host" then Some (lit "admin.example") else None);
    x_read _ := Some (lit "assertion", true) |})].
Definition two_assertions : list event :=
  [Arrives (asserts [8] "atomwall_webauthn_login=a"); Arrives (asserts [9] "atomwall_webauthn_login=b")].
Definition asserted_in_sequence : list event := two_assertions ++ replicate 12 (Goes 0) ++ replicate 12 (Goes 1).
Definition asserted_in_turns : list event := two_assertions ++ concat (replicate 12 [Goes 0; Goes 1]).

(** In sequence the second is refused, as the counter has not increased; in
    turns both are compared with the counter that was stored before. *)
Example overlapping_assertions_share_a_counter :
  let run := run_system (J := assertions) counted_world in
  statuses (run asserted_in_sequence) = [[200]; [401]] /\ statuses (run asserted_in_turns) = [[200]; [200]].
Proof. vm_compute. split; reflexivity. Qed.
