(* ===== verification/SystemComponents.v ===== *)
(** * SystemComponents: the whole is made of calls to its parts

    Each component was verified over sequences of calls. In every run of the
    whole system what a component goes through is such a sequence: the
    accounts are changed by calls of the user store, the bans by calls of the
    tracker; so that what was proved of each component holds inside the
    system, whatever the interleaving. *)
From S2P Require Import Prelude Text Net Config Checks Json Totp Passwords Users EventLogs Cbor Webauthn Sites.
From S2P Require Import Session GeoIp Interleave Concurrent BlacklistOps AdminBase JsonView AdminAuth AdminLogin AdminConfig.
From S2P Require Import AdminSteps AdminValid System SystemDemo SystemSafety.
From S2P Require Admin Globe Files ConfigStore RequestLog IpBlocks ScoreTracker RateTracker.
Import Admin.

Section components.
Context `{Mmdb : MaxMindDb}.
Context `{Asio : AsioIp} `{Kdf : Pbkdf2} `{Hmac : HmacSha1} `{Sha : Sha256} `{Lib : LibCbor} `{E : Evp} `{J : JsonText}.
Context `{Fs : Files.StaticFiles.FileSystem}.

(** ** Accounts *)

Definition called_users (a a' : AdminState) : Prop := exists cs, users a' = (run_all cs (users a)).1.

Lemma run_all_app cs cs' s : (run_all (cs ++ cs') s).1 = (run_all cs' (run_all cs s).1).1.
Proof. revert s. induction cs as [|c cs IH]; intros s; [done|]. cbn [app]. rewrite !run_all_cons. cbn [fst]. apply IH. Qed.

#[local] Instance called_users_preorder : PreOrder called_users.
Proof.
  split; [by intros a; exists []|]. intros a b c [cs Hb] [cs' Hc]. exists (cs ++ cs'). by rewrite run_all_app, Hc, Hb.
Qed.

Lemma called_same a a' : users a' = users a -> called_users a a'.
Proof. intros H. by exists []. Qed.
Hint Extern 3 (called_users _ _) => (apply called_same; reflexivity) : atomwall.

(** An operation of the store is a call, whatever it replies. *)
Lemma reply_state {A} (f : A -> reply) (m : M UserStore A) s : (reply_of f m s).1 = (m s).1.
Proof. unfold reply_of, mbind, M_bind. by destruct (m s) as [s' []]. Qed.

Lemma keeps_call {A} (m : M UserStore A) (c : call) : (forall s, (m s).1 = (Users.run c s).1) -> keeps called_users (on_users m).
Proof.
  intros Hc. apply frame_users. intros s. exists [c]. rewrite run_all_cons. cbn [users run_all fst]. apply Hc.
Qed.

Ltac call_leaf :=
  lazymatch goal with
  | |- keeps _ (on_users (Users.create ?salt ?now ?w ?n ?pw)) => apply (keeps_call _ (CCreate salt now w n pw))
  | |- keeps _ (on_users (create_if_empty ?salt ?now ?w ?n ?pw)) => apply (keeps_call _ (CCreateIfEmpty salt now w n pw))
  | |- keeps _ (on_users (Users.remove ?w ?n)) => apply (keeps_call _ (CRemove w n))
  | |- keeps _ (on_users (set_totp ?salts ?w ?n ?secret ?codes)) => apply (keeps_call _ (CSetTotp salts w n secret codes))
  | |- keeps _ (on_users (clear_totp ?w ?n)) => apply (keeps_call _ (CClearTotp w n))
  | |- keeps _ (on_users (regenerate_backup_codes ?r ?salts ?w ?n)) => apply (keeps_call _ (CRegenerate r salts w n))
  | |- keeps _ (on_users (consume_user_backup_code ?w ?n ?c)) => apply (keeps_call _ (CConsumeCode w n c))
  | |- keeps _ (on_users (consume_totp_step ?n ?step)) => apply (keeps_call _ (CConsumeStep n step))
  | |- keeps _ (on_users (webauthn_user_handle ?r ?w ?n)) => apply (keeps_call _ (CHandle r w n))
  | |- keeps _ (on_users (add_webauthn_credential ?w ?n ?c)) => apply (keeps_call _ (CAddCredential w n c))
  | |- keeps _ (on_users (remove_webauthn_credential ?w ?n ?id)) => apply (keeps_call _ (CRemoveCredential w n id))
  | |- keeps _ (on_users (update_webauthn_sign_count ?w ?n ?id ?k)) => apply (keeps_call _ (CSignCount w n id k))
  end; intros ?; cbn [Users.run]; symmetry; apply reply_state.

Lemma users_rows env request user ip s :
  Forall (fun row => row.1 = true -> called_users s (row.2 s).1)
    (import_routes env request user ++ routes env request user ip).
Proof.
  each_row.
  all: lazymatch goal with |- ?R ?s (?m ?s).1 => cut (keeps R m); [intros Hk; exact (Hk s)|] end.
  all: autounfold with handlers; repeat (keeps_step || config_step || call_leaf || frame_leaf); auto with atomwall.
Qed.

Lemma request_users env request user ip keep s : called_users s (handle_request env request user ip keep s).1.
Proof. apply handle_request_elim; [reflexivity|]. apply users_rows. Qed.

Lemma users_steps env request user ip :
  Forall (fun row => row.1 = true -> steps_by called_users row.2) (auth_steps env request user ip).
Proof.
  each_step_row.
  all: steps_to_keeps; autounfold with handlers; repeat (keeps_step || config_step || call_leaf || frame_leaf); auto with atomwall.
Qed.

(** ** Bans *)

Definition called_tracker (t t' : IpBlocks.IpBlockTracker) : Prop := exists cs, t' = foldl IpBlocks.run_call t cs.
Definition called_blocks (a a' : AdminState) : Prop := called_tracker (AdminBase.ip_blocks a) (AdminBase.ip_blocks a').

#[local] Instance called_tracker_preorder : PreOrder called_tracker.
Proof. split; [by intros a; exists []|]. intros a b c [cs ->] [cs' ->]. exists (cs ++ cs'). by rewrite foldl_app. Qed.
#[local] Instance called_blocks_preorder : PreOrder called_blocks.
Proof. split; [by intros a; exists []|]. intros a b c H1 H2. unfold called_blocks in *. by etransitivity. Qed.

Lemma blocks_same a a' : AdminBase.ip_blocks a' = AdminBase.ip_blocks a -> called_blocks a a'.
Proof. intros H. exists []. by rewrite H. Qed.
Hint Extern 3 (called_blocks _ _) => (apply blocks_same; reflexivity) : atomwall.

Lemma keeps_tracker_call {A} (f : IpBlocks.IpBlockTracker -> IpBlocks.IpBlockTracker * A) (c : Z * IpBlocks.block_call) :
  (forall t, (f t).1 = IpBlocks.run_call t c) -> keeps called_blocks (on_ip_blocks f).
Proof.
  intros Hf s. exists [c]. cbn [foldl]. specialize (Hf (AdminBase.ip_blocks s)). unfold on_ip_blocks.
  by destruct (f (AdminBase.ip_blocks s)).
Qed.

Ltac tracker_leaf :=
  lazymatch goal with
  | |- keeps _ (on_ip_blocks (IpBlocks.list_active ?t)) => apply (keeps_tracker_call _ (t, IpBlocks.CallList))
  | |- keeps _ (on_ip_blocks (IpBlocks.remove ?text)) => apply (keeps_tracker_call _ (0, IpBlocks.CallRemove text))
  | |- keeps _ (on_ip_blocks (fun t => (IpBlocks.add ?now ?b t, tt))) => apply (keeps_tracker_call _ (now, IpBlocks.CallAdd b))
  end; reflexivity.

Lemma blocks_rows env request user ip s :
  Forall (fun row => row.1 = true -> called_blocks s (row.2 s).1)
    (import_routes env request user ++ routes env request user ip).
Proof.
  each_row.
  all: lazymatch goal with |- ?R ?s (?m ?s).1 => cut (keeps R m); [intros Hk; exact (Hk s)|] end.
  all: autounfold with handlers; repeat (keeps_step || config_step || tracker_leaf || frame_leaf); auto with atomwall.
Qed.

Lemma request_blocks env request user ip keep s : called_blocks s (handle_request env request user ip keep s).1.
Proof. apply handle_request_elim; [reflexivity|]. apply blocks_rows. Qed.

Lemma blocks_steps env request user ip :
  Forall (fun row => row.1 = true -> steps_by called_blocks row.2) (auth_steps env request user ip).
Proof.
  each_step_row.
  all: steps_to_keeps; autounfold with handlers; repeat (keeps_step || config_step || tracker_leaf || frame_leaf); auto with atomwall.
Qed.

(** ** Every run *)

(** [quiet]: no poll of the configuration file publishes anything. *)
Section every_run.
Context (quiet : Prop).

Record composed (w w' : World) : Prop := {
  by_users : called_users (server w) (server w');
  by_tracker : called_blocks (server w) (server w');
  by_config : quiet -> config_ok (System.config w) -> config_ok (System.config w') }.

#[local] Instance composed_preorder : PreOrder composed.
Proof. split; [by split|]. intros a b c [] []. split; [by etransitivity|by etransitivity|auto]. Qed.

Lemma composed_steps env request user ip :
  Forall (fun row => row.1 = true ->
      steps_by (fun s s' => called_users s s' /\ called_blocks s s' /\ config_kept s s') row.2) (auth_steps env request user ip).
Proof.
  pose proof (users_steps env request user ip) as Hu. pose proof (blocks_steps env request user ip) as Hb.
  pose proof (valid_steps env request user ip) as Hv. rewrite Forall_forall in *. intros row Hin Hg.
  apply steps_by_and; [by apply Hu|apply steps_by_and; [by apply Hb|by apply Hv]].
Qed.

Definition no_edit (c : client) : Prop := c <> Background (ConfigChore ConfigStore.EPollPublish).

Lemma chore_composed c w : (quiet -> no_edit (Background c)) -> composed w (do_chore c w).1.
Proof.
  unfold no_edit. intros Hc. destruct c as [e|c|l]; cbn; [|by split; [by exists []|by exists []|]..].
  destruct (background e) eqn:Hb; [|reflexivity]. split; [by exists []|by exists []|]. intros Hq. specialize (Hc Hq).
  unfold System.config, config_of. cbn. destruct (ConfigStore.step e (config_store (server w))) as [st|] eqn:Hs; [|done].
  cbn. rewrite (store_step_current e _ st Hb ltac:(by intros ->) Hs). done.
Qed.

Lemma composed_safe w0 c : (quiet -> no_edit c) -> safe (composed w0) (fun _ => True) (program_of c).
Proof.
  intros Hc. destruct c as [remote label xs|remote xs|path_of contents xs|c].
  - apply visitor_safe. intros a conn _ _ _. eapply safe_mono; [|apply (safe_session _ conn xs (fun _ _ _ => True))]; [done|].
    intros x c w _ Hw _.
    apply (safe_hoist _ (fun s => called_tracker (AdminBase.ip_blocks (server w0)) (Session.ip_blocks s))).
    + intros w1 []. done.
    + intros w1 s [Hu _ Hk] Hs. by split.
    + apply (safe_handle (fun s => called_tracker (AdminBase.ip_blocks (server w0)) (Session.ip_blocks s))
               ltac:(intros s s' Hs; cbv beta; by rewrite Hs) conn c x _ (proxy_of w)); [apply Hw|done|].
      intros s rate result extra _ _ s' total Hs'. unfold with_blocks. cbn [Session.ip_blocks]. etransitivity; [exact Hs'|].
      by eexists [(at_add (clock x), IpBlocks.CallAdd _)].
  - apply operator_safe; [done| |].
    { intros env x request user ip keep w _ _ Hw. etransitivity; [exact Hw|].
      split; [apply request_users|apply request_blocks|intros _; apply request_config_kept]. }
    intros env x request user _ _. eapply rows_keep; [|apply composed_steps].
    intros s s' w (Hu & Hb & Hk) Hs. etransitivity; [exact Hs|]. by split.
  - apply safe_bind. by apply safe_globe.
  - apply safe_bind, safe_act. intros w Hw. split; [|by intros]. etransitivity; [exact Hw|]. by apply chore_composed.
Qed.

End every_run.

(** C7: In every interleaving of connections, operators, onlookers and background
    threads, the accounts are what a sequence of calls of the user store makes
    of them and the bans what a sequence of calls of the tracker does, so that
    no run of the system removes the last account or duplicates a name, and
    the ban gate answers as the list of all bans added and not removed. In the
    runs in which no poll of the configuration file publishes what it read,
    which may be anything that somebody wrote there, the configuration stays
    well formed. *)
Theorem system_composed w es :
  let w' := (run_system w es).1 in
  (exists cs, users (server w') = (run_all cs (users (server w))).1) /\
  (exists cs, AdminBase.ip_blocks (server w') = foldl IpBlocks.run_call (AdminBase.ip_blocks (server w)) cs) /\
  (accounts_ok (users_ (users (server w))) ->
     accounts_ok (users_ (users (server w'))) /\ (users_ (users (server w)) <> [] -> users_ (users (server w')) <> [])) /\
  (Forall no_edit (arrivals es) -> config_ok (System.config w) -> config_ok (System.config w')).
Proof.
  cbv zeta. destruct (run_system_safe (composed (Forall no_edit (arrivals es)) w) (fun _ _ => True) w es)
    as [[[cs Hu] Hb Hk] _]; [apply composed_preorder| |].
  { apply Forall_forall. intros c Hc. apply composed_safe. intros Hes. rewrite Forall_forall in Hes. by apply Hes. }
  split_and!; [by exists cs|exact Hb| |exact Hk]. rewrite Hu. apply run_all_accounts_ok.
Qed.
End components.

(** ** Witness *)

#[local] Existing Instances DemoDb.demo_db orders.

Definition mixed_run : list event :=
  [Arrives (caller "BadBot/1.0"); Arrives (operator (operator_exchange "PUT" "/api/emergency-off" "off"));
   Goes 0; Goes 0; Goes 1; Goes 0; Goes 1; Goes 0; Goes 0; Goes 0; Goes 0].

Lemma system_composed_witness :
  accounts_ok (users_ (users (server demo_world))) /\
  accounts_ok (users_ (users (server (run_system demo_world mixed_run).1))) /\
  config_ok (System.config (run_system demo_world mixed_run).1).
Proof.
  assert (accounts_ok (users_ (users (server demo_world)))) as Hok.
  { refine (conj _ _); vm_compute; repeat constructor; try discriminate; set_solver. }
  split; [exact Hok|].
  destruct (system_composed demo_world mixed_run) as (_ & _ & Ha & Hc). split; [exact (proj1 (Ha Hok))|]. apply Hc.
  - repeat constructor; discriminate.
  - destruct config_ok_default. split; try assumption.
    split_and!; [by split|by split|]. intros [[]| |]; (split; [apply NoDup_nil_2 || apply NoDup_singleton|]);
      (apply Forall_nil_2 || by apply Forall_singleton).
Defined.
