(* ===== verification/TestsPipeline.v ===== *)
(** * TestsPipeline: the unit tests of the pipeline, run on the model

    The cases of [test/net_utils_test.cpp], [checks_test.cpp],
    [robots_txt_test.cpp], [site_lookup_test.cpp], [site_ops_test.cpp] and
    [status_page_ops_test.cpp], each with the inputs and the expectations of
    the test of that name. Addresses that the tests spell as IPv6 text are
    given as bytes, since parsing addresses is Boost's. *)
From S2P Require Import Prelude Text Net Config Checks Robots Sites.
From S2P Require RateTracker.

#[local] Existing Instance text_asio.

Definition ip4 (a b c d : Z) : address := addr_v4 [a; b; c; d].
Definition ip6 (front back : list Z) : address := addr_v6 (front ++ replicate (16 - length front - length back) 0 ++ back) 0.
Definition entries (values : list string) : list BlacklistEntry := map (fun v => mkEntry (lit v) 0 [] []) values.

(** ** net_utils_test.cpp *)

Module NetUtils.

Example parse_cidr_rejects_input_without_a_slash : parse_cidr 0 "203.0.113.7" = None.
Proof. by vm_compute. Qed.

Example parse_cidr_rejects_an_invalid_address : parse_cidr 0 "not-an-ip/24" = None.
Proof. by vm_compute. Qed.

Example parse_cidr_rejects_a_prefix_length_beyond_the_address_width :
  parse_cidr 0 "203.0.113.0/33" = None /\ parse_cidr 0 (to_string (ip6 [] [1]) ++ lit "/129") = None.
Proof. by vm_compute. Qed.

Example parse_cidr_accepts_a_valid_ipv4_range :
  (fun r => (cidr_prefix_len r, cidr_text r)) <$> parse_cidr 0 "198.51.100.0/24" = Some (24, lit "198.51.100.0/24").
Proof. by vm_compute. Qed.

Example address_in_cidr_matches_ipv4_addresses_inside_the_range :
  let range := default (make_cidr (ip4 0 0 0 0) 32 [] 0) (parse_cidr 0 "198.51.100.0/24") in
  address_in_cidr (ip4 198 51 100 42) range = true /\ address_in_cidr (ip4 198 51 101 1) range = false.
Proof. by vm_compute. Qed.

Example address_in_cidr_respects_non_byte_aligned_prefix_lengths :
  let range := default (make_cidr (ip4 0 0 0 0) 32 [] 0) (parse_cidr 0 "203.0.113.0/26") in
  address_in_cidr (ip4 203 0 113 63) range = true /\ address_in_cidr (ip4 203 0 113 64) range = false.
Proof. by vm_compute. Qed.

Example address_in_cidr_matches_ipv6_addresses :
  let range := make_cidr (ip6 [0x20; 0x01; 0x0d; 0xb8] []) 32 "2001:db8::/32" 0 in
  address_in_cidr (ip6 [0x20; 0x01; 0x0d; 0xb8] [1]) range = true /\
  address_in_cidr (ip6 [0x20; 0x01; 0x0d; 0xb9] [1]) range = false.
Proof. by vm_compute. Qed.

Example address_in_cidr_never_matches_across_address_families :
  (address_in_cidr (ip6 [] [1]) <$> parse_cidr 0 "0.0.0.0/0") = Some false.
Proof. by vm_compute. Qed.

Example icontains_is_case_insensitive_and_substring_based :
  icontains "Mozilla/5.0 sqlMap/1.0" "SQLMAP" = true /\ icontains "Mozilla/5.0" "sqlmap" = false /\
  icontains "anything" "" = true.
Proof. by vm_compute. Qed.

Example istarts_with_is_case_insensitive_and_prefix_based :
  istarts_with "/Wp-Login-Backup/extra" "/wp-login-backup" = true /\ istarts_with "/wp-login" "/wp-login-backup" = false /\
  istarts_with "/other" "/wp-login-backup" = false /\ istarts_with "anything" "" = true.
Proof. by vm_compute. Qed.

Example iequals_is_case_insensitive_but_exact :
  iequals "Example.COM" "example.com" = true /\ iequals "example.com" "example.com.evil.com" = false /\
  iequals "evil-example.com" "example.com" = false /\ iequals "example.co" "example.com" = false.
Proof. by vm_compute. Qed.

Example to_lower_lowercases_ascii :
  to_lower "Example.COM" = lit "example.com" /\ to_lower "already-lower" = lit "already-lower".
Proof. by vm_compute. Qed.

Example normalize_client_address_unwraps_mapped_addresses :
  normalize_client_address (ip6 [] [0xff; 0xff; 203; 0; 113; 7]) = ip4 203 0 113 7 /\
  normalize_client_address (ip4 203 0 113 7) = ip4 203 0 113 7 /\
  normalize_client_address (ip6 [0x20; 0x01; 0x0d; 0xb8] [1]) = ip6 [0x20; 0x01; 0x0d; 0xb8] [1] /\
  normalize_client_address (ip6 [] [1]) = ip6 [] [1] /\
  is_v6 (normalize_client_address (ip6 [0; 0x64; 0xff; 0x9b] [203; 0; 113; 7])) = true.
Proof. by vm_compute. Qed.
End NetUtils.

(** ** checks_test.cpp *)

Module ChecksTest.

Definition header_with (name : string) (v : string) : request_header :=
  mkHeader 11 "GET" "/" (fun field => if (field == lit name) && (lit v != []) then Some (lit v) else None).
Definition no_headers : request_header := header_with "Sec-Fetch-Dest" "".
Definition bl : BlacklistConfig := default_blacklist.
Definition range_24 : CidrRange := default (make_cidr (ip4 0 0 0 0) 32 [] 0) (parse_cidr 0 "198.51.100.0/24").

Example check_ip_blacklist_cases :
  blocked (check_ip_blacklist bl (ip4 203 0 113 7)) = false /\
  blocked (check_ip_blacklist (set_ip_exact (entries ["203.0.113.7"]) bl) (ip4 203 0 113 7)) = true /\
  blocked (check_ip_blacklist (set_ip_exact (entries ["203.0.113.7"]) bl) (ip4 203 0 113 8)) = false /\
  blocked (check_ip_blacklist (set_ip_cidrs [range_24] bl) (ip4 198 51 100 5)) = true /\
  blocked (check_ip_blacklist (set_ip_cidrs [range_24] bl) (ip4 198 51 101 5)) = false.
Proof. by vm_compute. Qed.

Example check_user_agent_blacklist_cases :
  let config := set_user_agents (entries ["sqlmap"]) bl in
  blocked (check_user_agent_blacklist config (header_with "User-Agent" "SQLMap/1.6")) = true /\
  blocked (check_user_agent_blacklist config (header_with "User-Agent" "Mozilla/5.0")) = false /\
  blocked (check_user_agent_blacklist config (header_with "User-Agent" "")) = false.
Proof. by vm_compute. Qed.

Example check_referrer_blacklist_cases :
  let config := set_referrers (entries ["spam-site.example"]) bl in
  blocked (check_referrer_blacklist config (header_with "Referer" "https://SPAM-SITE.example/page")) = true /\
  blocked (check_referrer_blacklist config (header_with "Referer" "https://good-site.example/")) = false /\
  blocked (check_referrer_blacklist config (header_with "Referer" "")) = false.
Proof. by vm_compute. Qed.

Example check_body_blacklist_matches_a_configured_pattern :
  let config := set_body_patterns (entries ["<script>"]) bl in
  blocked (check_body_blacklist config "hello <SCRIPT>alert(1)</script> world") = true /\
  blocked (check_body_blacklist config "just plain text") = false.
Proof. by vm_compute. Qed.

Example check_country_blacklist_is_stubbed_to_always_allow :
  blocked (check_country_blacklist (set_countries (entries ["XX"]) bl) (ip4 203 0 113 7)) = false.
Proof. by vm_compute. Qed.

Example check_isp_blacklist_cases :
  let config := set_isps (entries ["evil isp"]) bl in
  blocked (check_isp_blacklist config "Evil ISP Networks LLC") = true /\
  blocked (check_isp_blacklist config "Good ISP Inc") = false /\ blocked (check_isp_blacklist config "") = false.
Proof. by vm_compute. Qed.

Example evaluate_header_checks_short_circuits_on_the_first_block :
  let config := set_ip_exact (entries ["203.0.113.7"]) (set_user_agents (entries ["sqlmap"]) bl) in
  check_name (evaluate_header_checks config (ip4 203 0 113 7) "/" (header_with "User-Agent" "sqlmap") "") = lit "ip_blacklist" /\
  blocked (evaluate_header_checks config (ip4 198 51 100 1) "/" (header_with "User-Agent" "Mozilla/5.0") "") = false.
Proof. by vm_compute. Qed.

Example evaluate_header_checks_blocks_on_an_isp_blacklist_match :
  check_name (evaluate_header_checks (set_isps (entries ["evil isp"]) bl) (ip4 198 51 100 1) "/"
    (header_with "User-Agent" "") "Evil ISP Networks LLC") = lit "isp_blacklist".
Proof. by vm_compute. Qed.

Example check_route_blacklist_matches_a_configured_path_pattern :
  let config := set_routes (entries ["/wp-admin"]) bl in
  blocked (check_route_blacklist config "/wp-admin/setup.php") = true /\
  blocked (check_route_blacklist config "/blog/index.html") = false.
Proof. by vm_compute. Qed.

Example is_route_whitelisted_cases :
  let config := mkWhitelist [] [] (entries ["/healthz"]) in
  is_route_whitelisted config "/healthz" = true /\ is_route_whitelisted config "/healthz/live" = true /\
  is_route_whitelisted config "/blog/index.html" = false /\ is_route_whitelisted default_whitelist "/anything" = false.
Proof. by vm_compute. Qed.

Example check_fake_routes_cases :
  let config := set_fake_routes (entries ["/wp-login-backup"]) bl in
  blocked (check_fake_routes config "/wp-login-backup") = true /\
  blocked (check_fake_routes config "/wp-login-backup/extra") = true /\
  blocked (check_fake_routes config "/wp-login") = false /\ blocked (check_fake_routes config "/") = false /\
  blocked (check_fake_routes config "/WP-LOGIN-BACKUP") = true /\
  blocked (check_fake_routes config "/Wp-Login-Backup/extra") = true.
Proof. by vm_compute. Qed.

Example evaluate_header_checks_blocks_and_names_a_fake_route_hit :
  check_name (evaluate_header_checks (set_fake_routes (entries ["/secret-trap"]) bl) (ip4 198 51 100 1) "/secret-trap"
    (header_with "User-Agent" "") "") = lit "fake_route".
Proof. by vm_compute. Qed.

Example evaluate_header_checks_matches_the_path_only :
  blocked (evaluate_header_checks (set_routes (entries ["/admin"]) bl) (ip4 198 51 100 1) "/search"
    (header_with "User-Agent" "") "") = false.
Proof. by vm_compute. Qed.

Example is_navigation_request_cases :
  map (fun dest => is_navigation_request (header_with "Sec-Fetch-Dest" dest) "/") ["document"; "script"; "image"; "style"]%string
    = [true; false; false; false] /\
  is_navigation_request (header_with "Sec-Fetch-Dest" "Document") "/anything.js" = true /\
  map (fun path => is_navigation_request no_headers (lit path))
    ["/"; "/articles/hello-world"; "/static/app.js"; "/static/app.JS"; "/img/logo.png"; "/fonts/regular.woff2"]%string
    = [true; true; false; false; false; false].
Proof. by vm_compute. Qed.

(** The verdicts on navigations and other requests, all at one moment. *)
Definition rated (config : SpeedCheckConfig) (requests : list (address * string * request_header)) : list bool :=
  snd (foldl (fun acc r =>
    let '(tracker, verdicts) := acc in let '(ip, path, header) := r in
    match check_request_rate config ip (lit path) header 1000 tracker with
    | (tracker', Ok result) => (tracker', verdicts ++ [blocked result])
    | (tracker', Throw _) => (tracker', verdicts)
    end) (RateTracker.rate_init, []) requests).
Definition home (ip : address) : address * string * request_header := (ip, "/"%string, no_headers).

Example check_request_rate_cases :
  rated (mkSpeed false 1 10) [home (ip4 203 0 113 7); home (ip4 203 0 113 7)] = [false; false] /\
  rated (mkSpeed true 3 10) (replicate 3 (home (ip4 203 0 113 7))) = [false; false; false] /\
  rated (mkSpeed true 2 10) (replicate 3 (home (ip4 203 0 113 7))) = [false; false; true] /\
  rated (mkSpeed true 1 10) [home (ip4 203 0 113 7); home (ip4 203 0 113 8)] = [false; false].
Proof. by vm_compute. Qed.

Example check_request_rate_never_counts_subresource_requests :
  let ip := ip4 203 0 113 7 in
  rated (mkSpeed true 2 10)
    (replicate 10 (ip, "/static/app.js"%string, no_headers) ++
     replicate 10 (ip, "/"%string, header_with "Sec-Fetch-Dest" "image") ++ replicate 3 (home ip))
  = replicate 20 false ++ [false; false; true].
Proof. by vm_compute. Qed.

Example check_body_size_cases :
  let limited := set_max_body_size_bytes 100 bl in
  blocked (check_body_size bl 1000000) = false /\ blocked (check_body_size limited 100) = false /\
  check_name (check_body_size limited 101) = lit "body_size_limit".
Proof. by vm_compute. Qed.

Example evaluate_body_checks_runs_size_before_pattern_matching :
  check_name (evaluate_body_checks (set_max_body_size_bytes 5 (set_body_patterns (entries ["evil"]) bl)) "evil-but-long-body")
  = lit "body_size_limit".
Proof. by vm_compute. Qed.

Example a_dual_stack_client_is_matched_once_normalized :
  let config := set_ip_exact (entries ["203.0.113.7"]) (set_ip_cidrs [range_24] bl) in
  let mapped_exact := ip6 [] [0xff; 0xff; 203; 0; 113; 7] in
  let mapped_cidr := ip6 [] [0xff; 0xff; 198; 51; 100; 9] in
  blocked (check_ip_blacklist config mapped_exact) = false /\ blocked (check_ip_blacklist config mapped_cidr) = false /\
  blocked (check_ip_blacklist config (normalize_client_address mapped_exact)) = true /\
  blocked (check_ip_blacklist config (normalize_client_address mapped_cidr)) = true.
Proof. by vm_compute. Qed.

Example check_method_allowlist_cases :
  blocked (check_method_allowlist (mkMethodCheck false [lit "GET"]) "TRACE") = false /\
  let config := mkMethodCheck true [lit "GET"; lit "POST"] in
  blocked (check_method_allowlist config "GET") = false /\ blocked (check_method_allowlist config "post") = false /\
  blocked (check_method_allowlist config "DELETE") = true.
Proof. by vm_compute. Qed.

Example check_method_allowlist_names_the_rule_only :
  let result := check_method_allowlist (mkMethodCheck true [lit "GET"; lit "HEAD"]) "X-SUPER-SECRET-VERB" in
  check_name result = lit "method_not_allowed" /\ reason result = lit "method not in allowlist [GET, HEAD]".
Proof. by vm_compute. Qed.
End ChecksTest.

(** ** robots_txt_test.cpp *)

Module RobotsTest.

Definition text (lines : list string) : str := concat (map (fun l => lit l ++ [nl]) lines).

Example build_robots_txt_body_without_routes :
  build_robots_txt_body (text ["User-agent: *"; "Allow: /"]) [] = text ["User-agent: *"; "Allow: /"] /\
  build_robots_txt_body [] [] = [].
Proof. by vm_compute. Qed.

Example build_robots_txt_body_creates_a_wildcard_group :
  build_robots_txt_body [] (entries ["/wp-login-backup"; "/secret-trap"]) =
  text ["User-agent: *"; "Disallow: /wp-login-backup"; "Disallow: /secret-trap"].
Proof. by vm_compute. Qed.

Example build_robots_txt_body_merges_into_an_existing_wildcard_group :
  build_robots_txt_body
    (text ["User-agent: *"; "Allow: /"; "Disallow: /imprint.html"; ""; "User-agent: ia_archiver"; "Disallow: /"])
    (entries ["/wp-login-backup"]) =
  text ["User-agent: *"; "Disallow: /wp-login-backup"; "Allow: /"; "Disallow: /imprint.html"; "";
        "User-agent: ia_archiver"; "Disallow: /"].
Proof. by vm_compute. Qed.

Example build_robots_txt_body_appends_a_new_wildcard_group :
  let body := build_robots_txt_body (text ["User-agent: ia_archiver"; "Disallow: /"]) (entries ["/trap"]) in
  icontains body (text ["User-agent: ia_archiver"; "Disallow: /"]) = true /\
  icontains body "User-agent: *" = true /\ icontains body "Disallow: /trap" = true.
Proof. by vm_compute. Qed.

Example build_robots_txt_body_matches_the_wildcard_line_loosely :
  build_robots_txt_body (text ["user-agent:    *"; "Allow: /"]) (entries ["/trap"]) =
  text ["user-agent:    *"; "Disallow: /trap"; "Allow: /"].
Proof. by vm_compute. Qed.
End RobotsTest.

(** ** site_lookup_test.cpp, site_ops_test.cpp *)

Module SitesTest.

Definition site (name : string) (port : Z) : SiteConfig :=
  mkSite (lit name) true "certs/example.com.crt" "certs/example.com.key" (mkUpstream "127.0.0.1" port).
Definition with_sites (l : list SiteConfig) : RuntimeConfig := set_sites l default_config.
Definition one_site : RuntimeConfig := with_sites [site "example.com" 9001].

(** Matched, enabled, the port of the upstream. *)
Definition resolved (c : RuntimeConfig) (host : string) : bool * bool * Z :=
  let r := resolve_site c (lit host) in (rs_matched r, rs_enabled r, upstream_port (rs_upstream r)).

Example resolve_site_cases :
  let fallback := upstream_port (upstream default_config) in
  resolved one_site "Example.COM" = (true, true, 9001) /\ resolved one_site "example.com:443" = (true, true, 9001) /\
  resolved one_site "example.com.evil.com" = (false, true, fallback) /\
  resolved one_site "evil-example.com" = (false, true, fallback) /\
  resolved one_site "other.example" = (false, true, fallback) /\
  resolved default_config "anything.example" = (false, true, fallback) /\
  resolved (with_sites [set_site_enabled false (site "example.com" 9001)]) "example.com" = (true, false, 9001).
Proof. by vm_compute. Qed.

Definition domains (o : outcome RuntimeConfig) : option (list (list ascii)) :=
  match o with Ok c => Some (map domain (sites c)) | Throw _ => None end.

Example add_site_cases :
  domains (add_site default_config (site "Example.COM" 9001)) = Some [lit "example.com"] /\
  domains (add_site default_config (site "" 9001)) = None /\
  domains (add_site default_config (site "https://example.com/" 9001)) = None /\
  domains (add_site one_site (site "EXAMPLE.com" 9001)) = None.
Proof. by vm_compute. Qed.

Example update_site_applies_only_the_provided_fields :
  match update_site one_site "example.com" (mkSiteUpdate (Some false) None None None None) with
  | Ok c => map (fun s => (site_enabled s, upstream_port (site_upstream s))) (sites c) = [(false, 9001)]
  | Throw _ => False
  end /\
  domains (update_site default_config "missing.example" (mkSiteUpdate None None None None None)) = None.
Proof. by vm_compute. Qed.

Example remove_site_cases :
  domains (remove_site one_site "EXAMPLE.COM") = Some [] /\ domains (remove_site default_config "missing.example") = None.
Proof. by vm_compute. Qed.
End SitesTest.

(** ** status_page_ops_test.cpp *)

Module StatusPagesTest.

Definition pages_of (o : outcome RuntimeConfig) : option (list (Z * str)) :=
  match o with Ok c => Some (map (fun p => (code p, html p)) (status_pages (pages c))) | Throw _ => None end.

Example status_page_cases :
  pages_of (add_status_page 0 default_config 404 "<h1>not found</h1>") = Some [(404, lit "<h1>not found</h1>")] /\
  pages_of (add_status_page 0 default_config 42 "x") = None /\ pages_of (add_status_page 0 default_config 600 "x") = None /\
  pages_of (c ← add_status_page 0 default_config 404 "first"; add_status_page 0 c 404 "second") = None /\
  pages_of (c ← add_status_page 0 default_config 503 "old"; update_status_page c 503 "new") = Some [(503, lit "new")] /\
  pages_of (update_status_page default_config 404 "x") = None /\
  pages_of (c ← add_status_page 0 default_config 404 "x"; remove_status_page c 404) = Some [] /\
  pages_of (remove_status_page default_config 404) = None.
Proof. by vm_compute. Qed.
End StatusPagesTest.
