(* ===== verification/TestsState.v ===== *)
(** * TestsState: the unit tests of the stores and trackers, run on the model

    The cases of [test/score_tracker_test.cpp], [request_rate_tracker_test.cpp],
    [ip_block_tracker_test.cpp], [award_score_test.cpp], [numeric_test.cpp],
    [http_util_test.cpp], [blacklist_ops_test.cpp], [user_store_test.cpp],
    [session_stores_test.cpp], [challenge_store_test.cpp],
    [globe_event_log_test.cpp] and [backup_codes_test.cpp]. Where a test
    sleeps, the clock is moved; where it starts threads, the calls come in one
    order, the stores being locked for a call. *)
From S2P Require Import Prelude Text Net Config.
From S2P Require Checks ScoreTracker RateTracker IpBlocks Numeric AdminBase Json BlacklistOps EventLogs Passwords Users Tokens Session RequestLog.
From Stdlib Require Import SpecFloat.

#[local] Existing Instances text_asio Passwords.toy_kdf.

(** ** score_tracker_test.cpp *)

Module ScoreTest.
Import ScoreTracker.

(** The totals that a run of [add_points] and [reset] returns, and the tracker. *)
Fixpoint run (ops : list score_op) (tr : ScoreTracker) : ScoreTracker * list Z :=
  match ops with
  | [] => (tr, [])
  | Add ip points :: rest =>
      match add_points ip points tr with
      | (tr', Ok total) => let '(t, totals) := run rest tr' in (t, total :: totals)
      | (tr', Throw _) => run rest tr'
      end
  | Reset ip :: rest => run rest (reset ip tr)
  end.
Definition fresh : ScoreTracker := score_init 100.
Definition seven : str := "203.0.113.7".
Definition host (i : Z) : str := lit "198.51.100." ++ to_dec i.

Example score_tracker_accumulates :
  current fresh seven = 0 /\
  let '(t, totals) := run [Add seven 50; Add seven 30] fresh in totals = [50; 80] /\ current t seven = 80.
Proof. by vm_compute. Qed.

Example score_tracker_tracks_ips_independently_and_resets :
  let t := (run [Add seven 50; Add "203.0.113.8" 10] fresh).1 in
  (current t seven, current t "203.0.113.8") = (50, 10) /\ current (run [Add seven 100; Reset seven] fresh).1 seven = 0.
Proof. by vm_compute. Qed.

Example score_tracker_saturates :
  (run [Add seven (INT_MAX - 1); Add seven 5; Add seven INT_MAX] fresh).2 = [INT_MAX - 1; INT_MAX; INT_MAX] /\
  (run [Add seven (INT_MIN + 1); Add seven (-5)] fresh).2 = [INT_MIN + 1; INT_MIN].
Proof. by vm_compute. Qed.

Example score_tracker_stays_bounded :
  let t := (run [Add (host 1) 10; Add (host 2) 20; Add (host 3) 30; Add (host 4) 40] (score_init 3)).1 in
  tracked_ips t = 3%nat /\ map (fun i => current t (host i)) [1; 2; 4] = [0; 20; 40].
Proof. by vm_compute. Qed.

Example score_tracker_keeps_accumulating :
  let t := (run [Add (host 1) 10; Add (host 2) 20; Add (host 1) 5] (score_init 3)).1 in
  current t (host 1) = 15 /\ tracked_ips t = 2%nat.
Proof. by vm_compute. Qed.

Example score_tracker_eviction_spares_a_readded_ip :
  let t := (run [Add (host 1) 10; Reset (host 1); Add (host 1) 7; Add (host 2) 1; Add (host 3) 1] (score_init 3)).1 in
  current t (host 1) = 7 /\ tracked_ips t = 3%nat.
Proof. by vm_compute. Qed.

Example score_tracker_with_a_tiny_cap :
  let '(t, totals) := run [Add (host 1) 10; Add (host 2) 20] (score_init 0) in
  totals = [10; 20] /\ tracked_ips t = 1%nat /\ current t (host 1) = 0.
Proof. by vm_compute. Qed.
End ScoreTest.

(** ** request_rate_tracker_test.cpp *)

Module RateTest.
Import RateTracker.

(** The counts returned for calls at seconds after [t0], window ten seconds. *)
Fixpoint counts (calls : list (str * Z)) (tr : RequestRateTracker) : RequestRateTracker * list nat :=
  match calls with
  | [] => (tr, [])
  | (ip, at_s) :: rest =>
      match record ip ((1000 + at_s) * ns_per_s) 10 tr with
      | (tr', Ok n) => let '(t, ns) := counts rest tr' in (t, n :: ns)
      | (tr', Throw _) => counts rest tr'
      end
  end.
Definition counted (calls : list (string * Z)) : list nat := (counts (map (fun c => (lit c.1, c.2)) calls) rate_init).2.

Example rate_tracker_counts_within_the_window :
  counted [("a", 0); ("a", 1); ("a", 2)]%string = [1; 2; 3]%nat /\ counted [("a", 0); ("a", 1); ("a", 12)]%string = [1; 2; 1]%nat /\
  counted [("a", 0); ("a", 0); ("b", 0)]%string = [1; 2; 1]%nat.
Proof. by vm_compute. Qed.

Example rate_tracker_forgets_elapsed_ips :
  let many := map (fun i => (lit "198.51.100." ++ to_dec (Z.of_nat i), 0)) (seq 0 1000) in
  let full := (counts many rate_init).1 in
  let '(swept, ns) := counts [(lit "203.0.113.7", 11)] full in
  (tracked_ips full, ns, tracked_ips swept) = (1000%nat, [1%nat], 1%nat).
Proof. by vm_compute. Qed.

Example rate_tracker_sweep_keeps_ips_inside_the_window :
  let t := (counts [(lit "7", 0); (lit "8", 5); (lit "9", 11)] rate_init).1 in
  tracked_ips t = 2%nat /\ (counts [(lit "8", 12)] t).2 = [2%nat].
Proof. by vm_compute. Qed.
End RateTest.

(** ** ip_block_tracker_test.cpp, award_score_test.cpp *)

Module BlocksTest.
Import IpBlocks.

Definition ms : Z := 1000000.
Definition hour : Z := ns_per_hour.
Definition t0 : Z := 1700000000 * ns_per_s.
Definition seven : address := addr_v4 [203; 0; 113; 7].
Definition last_byte (i : Z) : address := addr_v4 [203; 0; 113; i].
Definition exact_block (i : Z) (source : string) (ttl : Z) : TemporaryIpBlock :=
  mkBlock (to_string (last_byte i)) false (last_byte i) 32 (lit source) 0 t0 (t0 + ttl).
Definition range_block : TemporaryIpBlock :=
  mkBlock "198.51.100.0/24" true (addr_v4 [198; 51; 100; 0]) 24 "manual" 0 t0 (t0 + hour).
Definition fresh : IpBlockTracker := blocks_init ns_per_min.
Definition later (milliseconds : Z) : Z := t0 + milliseconds * ms.
Definition active (now : Z) (tr : IpBlockTracker) : list (list ascii) := map b_text (list_active now tr).2.

Example tracker_blocks_an_exact_ip :
  let t := add t0 (exact_block 7 "manual" hour) fresh in
  is_blocked t0 seven t = true /\ is_blocked t0 (last_byte 8) t = false.
Proof. by vm_compute. Qed.

Example tracker_blocks_addresses_inside_a_range :
  let t := add t0 range_block fresh in
  is_blocked t0 (addr_v4 [198; 51; 100; 42]) t = true /\ is_blocked t0 (addr_v4 [198; 51; 101; 1]) t = false.
Proof. by vm_compute. Qed.

Example tracker_expires_and_prunes :
  let t := add t0 (exact_block 8 "manual" hour) (add t0 (exact_block 7 "manual" (10 * ms)) fresh) in
  is_blocked (later 30) seven t = false /\ active (later 30) t = [lit "203.0.113.8"].
Proof. by vm_compute. Qed.

Example tracker_removes_by_text :
  let '(t, first) := remove "203.0.113.7" (add t0 (exact_block 7 "manual" hour) fresh) in
  first = true /\ is_blocked t0 seven t = false /\ (remove "203.0.113.7" t).2 = false.
Proof. by vm_compute. Qed.

Example tracker_replaces_an_entry_with_the_same_text :
  let t := add t0 (exact_block 7 "score" (2 * hour)) (add t0 (exact_block 7 "manual" hour) fresh) in
  map b_source (list_active t0 t).2 = [lit "score"].
Proof. by vm_compute. Qed.

Example tracker_drops_expired_entries_on_add :
  let t := foldl (fun t i => add t0 (exact_block i "score" ms) t) (blocks_init 0) [0; 1; 2; 3; 4] in
  let t' := add (later 20) (exact_block 100 "score" hour) t in
  tracker_size t' = 1%nat /\ is_blocked (later 20) (last_byte 100) t' = true.
Proof. by vm_compute. Qed.

Example tracker_prunes_at_most_once_per_interval :
  let t := add (later 20) (exact_block 2 "score" hour) (add t0 (exact_block 1 "score" ms) (blocks_init hour)) in
  tracker_size t = 2%nat /\ is_blocked (later 20) (last_byte 1) t = false /\ length (active (later 20) t) = 1%nat.
Proof. by vm_compute. Qed.

Example tracker_lists_newest_first :
  let at_ b s := mkBlock (b_text b) (b_is_cidr b) (b_address b) (b_prefix_len b) (b_source b) 0 (t0 - s * ns_per_s) (t0 + hour) in
  let t := add t0 (at_ (exact_block 2 "manual" hour) 0)
             (add t0 (at_ range_block 10) (add t0 (at_ (exact_block 1 "manual" hour) 30) fresh)) in
  active t0 t = [lit "203.0.113.2"; lit "198.51.100.0/24"; lit "203.0.113.1"].
Proof. by vm_compute. Qed.

Example tracker_removes_ranges :
  let '(t, first) := remove "198.51.100.0/24" (add t0 range_block fresh) in
  first = true /\ is_blocked t0 (addr_v4 [198; 51; 100; 42]) t = false /\ (remove "198.51.100.0/24" t).2 = false.
Proof. by vm_compute. Qed.

(** One offense of ten points where ten are the threshold: how long the bans
    last that it installs. *)
Definition ban_after_one_offense (ban_duration_hours : Z) : list Z :=
  let config := set_ban (mkBan true 10 ban_duration_hours {[ lit "speed_check" := 10 ]}) default_config in
  let state := Session.mkApp (ScoreTracker.score_init 10) fresh RateTracker.rate_init (RequestLog.log_init 10 [] [])
                 (EventLogs.ring_init 5) in
  let s := (Session.award_score config seven "203.0.113.7" "speed_check" (Session.mkClock t0 t0 t0 t0 t0) state).1 in
  map (fun b => b_expires_at b - b_created_at b) (list_active t0 (Session.ip_blocks s)).2.

Example award_score_bans_for_the_configured_duration : ban_after_one_offense 24 = [24 * hour].
Proof. by vm_compute. Qed.

Example award_score_clamps_an_absurd_duration :
  map ban_after_one_offense [INT_MAX; 3000000; kMaxBanDurationHours + 1] = replicate 3 [kMaxBanDurationHours * hour].
Proof. by vm_compute. Qed.
End BlocksTest.

(** ** numeric_test.cpp, http_util_test.cpp *)

Module SmallTest.
Import Numeric AdminBase Json.

(** A double of [m] times a power of two. *)
Definition double (m e : Z) : spec_float := binary_normalize 53 1024 m e false.

Example saturating_to_int_cases :
  map (fun z => saturating_to_int (double_of_Z z)) [0; 42; -42; INT_MAX; INT_MAX - 1; INT_MIN; INT_MIN + 1]
    = [0; 42; -42; INT_MAX; INT_MAX - 1; INT_MIN; INT_MIN + 1] /\
  saturating_to_int (double 15 (-3)) = 1 /\ saturating_to_int (double (-15) (-3)) = -1.
Proof. by vm_compute. Qed.

Example saturating_to_int_saturates :
  map saturating_to_int [double_of_Z 2147483648; double 1 996; S754_infinity false] = replicate 3 INT_MAX /\
  map saturating_to_int [double_of_Z (-2147483649); double (-1) 996; S754_infinity true; S754_nan] = replicate 4 INT_MIN.
Proof. by vm_compute. Qed.

Definition field_of (r : Response) (name : string) : option (list ascii) :=
  (fun p => p.2.2) <$> list_find (fun f => f.1 = lit name) (fields r).

Example json_response_marks_bodies :
  let protections r := (field_of r "X-Content-Type-Options", field_of r "Cache-Control") in
  field_of (json_response 200 (JObj [(lit "a", JInt 1)])) "Content-Type" = Some (lit "application/json") /\
  protections (json_response 200 (JObj [(lit "a", JInt 1)])) = (Some (lit "nosniff"), Some (lit "no-store")) /\
  status (error_response 401 "unauthorized") = 401 /\
  protections (error_response 401 "unauthorized") = (Some (lit "nosniff"), Some (lit "no-store")).
Proof. by vm_compute. Qed.
End SmallTest.

(** ** blacklist_ops_test.cpp *)

Module ListsTest.
Import BlacklistOps.

Definition all_named : list BlacklistCategory := [Ips; Countries; Isps; UserAgents; Referrers; BodyPatterns; FakeRoutes].

(** Calls in turn; whether the last one threw, and what is left. *)
Definition added_all (category : BlacklistCategory) (values : list string) (c : RuntimeConfig) : RuntimeConfig :=
  foldl (fun c v => (add_blacklist_entry 5 category (lit v) [] "manual" c).1) c values.
Definition throws {A} (m : M RuntimeConfig A) (c : RuntimeConfig) : bool :=
  match (m c).2 with Ok _ => false | Throw (InvalidArgument _) => true | Throw _ => false end.
Definition values_of (l : list BlacklistEntry) : list (list ascii) := map value l.
Definition ips (c : RuntimeConfig) : list (list ascii) * list (list ascii) :=
  (values_of (ip_exact (blacklist c)), map cidr_text (ip_cidrs (blacklist c))).
Definition start : RuntimeConfig := default_config.

Example parse_blacklist_category_round_trips :
  map (fun c => parse_blacklist_category (blacklist_category_name c)) all_named = map Some all_named /\
  parse_blacklist_category "not_a_category" = None.
Proof. by vm_compute. Qed.

Example add_blacklist_entry_cases :
  ips (added_all Ips ["203.0.113.7"; "203.0.113.7"] start) = ([lit "203.0.113.7"], []) /\
  ips (added_all Ips ["198.51.100.0/24"] start) = ([], [lit "198.51.100.0/24"]) /\
  map created_at (user_agents (blacklist (added_all UserAgents ["sqlmap"] start))) = [5] /\
  values_of (fake_routes (blacklist (added_all FakeRoutes ["/wp-login-backup"] start))) = [lit "/wp-login-backup"].
Proof. by vm_compute. Qed.

Example add_blacklist_entry_throws :
  throws (add_blacklist_entry 5 Ips "not-an-ip" [] "manual") start = true /\
  throws (add_blacklist_entry 5 Ips "203.0.113.0/99" [] "manual") start = true /\
  throws (add_blacklist_entry 5 UserAgents [] [] "manual") start = true /\
  throws (add_blacklist_entry 5 FakeRoutes "wp-login-backup" [] "manual") start = true.
Proof. by vm_compute. Qed.

Example add_blacklist_entry_twice_keeps_the_first_time :
  map created_at (routes (blacklist (add_blacklist_entry 9 Routes "/wp-admin" [] "manual"
    (added_all Routes ["/wp-admin"] start)).1)) = [5].
Proof. by vm_compute. Qed.

Example remove_blacklist_entry_cases :
  let both := added_all Ips ["203.0.113.7"; "198.51.100.0/24"] start in
  let one := (remove_blacklist_entry Ips "203.0.113.7" both).1 in
  ips one = ([], [lit "198.51.100.0/24"]) /\ ips (remove_blacklist_entry Ips "198.51.100.0/24" one).1 = ([], []) /\
  user_agents (blacklist (remove_blacklist_entry UserAgents "never-added" start).1) = [] /\
  body_patterns (blacklist (remove_blacklist_entry BodyPatterns "<script>" (added_all BodyPatterns ["<script>"] start)).1) = [].
Proof. by vm_compute. Qed.

Example clear_blacklist_category_cases :
  ips (clear_blacklist_category Ips (added_all Ips ["203.0.113.7"; "198.51.100.0/24"] start)).1 = ([], []) /\
  let c := (clear_blacklist_category Routes (added_all Routes ["/wp-admin"] (added_all UserAgents ["sqlmap"] start))).1 in
  routes (blacklist c) = [] /\ length (user_agents (blacklist c)) = 1%nat.
Proof. by vm_compute. Qed.

Definition imported (category : BlacklistCategory) (text : str) : RuntimeConfig * outcome ImportResult :=
  import_blacklist_entries (fun _ => 5) category text [] start.

Example import_blacklist_entries_cases :
  (let '(c, r) := imported UserAgents (lit "sqlmap" ++ [nl] ++ lit "nikto" ++ [nl] ++ lit "curl" ++ [nl]) in
   r = Ok (mkImport 3 0) /\ values_of (user_agents (blacklist c)) = map lit ["sqlmap"; "nikto"; "curl"]%string) /\
  (let '(c, r) := imported Routes (lit "/wp-admin" ++ [cr; nl; nl] ++ lit "  # a comment" ++ [nl] ++ lit "  /phpmyadmin  " ++ [cr; nl]) in
   r = Ok (mkImport 2 0) /\ values_of (routes (blacklist c)) = map lit ["/wp-admin"; "/phpmyadmin"]%string) /\
  (let '(c, r) := imported Routes (lit "/a" ++ [nl] ++ lit "/b") in
   r = Ok (mkImport 2 0) /\ values_of (routes (blacklist c)) = map lit ["/a"; "/b"]%string) /\
  (let '(c, r) := imported Ips (lit "203.0.113.7" ++ [nl] ++ lit "not-an-ip" ++ [nl] ++ lit "198.51.100.0/24" ++ [nl]) in
   r = Ok (mkImport 2 1) /\ ips c = ([lit "203.0.113.7"], [lit "198.51.100.0/24"])).
Proof. by vm_compute. Qed.

Example whitelist_route_cases :
  let add v c := (add_whitelist_route_entry 5 (lit v) [] "manual" c).1 in
  let once := add "/healthz"%string start in
  values_of (wl_routes (whitelist once)) = [lit "/healthz"] /\ length (wl_routes (whitelist (add "/healthz"%string once))) = 1%nat /\
  throws (add_whitelist_route_entry 5 [] [] "manual") start = true /\
  wl_routes (whitelist (remove_whitelist_route_entry "/healthz" once)) = [] /\
  wl_routes (whitelist (clear_whitelist_routes (add "/status"%string once))) = [] /\
  (import_whitelist_route_entries (fun _ => 5) (lit "/healthz" ++ [nl] ++ lit "/status" ++ [nl]) [] start).2 = Ok (mkImport 2 0).
Proof. by vm_compute. Qed.
End ListsTest.

(** ** user_store_test.cpp *)

Module UserTest.
Import Users Passwords.

Definition made (name : string) (s : UserStore) : UserStore :=
  (create (Some demo_salt) 5 (Ok tt) (lit name) "correct horse battery staple" s).1.
Definition steps (calls : list (string * Z)) (s : UserStore) : list bool :=
  (foldl (fun acc c =>
     let '(s, replies) := acc in
     match consume_totp_step (lit c.1) c.2 s with
     | (s', Ok accepted) => (s', replies ++ [accepted])
     | (s', Throw _) => (s', replies)
     end) (s, []) calls).2.

Example consume_totp_step_rejects_replays :
  steps [("alice", 100); ("alice", 100); ("alice", 99); ("alice", 101)]%string (made "alice" users_init) = [true; false; false; true].
Proof. by vm_compute. Qed.

Example consume_totp_step_tracks_users_independently :
  steps [("alice", 50); ("bob", 50); ("alice", 50); ("bob", 50)]%string (made "bob" (made "alice" users_init)) = [true; true; false; false].
Proof. by vm_compute. Qed.

Definition first_user (name password : string) (s : UserStore) : UserStore * outcome bool :=
  create_if_empty (Some demo_salt) 5 (Ok tt) (lit name) (lit password) s.

Example create_if_empty_only_creates_the_first_user :
  let '(s, first) := first_user "alice" "correct horse battery staple" users_init in
  let '(s', second) := first_user "mallory" "another good password" s in
  (first, second) = (Ok true, Ok false) /\ map username (users_ s') = [lit "alice"].
Proof. by vm_compute. Qed.

Example create_if_empty_validates_credentials :
  let refused r := match r with Throw (InvalidArgument _) => true | _ => false end in
  refused (first_user "" "correct horse battery staple" users_init).2 = true /\
  refused (first_user "alice" "short" users_init).2 = true /\
  empty (first_user "alice" "short" users_init).1 = true.
Proof. by vm_compute. Qed.
End UserTest.

(** ** session_stores_test.cpp, challenge_store_test.cpp *)

Module StoresTest.
Import Tokens.

(** The tokens that the draws [1], [2], ... give. *)
Definition drawn (i : Z) : option (list Z) := Some (replicate 32 i).
Definition token (i : Z) : str := Codec.to_hex (replicate 32 i).
Definition ms : Z := 1000000.

Example session_store_create_sweeps_expired_sessions :
  let expired := foldl (fun st i => (Sessions.create (drawn i) (i * 2 * ms) 0 "alice" false st).1) ∅ [1; 2; 3; 4; 5] in
  let st := (Sessions.create (drawn 6) (20 * ms) 12 "bob" false expired).1 in
  Sessions.size expired = 1%nat /\ Sessions.size st = 1%nat /\
  Sessions.validate (20 * ms) (token 6) st = Some (Sessions.mkInfo "bob" false).
Proof. by vm_compute. Qed.

Example session_store_keeps_unexpired_sessions :
  let st := (Sessions.create (drawn 2) (2 * ms) 12 "bob" false (Sessions.create (drawn 1) 0 12 "alice" false ∅).1).1 in
  Sessions.size st = 2%nat /\ Sessions.validate (3 * ms) (token 1) st = Some (Sessions.mkInfo "alice" false).
Proof. by vm_compute. Qed.

Example pending_mfa_store_create_sweeps_expired_entries :
  let expired := foldl (fun st i => (Mfa.create (drawn i) (i * 2 * ms) 0 "alice" st).1) ∅ [1; 2; 3; 4; 5] in
  let st := (Mfa.create (drawn 6) (20 * ms) 5 "bob" expired).1 in
  Mfa.size expired = 1%nat /\ Mfa.size st = 1%nat /\ Mfa.validate (20 * ms) (token 6) st = Some (lit "bob").
Proof. by vm_compute. Qed.

Example challenge_store_hands_out_once :
  let '(st, first) := Challenges.consume ms "login:a" (Challenges.start 0 5 "login:a" [1; 2; 3] Challenges.challenges_init) in
  first = Some [1; 2; 3] /\ (Challenges.consume ms "login:a" st).2 = None /\ Challenges.size st = 0%nat /\
  (Challenges.consume ms "login:nope" Challenges.challenges_init).2 = None.
Proof. by vm_compute. Qed.

Example challenge_store_refuses_expired_challenges :
  let '(st, r) := Challenges.consume (5 * ms) "login:a" (Challenges.start 0 0 "login:a" [1; 2; 3] Challenges.challenges_init) in
  r = None /\ Challenges.size st = 0%nat.
Proof. by vm_compute. Qed.

Example challenge_store_start_reclaims_expired_entries :
  let expired := foldl (fun st i => Challenges.start (i * 2 * ms) 0 (lit "login:" ++ to_dec i) [1; 2; 3] st)
                   Challenges.challenges_init [0; 1; 2; 3; 4] in
  let st := Challenges.start (20 * ms) 5 "login:live" [1; 2; 3] expired in
  Challenges.size st = 1%nat /\ (Challenges.consume (20 * ms) "login:live" st).2 = Some [1; 2; 3].
Proof. by vm_compute. Qed.
End StoresTest.

(** ** globe_event_log_test.cpp *)

Module GlobeLogTest.
Import EventLogs.

Definition arc (lat : Z) (blocked : bool) : GlobeArcEvent := mkArc 0 0 (Numeric.double_of_Z lat) (S754_zero false) blocked.
Definition logged (capacity : nat) (lats : list Z) : Ring GlobeArcEvent :=
  foldl (fun r lat => record (arc lat false) r) (ring_init capacity) lats.
Definition lats (events : list GlobeArcEvent) : list spec_float := map arc_lat events.
Definition doubles (l : list Z) : list spec_float := map Numeric.double_of_Z l.

Example globe_log_assigns_increasing_numbers :
  map arc_seq (recent 10 (logged 10 [1; 2])) = [1; 2] /\ latest_seq (logged 10 [1; 2]) = 2.
Proof. by vm_compute. Qed.

Example globe_log_recent_and_eviction :
  lats (recent 2 (logged 10 [0; 1; 2; 3; 4])) = doubles [3; 4] /\ lats (recent 10 (logged 3 [0; 1; 2; 3; 4])) = doubles [2; 3; 4].
Proof. by vm_compute. Qed.

Example globe_log_events_since :
  let r := record (arc 4 true) (record (arc 3 true) (logged 10 [1; 2])) in
  let events := events_since 2 500 r in lats events = doubles [3; 4] /\ map arc_blocked events = [true; true].
Proof. by vm_compute. Qed.
End GlobeLogTest.

(** ** backup_codes_test.cpp *)

Module CodesTest.
Import Passwords.

Definition plaintext : list (list ascii) := match generate_backup_codes (fun i => Some (Z.of_nat i)) 3 with Ok l => l | Throw _ => [] end.
Definition hashed : list BackupCode := match hash_backup_codes (fun _ => Some demo_salt) plaintext with Ok l => l | Throw _ => [] end.
Definition code (i : nat) : str := nth i plaintext [].
Definition accepted (candidate : str) (codes : list BackupCode) : bool :=
  match (consume_backup_code candidate codes).2 with Ok b => b | Throw _ => false end.
Definition after (candidate : str) : list bool := map used (consume_backup_code candidate hashed).1.

Example generate_backup_codes_shape :
  match generate_backup_codes (fun i => Some (Z.of_nat i)) 10 with
  | Ok codes => length codes = 10%nat /\ map (fun c => (length c, nth 4 c zero)) codes = replicate 10 (9%nat, "-"%char)
  | Throw _ => False
  end.
Proof. by vm_compute. Qed.

Example consume_backup_code_accepts_once :
  accepted (code 1) hashed = true /\ after (code 1) = [false; true; false] /\
  accepted (code 1) (consume_backup_code (code 1) hashed).1 = false.
Proof. by vm_compute. Qed.

Example consume_backup_code_rejects_the_rest :
  let valid := code 0 in
  map (fun c => (accepted c hashed, after c))
    [lit "ZZZZ-ZZZZ"; []; take 8 valid; valid ++ lit "X"; replicate 1000 "A"%char;
     take 4 valid ++ lit "_" ++ drop 5 valid; lit "AAAA-AA0A"]
  = replicate 7 (false, [false; false; false]) /\ accepted valid hashed = true.
Proof. by vm_compute. Qed.
End CodesTest.
